(** * The transcript parser of the code-review bot: a shallow embedding

    The program under study is the stream filter that the agent script runs
    as [node dist/parser -]: it reads the line-delimited event stream of
    the coding agent, prints a coloured console rendering of every event
    and posts one Buildkite annotation per event through
    [buildkite-agent annotate].

    Conventions of the embedding.
    - A JavaScript string is the list of its UTF-16 code units ([jsstring]);
      [length] is therefore the JavaScript [.length].
    - Literals are written [lit "..."]; a literal holding double quotes is
      written with apostrophes and [qlit] (an apostrophe stands for a
      double quote).
    - [JSON.parse], [JSON.stringify], [String.prototype.trim] and the other
      built-ins the program calls are modelled after ECMAScript.  A JSON
      number is the IEEE double nearest to its literal, held as the digits
      [Number::toString] prints for it.  The depth limit of the engine's
      stack is not modelled.  [toUpperCase] is the case mapping of
      Unicode 16.0, the version of the ICU library in Node 24.
    - The interfaces [Message] and [ContentItem] of the source annotate the
      value of [JSON.parse], which nothing checks against them: a message
      is a [json] value here, a property read follows the value it is read
      from, and [undefined] is [None].
    - An exception is a [Throw] result; [try]/[catch] is a match on it.
    - What the process receives from outside (the lines, the clock, the
      outcome of the external command) is an explicit input; what it does
      to the outside is a list of effects. *)

From Stdlib Require Import Ascii String.
From Stdlib Require Import List NArith ZArith Bool Lia Sorted.
From Stdlib Require Decimal DecimalN.
Import ListNotations.

Local Open Scope list_scope.

(** ** Strings as code units *)

Module JS.

Definition codeunit := N.
Definition jsstring := list codeunit.

Definition lit (s : string) : jsstring :=
  map N_of_ascii (list_ascii_of_string s).

(** [qlit] reads an apostrophe as a double quote. *)
Definition qlit (s : string) : jsstring :=
  map (fun c => if N.eqb c 39 then 34%N else c) (lit s).

Fixpoint eqb (a b : jsstring) : bool :=
  match a, b with
  | [], [] => true
  | x :: a', y :: b' => N.eqb x y && eqb a' b'
  | _, _ => false
  end.

(** The code units [String.prototype.trim] strips: WhiteSpace and
    LineTerminator of ECMAScript. *)
Definition isWhiteSpace (c : codeunit) : bool :=
  ((9 <=? c) && (c <=? 13) || (c =? 32) || (c =? 0xA0) || (c =? 0x1680)
   || (0x2000 <=? c) && (c <=? 0x200A)
   || (c =? 0x2028) || (c =? 0x2029) || (c =? 0x202F) || (c =? 0x205F)
   || (c =? 0x3000) || (c =? 0xFEFF))%N.

Fixpoint trimStart (s : jsstring) : jsstring :=
  match s with
  | c :: r => if isWhiteSpace c then trimStart r else s
  | [] => []
  end.

Definition trimEnd (s : jsstring) : jsstring := rev (trimStart (rev s)).

Definition trim (s : jsstring) : jsstring := trimEnd (trimStart s).

Fixpoint startsWith (s p : jsstring) {struct p} : bool :=
  match p, s with
  | [], _ => true
  | x :: p', y :: s' => N.eqb x y && startsWith s' p'
  | _ :: _, [] => false
  end.

(** [s.includes(p)] *)
Fixpoint includes (s p : jsstring) : bool :=
  startsWith s p || match s with [] => false | _ :: r => includes r p end.

(** [s.split(sep)] for a one-unit separator: never empty, [split c [] = [[]]]. *)
Fixpoint split (sep : codeunit) (s : jsstring) : list jsstring :=
  match s with
  | [] => [[]]
  | c :: r =>
      if N.eqb c sep then [] :: split sep r
      else match split sep r with
           | l :: ls => (c :: l) :: ls
           | [] => [[c]]
           end
  end.

(** [parts.join(sep)] *)
Fixpoint join (sep : jsstring) (parts : list jsstring) : jsstring :=
  match parts with
  | [] => []
  | [p] => p
  | p :: ps => p ++ sep ++ join sep ps
  end.

(** [s.slice(0, n)] and [s.slice(n)] for [n >= 0]. *)
Definition sliceTo (n : nat) (s : jsstring) : jsstring := firstn n s.
Definition sliceFrom (n : nat) (s : jsstring) : jsstring := skipn n s.

Definition padStart (n : nat) (c : codeunit) (s : jsstring) : jsstring :=
  repeat c (n - length s) ++ s.

Definition padEnd (n : nat) (c : codeunit) (s : jsstring) : jsstring :=
  s ++ repeat c (n - length s).

(** Decimal digits of a natural number, as [Number::toString] prints an
    integer. *)
Fixpoint uintChars (u : Decimal.uint) : jsstring :=
  match u with
  | Decimal.Nil => []
  | Decimal.D0 u => 48%N :: uintChars u
  | Decimal.D1 u => 49%N :: uintChars u
  | Decimal.D2 u => 50%N :: uintChars u
  | Decimal.D3 u => 51%N :: uintChars u
  | Decimal.D4 u => 52%N :: uintChars u
  | Decimal.D5 u => 53%N :: uintChars u
  | Decimal.D6 u => 54%N :: uintChars u
  | Decimal.D7 u => 55%N :: uintChars u
  | Decimal.D8 u => 56%N :: uintChars u
  | Decimal.D9 u => 57%N :: uintChars u
  end.

Definition decN (n : N) : jsstring := uintChars (N.to_uint n).

(** [String(z)] for an integer-valued number. *)
Definition decZ (z : Z) : jsstring :=
  match z with
  | Zneg p => 45%N :: decN (Npos p)
  | _ => decN (Z.to_N z)
  end.

(** ** Numbers

    A finite number is [0.d1 d2 ... dk * 10^point] with [d1] and [dk] not
    zero: the digits and the exponent [n] of [Number::toString].  Zero has
    no digit and keeps its sign. *)

Inductive number :=
| Finite (neg : bool) (digits : list N) (point : Z)
| Infinity (neg : bool).

Definition digitChars (ds : list N) : jsstring := map (fun d => (48 + d)%N) ds.

Definition zeros (n : nat) : jsstring := repeat 48%N n.

Definition signChars (neg : bool) : jsstring := if neg then lit "-" else [].

(** Steps 6 to 10 of [Number::toString] for the digits [d :: r] and the
    exponent [n]. *)
Definition digitsToString (d : N) (r : list N) (n : Z) : jsstring :=
  let ds := d :: r in
  let k := Z.of_nat (length ds) in
  if ((k <=? n) && (n <=? 21))%Z then
    digitChars ds ++ zeros (Z.to_nat (n - k))
  else if ((0 <? n) && (n <=? 21))%Z then
    digitChars (firstn (Z.to_nat n) ds) ++ lit "."
      ++ digitChars (skipn (Z.to_nat n) ds)
  else if ((-6 <? n) && (n <=? 0))%Z then
    lit "0." ++ zeros (Z.to_nat (- n)) ++ digitChars ds
  else
    let e := (n - 1)%Z in
    let es := (if (e <? 0)%Z then lit "-" else lit "+") ++ decN (Z.abs_N e) in
    match r with
    | [] => digitChars [d] ++ lit "e" ++ es
    | _ => digitChars [d] ++ lit "." ++ digitChars r ++ lit "e" ++ es
    end.

(** [Number::toString(x)] in radix 10. *)
Definition numberToString (x : number) : jsstring :=
  match x with
  | Infinity neg => signChars neg ++ lit "Infinity"
  | Finite _ [] _ => lit "0"
  | Finite neg (d :: r) n => signChars neg ++ digitsToString d r n
  end.

Fixpoint digitsValue (acc : N) (ds : list N) : N :=
  match ds with
  | [] => acc
  | d :: r => digitsValue (10 * acc + d)%N r
  end.

Fixpoint stripZeros (ds : list N) : list N :=
  match ds with
  | d :: r => if (d =? 0)%N then stripZeros r else ds
  | [] => []
  end.

Definition uintDigits (u : Decimal.uint) : list N :=
  map (fun c => (c - 48)%N) (uintChars u).

(** ** Doubles

    A number is an IEEE double.  A decimal literal is read as the double
    nearest to its value, the one with the even significand of two at the
    same distance; [Number::toString] prints a double with the fewest
    digits that read back as the same double, and of several such digit
    strings the one nearest to the double.  A [number] holds these digits,
    so that two numbers are equal exactly when the doubles are. *)

(** The magnitude of a double: zero, [m * 2^e] with [0 < m < 2^53] and
    [-1074 <= e <= 971], or infinity. *)
Inductive binary :=
| BZero
| BFinite (m e : Z)
| BInfinite.

(** The integer nearest to [p / q], the even one of two at the same
    distance. *)
Definition roundHalfEven (p q : Z) : Z :=
  let f := (p / q)%Z in
  let r := (p mod q)%Z in
  if (2 * r <? q)%Z then f
  else if (q <? 2 * r)%Z then (f + 1)%Z
  else if Z.even f then f else (f + 1)%Z.

(** [(p / q) / 2^e] as a ratio. *)
Definition scale (p q e : Z) : Z * Z :=
  if (0 <=? e)%Z then (p, q * 2 ^ e)%Z else (p * 2 ^ (- e), q)%Z.

(** The double nearest to [p / q], for [p] and [q] positive.  The
    exponent is the one that puts the significand in [[2^52, 2^53)], and
    no less than [-1074]; a significand rounded up to [2^53] moves to the
    next exponent; beyond the exponent [971] the value is infinite. *)
Definition roundToDouble (p q : Z) : binary :=
  let e0 := (Z.log2 p - Z.log2 q - 53)%Z in
  let e1 := if (2 ^ 53 <=? fst (scale p q e0) / snd (scale p q e0))%Z
            then (e0 + 1)%Z else e0 in
  let e := Z.max e1 (-1074) in
  let m := roundHalfEven (fst (scale p q e)) (snd (scale p q e)) in
  if (m =? 0)%Z then BZero
  else if (m =? 2 ^ 53)%Z then
    if (971 <? e + 1)%Z then BInfinite else BFinite (2 ^ 52) (e + 1)
  else if (971 <? e)%Z then BInfinite else BFinite m e.

(** The double nearest to [0.ds * 10^point], for digits [ds] that neither
    start nor end with a zero.  Such a value is at least [10^(point - 1)]
    and below [10^point]: from [10^309] on it is infinite, below
    [10^-324] it is zero. *)
Definition decimalToDouble (ds : list N) (point : Z) : binary :=
  match ds with
  | [] => BZero
  | _ =>
      if (310 <=? point)%Z then BInfinite
      else if (point <=? -324)%Z then BZero
      else
        let m := Z.of_N (digitsValue 0 ds) in
        let x := (point - Z.of_nat (length ds))%Z in
        if (0 <=? x)%Z then roundToDouble (m * 10 ^ x) 1
        else roundToDouble m (10 ^ (- x))
  end.

(** The number of decimal digits of [z >= 1]. *)
Definition decimalLength (z : Z) : Z :=
  Z.of_nat (length (uintDigits (N.to_uint (Z.to_N z)))).

(** The [n] with [10^(n-1) <= a / b < 10^n]. *)
Definition decimalExponent (a b : Z) : Z :=
  if (b <=? a)%Z then decimalLength (a / b)
  else (1 - decimalLength ((b - 1) / a))%Z.

(** The digits and the point of [s * 10^(n - k)]. *)
Definition candidate (s n k : Z) : list N * Z :=
  let ds := uintDigits (N.to_uint (Z.to_N s)) in
  (rev (stripZeros (rev (stripZeros ds))), (Z.of_nat (length ds) + n - k)%Z).

Definition readsAs (m e : Z) (c : list N * Z) : bool :=
  match decimalToDouble (fst c) (snd c) with
  | BFinite m' e' => (m' =? m)%Z && (e' =? e)%Z
  | _ => false
  end.

(** Step 5 of [Number::toString] for [k] digits: the double is [a / b],
    between [10^(n-1)] and [10^n].  Of the multiples of [10^(n-k)] the two
    around the double are the nearest ones, so that one of them reads back
    as the double if any does; of two that do the nearer one is taken, the
    even one at the same distance. *)
Definition digitsOfLength (m e a b n k : Z) : option (list N * Z) :=
  let x := (n - k)%Z in
  let A := if (0 <=? x)%Z then a else (a * 10 ^ (- x))%Z in
  let B := if (0 <=? x)%Z then (b * 10 ^ x)%Z else b in
  let lo := candidate (A / B) n k in
  let hi := candidate (A / B + 1) n k in
  match readsAs m e lo, readsAs m e hi with
  | true, true =>
      Some (if (2 * (A mod B) <? B)%Z then lo
            else if (B <? 2 * (A mod B))%Z then hi
            else if Z.even (A / B) then lo else hi)
  | true, false => Some lo
  | false, true => Some hi
  | false, false => None
  end.

Fixpoint firstSome {A B} (f : A -> option B) (l : list A) : option B :=
  match l with
  | [] => None
  | a :: r => match f a with Some b => Some b | None => firstSome f r end
  end.

(** The digits and the exponent [n] that [Number::toString] prints for
    the double [m * 2^e]: the fewest digits come first, and 17 digits tell
    any two doubles apart. *)
Definition shortestDigits (m e : Z) : option (list N * Z) :=
  let a := fst (scale m 1 (- e)) in
  let b := snd (scale m 1 (- e)) in
  firstSome (digitsOfLength m e a b (decimalExponent a b))
            (map Z.of_nat (seq 1 17)).

(** The number of [0.ds * 10^point], signed, for digits [ds] that neither
    start nor end with a zero.  The last case does not arise: the search
    for the digits of a double ends within 17 digits (lemmas
    [shortestDigits_total] and [ofDecimal_shortest] below). *)
Definition ofDecimal (neg : bool) (ds : list N) (point : Z) : number :=
  match decimalToDouble ds point with
  | BZero => Finite neg [] 0
  | BInfinite => Infinity neg
  | BFinite m e =>
      match shortestDigits m e with
      | Some (ds', n) => Finite neg ds' n
      | None => Finite neg ds point
      end
  end.

(** The number a decimal literal denotes once read as a double:
    [0.ds * 10^point], signed. *)
Definition makeNumber (neg : bool) (ds : list N) (point : Z) : number :=
  let lead := stripZeros ds in
  let point' := (point - Z.of_nat (length ds - length lead))%Z in
  ofDecimal neg (rev (stripZeros (rev lead))) point'.

(** The number of a natural, as the [length] of an array or a string. *)
Definition numberOfN (n : N) : number :=
  let ds := uintDigits (N.to_uint n) in
  makeNumber false ds (Z.of_nat (length ds)).

Definition isZero (x : number) : bool :=
  match x with Finite _ [] _ => true | _ => false end.

Definition isPositive (x : number) : bool :=
  match x with
  | Finite neg ds _ => negb neg && negb (isZero x)
  | Infinity neg => negb neg
  end.

(** ** Values

    The value of [JSON.parse]: an object is the list of its own properties
    in property order; [None : option json] is [undefined]. *)

#[local] Set Warnings "-register-all".

Inductive json :=
| JNull
| JBool (b : bool)
| JNumber (x : number)
| JString (s : jsstring)
| JArray (l : list json)
| JObject (l : list (jsstring * json)).

Inductive exn := TypeError | SyntaxError.

Inductive result (A : Type) :=
| Ok (a : A)
| Throw (e : exn).
Arguments Ok {A} a.
Arguments Throw {A} e.

Definition bind {A B} (r : result A) (k : A -> result B) : result B :=
  match r with
  | Ok a => k a
  | Throw e => Throw e
  end.

Notation "'let*' x ':=' r 'in' k" := (bind r (fun x => k))
  (at level 10, x pattern, r at level 100, k at level 200).

(** [ToBoolean] *)
Definition truthy (v : option json) : bool :=
  match v with
  | None | Some JNull => false
  | Some (JBool b) => b
  | Some (JNumber x) => negb (isZero x)
  | Some (JString s) => negb (eqb s [])
  | Some (JArray _) | Some (JObject _) => true
  end.

Fixpoint lookup (k : jsstring) (l : list (jsstring * json)) : option json :=
  match l with
  | [] => None
  | (k', v) :: r => if eqb k k' then Some v else lookup k r
  end.

Fixpoint mapM {A B} (f : A -> result B) (l : list A) : result (list B) :=
  match l with
  | [] => Ok []
  | a :: r => let* b := f a in let* bs := mapM f r in Ok (b :: bs)
  end.

(** [ToString] of a value.  An array is its elements joined by commas
    ([null] printing as nothing).  A plain object is [[object Object]],
    unless it has an own [toString] property: that one is not callable and
    hides [Object.prototype.toString], so [ToPrimitive] throws. *)
Fixpoint toStringJ (v : json) : result jsstring :=
  match v with
  | JNull => Ok (lit "null")
  | JBool true => Ok (lit "true")
  | JBool false => Ok (lit "false")
  | JNumber x => Ok (numberToString x)
  | JString s => Ok s
  | JArray l =>
      let* parts :=
        (fix elems (l : list json) : result (list jsstring) :=
           match l with
           | [] => Ok []
           | e :: r =>
               let* p := match e with JNull => Ok [] | _ => toStringJ e end in
               let* ps := elems r in Ok (p :: ps)
           end) l in
      Ok (join (lit ",") parts)
  | JObject l =>
      match lookup (lit "toString") l with
      | Some _ => Throw TypeError
      | None => Ok (lit "[object Object]")
      end
  end.

Definition toStr (v : option json) : result jsstring :=
  match v with
  | None => Ok (lit "undefined")
  | Some j => toStringJ j
  end.

(** [v.name] for the property names the program reads ([type], [text],
    [content], [length] and the like): [undefined] and [null] throw, a
    string or an array has [length] only. *)
Definition getProp (v : option json) (name : jsstring) : result (option json) :=
  match v with
  | None | Some JNull => Throw TypeError
  | Some (JObject l) => Ok (lookup name l)
  | Some (JString s) =>
      if eqb name (lit "length") then Ok (Some (JNumber (numberOfN (N.of_nat (length s)))))
      else Ok None
  | Some (JArray l) =>
      if eqb name (lit "length") then Ok (Some (JNumber (numberOfN (N.of_nat (length l)))))
      else Ok None
  | Some (JBool _) | Some (JNumber _) => Ok None
  end.

(** [v === "..."] against a string literal. *)
Definition isString (v : option json) (s : jsstring) : bool :=
  match v with
  | Some (JString t) => eqb t s
  | _ => false
  end.

(** ** JSON.stringify *)

Definition ch (s : string) : codeunit :=
  match s with
  | String a _ => N_of_ascii a
  | EmptyString => 0%N
  end.

Definition isChar (c : codeunit) (s : string) : bool := N.eqb c (ch s).

Definition hexDigit (d : N) : codeunit :=
  if (d <? 10)%N then (48 + d)%N else (87 + d)%N.

(** [\uXXXX] with lower-case hexadecimal digits. *)
Definition unicodeEscape (c : codeunit) : jsstring :=
  lit "\u" ++ [hexDigit (c / 4096 mod 16); hexDigit (c / 256 mod 16);
               hexDigit (c / 16 mod 16); hexDigit (c mod 16)]%N.

Definition isHighSurrogate (c : codeunit) : bool := ((0xD800 <=? c) && (c <=? 0xDBFF))%N.
Definition isLowSurrogate (c : codeunit) : bool := ((0xDC00 <=? c) && (c <=? 0xDFFF))%N.

Definition escapeUnit (c : codeunit) : jsstring :=
  if (c =? 8)%N then lit "\b"
  else if (c =? 9)%N then lit "\t"
  else if (c =? 10)%N then lit "\n"
  else if (c =? 12)%N then lit "\f"
  else if (c =? 13)%N then lit "\r"
  else if (c =? 34)%N then [92; 34]%N
  else if (c =? 92)%N then [92; 92]%N
  else if (c <? 32)%N then unicodeEscape c
  else [c].

(** The inside of [QuoteJSONString]: a surrogate pair is copied, a lone
    surrogate is escaped. *)
Fixpoint quoteBody (s : jsstring) : jsstring :=
  match s with
  | [] => []
  | c :: r =>
      if isHighSurrogate c then
        match r with
        | d :: r' =>
            if isLowSurrogate d then c :: d :: quoteBody r'
            else unicodeEscape c ++ quoteBody r
        | [] => unicodeEscape c
        end
      else if isLowSurrogate c then unicodeEscape c ++ quoteBody r
      else escapeUnit c ++ quoteBody r
  end.

Definition quote (s : jsstring) : jsstring := [34%N] ++ quoteBody s ++ [34%N].

(** The end of [SerializeJSONObject] and [SerializeJSONArray]: the
    parts between the brackets, one per line under a gap. *)
Definition wrapParts (gap indent opening closing : jsstring) (parts : list jsstring)
  : jsstring :=
  let inner := indent ++ gap in
  match parts with
  | [] => opening ++ closing
  | _ =>
      if eqb gap [] then opening ++ join (lit ",") parts ++ closing
      else opening ++ [10%N] ++ inner ++ join (lit "," ++ [10%N] ++ inner) parts
             ++ [10%N] ++ indent ++ closing
  end.

(** [SerializeJSONProperty] with the gap [gap] at the indentation
    [indent]: [JSON.stringify(v)] is [stringify [] [] v] and
    [JSON.stringify(v, null, 2)] is [stringify (lit "  ") [] v]. *)
Fixpoint stringify (gap indent : jsstring) (v : json) : jsstring :=
  match v with
  | JNull => lit "null"
  | JBool true => lit "true"
  | JBool false => lit "false"
  | JNumber (Infinity _) => lit "null"
  | JNumber x => numberToString x
  | JString s => quote s
  | JArray l =>
      wrapParts gap indent (lit "[") (lit "]") (map (stringify gap (indent ++ gap)) l)
  | JObject l =>
      wrapParts gap indent (lit "{") (lit "}")
        (map (fun kv => quote (fst kv) ++ lit ":"
                          ++ (if eqb gap [] then [] else lit " ")
                          ++ stringify gap (indent ++ gap) (snd kv)) l)
  end.

Definition JSON_stringify (v : json) : jsstring := stringify [] [] v.
Definition JSON_stringify2 (v : json) : jsstring := stringify (lit "  ") [] v.

(** ** JSON.parse *)

Definition isDigit (c : codeunit) : bool := ((48 <=? c) && (c <=? 57))%N.

Fixpoint spanDigits (s : jsstring) : list N * jsstring :=
  match s with
  | c :: r =>
      if isDigit c then
        let (ds, rest) := spanDigits r in ((c - 48)%N :: ds, rest)
      else ([], s)
  | [] => ([], [])
  end.

(** After [e] or [E]: an optional sign and at least one digit. *)
Definition parseExpSign (s : jsstring) : bool * jsstring :=
  match s with
  | c :: r => if isChar c "-" then (true, r)
              else if isChar c "+" then (false, r) else (false, s)
  | [] => (false, s)
  end.

Definition parseExponent (s : jsstring) : option (Z * jsstring) :=
  let (neg, s1) := parseExpSign s in
  match spanDigits s1 with
  | ([], _) => None
  | (ds, rest) =>
      let x := Z.of_N (digitsValue 0 ds) in
      Some (if neg then (- x)%Z else x, rest)
  end.

Definition parseOptExponent (s : jsstring) : option (Z * jsstring) :=
  match s with
  | c :: r => if isChar c "e" || isChar c "E" then parseExponent r else Some (0%Z, s)
  | [] => Some (0%Z, s)
  end.

Definition parseSign (s : jsstring) : bool * jsstring :=
  match s with
  | c :: r => if isChar c "-" then (true, r) else (false, s)
  | [] => (false, s)
  end.

(** The integer part: [0], or digits that do not start with [0]. *)
Definition parseInt (s : jsstring) : option (list N * jsstring) :=
  match s with
  | c :: r => if isChar c "0" then Some ([0%N], r)
              else if isDigit c then Some (spanDigits s) else None
  | [] => None
  end.

(** The fraction, if there is one: a point and at least one digit. *)
Definition parseFrac (s : jsstring) : option (list N * jsstring) :=
  match s with
  | c :: r =>
      if isChar c "." then
        match spanDigits r with
        | ([], _) => None
        | (fds, s2) => Some (fds, s2)
        end
      else Some ([], s)
  | [] => Some ([], s)
  end.

(** A JSON number after its sign: an integer part without leading zero,
    an optional fraction and an optional exponent. *)
Definition parseMagnitude (neg : bool) (s0 : jsstring) : option (number * jsstring) :=
  match parseInt s0 with
  | None => None
  | Some (ids, s1) =>
      match parseFrac s1 with
      | None => None
      | Some (fds, s2) =>
          match parseOptExponent s2 with
          | None => None
          | Some (x, s3) =>
              Some (makeNumber neg (ids ++ fds) (Z.of_nat (length ids) + x), s3)
          end
      end
  end.

Definition parseNumber (s : jsstring) : option (number * jsstring) :=
  let (neg, s0) := parseSign s in parseMagnitude neg s0.

Definition hexValue (c : codeunit) : option N :=
  if isDigit c then Some (c - 48)%N
  else if ((97 <=? c) && (c <=? 102))%N then Some (c - 87)%N
  else if ((65 <=? c) && (c <=? 70))%N then Some (c - 55)%N
  else None.

Definition unescape (c : codeunit) : option codeunit :=
  if (c =? 34)%N then Some 34%N
  else if (c =? 92)%N then Some 92%N
  else if isChar c "/" then Some 47%N
  else if isChar c "b" then Some 8%N
  else if isChar c "f" then Some 12%N
  else if isChar c "n" then Some 10%N
  else if isChar c "r" then Some 13%N
  else if isChar c "t" then Some 9%N
  else None.

(** The characters of a JSON string after its opening quote, up to and
    including the closing quote. *)
Fixpoint parseStringBody (s : jsstring) : option (jsstring * jsstring) :=
  let cons (c : codeunit) (p : option (jsstring * jsstring)) :=
    match p with
    | Some (t, rest) => Some (c :: t, rest)
    | None => None
    end in
  match s with
  | [] => None
  | c :: r =>
      if (c =? 34)%N then Some ([], r)
      else if (c =? 92)%N then
        match r with
        | e :: r' =>
            if isChar e "u" then
              match r' with
              | h1 :: h2 :: h3 :: h4 :: r'' =>
                  match hexValue h1, hexValue h2, hexValue h3, hexValue h4 with
                  | Some a, Some b, Some c', Some d =>
                      cons (4096 * a + 256 * b + 16 * c' + d)%N (parseStringBody r'')
                  | _, _, _, _ => None
                  end
              | _ => None
              end
            else
              match unescape e with
              | Some u => cons u (parseStringBody r')
              | None => None
              end
        | [] => None
        end
      else if (c <? 32)%N then None
      else cons c (parseStringBody r)
  end.

Definition isJSONSpace (c : codeunit) : bool :=
  ((c =? 32) || (c =? 9) || (c =? 10) || (c =? 13))%N.

Fixpoint skipWs (s : jsstring) : jsstring :=
  match s with
  | c :: r => if isJSONSpace c then skipWs r else s
  | [] => []
  end.

(** Property order of an ordinary object: array indices in ascending
    order, then the other keys in the order they were created. *)
Definition arrayIndex (k : jsstring) : option N :=
  match k with
  | [] => None
  | c :: r =>
      if forallb isDigit k && (negb (isChar c "0") || eqb r []) then
        let v := digitsValue 0 (map (fun d => (d - 48)%N) k) in
        if (v <? 2 ^ 32 - 1)%N then Some v else None
      else None
  end.

Fixpoint hasKey (k : jsstring) (l : list (jsstring * json)) : bool :=
  match l with
  | [] => false
  | (k', _) :: r => eqb k k' || hasKey k r
  end.

Fixpoint replaceProp (k : jsstring) (v : json) (l : list (jsstring * json)) :=
  match l with
  | [] => []
  | (k', v') :: r => if eqb k k' then (k', v) :: r else (k', v') :: replaceProp k v r
  end.

Fixpoint insertIndex (i : N) (k : jsstring) (v : json) (l : list (jsstring * json)) :=
  match l with
  | [] => [(k, v)]
  | (k', v') :: r =>
      match arrayIndex k' with
      | Some j => if (j <? i)%N then (k', v') :: insertIndex i k v r else (k, v) :: l
      | None => (k, v) :: l
      end
  end.

(** [CreateDataProperty]: a repeated key keeps its place and takes the
    new value. *)
Definition defineProp (k : jsstring) (v : json) (l : list (jsstring * json)) :=
  if hasKey k l then replaceProp k v l
  else match arrayIndex k with
       | Some i => insertIndex i k v l
       | None => l ++ [(k, v)]
       end.

Inductive presult (A : Type) :=
| POk (a : A) (rest : jsstring)
| PFail
| PFuel.
Arguments POk {A} a rest.
Arguments PFail {A}.
Arguments PFuel {A}.

(** A property name and its colon: [ws string ws :]. *)
Definition parseKey (s : jsstring) : option (jsstring * jsstring) :=
  match skipWs s with
  | c :: r =>
      if (c =? 34)%N then
        match parseStringBody r with
        | Some (k, rest) =>
            match skipWs rest with
            | c2 :: r2 => if isChar c2 ":" then Some (k, r2) else None
            | [] => None
            end
        | None => None
        end
      else None
  | [] => None
  end.

Definition parseLiteral (s : jsstring) (word : string) (v : json) : presult json :=
  if startsWith s (lit word) then POk v (skipn (length (lit word)) s) else PFail.

(** Recursive descent; every recursive call is on a strictly shorter
    text, so [S (length s)] units of fuel are enough (see
    [parse_fuel]). *)
Fixpoint parseValue (fuel : nat) (s : jsstring) : presult json :=
  match fuel with
  | O => PFuel
  | S f =>
      match skipWs s with
      | [] => PFail
      | c :: r =>
          if isChar c "{" then
            match skipWs r with
            | [] => PFail
            | c2 :: r2 =>
                if isChar c2 "}" then POk (JObject []) r2
                else
                  match parseKey r with
                  | None => PFail
                  | Some (k, r3) =>
                      match parseValue f r3 with
                      | POk v rest => parseMembers f rest (defineProp k v [])
                      | PFail => PFail
                      | PFuel => PFuel
                      end
                  end
            end
          else if isChar c "[" then
            match skipWs r with
            | [] => PFail
            | c2 :: r2 =>
                if isChar c2 "]" then POk (JArray []) r2
                else
                  match parseValue f r with
                  | POk v rest => parseElements f rest [v]
                  | PFail => PFail
                  | PFuel => PFuel
                  end
            end
          else if (c =? 34)%N then
            match parseStringBody r with
            | Some (t, rest) => POk (JString t) rest
            | None => PFail
            end
          else if isChar c "t" then parseLiteral (c :: r) "true" (JBool true)
          else if isChar c "f" then parseLiteral (c :: r) "false" (JBool false)
          else if isChar c "n" then parseLiteral (c :: r) "null" JNull
          else
            match parseNumber (c :: r) with
            | Some (x, rest) => POk (JNumber x) rest
            | None => PFail
            end
      end
  end

with parseElements (fuel : nat) (s : jsstring) (acc : list json) : presult json :=
  match fuel with
  | O => PFuel
  | S f =>
      match skipWs s with
      | [] => PFail
      | c :: r =>
          if isChar c "," then
            match parseValue f r with
            | POk v rest => parseElements f rest (v :: acc)
            | PFail => PFail
            | PFuel => PFuel
            end
          else if isChar c "]" then POk (JArray (rev acc)) r
          else PFail
      end
  end

with parseMembers (fuel : nat) (s : jsstring) (acc : list (jsstring * json))
  : presult json :=
  match fuel with
  | O => PFuel
  | S f =>
      match skipWs s with
      | [] => PFail
      | c :: r =>
          if isChar c "," then
            match parseKey r with
            | None => PFail
            | Some (k, r3) =>
                match parseValue f r3 with
                | POk v rest => parseMembers f rest (defineProp k v acc)
                | PFail => PFail
                | PFuel => PFuel
                end
            end
          else if isChar c "}" then POk (JObject acc) r
          else PFail
      end
  end.

(** [JSON.parse(text)]: one value, then nothing but white space. *)
Definition JSON_parse (text : jsstring) : result json :=
  match parseValue (S (length text)) text with
  | POk v rest =>
      match skipWs rest with
      | [] => Ok v
      | _ => Throw SyntaxError
      end
  | _ => Throw SyntaxError
  end.

(** ** Coercion to a number: [v > 0] *)

Fixpoint radixValue (radix acc : N) (s : jsstring) : option N :=
  match s with
  | [] => Some acc
  | c :: r =>
      match hexValue c with
      | Some d => if (d <? radix)%N then radixValue radix (radix * acc + d)%N r else None
      | None => None
      end
  end.

(** [StrDecimalLiteral] without its sign. *)
Definition strDecimal (neg : bool) (u : jsstring) : option number :=
  if eqb u (lit "Infinity") then Some (Infinity neg)
  else
    let (ids, s1) := spanDigits u in
    let (fds, s2) :=
      match s1 with
      | c :: r => if isChar c "." then spanDigits r else ([], s1)
      | [] => ([], s1)
      end in
    match ids ++ fds with
    | [] => None
    | ds =>
        match parseOptExponent s2 with
        | Some (x, []) => Some (makeNumber neg ds (Z.of_nat (length ids) + x))
        | _ => None
        end
    end.

(** [StringToNumber]; [None] is [NaN]. *)
Definition stringToNumber (s : jsstring) : option number :=
  match trim s with
  | [] => Some (Finite false [] 0)
  | [c] => strDecimal false [c]
  | c :: d :: r =>
      let radix :=
        if isChar c "0" then
          if isChar d "x" || isChar d "X" then Some 16%N
          else if isChar d "o" || isChar d "O" then Some 8%N
          else if isChar d "b" || isChar d "B" then Some 2%N
          else None
        else None in
      match radix with
      | Some b =>
          match r with
          | [] => None
          | _ => option_map numberOfN (radixValue b 0 r)
          end
      | None =>
          if isChar c "-" then strDecimal true (d :: r)
          else if isChar c "+" then strDecimal false (d :: r)
          else strDecimal false (c :: d :: r)
      end
  end.

(** [v > 0]: [ToPrimitive] then [ToNumber], then the comparison. *)
Definition gtZero (v : option json) : result bool :=
  let ofString (s : jsstring) :=
    match stringToNumber s with
    | Some x => isPositive x
    | None => false
    end in
  match v with
  | None | Some JNull => Ok false
  | Some (JBool b) => Ok b
  | Some (JNumber x) => Ok (isPositive x)
  | Some (JString s) => Ok (ofString s)
  | Some (JArray l) => let* s := toStringJ (JArray l) in Ok (ofString s)
  | Some (JObject l) => let* s := toStringJ (JObject l) in Ok (ofString s)
  end.

(** Code points of a string, as the string iterator yields them. *)
Fixpoint codePoints (s : jsstring) : list jsstring :=
  match s with
  | [] => []
  | c :: r =>
      match r with
      | d :: r' =>
          if isHighSurrogate c && isLowSurrogate d then [c; d] :: codePoints r'
          else [c] :: codePoints r
      | [] => [[c]]
      end
  end.

(** ** Upper case

    [String.prototype.toUpperCase] maps the code points of the string by
    the case mapping of Unicode that does not depend on the language: the
    simple mappings of UnicodeData.txt and the unconditional entries of
    SpecialCasing.txt, here of Unicode 16.0.  A surrogate on its own is a
    code point without upper case. *)

(** The simple mappings, as [(first, last, step, target)]: the code points
    from [first] to [last], every [step]-th one, have their upper case as
    far from [target] as they are from [first]. *)
Definition upperRanges : list (N * N * N * N) :=
  [(0x61, 0x7A, 1, 0x41); (0xB5, 0xB5, 1, 0x39C); (0xE0, 0xF6, 1, 0xC0);
   (0xF8, 0xFE, 1, 0xD8); (0xFF, 0xFF, 1, 0x178); (0x101, 0x12F, 2, 0x100);
   (0x131, 0x131, 1, 0x49); (0x133, 0x137, 2, 0x132);
   (0x13A, 0x148, 2, 0x139); (0x14B, 0x177, 2, 0x14A);
   (0x17A, 0x17E, 2, 0x179); (0x17F, 0x17F, 1, 0x53);
   (0x180, 0x180, 1, 0x243); (0x183, 0x185, 2, 0x182);
   (0x188, 0x188, 1, 0x187); (0x18C, 0x18C, 1, 0x18B);
   (0x192, 0x192, 1, 0x191); (0x195, 0x195, 1, 0x1F6);
   (0x199, 0x199, 1, 0x198); (0x19A, 0x19A, 1, 0x23D);
   (0x19B, 0x19B, 1, 0xA7DC); (0x19E, 0x19E, 1, 0x220);
   (0x1A1, 0x1A5, 2, 0x1A0); (0x1A8, 0x1A8, 1, 0x1A7);
   (0x1AD, 0x1AD, 1, 0x1AC); (0x1B0, 0x1B0, 1, 0x1AF);
   (0x1B4, 0x1B6, 2, 0x1B3); (0x1B9, 0x1B9, 1, 0x1B8);
   (0x1BD, 0x1BD, 1, 0x1BC); (0x1BF, 0x1BF, 1, 0x1F7);
   (0x1C5, 0x1C5, 1, 0x1C4); (0x1C6, 0x1C6, 1, 0x1C4);
   (0x1C8, 0x1C8, 1, 0x1C7); (0x1C9, 0x1C9, 1, 0x1C7);
   (0x1CB, 0x1CB, 1, 0x1CA); (0x1CC, 0x1CC, 1, 0x1CA);
   (0x1CE, 0x1DC, 2, 0x1CD); (0x1DD, 0x1DD, 1, 0x18E);
   (0x1DF, 0x1EF, 2, 0x1DE); (0x1F2, 0x1F2, 1, 0x1F1);
   (0x1F3, 0x1F3, 1, 0x1F1); (0x1F5, 0x1F5, 1, 0x1F4);
   (0x1F9, 0x21F, 2, 0x1F8); (0x223, 0x233, 2, 0x222);
   (0x23C, 0x23C, 1, 0x23B); (0x23F, 0x240, 1, 0x2C7E);
   (0x242, 0x242, 1, 0x241); (0x247, 0x24F, 2, 0x246);
   (0x250, 0x250, 1, 0x2C6F); (0x251, 0x251, 1, 0x2C6D);
   (0x252, 0x252, 1, 0x2C70); (0x253, 0x253, 1, 0x181);
   (0x254, 0x254, 1, 0x186); (0x256, 0x257, 1, 0x189);
   (0x259, 0x259, 1, 0x18F); (0x25B, 0x25B, 1, 0x190);
   (0x25C, 0x25C, 1, 0xA7AB); (0x260, 0x260, 1, 0x193);
   (0x261, 0x261, 1, 0xA7AC); (0x263, 0x263, 1, 0x194);
   (0x264, 0x264, 1, 0xA7CB); (0x265, 0x265, 1, 0xA78D);
   (0x266, 0x266, 1, 0xA7AA); (0x268, 0x268, 1, 0x197);
   (0x269, 0x269, 1, 0x196); (0x26A, 0x26A, 1, 0xA7AE);
   (0x26B, 0x26B, 1, 0x2C62); (0x26C, 0x26C, 1, 0xA7AD);
   (0x26F, 0x26F, 1, 0x19C); (0x271, 0x271, 1, 0x2C6E);
   (0x272, 0x272, 1, 0x19D); (0x275, 0x275, 1, 0x19F);
   (0x27D, 0x27D, 1, 0x2C64); (0x280, 0x280, 1, 0x1A6);
   (0x282, 0x282, 1, 0xA7C5); (0x283, 0x283, 1, 0x1A9);
   (0x287, 0x287, 1, 0xA7B1); (0x288, 0x288, 1, 0x1AE);
   (0x289, 0x289, 1, 0x244); (0x28A, 0x28B, 1, 0x1B1);
   (0x28C, 0x28C, 1, 0x245); (0x292, 0x292, 1, 0x1B7);
   (0x29D, 0x29D, 1, 0xA7B2); (0x29E, 0x29E, 1, 0xA7B0);
   (0x345, 0x345, 1, 0x399); (0x371, 0x373, 2, 0x370);
   (0x377, 0x377, 1, 0x376); (0x37B, 0x37D, 1, 0x3FD);
   (0x3AC, 0x3AC, 1, 0x386); (0x3AD, 0x3AF, 1, 0x388);
   (0x3B1, 0x3C1, 1, 0x391); (0x3C2, 0x3C2, 1, 0x3A3);
   (0x3C3, 0x3CB, 1, 0x3A3); (0x3CC, 0x3CC, 1, 0x38C);
   (0x3CD, 0x3CE, 1, 0x38E); (0x3D0, 0x3D0, 1, 0x392);
   (0x3D1, 0x3D1, 1, 0x398); (0x3D5, 0x3D5, 1, 0x3A6);
   (0x3D6, 0x3D6, 1, 0x3A0); (0x3D7, 0x3D7, 1, 0x3CF);
   (0x3D9, 0x3EF, 2, 0x3D8); (0x3F0, 0x3F0, 1, 0x39A);
   (0x3F1, 0x3F1, 1, 0x3A1); (0x3F2, 0x3F2, 1, 0x3F9);
   (0x3F3, 0x3F3, 1, 0x37F); (0x3F5, 0x3F5, 1, 0x395);
   (0x3F8, 0x3F8, 1, 0x3F7); (0x3FB, 0x3FB, 1, 0x3FA);
   (0x430, 0x44F, 1, 0x410); (0x450, 0x45F, 1, 0x400);
   (0x461, 0x481, 2, 0x460); (0x48B, 0x4BF, 2, 0x48A);
   (0x4C2, 0x4CE, 2, 0x4C1); (0x4CF, 0x4CF, 1, 0x4C0);
   (0x4D1, 0x52F, 2, 0x4D0); (0x561, 0x586, 1, 0x531);
   (0x10D0, 0x10FA, 1, 0x1C90); (0x10FD, 0x10FF, 1, 0x1CBD);
   (0x13F8, 0x13FD, 1, 0x13F0); (0x1C80, 0x1C80, 1, 0x412);
   (0x1C81, 0x1C81, 1, 0x414); (0x1C82, 0x1C82, 1, 0x41E);
   (0x1C83, 0x1C84, 1, 0x421); (0x1C85, 0x1C85, 1, 0x422);
   (0x1C86, 0x1C86, 1, 0x42A); (0x1C87, 0x1C87, 1, 0x462);
   (0x1C88, 0x1C88, 1, 0xA64A); (0x1C8A, 0x1C8A, 1, 0x1C89);
   (0x1D79, 0x1D79, 1, 0xA77D); (0x1D7D, 0x1D7D, 1, 0x2C63);
   (0x1D8E, 0x1D8E, 1, 0xA7C6); (0x1E01, 0x1E95, 2, 0x1E00);
   (0x1E9B, 0x1E9B, 1, 0x1E60); (0x1EA1, 0x1EFF, 2, 0x1EA0);
   (0x1F00, 0x1F07, 1, 0x1F08); (0x1F10, 0x1F15, 1, 0x1F18);
   (0x1F20, 0x1F27, 1, 0x1F28); (0x1F30, 0x1F37, 1, 0x1F38);
   (0x1F40, 0x1F45, 1, 0x1F48); (0x1F51, 0x1F57, 2, 0x1F59);
   (0x1F60, 0x1F67, 1, 0x1F68); (0x1F70, 0x1F71, 1, 0x1FBA);
   (0x1F72, 0x1F75, 1, 0x1FC8); (0x1F76, 0x1F77, 1, 0x1FDA);
   (0x1F78, 0x1F79, 1, 0x1FF8); (0x1F7A, 0x1F7B, 1, 0x1FEA);
   (0x1F7C, 0x1F7D, 1, 0x1FFA); (0x1FB0, 0x1FB1, 1, 0x1FB8);
   (0x1FBE, 0x1FBE, 1, 0x399); (0x1FD0, 0x1FD1, 1, 0x1FD8);
   (0x1FE0, 0x1FE1, 1, 0x1FE8); (0x1FE5, 0x1FE5, 1, 0x1FEC);
   (0x214E, 0x214E, 1, 0x2132); (0x2170, 0x217F, 1, 0x2160);
   (0x2184, 0x2184, 1, 0x2183); (0x24D0, 0x24E9, 1, 0x24B6);
   (0x2C30, 0x2C5F, 1, 0x2C00); (0x2C61, 0x2C61, 1, 0x2C60);
   (0x2C65, 0x2C65, 1, 0x23A); (0x2C66, 0x2C66, 1, 0x23E);
   (0x2C68, 0x2C6C, 2, 0x2C67); (0x2C73, 0x2C73, 1, 0x2C72);
   (0x2C76, 0x2C76, 1, 0x2C75); (0x2C81, 0x2CE3, 2, 0x2C80);
   (0x2CEC, 0x2CEE, 2, 0x2CEB); (0x2CF3, 0x2CF3, 1, 0x2CF2);
   (0x2D00, 0x2D25, 1, 0x10A0); (0x2D27, 0x2D27, 1, 0x10C7);
   (0x2D2D, 0x2D2D, 1, 0x10CD); (0xA641, 0xA66D, 2, 0xA640);
   (0xA681, 0xA69B, 2, 0xA680); (0xA723, 0xA72F, 2, 0xA722);
   (0xA733, 0xA76F, 2, 0xA732); (0xA77A, 0xA77C, 2, 0xA779);
   (0xA77F, 0xA787, 2, 0xA77E); (0xA78C, 0xA78C, 1, 0xA78B);
   (0xA791, 0xA793, 2, 0xA790); (0xA794, 0xA794, 1, 0xA7C4);
   (0xA797, 0xA7A9, 2, 0xA796); (0xA7B5, 0xA7C3, 2, 0xA7B4);
   (0xA7C8, 0xA7CA, 2, 0xA7C7); (0xA7CD, 0xA7CD, 1, 0xA7CC);
   (0xA7D1, 0xA7D1, 1, 0xA7D0); (0xA7D7, 0xA7DB, 2, 0xA7D6);
   (0xA7F6, 0xA7F6, 1, 0xA7F5); (0xAB53, 0xAB53, 1, 0xA7B3);
   (0xAB70, 0xABBF, 1, 0x13A0); (0xFF41, 0xFF5A, 1, 0xFF21);
   (0x10428, 0x1044F, 1, 0x10400); (0x104D8, 0x104FB, 1, 0x104B0);
   (0x10597, 0x105BB, 2, 0x10570); (0x10598, 0x105A0, 2, 0x10571);
   (0x105A4, 0x105B0, 2, 0x1057D); (0x105B4, 0x105B8, 2, 0x1058D);
   (0x105BC, 0x105BC, 1, 0x10595); (0x10CC0, 0x10CF2, 1, 0x10C80);
   (0x10D70, 0x10D85, 1, 0x10D50); (0x118C0, 0x118DF, 1, 0x118A0);
   (0x16E60, 0x16E7F, 1, 0x16E40); (0x1E922, 0x1E943, 1, 0x1E900)]%N.

(** The code points whose upper case is longer than one code point. *)
Definition upperSpecial : list (N * list N) :=
  [(0xDF, [0x53; 0x53]); (0x149, [0x2BC; 0x4E]); (0x1F0, [0x4A; 0x30C]);
   (0x390, [0x399; 0x308; 0x301]); (0x3B0, [0x3A5; 0x308; 0x301]);
   (0x587, [0x535; 0x552]); (0x1E96, [0x48; 0x331]); (0x1E97, [0x54; 0x308]);
   (0x1E98, [0x57; 0x30A]); (0x1E99, [0x59; 0x30A]); (0x1E9A, [0x41; 0x2BE]);
   (0x1F50, [0x3A5; 0x313]); (0x1F52, [0x3A5; 0x313; 0x300]);
   (0x1F54, [0x3A5; 0x313; 0x301]); (0x1F56, [0x3A5; 0x313; 0x342]);
   (0x1F80, [0x1F08; 0x399]); (0x1F81, [0x1F09; 0x399]);
   (0x1F82, [0x1F0A; 0x399]); (0x1F83, [0x1F0B; 0x399]);
   (0x1F84, [0x1F0C; 0x399]); (0x1F85, [0x1F0D; 0x399]);
   (0x1F86, [0x1F0E; 0x399]); (0x1F87, [0x1F0F; 0x399]);
   (0x1F88, [0x1F08; 0x399]); (0x1F89, [0x1F09; 0x399]);
   (0x1F8A, [0x1F0A; 0x399]); (0x1F8B, [0x1F0B; 0x399]);
   (0x1F8C, [0x1F0C; 0x399]); (0x1F8D, [0x1F0D; 0x399]);
   (0x1F8E, [0x1F0E; 0x399]); (0x1F8F, [0x1F0F; 0x399]);
   (0x1F90, [0x1F28; 0x399]); (0x1F91, [0x1F29; 0x399]);
   (0x1F92, [0x1F2A; 0x399]); (0x1F93, [0x1F2B; 0x399]);
   (0x1F94, [0x1F2C; 0x399]); (0x1F95, [0x1F2D; 0x399]);
   (0x1F96, [0x1F2E; 0x399]); (0x1F97, [0x1F2F; 0x399]);
   (0x1F98, [0x1F28; 0x399]); (0x1F99, [0x1F29; 0x399]);
   (0x1F9A, [0x1F2A; 0x399]); (0x1F9B, [0x1F2B; 0x399]);
   (0x1F9C, [0x1F2C; 0x399]); (0x1F9D, [0x1F2D; 0x399]);
   (0x1F9E, [0x1F2E; 0x399]); (0x1F9F, [0x1F2F; 0x399]);
   (0x1FA0, [0x1F68; 0x399]); (0x1FA1, [0x1F69; 0x399]);
   (0x1FA2, [0x1F6A; 0x399]); (0x1FA3, [0x1F6B; 0x399]);
   (0x1FA4, [0x1F6C; 0x399]); (0x1FA5, [0x1F6D; 0x399]);
   (0x1FA6, [0x1F6E; 0x399]); (0x1FA7, [0x1F6F; 0x399]);
   (0x1FA8, [0x1F68; 0x399]); (0x1FA9, [0x1F69; 0x399]);
   (0x1FAA, [0x1F6A; 0x399]); (0x1FAB, [0x1F6B; 0x399]);
   (0x1FAC, [0x1F6C; 0x399]); (0x1FAD, [0x1F6D; 0x399]);
   (0x1FAE, [0x1F6E; 0x399]); (0x1FAF, [0x1F6F; 0x399]);
   (0x1FB2, [0x1FBA; 0x399]); (0x1FB3, [0x391; 0x399]);
   (0x1FB4, [0x386; 0x399]); (0x1FB6, [0x391; 0x342]);
   (0x1FB7, [0x391; 0x342; 0x399]); (0x1FBC, [0x391; 0x399]);
   (0x1FC2, [0x1FCA; 0x399]); (0x1FC3, [0x397; 0x399]);
   (0x1FC4, [0x389; 0x399]); (0x1FC6, [0x397; 0x342]);
   (0x1FC7, [0x397; 0x342; 0x399]); (0x1FCC, [0x397; 0x399]);
   (0x1FD2, [0x399; 0x308; 0x300]); (0x1FD3, [0x399; 0x308; 0x301]);
   (0x1FD6, [0x399; 0x342]); (0x1FD7, [0x399; 0x308; 0x342]);
   (0x1FE2, [0x3A5; 0x308; 0x300]); (0x1FE3, [0x3A5; 0x308; 0x301]);
   (0x1FE4, [0x3A1; 0x313]); (0x1FE6, [0x3A5; 0x342]);
   (0x1FE7, [0x3A5; 0x308; 0x342]); (0x1FF2, [0x1FFA; 0x399]);
   (0x1FF3, [0x3A9; 0x399]); (0x1FF4, [0x38F; 0x399]);
   (0x1FF6, [0x3A9; 0x342]); (0x1FF7, [0x3A9; 0x342; 0x399]);
   (0x1FFC, [0x3A9; 0x399]); (0xFB00, [0x46; 0x46]); (0xFB01, [0x46; 0x49]);
   (0xFB02, [0x46; 0x4C]); (0xFB03, [0x46; 0x46; 0x49]);
   (0xFB04, [0x46; 0x46; 0x4C]); (0xFB05, [0x53; 0x54]);
   (0xFB06, [0x53; 0x54]); (0xFB13, [0x544; 0x546]); (0xFB14, [0x544; 0x535]);
   (0xFB15, [0x544; 0x53B]); (0xFB16, [0x54E; 0x546]);
   (0xFB17, [0x544; 0x53D])]%N.

Definition inRange (c : N) (r : N * N * N * N) : bool :=
  let '(first, last, step, _) := r in
  ((first <=? c) && (c <=? last) && ((c - first) mod step =? 0))%N.

Definition upperPoint (c : N) : list N :=
  match find (fun e => (fst e =? c)%N) upperSpecial with
  | Some (_, l) => l
  | None =>
      match find (inRange c) upperRanges with
      | Some (first, _, _, target) => [(target + (c - first))%N]
      | None => [c]
      end
  end.

(** A code point of [codePoints] as a number, and back as code units. *)
Definition codePointOf (p : jsstring) : N :=
  match p with
  | [c; d] => (0x10000 + (c - 0xD800) * 0x400 + (d - 0xDC00))%N
  | [c] => c
  | _ => 0%N
  end.

Definition codeUnitsOf (p : N) : jsstring :=
  if (p <? 0x10000)%N then [p]
  else [(0xD800 + (p - 0x10000) / 0x400)%N; (0xDC00 + (p - 0x10000) mod 0x400)%N].

Definition toUpperCase (s : jsstring) : jsstring :=
  flat_map (fun p => flat_map codeUnitsOf (upperPoint (codePointOf p)))
           (codePoints s).

(** [for (const x of v)]: arrays and strings are iterable, nothing else
    that [JSON.parse] returns is. *)
Definition iterate (v : option json) : result (list json) :=
  match v with
  | Some (JArray l) => Ok l
  | Some (JString s) => Ok (map JString (codePoints s))
  | _ => Throw TypeError
  end.

End JS.

Import JS.

(** ** Relative time stamps *)

(** [formatRelativeTime]: [Math.floor] of a quotient is [Z.div], the
    JavaScript [%] is [Z.rem]. *)
Definition formatRelativeTime (elapsed : Z) : jsstring :=
  let totalSeconds := (elapsed / 1000)%Z in
  let hours := (totalSeconds / 3600)%Z in
  let minutes := (Z.rem totalSeconds 3600 / 60)%Z in
  let seconds := Z.rem totalSeconds 60 in
  if (0 <? hours)%Z then
    padStart 2 48%N (decZ hours) ++ lit ":" ++ padStart 2 48%N (decZ minutes)
      ++ lit ":" ++ padStart 2 48%N (decZ seconds)
  else
    padStart 2 48%N (decZ minutes) ++ lit ":" ++ padStart 2 48%N (decZ seconds).

(** ** Constants of the program *)

Definition nl : jsstring := [10%N].
Definition esc (s : string) : jsstring := 27%N :: lit s.

Definition ColorReset := esc "[0m".
Definition ColorBold := esc "[1m".
Definition ColorDim := esc "[2m".
Definition ColorRed := esc "[31m".
Definition ColorGreen := esc "[32m".
Definition ColorYellow := esc "[33m".
Definition ColorBlue := esc "[34m".
Definition ColorMagenta := esc "[35m".
Definition ColorCyan := esc "[36m".
Definition ColorWhite := esc "[37m".
Definition ColorGray := esc "[90m".

(** The pictographs of the source, in UTF-16. *)
Definition robot : jsstring := [0xD83E; 0xDD16]%N.
Definition bust : jsstring := [0xD83D; 0xDC64]%N.
Definition gear : jsstring := [0x2699; 0xFE0F]%N.
Definition wrench : jsstring := [0xD83D; 0xDD27]%N.
Definition crossMark : jsstring := [0x274C]%N.
Definition checkMark : jsstring := [0x2705]%N.

Definition ASSISTANT := lit "ASSISTANT".
Definition USER := lit "USER".
Definition SYSTEM := lit "SYSTEM".
Definition unknownMessageType := lit "Unknown message type".

(** ** Progressive disclosure

    The same block occurs twice in [extractCleanJSONContentWithErrorCheck]:
    for a tool input ([maxPreviewLength = 300]) and for a tool result
    ([maxPreviewLength = 400]). *)

Definition needsDisclosure (maxPreviewLength : nat) (text : jsstring) : bool :=
  (2 <? length (split 10%N text))%nat || (maxPreviewLength <? length text)%nat.

(** [preview] and [remaining] of the branch taken when disclosure is
    needed. *)
Definition splitPreview (maxPreviewLength : nat) (text : jsstring)
  : jsstring * jsstring :=
  let lines := split 10%N text in
  if (2 <? length lines)%nat then
    (join nl (firstn 2 lines), join nl (skipn 2 lines))
  else if (maxPreviewLength <? length text)%nat then
    (sliceTo maxPreviewLength text ++ lit "...", sliceFrom maxPreviewLength text)
  else (text, []).

Definition detailsBlock (summary fence remaining : jsstring) : jsstring :=
  nl ++ nl ++ lit "<details>" ++ nl ++ lit "<summary>" ++ summary
     ++ lit "</summary>" ++ nl ++ nl ++ lit "```" ++ fence ++ nl ++ remaining
     ++ nl ++ lit "```" ++ nl ++ nl ++ lit "</details>".

(** The [tool_use] description once [toolInput] is neither empty nor
    [{}]. *)
Definition describeToolInput (toolDesc toolInput : jsstring) : jsstring :=
  if negb (needsDisclosure 300 toolInput) then toolDesc ++ lit " with " ++ toolInput
  else
    let (preview, remaining) := splitPreview 300 toolInput in
    if negb (eqb remaining []) then
      toolDesc ++ lit " with " ++ preview
        ++ detailsBlock (lit "Show more input...") (lit "json") remaining
    else toolDesc ++ lit " with " ++ preview.

(** The part pushed for a [tool_result] whose [resultContent] is not
    empty. *)
Definition describeToolResult (errorIndicator resultContent : jsstring) : jsstring :=
  if negb (needsDisclosure 400 resultContent) then errorIndicator ++ nl ++ resultContent
  else
    let (preview, remaining) := splitPreview 400 resultContent in
    if negb (eqb remaining []) then
      errorIndicator ++ nl ++ preview ++ detailsBlock (lit "Show more...") [] remaining
    else errorIndicator ++ nl ++ preview.

(** ** Rendering of a decoded message *)

Record rendered := {
  r_speaker : jsstring;
  r_content : jsstring;
  r_hasError : bool
}.

Definition prop (v : json) (name : string) : result (option json) :=
  getProp (Some v) (lit name).

(** The values a truthy test lets through. *)
Definition whenTruthy (v : option json) : list json :=
  match v with
  | Some j => if truthy v then [j] else []
  | None => []
  end.

(** [contentParts.join(sep)]: the parts pushed are strings or the truthy
    values of [text] properties, which [join] turns into strings. *)
Definition joinParts (sep : jsstring) (contentParts : list json) : result jsstring :=
  let* ss := mapM toStringJ contentParts in
  Ok (join sep ss).

(** The guard [msg.message && msg.message.content.length > 0] and the
    items the loop visits; none when the guard is false. *)
Definition contentItems (msg : json) : result (list json) :=
  let* message := prop msg "message" in
  if truthy message then
    let* content := getProp message (lit "content") in
    let* len := getProp content (lit "length") in
    let* positive := gtZero len in
    if positive then iterate content else Ok []
  else Ok [].

(** [resultContent] of a [tool_result] item: the [text], pretty-printed
    when it reads as JSON, else the pretty-printed [content], else the
    empty string.  The value is not a string when [text] is not one and
    does not read as JSON. *)
Definition toolResultContent (contentItem : json) : result json :=
  let* text := prop contentItem "text" in
  match whenTruthy text with
  | t :: _ =>
      match (let* s := toStringJ t in JSON_parse s) with
      | Ok jsonObj => Ok (JString (JSON_stringify2 jsonObj))
      | Throw _ => Ok t
      end
  | [] =>
      let* content := prop contentItem "content" in
      match whenTruthy content with
      | c :: _ => Ok (JString (JSON_stringify2 c))
      | [] => Ok (JString [])
      end
  end.

Definition sessionInitialized (msg : json) : result jsstring :=
  let* session_id := prop msg "session_id" in
  let* sid := toStr session_id in
  let* model := prop msg "model" in
  let* mdl := toStr model in
  Ok (lit "Session initialized (ID: " ++ sid ++ lit ", Model: " ++ mdl ++ lit ")").

(** The default arm: [msg.type.toUpperCase()] throws unless [type] is a
    string. *)
Definition unknownSpeaker (type : option json) : result jsstring :=
  match type with
  | Some (JString t) => Ok (toUpperCase t)
  | _ => Throw TypeError
  end.

(** *** The annotation renderer *)

Definition extractAssistantItem (contentItem : json) : result (list json) :=
  let* type := prop contentItem "type" in
  if isString type (lit "text") then
    let* text := prop contentItem "text" in
    Ok (whenTruthy text)
  else if isString type (lit "tool_use") then
    let* input := prop contentItem "input" in
    let toolInput :=
      match whenTruthy input with
      | i :: _ => JSON_stringify2 i
      | [] => []
      end in
    let* name := prop contentItem "name" in
    let* nm := toStr name in
    let toolDesc := wrench ++ lit " Using tool: " ++ nm in
    if negb (eqb toolInput []) && negb (eqb toolInput (lit "{}")) then
      Ok [JString (describeToolInput toolDesc toolInput)]
    else Ok [JString toolDesc]
  else Ok [].

(** One turn of the [user] loop: whether it sets [hasError], and what it
    pushes.  [resultContent.split] throws when [resultContent] is not a
    string. *)
Definition extractUserItem (contentItem : json) : result (bool * list json) :=
  let* type := prop contentItem "type" in
  if isString type (lit "tool_result") then
    let* is_error := prop contentItem "is_error" in
    let* resultContent := toolResultContent contentItem in
    match resultContent with
    | JString [] =>
        Ok (truthy is_error, [JString (checkMark ++ lit " Tool result received")])
    | JString rc =>
        let errorIndicator :=
          if truthy is_error then crossMark ++ lit " Tool error:"
          else checkMark ++ lit " Tool result:" in
        Ok (truthy is_error, [JString (describeToolResult errorIndicator rc)])
    | _ => Throw TypeError
    end
  else
    let* text := prop contentItem "text" in
    Ok (false, whenTruthy text).

Definition extractCleanJSONContentWithErrorCheck (msg : json) : result rendered :=
  let* type := prop msg "type" in
  if isString type (lit "system") then
    let* subtype := prop msg "subtype" in
    if isString subtype (lit "init") then
      let* content := sessionInitialized msg in
      Ok {| r_speaker := SYSTEM; r_content := content; r_hasError := false |}
    else
      Ok {| r_speaker := SYSTEM; r_content := lit "System message"; r_hasError := false |}
  else if isString type (lit "assistant") then
    let* items := contentItems msg in
    let* pushed := mapM extractAssistantItem items in
    let* content := joinParts (nl ++ nl) (concat pushed) in
    Ok {| r_speaker := ASSISTANT; r_content := content; r_hasError := false |}
  else if isString type (lit "user") then
    let* items := contentItems msg in
    let* turns := mapM extractUserItem items in
    let* content := joinParts (nl ++ nl) (concat (map snd turns)) in
    Ok {| r_speaker := USER; r_content := content;
          r_hasError := existsb fst turns |}
  else
    let* speaker := unknownSpeaker type in
    Ok {| r_speaker := speaker; r_content := unknownMessageType; r_hasError := false |}.

(** *** The console renderer *)

Definition formatAssistantItem (contentItem : json) : result (list json) :=
  let* type := prop contentItem "type" in
  if isString type (lit "text") then
    let* text := prop contentItem "text" in
    Ok (whenTruthy text)
  else if isString type (lit "tool_use") then
    let* input := prop contentItem "input" in
    let toolInput :=
      match whenTruthy input with
      | i :: _ => JSON_stringify i
      | [] => []
      end in
    let withClause :=
      if negb (eqb toolInput []) && negb (eqb toolInput (lit "{}"))
      then lit " with " ++ toolInput else [] in
    let* name := prop contentItem "name" in
    let* nm := toStr name in
    Ok [JString (ColorGreen ++ wrench ++ lit " Using tool: " ++ nm ++ withClause
                   ++ ColorReset)]
  else Ok [].

Definition formatUserItem (contentItem : json) : result (list json) :=
  let* type := prop contentItem "type" in
  if isString type (lit "tool_result") then
    let* resultContent := toolResultContent contentItem in
    match resultContent with
    | JString [] =>
        Ok [JString (ColorMagenta ++ checkMark ++ lit " Tool result received" ++ ColorReset)]
    | _ =>
        let* is_error := prop contentItem "is_error" in
        let errorIndicator :=
          if truthy is_error then ColorRed ++ crossMark ++ lit " Tool error:" ++ ColorReset
          else ColorMagenta ++ checkMark ++ lit " Tool result:" ++ ColorReset in
        let* rc := toStringJ resultContent in
        Ok [JString (errorIndicator ++ nl ++ rc)]
    end
  else
    let* text := prop contentItem "text" in
    Ok (whenTruthy text).

Definition formatJSONMessage (msg : json) : result (jsstring * jsstring) :=
  let* type := prop msg "type" in
  if isString type (lit "system") then
    let* subtype := prop msg "subtype" in
    if isString subtype (lit "init") then
      let* content := sessionInitialized msg in
      Ok (SYSTEM, content)
    else Ok (SYSTEM, lit "System message")
  else if isString type (lit "assistant") then
    let* items := contentItems msg in
    let* pushed := mapM formatAssistantItem items in
    let* content := joinParts nl (concat pushed) in
    Ok (ASSISTANT, content)
  else if isString type (lit "user") then
    let* items := contentItems msg in
    let* pushed := mapM formatUserItem items in
    let* content := joinParts nl (concat pushed) in
    Ok (USER, content)
  else
    let* speaker := unknownSpeaker type in
    Ok (speaker, unknownMessageType).

(** ** Entries and their console rendering *)

Record ChatEntry := {
  lineNumber : Z;
  speaker : jsstring;
  content : jsstring;
  timestamp : jsstring;
  isJSON : bool;
  rawLine : jsstring
}.

(** [parseLine]: [elapsed] is [Date.now() - startTime.getTime()], the
    second component is [staticLineNum] after the call. *)
Definition parseLine (line : jsstring) (elapsed : Z) (staticLineNum : Z)
  : option ChatEntry * Z :=
  let line := trim line in
  if eqb line [] then (None, staticLineNum)
  else
    let staticLineNum := (staticLineNum + 1)%Z in
    let entry (isJSON : bool) (speaker content : jsstring) :=
      {| lineNumber := staticLineNum; rawLine := line;
         timestamp := formatRelativeTime elapsed;
         speaker := speaker; content := content; isJSON := isJSON |} in
    if startsWith line (lit "{") then
      match JSON_parse line with
      | Ok msg =>
          match formatJSONMessage msg with
          | Ok (speaker, content) => (Some (entry true speaker content), staticLineNum)
          | Throw _ => (Some (entry true SYSTEM line), staticLineNum)
          end
      | Throw _ => (Some (entry false SYSTEM line), staticLineNum)
      end
    else (Some (entry false SYSTEM line), staticLineNum).

(** What the process does to the outside. *)
Inductive effect :=
| Log (s : jsstring)
| Warn (s : jsstring)
| Error (s : jsstring)
| ExecSync (command input : jsstring)
| WriteFileSync (path data : jsstring)
| Exit (code : Z).

Definition printSingleEntry (entry : ChatEntry) : list effect :=
  if eqb (content entry) [] then []
  else
    let (speakerColor, contentColor) :=
      if eqb (speaker entry) ASSISTANT then (ColorGreen ++ ColorBold, ColorGreen)
      else if eqb (speaker entry) USER then (ColorBlue ++ ColorBold, ColorBlue)
      else if eqb (speaker entry) SYSTEM then (ColorYellow ++ ColorBold, ColorGray)
      else (ColorWhite, ColorWhite) in
    let prefix :=
      ColorGray ++ lit "[" ++ padStart 3 48%N (decZ (lineNumber entry)) ++ lit "] "
        ++ ColorDim ++ lit "[" ++ timestamp entry ++ lit "]" ++ ColorReset ++ lit " "
        ++ speakerColor ++ speaker entry ++ lit ":" ++ ColorReset in
    let lines := split 10%N (content entry) in
    match lines with
    | [] => []
    | first :: others =>
        Log (padEnd 45 32%N prefix ++ lit " " ++ contentColor ++ first ++ ColorReset)
          :: map (fun l => Log (contentColor ++ l ++ ColorReset)) others
    end
    ++ (if isJSON entry then [Log []] else []).

(** ** Annotations *)

(** What the annotation shows for a trimmed line: the rendering of the
    message, or the line itself as [SYSTEM] text; [None] when the
    function returns early on the unknown-type marker. *)
Definition annotationEntry (rawJSONLine : jsstring) : option rendered :=
  let plain := {| r_speaker := SYSTEM; r_content := rawJSONLine; r_hasError := false |} in
  if startsWith rawJSONLine (lit "{") then
    match (let* msg := JSON_parse rawJSONLine in
           extractCleanJSONContentWithErrorCheck msg) with
    | Ok result =>
        if eqb (r_content result) unknownMessageType then None else Some result
    | Throw _ => Some plain
    end
  else Some plain.

Definition speakerHeading (speaker : jsstring) : jsstring :=
  if eqb speaker ASSISTANT then robot ++ lit " **ASSISTANT**:" ++ nl ++ nl
  else if eqb speaker USER then bust ++ lit " **USER**:" ++ nl ++ nl
  else if eqb speaker SYSTEM then gear ++ lit " **SYSTEM**:" ++ nl ++ nl
  else lit "**" ++ speaker ++ lit "**:" ++ nl ++ nl.

Definition annotationStyle (speaker : jsstring) (hasError : bool) : jsstring :=
  if eqb speaker ASSISTANT then lit "info"
  else if eqb speaker USER then (if hasError then lit "error" else lit "success")
  else if eqb speaker SYSTEM then lit "warning"
  else lit "info".

(** The raw-JSON disclosure at the end of the body. *)
Definition prettyOrRaw (rawJSONLine : jsstring) : jsstring :=
  if startsWith rawJSONLine (lit "{") then
    match JSON_parse rawJSONLine with
    | Ok jsonObj => JSON_stringify2 jsonObj
    | Throw _ => rawJSONLine
    end
  else rawJSONLine.

Record annotation := {
  style : jsstring;
  context : jsstring;
  markdownContent : jsstring
}.

(** [createBuildkiteAnnotation] up to the call of the external command:
    [None] when it returns without calling it. *)
Definition buildAnnotation (rawJSONLine : jsstring) (lineNumber : Z)
  (timestamp : jsstring) : option annotation :=
  let rawJSONLine := trim rawJSONLine in
  if eqb rawJSONLine [] then None
  else
    match annotationEntry rawJSONLine with
    | None => None
    | Some r =>
        Some {|
          style := annotationStyle (r_speaker r) (r_hasError r);
          context := lit "chat-message-" ++ decZ lineNumber;
          markdownContent :=
            lit "**Message " ++ decZ lineNumber ++ lit "** - `" ++ timestamp ++ lit "`"
              ++ nl ++ nl
              ++ speakerHeading (r_speaker r)
              ++ r_content r
              ++ nl ++ nl ++ lit "<details>" ++ nl
              ++ lit "<summary>Show JSON</summary>" ++ nl ++ nl ++ lit "```json" ++ nl
              ++ prettyOrRaw rawJSONLine
              ++ nl ++ lit "```" ++ nl ++ nl ++ lit "</details>"
        |}
    end.

Definition annotateCommand (a : annotation) : jsstring :=
  lit "buildkite-agent annotate --style " ++ style a ++ lit " --context "
    ++ context a ++ lit " --priority 5".

(** [execError] is what [execSync] throws, if it does. *)
Definition createBuildkiteAnnotation (rawJSONLine : jsstring) (lineNumber : Z)
  (timestamp : jsstring) (execError : option jsstring) : list effect :=
  match buildAnnotation rawJSONLine lineNumber timestamp with
  | None => []
  | Some a =>
      ExecSync (annotateCommand a) (markdownContent a)
        :: match execError with
           | Some err => [Warn (lit "Warning: Failed to create Buildkite annotation: " ++ err)]
           | None => []
           end
  end.

(** ** The stream *)

(** One [line] event: the text, the clock at its arrival and the fate
    of the external command should it be run. *)
Record arrival := {
  text : jsstring;
  elapsed : Z;
  execError : option jsstring
}.

(** The handler of the [line] event, from the counter before to the
    effects and the counter after. *)
Definition onLine (a : arrival) (staticLineNum : Z) : list effect * Z :=
  match parseLine (text a) (elapsed a) staticLineNum with
  | (Some entry, n) =>
      (printSingleEntry entry
         ++ createBuildkiteAnnotation (text a) (lineNumber entry) (timestamp entry)
              (execError a), n)
  | (None, n) => ([], n)
  end.

Fixpoint onLines (input : list arrival) (staticLineNum : Z) : list effect * Z :=
  match input with
  | [] => ([], staticLineNum)
  | a :: rest =>
      let (e1, n1) := onLine a staticLineNum in
      let (e2, n2) := onLines rest n1 in
      (e1 ++ e2, n2)
  end.

(** How the stream ends: [close], or an [error] event. *)
Inductive ending :=
| Close
| StreamError (err : jsstring).

(** A promise settles: resolved, or rejected with the error shown. *)
Inductive settled :=
| Resolved
| Rejected (err : jsstring).

Definition parseAndStreamOutput (input : list arrival) (e : ending)
  (staticLineNum : Z) : list effect * settled :=
  (fst (onLines input staticLineNum),
   match e with
   | Close => Resolved
   | StreamError err => Rejected err
   end).

(** [writeError] is what [writeFileSync] throws, if it does. *)
Definition parseAndStreamOutputWithFile (input : list arrival) (e : ending)
  (outputFilename : jsstring) (writeError : option jsstring) (staticLineNum : Z)
  : list effect * settled :=
  let lines := map text input in
  let effects := fst (onLines input staticLineNum) in
  match e with
  | Close =>
      (effects ++ [WriteFileSync outputFilename (join nl lines ++ nl)],
       match writeError with
       | Some err => Rejected err
       | None => Resolved
       end)
  | StreamError err => (effects, Rejected err)
  end.

Definition printUsage : list effect :=
  [Log (lit "Usage: chat-parser <input-file>");
   Log (lit "       cat <input-file> | chat-parser -");
   Log (lit "       cat <input-file> | chat-parser - -o <output-file>");
   Log [];
   Log (lit "Options:");
   Log (lit "  -o <file>    Save output to file (only when streaming from stdin)")].

(** The argument loop of [main]: the effects of an early exit, or
    [outputFile] and [inputSource]. *)
Fixpoint parseArgs (args : list jsstring) (outputFile inputSource : jsstring)
  : list effect + jsstring * jsstring :=
  match args with
  | [] => inr (outputFile, inputSource)
  | arg :: rest =>
      if eqb arg (lit "-o") then
        match rest with
        | [] => inl (Log (lit "Error: -o requires a filename") :: printUsage ++ [Exit 1])
        | filename :: rest' => parseArgs rest' filename inputSource
        end
      else if eqb arg (lit "-") then parseArgs rest outputFile (lit "-")
      else if eqb inputSource [] then parseArgs rest outputFile arg
      else inl (Log (lit "Error: unexpected argument '" ++ arg ++ lit "'")
                  :: printUsage ++ [Exit 1])
  end.

Definition transcriptHeader : list effect :=
  [Log (ColorCyan ++ ColorBold ++ lit "=== Claude Code Chat Transcript ==="
          ++ ColorReset);
   Log []].

(** What [main] does once the promise of the stream has settled. *)
Definition afterStream (outcome : settled) : list effect :=
  match outcome with
  | Resolved => []
  | Rejected err => [Error (lit "Error: " ++ err); Exit 1]
  end.

(** The process: its arguments and what the outside supplies.  The
    counter [staticLineNum] starts at 0. *)
Definition main (args : list jsstring) (input : list arrival) (e : ending)
  (writeError : option jsstring) : list effect :=
  match args with
  | [] => printUsage ++ [Exit 1]
  | _ =>
      match parseArgs args [] [] with
      | inl effects => effects
      | inr (outputFile, inputSource) =>
          if eqb inputSource [] then printUsage ++ [Exit 1]
          else
            let isStreaming := eqb inputSource (lit "-") in
            if negb (eqb outputFile []) && negb isStreaming then
              [Log (lit "Error: -o option can only be used when streaming from stdin");
               Exit 1]
            else
              let (effects, outcome) :=
                if negb (eqb outputFile []) then
                  parseAndStreamOutputWithFile input e outputFile writeError 0
                else parseAndStreamOutput input e 0 in
              transcriptHeader ++ effects ++ afterStream outcome
      end
  end.

(** * Vocabulary of the statements *)

(** ** Time stamps, lines and effects *)

(** Two decimal digits, tens first. *)
Definition twoDigits (n : Z) : jsstring :=
  [(48 + Z.to_N (n / 10))%N; (48 + Z.to_N (n mod 10))%N].

Definition isBlank (a : arrival) : bool := eqb (trim (text a)) [].

Definition nonBlank (a : arrival) : bool := negb (isBlank a).

Definition isLog (e : effect) : bool :=
  match e with Log _ => true | _ => false end.

Definition isExec (e : effect) : bool :=
  match e with ExecSync _ _ => true | _ => false end.

Definition isWrite (e : effect) : bool :=
  match e with WriteFileSync _ _ => true | _ => false end.

(** The same [line] event with the external command succeeding. *)
Definition succeeding (a : arrival) : arrival :=
  {| text := text a; elapsed := elapsed a; execError := None |}.

(** ** Messages *)

(** A [tool_result] item whose [text] is [body]. *)
Definition toolResultItem (body : jsstring) : json :=
  JObject [(lit "type", JString (lit "tool_result")); (lit "text", JString body)].

(** The three types the renderers know. *)
Definition knownKind (t : jsstring) : bool :=
  eqb t (lit "system") || eqb t (lit "assistant") || eqb t (lit "user").

(** A content item that is a tool result carrying the error flag. *)
Definition errorFlagged (contentItem : json) : bool :=
  match prop contentItem "type", prop contentItem "is_error" with
  | Ok type, Ok is_error => isString type (lit "tool_result") && truthy is_error
  | _, _ => false
  end.

Definition scenarioB : jsstring :=
  qlit "{'type':'user','message':{'content':[{'type':'tool_result','is_error':true,'text':'boom'}]}}".

(** Scenario C: a blank line between two structured lines. *)
Definition scenarioC : list arrival :=
  [ {| text := qlit "{'type':'system','subtype':'init','session_id':'abc123','model':'m1'}";
       elapsed := 0; execError := None |};
    {| text := lit "   "; elapsed := 1200; execError := None |} ].

Definition scenarioC_last : arrival :=
  {| text := scenarioB; elapsed := 2500; execError := None |}.

(** ** Numbers and keys as [JSON.parse] makes them *)

(** The text after a run of digits does not go on with a digit. *)
Definition noDigitAhead (rest : jsstring) : bool :=
  match rest with
  | [] => true
  | c :: _ => negb (isDigit c)
  end.

(** Digits as [Number::toString] wants them: decimal, the first and the
    last not zero. *)
Definition canonicalDigits (ds : list N) : bool :=
  forallb (fun d => (d <? 10)%N) ds
  && negb (hd 0 ds =? 0)%N && negb (hd 0 (rev ds) =? 0)%N.

(** The numbers [makeNumber] returns: zero with the point at 0, an
    infinity, or canonical digits that are the digits of their own
    double. *)
Definition canonical (x : number) : bool :=
  match x with
  | Infinity _ => true
  | Finite _ [] n => (n =? 0)%Z
  | Finite neg ds n =>
      canonicalDigits ds
      && match ofDecimal neg ds n with
         | Finite neg' ds' n' => Bool.eqb neg neg' && eqb ds ds' && (n =? n')%Z
         | Infinity _ => false
         end
  end.

(** ** Doubles as ratios

    The vocabulary of the arithmetic of [roundToDouble]: a value is a
    ratio [p / q] of integers, and a bound on it in units of [b^j] is an
    inequality between products. *)

Local Open Scope Z_scope.

(** [b ^ j] as the ratio [numer b j / denom b j]. *)
Definition numer (b j : Z) : Z := b ^ Z.max j 0.
Definition denom (b j : Z) : Z := b ^ Z.max (- j) 0.

(** The exponent that [roundToDouble] settles on before the lower limit. *)
Definition binade (p q : Z) : Z :=
  let e0 := Z.log2 p - Z.log2 q - 53 in
  if 2 ^ 53 <=? fst (scale p q e0) / snd (scale p q e0) then e0 + 1 else e0.

(** [p / q] is in the binade of exponent [e]: [2^52 <= (p / q) / 2^e < 2^53]. *)
Definition brackets (p q e : Z) : Prop :=
  2 ^ 52 * (q * numer 2 e) <= p * denom 2 e /\ p * denom 2 e < 2 ^ 53 * (q * numer 2 e).

(** A double: a significand below [2^53] at an exponent in range, and at
    least [2^52] unless the exponent is the lowest. *)
Definition isDouble (m e : Z) : Prop :=
  0 < m < 2 ^ 53 /\ -1074 <= e <= 971 /\ (2 ^ 52 <= m \/ e = -1074).

(** The integer that decimal digits denote. *)
Definition digitsZ (ds : list N) : Z := Z.of_N (digitsValue 0 ds).

Local Close Scope Z_scope.

(** What may follow a number for the parser to stop there. *)
Definition endsNumber (rest : jsstring) : bool :=
  match rest with
  | [] => true
  | c :: _ => negb (isDigit c) && negb (isChar c ".")
              && negb (isChar c "e") && negb (isChar c "E")
  end.

(** The numbers [JSON.stringify] prints back as themselves: the finite
    ones, negative zero apart, which is printed as [0]. *)
Definition printable (x : number) : bool :=
  match x with
  | Infinity _ => false
  | Finite neg [] _ => negb neg
  | Finite _ _ _ => true
  end.

(** One more code unit in front of what [parseStringBody] returns. *)
Definition consParsed (c : codeunit) (p : option (jsstring * jsstring)) :=
  match p with
  | Some (t, rest) => Some (c :: t, rest)
  | None => None
  end.

(** Digit values as a decimal numeral of the standard library. *)
Fixpoint digitsToUint (ds : list N) : Decimal.uint :=
  match ds with
  | [] => Decimal.Nil
  | d :: r =>
      let u := digitsToUint r in
      match d with
      | 0 => Decimal.D0 u | 1 => Decimal.D1 u | 2 => Decimal.D2 u
      | 3 => Decimal.D3 u | 4 => Decimal.D4 u | 5 => Decimal.D5 u
      | 6 => Decimal.D6 u | 7 => Decimal.D7 u | 8 => Decimal.D8 u
      | _ => Decimal.D9 u
      end%N
  end.

(** The digit values of a key made of decimal digits. *)
Definition keyDigits (k : jsstring) : list N := map (fun c => (c - 48)%N) k.

(** [k1] comes before [k2] in the property order of an object. *)
Definition keyBefore (k1 k2 : jsstring) : Prop :=
  k1 <> k2
  /\ match arrayIndex k1, arrayIndex k2 with
     | Some i, Some j => (i < j)%N
     | Some _, None => True
     | None, Some _ => False
     | None, None => True
     end.

Inductive orderedKeys : list jsstring -> Prop :=
| orderedKeys_nil : orderedKeys []
| orderedKeys_cons k ks :
    Forall (keyBefore k) ks -> orderedKeys ks -> orderedKeys (k :: ks).

(** The properties of an object are in property order, no key twice. *)
Definition ordered (l : list (jsstring * json)) : Prop := orderedKeys (map fst l).

#[local] Set Warnings "-register-all".

(** The values [JSON.parse] returns. *)
Inductive wellFormed : json -> Prop :=
| wf_null : wellFormed JNull
| wf_bool b : wellFormed (JBool b)
| wf_number x : canonical x = true -> wellFormed (JNumber x)
| wf_string s : wellFormed (JString s)
| wf_array l : Forall wellFormed l -> wellFormed (JArray l)
| wf_object l :
    ordered l -> Forall (fun kv => wellFormed (snd kv)) l -> wellFormed (JObject l).

(** ** The pretty-printed text *)

(** The gap of [JSON.stringify(v, null, 2)]. *)
Definition gap2 : jsstring := lit "  ".

Definition spaces (s : jsstring) : Prop := Forall (fun c => isJSONSpace c = true) s.

(** The values whose numbers all print back as themselves. *)
Fixpoint plainNumbers (v : json) : bool :=
  match v with
  | JNumber x => printable x
  | JArray l => forallb plainNumbers l
  | JObject l => forallb (fun kv => plainNumbers (snd kv)) l
  | _ => true
  end.

(** A line feed and the indentation of the next line. *)
Definition breakLine (indent : jsstring) : jsstring := 10%N :: indent.

(** The elements of an array after the first, each behind its comma. *)
Definition elementsText (inner : jsstring) (l : list json) : jsstring :=
  concat (map (fun v => (lit "," ++ breakLine inner) ++ stringify gap2 inner v) l).

(** A member of an object, and the members after the first. *)
Definition memberText (inner : jsstring) (kv : jsstring * json) : jsstring :=
  quote (fst kv) ++ lit ":" ++ lit " " ++ stringify gap2 inner (snd kv).

Definition membersText (inner : jsstring) (l : list (jsstring * json)) : jsstring :=
  concat (map (fun kv => (lit "," ++ breakLine inner) ++ memberText inner kv) l).

(** What the round trip says of one value. *)
Definition readsBack (v : json) : Prop :=
  wellFormed v -> plainNumbers v = true ->
  forall indent rest fuel,
    spaces indent -> endsNumber rest = true ->
    (length (stringify gap2 indent v ++ rest) < fuel)%nat ->
    parseValue fuel (stringify gap2 indent v ++ rest) = POk v rest.

(** ** Lines, items and renderings *)

(** The same [line] event with its text trimmed. *)
Definition trimmed (a : arrival) : arrival :=
  {| text := trim (text a); elapsed := elapsed a; execError := execError a |}.

(** A content item of type [text]. *)
Definition textItem (t : jsstring) : json :=
  JObject [(lit "type", JString (lit "text")); (lit "text", JString t)].

Definition nonEmpty (t : jsstring) : bool := negb (eqb t []).

(** [errorIndicator] of the console renderer. *)
Definition toolIndicator (is_error : option json) : jsstring :=
  if truthy is_error then ColorRed ++ crossMark ++ lit " Tool error:" ++ ColorReset
  else ColorMagenta ++ checkMark ++ lit " Tool result:" ++ ColorReset.

(** [toolInput] and [withClause] of the console renderer. *)
Definition compactInput (input : option json) : jsstring :=
  match whenTruthy input with
  | i :: _ => JSON_stringify i
  | [] => []
  end.

Definition withClause (toolInput : jsstring) : jsstring :=
  if negb (eqb toolInput []) && negb (eqb toolInput (lit "{}"))
  then lit " with " ++ toolInput else [].

(** An array or an object with something in it. *)
Definition nonEmptyContainer (v : json) : bool :=
  match v with
  | JArray (_ :: _) | JObject (_ :: _) => true
  | _ => false
  end.

(** The parts pushed can all be turned into strings, as [join] does. *)
Definition strings (parts : list json) : Prop :=
  exists ss, mapM toStringJ parts = Ok ss.

(** Two parts pushed for the same item, one by each renderer: the same
    value, or two strings that are not empty. *)
Definition alike (p q : json) : Prop :=
  p = q \/ exists s t, p = JString s /\ q = JString t /\ s <> [] /\ t <> [].

(** A text without line feed: one line. *)
Definition oneLine (s : jsstring) : Prop := Forall (fun c => c <> 10%N) s.

(** A text without the escape character that starts a colour code. *)
Definition clean (s : jsstring) : Prop := Forall (fun c => c <> 27%N) s.

(** No string of the value holds the escape character. *)
Fixpoint cleanValue (v : json) : bool :=
  match v with
  | JString s => forallb (fun c => negb (c =? 27)%N) s
  | JArray l => forallb cleanValue l
  | JObject l => forallb (fun kv => cleanValue (snd kv)) l
  | _ => true
  end.

(** ** The console line of an entry *)

(** [speakerColor] and [contentColor] of [printSingleEntry]. *)
Definition colours (speaker : jsstring) : jsstring * jsstring :=
  if eqb speaker ASSISTANT then (ColorGreen ++ ColorBold, ColorGreen)
  else if eqb speaker USER then (ColorBlue ++ ColorBold, ColorBlue)
  else if eqb speaker SYSTEM then (ColorYellow ++ ColorBold, ColorGray)
  else (ColorWhite, ColorWhite).

(** [prefix] of [printSingleEntry]. *)
Definition consolePrefix (entry : ChatEntry) : jsstring :=
  ColorGray ++ lit "[" ++ padStart 3 48%N (decZ (lineNumber entry)) ++ lit "] "
    ++ ColorDim ++ lit "[" ++ timestamp entry ++ lit "]" ++ ColorReset ++ lit " "
    ++ fst (colours (speaker entry)) ++ speaker entry ++ lit ":" ++ ColorReset.

(** ** The external command *)

(** The styles [buildkite-agent annotate] is called with. *)
Definition styles : list jsstring :=
  [lit "info"; lit "success"; lit "error"; lit "warning"].

(** [context] for the entry with ordinal [k]. *)
Definition contextOf (k : Z) : jsstring := lit "chat-message-" ++ decZ k.

(** [e] runs the external command for the entry with ordinal [k]. *)
Definition annotatedAs (e : effect) (k : Z) : Prop :=
  exists st body,
    In st styles
    /\ e = ExecSync (lit "buildkite-agent annotate --style " ++ st ++ lit " --context "
                       ++ contextOf k ++ lit " --priority 5") body.

(** ** Time stamps read back *)

(** The number a run of decimal digits denotes. *)
Definition stampValue (s : jsstring) : N := digitsValue 0 (keyDigits s).

(** * Properties *)

(** ** Strings *)

Lemma eqb_eq (a b : jsstring) : eqb a b = true <-> a = b.
Proof.
  revert b; induction a as [|x a IH]; intros [|y b]; simpl; split; try easy.
  - rewrite andb_true_iff, N.eqb_eq, IH. now intros [-> ->].
  - intros [= -> ->]. now rewrite N.eqb_refl, (proj2 (IH b) eq_refl).
Qed.

Lemma eqb_refl (a : jsstring) : eqb a a = true.
Proof. now apply eqb_eq. Qed.

Lemma eqb_neq (a b : jsstring) : eqb a b = false <-> a <> b.
Proof.
  rewrite <- eqb_eq. destruct (eqb a b); split; congruence.
Qed.

Lemma split_single (c : codeunit) (s : jsstring) :
  ~ In c s -> split c s = [s].
Proof.
  induction s as [|x s IH]; simpl; intros H; [reflexivity|].
  destruct (N.eqb_spec x c) as [->|_]; [tauto|].
  rewrite IH by tauto. reflexivity.
Qed.

Lemma split_not_nil (c : codeunit) (s : jsstring) : split c s <> [].
Proof.
  destruct s as [|x s]; simpl; [easy|].
  destruct (N.eqb x c); [easy|]. now destruct (split c s).
Qed.

Lemma join_split (c : codeunit) (s : jsstring) : join [c] (split c s) = s.
Proof.
  induction s as [|x s IH]; [reflexivity|].
  simpl split. pose proof (split_not_nil c s) as NE.
  destruct (N.eqb_spec x c) as [->|_].
  - destruct (split c s) as [|l ls]; [contradiction|].
    change (join [c] ([] :: l :: ls)) with ([c] ++ join [c] (l :: ls)).
    now rewrite IH.
  - destruct (split c s) as [|l ls]; [contradiction|].
    rewrite <- IH. destruct ls; reflexivity.
Qed.

(** ** Relative time stamps *)

Lemma padStart_below_100 (n : Z) :
  (0 <= n < 100)%Z -> padStart 2 48%N (decZ n) = twoDigits n.
Proof.
  intros H.
  assert (E : forallb (fun k => eqb (padStart 2 48%N (decZ (Z.of_nat k)))
                                   (twoDigits (Z.of_nat k))) (seq 0 100) = true)
    by (vm_compute; reflexivity).
  rewrite forallb_forall in E.
  specialize (E (Z.to_nat n)).
  rewrite Z2Nat.id in E by lia.
  apply eqb_eq, E, in_seq. lia.
Qed.

Lemma uintChars_short (u : Decimal.uint) :
  (length (uintChars u) <= 1)%nat -> (N.of_uint u <= 9)%N.
Proof.
  destruct u as [|u|u|u|u|u|u|u|u|u|u]; simpl; intros H;
    try (destruct u; simpl in H; try lia; vm_compute; discriminate).
  vm_compute; discriminate.
Qed.

Lemma padStart_from_10 (n : Z) :
  (10 <= n)%Z -> padStart 2 48%N (decZ n) = decZ n.
Proof.
  intros H. unfold padStart.
  replace (2 - length (decZ n))%nat with 0%nat; [reflexivity|].
  destruct (le_lt_dec (length (decZ n)) 1) as [L|L]; [|lia].
  exfalso. destruct n as [|p|p]; try lia.
  unfold decZ, decN in L. apply uintChars_short in L.
  rewrite DecimalN.Unsigned.of_to in L. simpl in L. lia.
Qed.

(** C8.  For a non-negative elapsed time in milliseconds, with [ts] its
    whole seconds: when the whole hours [ts / 3600] are zero the stamp is
    [MM:SS], and when they are at least 1 it is [HH:MM:SS]; minutes and
    seconds are two decimal digits each, and the hours are padded with a
    zero to two digits (two digits below 100, their full decimal form from
    10 on). *)
Theorem formatRelativeTime_shape (elapsed : Z) :
  (0 <= elapsed)%Z ->
  let ts := (elapsed / 1000)%Z in
  let h := (ts / 3600)%Z in
  let m := (ts mod 3600 / 60)%Z in
  let s := (ts mod 60)%Z in
  (h = 0%Z ->
     formatRelativeTime elapsed = twoDigits m ++ lit ":" ++ twoDigits s)
  /\ ((1 <= h)%Z ->
        formatRelativeTime elapsed
        = padStart 2 48%N (decZ h) ++ lit ":" ++ twoDigits m ++ lit ":" ++ twoDigits s)
  /\ ((1 <= h < 100)%Z -> padStart 2 48%N (decZ h) = twoDigits h)
  /\ ((10 <= h)%Z -> padStart 2 48%N (decZ h) = decZ h)
  /\ (0 <= m < 60)%Z /\ (0 <= s < 60)%Z.
Proof.
  intros H ts h m s.
  assert (Hts : (0 <= ts)%Z) by (apply Z.div_pos; lia).
  assert (Hm : (0 <= m < 60)%Z).
  { unfold m. pose proof (Z.mod_pos_bound ts 3600 ltac:(lia)).
    split; [apply Z.div_pos; lia | apply Z.div_lt_upper_bound; lia]. }
  assert (Hs : (0 <= s < 60)%Z) by (apply Z.mod_pos_bound; lia).
  assert (Em : padStart 2 48%N (decZ (Z.rem ts 3600 / 60)) = twoDigits m).
  { rewrite Z.rem_mod_nonneg by lia. apply padStart_below_100. fold m. lia. }
  assert (Es : padStart 2 48%N (decZ (Z.rem ts 60)) = twoDigits s).
  { rewrite Z.rem_mod_nonneg by lia. apply padStart_below_100. fold s. lia. }
  unfold formatRelativeTime. fold ts. fold h. rewrite Em, Es.
  repeat split; try lia.
  - intros ->. reflexivity.
  - intros Hh. destruct (Z.ltb_spec 0 h); [reflexivity | lia].
  - intros Hh. apply padStart_below_100. lia.
  - apply padStart_from_10.
Qed.

Lemma formatRelativeTime_shape_witness :
  formatRelativeTime 3725000 = lit "01:02:05"
  /\ formatRelativeTime 59999 = lit "00:59".
Proof.
  split.
  - destruct (formatRelativeTime_shape 3725000 ltac:(lia)) as (_ & H & _).
    rewrite H by (vm_compute; discriminate). reflexivity.
  - destruct (formatRelativeTime_shape 59999 ltac:(lia)) as (H & _).
    rewrite H by reflexivity. reflexivity.
Defined.

(** ** Progressive disclosure of a tool result *)

Lemma needsDisclosure_iff (maxPreviewLength : nat) (body : jsstring) :
  needsDisclosure maxPreviewLength body = true
  <-> (2 < length (split 10%N body))%nat \/ (maxPreviewLength < length body)%nat.
Proof.
  unfold needsDisclosure. rewrite orb_true_iff, !Nat.ltb_lt. reflexivity.
Qed.

Lemma describeToolResult_fits (errorIndicator body : jsstring) :
  (length (split 10%N body) <= 2)%nat -> (length body <= 400)%nat ->
  describeToolResult errorIndicator body = errorIndicator ++ nl ++ body.
Proof.
  intros H1 H2. unfold describeToolResult.
  destruct (needsDisclosure 400 body) eqn:E; [|reflexivity].
  apply needsDisclosure_iff in E. lia.
Qed.


Lemma extractUserItem_text (body : jsstring) (e : exn) :
  body <> [] -> JSON_parse body = Throw e ->
  extractUserItem (toolResultItem body)
  = Ok (false, [JString (describeToolResult (checkMark ++ lit " Tool result:") body)]).
Proof.
  intros NE P. apply eqb_neq in NE.
  unfold extractUserItem, toolResultItem, toolResultContent, prop, getProp.
  change (lookup (lit "type") _) with (Some (JString (lit "tool_result"))).
  cbn [bind]. change (isString _ (lit "tool_result")) with true. cbv iota.
  change (lookup (lit "is_error") _) with (@None json).
  change (lookup (lit "text") _) with (Some (JString body)).
  cbn [bind whenTruthy truthy]. rewrite NE. cbn [negb bind].
  change (toStringJ (JString body)) with (Ok body). cbn [bind].
  rewrite P. cbn [bind]. destruct body; [discriminate|]. reflexivity.
Qed.

Lemma splitPreview_long (maxPreviewLength : nat) (body : jsstring) :
  (length (split 10%N body) <= 2)%nat -> (maxPreviewLength < length body)%nat ->
  splitPreview maxPreviewLength body
  = (firstn maxPreviewLength body ++ lit "...", skipn maxPreviewLength body).
Proof.
  intros H1 H2. unfold splitPreview.
  apply Nat.ltb_ge in H1. rewrite H1. apply Nat.ltb_lt in H2. now rewrite H2.
Qed.

(** C1, as the code has it.  The body is cut into lines at the line feeds.
    - A body of at most 2 lines and at most 400 code units (2 lines and
      400 code units included) is rendered inline, with no disclosure
      block.
    - A body of at most 2 lines and more than 400 code units (401
      included) is split by length: the inline preview is its first 400
      code units followed by the three dots, 403 code units in all, and
      the collapsible remainder holds the rest, from index 400 on.
    - A body of more than 2 lines (3 included) is split by lines, whatever
      its length: the preview is the first two lines, the remainder the
      lines from the third on, and preview, line feed and remainder make
      up the body; the disclosure block is written unless the remainder
      is empty.
    - Disclosure is needed exactly when the body has more than 2 lines or
      more than 400 code units; a body without line feed is one line.
    - This rendering is what the annotation renderer pushes for a tool
      result whose text is [body], when [body] is not itself JSON. *)
Theorem tool_result_disclosure_boundary (errorIndicator body : jsstring) :
  let lines := split 10%N body in
  ((length lines <= 2)%nat -> (length body <= 400)%nat ->
     describeToolResult errorIndicator body = errorIndicator ++ nl ++ body)
  /\ ((length lines <= 2)%nat -> (400 < length body)%nat ->
        let (preview, remaining) := splitPreview 400 body in
        preview = firstn 400 body ++ lit "..."
        /\ length preview = 403%nat
        /\ remaining = skipn 400 body
        /\ firstn 400 body ++ remaining = body
        /\ describeToolResult errorIndicator body
           = errorIndicator ++ nl ++ preview
               ++ detailsBlock (lit "Show more...") [] remaining)
  /\ ((2 < length lines)%nat ->
        let (preview, remaining) := splitPreview 400 body in
        preview = join nl (firstn 2 lines)
        /\ remaining = join nl (skipn 2 lines)
        /\ preview ++ nl ++ remaining = body
        /\ describeToolResult errorIndicator body
           = if eqb remaining [] then errorIndicator ++ nl ++ preview
             else errorIndicator ++ nl ++ preview
                    ++ detailsBlock (lit "Show more...") [] remaining)
  /\ (needsDisclosure 400 body = true
      <-> (2 < length lines)%nat \/ (400 < length body)%nat)
  /\ (~ In 10%N body -> length lines = 1%nat)
  /\ (forall e, body <> [] -> JSON_parse body = Throw e ->
        extractUserItem (toolResultItem body)
        = Ok (false,
              [JString (describeToolResult (checkMark ++ lit " Tool result:") body)])).
Proof.
  cbv zeta.
  split; [|split; [|split; [|split; [|split; [|apply extractUserItem_text]]]]].
  - apply describeToolResult_fits.
  - intros L H. unfold describeToolResult.
    rewrite splitPreview_long by assumption.
    repeat split.
    + rewrite length_app, firstn_length_le by lia. reflexivity.
    + apply firstn_skipn.
    + assert (E : needsDisclosure 400 body = true)
        by (apply needsDisclosure_iff; right; assumption).
      rewrite E.
      assert (S : eqb (skipn 400 body) [] = false).
      { apply eqb_neq. intros S. apply (f_equal (@length _)) in S.
        rewrite length_skipn in S. change (length (@nil codeunit)) with 0%nat in S. lia. }
      change (negb true) with false. cbv iota. rewrite S. reflexivity.
  - intros L. pose proof (join_split 10%N body) as J.
    assert (E : needsDisclosure 400 body = true)
      by (apply needsDisclosure_iff; left; assumption).
    unfold describeToolResult, splitPreview. rewrite E.
    apply Nat.ltb_lt in L. rewrite L. change (negb true) with false. cbv iota.
    destruct (split 10%N body) as [|a [|b [|c r]]]; try discriminate L.
    split; [reflexivity|]. split; [reflexivity|]. split.
    + rewrite <- J. cbn [firstn skipn].
      change (join [10%N] (a :: b :: c :: r))
        with (a ++ nl ++ b ++ nl ++ join nl (c :: r)).
      change (join nl [a; b]) with (a ++ nl ++ b). now rewrite <- !app_assoc.
    + now destruct (eqb (join nl (skipn 2 (a :: b :: c :: r))) []).
  - apply needsDisclosure_iff.
  - intros H. now rewrite split_single.
Qed.

Lemma tool_result_disclosure_boundary_witness :
  let indicator := checkMark ++ lit " Tool result:" in
  let two := repeat 97%N 199 ++ nl ++ repeat 97%N 200 in
  let three := lit "a" ++ nl ++ lit "b" ++ nl ++ lit "c" in
  describeToolResult indicator (repeat 97%N 400) = indicator ++ nl ++ repeat 97%N 400
  /\ describeToolResult indicator two = indicator ++ nl ++ two
  /\ describeToolResult indicator three
     = indicator ++ nl ++ (lit "a" ++ nl ++ lit "b")
         ++ detailsBlock (lit "Show more...") [] (lit "c").
Proof.
  intros indicator two three. split; [|split].
  - destruct (tool_result_disclosure_boundary indicator (repeat 97%N 400)) as [H _].
    apply H; vm_compute; lia.
  - destruct (tool_result_disclosure_boundary indicator two) as [H _].
    apply H; vm_compute; lia.
  - destruct (tool_result_disclosure_boundary indicator three) as (_ & _ & H & _).
    replace (splitPreview 400 three) with (lit "a" ++ nl ++ lit "b", lit "c") in H
      by (vm_compute; reflexivity).
    destruct H as (_ & _ & _ & H); [vm_compute; lia|]. exact H.
Defined.

(** C1, as the specification states it, fails: for a body of 401 letters
    [a] the preview is 403 code units long, not 400. *)
Lemma preview_of_401_is_not_400 :
  let body := repeat 97%N 401 in
  ~ In 10%N body /\ length body = 401%nat
  /\ needsDisclosure 400 body = true
  /\ length (fst (splitPreview 400 body)) <> 400%nat.
Proof.
  cbv zeta. split; [|split; [|split]].
  - intros H. apply repeat_spec in H. discriminate.
  - apply repeat_length.
  - vm_compute. reflexivity.
  - vm_compute. discriminate.
Qed.

(** ** Ordinals *)

Lemma parseLine_blank (line : jsstring) (elapsed n : Z) :
  trim line = [] -> parseLine line elapsed n = (None, n).
Proof. intros E. unfold parseLine. rewrite E. reflexivity. Qed.

Lemma parseLine_entry (line : jsstring) (elapsed n : Z) :
  trim line <> [] ->
  exists entry,
    parseLine line elapsed n = (Some entry, (n + 1)%Z)
    /\ lineNumber entry = (n + 1)%Z
    /\ rawLine entry = trim line
    /\ timestamp entry = formatRelativeTime elapsed.
Proof.
  intros E. unfold parseLine. apply eqb_neq in E. rewrite E.
  destruct (startsWith (trim line) (lit "{")); [|eauto].
  destruct (JSON_parse (trim line)); [|eauto].
  destruct (formatJSONMessage a) as [[sp ct]|]; eauto.
Qed.

Lemma onLine_blank (a : arrival) (n : Z) :
  isBlank a = true -> onLine a n = ([], n).
Proof.
  intros E. apply eqb_eq in E. unfold onLine.
  rewrite parseLine_blank by assumption. reflexivity.
Qed.

Lemma onLine_counter (a : arrival) (n : Z) :
  snd (onLine a n) = if isBlank a then n else (n + 1)%Z.
Proof.
  destruct (isBlank a) eqn:E.
  - rewrite onLine_blank by assumption. reflexivity.
  - apply eqb_neq in E. unfold onLine.
    destruct (parseLine_entry (text a) (elapsed a) n E) as (entry & -> & _).
    reflexivity.
Qed.

Lemma onLines_app (l1 l2 : list arrival) (n : Z) :
  onLines (l1 ++ l2) n
  = (fst (onLines l1 n) ++ fst (onLines l2 (snd (onLines l1 n))),
     snd (onLines l2 (snd (onLines l1 n)))).
Proof.
  revert n; induction l1 as [|a l1 IH]; intros n; simpl.
  - now destruct (onLines l2 n).
  - destruct (onLine a n) as [e1 n1]. rewrite IH.
    destruct (onLines l1 n1) as [e2 n2]. simpl.
    now rewrite app_assoc.
Qed.

Lemma onLines_counter (l : list arrival) (n : Z) :
  snd (onLines l n) = (n + Z.of_nat (length (filter nonBlank l)))%Z.
Proof.
  revert n; induction l as [|a l IH]; intros n; simpl; [lia|].
  pose proof (onLine_counter a n) as C.
  destruct (onLine a n) as [e1 n1]. specialize (IH n1).
  destruct (onLines l n1) as [e2 n2]. simpl in *. subst n1 n2.
  unfold nonBlank. destruct (isBlank a); simpl length; lia.
Qed.

Lemma onLines_at (before after : list arrival) (a : arrival) :
  let k := Z.of_nat (length (filter nonBlank before)) in
  fst (onLines (before ++ a :: after) 0)
  = fst (onLines before 0) ++ fst (onLine a k)
      ++ fst (onLines after (snd (onLine a k))).
Proof.
  intros k. rewrite onLines_app. cbn [fst]. rewrite onLines_counter. fold k.
  cbn [onLines Z.add]. destruct (onLine a k) as [e1 n1]. cbn [fst snd].
  destruct (onLines after n1) as [e2 n2]. reflexivity.
Qed.

(** C2.  In a run that starts with the counter at 0, a line preceded by
    [k] non-blank lines is handled with the counter at [k]: if it is blank
    (empty once trimmed) it has no effect at all (nothing is classified,
    printed or annotated) and leaves the counter at [k]; otherwise its
    entry has the ordinal [k + 1], the annotation is requested under
    that same ordinal, and the counter becomes [k + 1]. *)
Theorem ordinal_is_rank (before after : list arrival) (a : arrival) :
  let k := Z.of_nat (length (filter nonBlank before)) in
  fst (onLines (before ++ a :: after) 0)
  = fst (onLines before 0) ++ fst (onLine a k)
      ++ fst (onLines after (snd (onLine a k)))
  /\ (isBlank a = true -> onLine a k = ([], k))
  /\ (isBlank a = false ->
        exists entry,
          parseLine (text a) (elapsed a) k = (Some entry, (k + 1)%Z)
          /\ lineNumber entry = (k + 1)%Z
          /\ onLine a k
             = (printSingleEntry entry
                  ++ createBuildkiteAnnotation (text a) (k + 1) (timestamp entry)
                       (execError a),
                (k + 1)%Z)).
Proof.
  intros k. split; [|split].
  - apply onLines_at.
  - apply onLine_blank.
  - intros E. apply eqb_neq in E.
    destruct (parseLine_entry (text a) (elapsed a) k E) as (entry & P & L & _).
    exists entry. split; [assumption|]. split; [assumption|].
    unfold onLine. rewrite P, L. reflexivity.
Qed.

Lemma ordinal_is_rank_witness :
  exists entry,
    parseLine (text scenarioC_last) (elapsed scenarioC_last) 1 = (Some entry, 2%Z)
    /\ lineNumber entry = 2%Z
    /\ fst (onLines (scenarioC ++ [scenarioC_last]) 0)
       = fst (onLines scenarioC 0) ++ fst (onLine scenarioC_last 1).
Proof.
  destruct (ordinal_is_rank scenarioC [] scenarioC_last) as (R & _ & E).
  destruct (E eq_refl) as (entry & P & L & O).
  exists entry. split; [exact P|]. split; [exact L|].
  rewrite R. cbn [onLines fst]. now rewrite app_nil_r.
Defined.

(** ** Failure of the external command *)

Lemma printSingleEntry_logs (entry : ChatEntry) :
  forallb isLog (printSingleEntry entry) = true.
Proof.
  unfold printSingleEntry. destruct (eqb (content entry) []); [reflexivity|].
  destruct (if eqb (speaker entry) ASSISTANT then _ else _) as [sc cc].
  rewrite forallb_app. apply andb_true_iff. split.
  - destruct (split 10%N (content entry)) as [|first others]; [reflexivity|].
    simpl. induction others; simpl; auto.
  - destruct (isJSON entry); reflexivity.
Qed.

Lemma createBuildkiteAnnotation_no_log rawJSONLine lineNumber timestamp execError :
  filter isLog (createBuildkiteAnnotation rawJSONLine lineNumber timestamp execError) = [].
Proof.
  unfold createBuildkiteAnnotation.
  destruct (buildAnnotation _ _ _); [|reflexivity]. now destruct execError.
Qed.

Lemma filter_all {A} (f : A -> bool) (l : list A) :
  forallb f l = true -> filter f l = l.
Proof.
  induction l as [|x l IH]; simpl; [reflexivity|].
  intros H. apply andb_true_iff in H as [-> H]. now rewrite IH.
Qed.

Lemma filter_none {A} (f g : A -> bool) (l : list A) :
  (forall x, f x = true -> g x = false) -> forallb f l = true -> filter g l = [].
Proof.
  intros D. induction l as [|x l IH]; simpl; [reflexivity|].
  intros H. apply andb_true_iff in H as [Hx H]. now rewrite (D x Hx), IH.
Qed.

(** C5.  Take a line whose annotation is requested and whose external
    command fails with [err].  The handler of that line prints the console
    rendering, runs the command once, and logs one warning naming [err] on
    the error channel; nothing else happens and nothing propagates: the
    counter it leaves and the console rendering are those of the same line
    with the command succeeding, and the lines after it are handled as
    usual. *)
Theorem annotation_failure_is_contained
  (before after : list arrival) (a : arrival) (err : jsstring)
  (entry : ChatEntry) (ann : annotation) :
  let k := Z.of_nat (length (filter nonBlank before)) in
  execError a = Some err ->
  parseLine (text a) (elapsed a) k = (Some entry, (k + 1)%Z) ->
  buildAnnotation (text a) (lineNumber entry) (timestamp entry) = Some ann ->
  fst (onLine a k)
  = printSingleEntry entry
      ++ [ExecSync (annotateCommand ann) (markdownContent ann);
          Warn (lit "Warning: Failed to create Buildkite annotation: " ++ err)]
  /\ filter isLog (fst (onLine a k)) = printSingleEntry entry
  /\ filter isLog (fst (onLine (succeeding a) k)) = printSingleEntry entry
  /\ length (filter isExec (fst (onLine a k))) = 1%nat
  /\ snd (onLine a k) = snd (onLine (succeeding a) k)
  /\ fst (onLines (before ++ a :: after) 0)
     = fst (onLines before 0) ++ fst (onLine a k)
         ++ fst (onLines after (k + 1)).
Proof.
  intros k Herr P B.
  assert (E : onLine a k
              = (printSingleEntry entry
                   ++ [ExecSync (annotateCommand ann) (markdownContent ann);
                       Warn (lit "Warning: Failed to create Buildkite annotation: "
                               ++ err)], (k + 1)%Z)).
  { unfold onLine, createBuildkiteAnnotation. rewrite P, B, Herr. reflexivity. }
  assert (E' : onLine (succeeding a) k
               = (printSingleEntry entry
                    ++ [ExecSync (annotateCommand ann) (markdownContent ann)],
                  (k + 1)%Z)).
  { unfold onLine, createBuildkiteAnnotation, succeeding. cbn [text elapsed execError].
    rewrite P, B. reflexivity. }
  rewrite E, E'. cbn [fst snd]. rewrite !filter_app.
  rewrite (filter_all isLog), (filter_none isLog isExec)
    by (try apply printSingleEntry_logs; now intros []).
  repeat split.
  - apply app_nil_r.
  - apply app_nil_r.
  - pose proof (onLines_at before after a) as R. cbv zeta in R. fold k in R.
    rewrite R, E. reflexivity.
Qed.

Lemma annotation_failure_is_contained_witness :
  let a := {| text := lit "hello world"; elapsed := 0;
              execError := Some (lit "Error: Command failed") |} in
  filter isLog (fst (onLine a 0)) = filter isLog (fst (onLine (succeeding a) 0))
  /\ length (filter isExec (fst (onLine a 0))) = 1%nat.
Proof.
  intros a.
  destruct (parseLine_entry (text a) (elapsed a) 0) as (entry & P & L & _);
    [vm_compute; discriminate|].
  destruct (buildAnnotation (text a) (lineNumber entry) (timestamp entry)) as [ann|] eqn:B.
  - destruct (annotation_failure_is_contained [] [] a _ entry ann eq_refl P B)
      as (_ & H1 & H2 & H3 & _).
    cbn [length filter Z.of_nat] in H1, H2, H3. rewrite H1, H2. now split.
  - exfalso. rewrite L in B. revert B.
    unfold buildAnnotation. vm_compute. discriminate.
Defined.

(** ** The output file *)

Lemma onLine_no_write (a : arrival) (n : Z) :
  filter isWrite (fst (onLine a n)) = [].
Proof.
  unfold onLine. destruct (parseLine _ _ _) as [[entry|] n']; [|reflexivity].
  cbn [fst]. rewrite filter_app.
  rewrite (filter_none isLog isWrite) by (try apply printSingleEntry_logs; now intros []).
  unfold createBuildkiteAnnotation.
  destruct (buildAnnotation _ _ _); [|reflexivity]. now destruct (execError a).
Qed.

Lemma onLines_no_write (input : list arrival) (n : Z) :
  filter isWrite (fst (onLines input n)) = [].
Proof.
  revert n; induction input as [|a l IH]; intros n; simpl; [reflexivity|].
  pose proof (onLine_no_write a n) as W.
  destruct (onLine a n) as [e1 n1]. specialize (IH n1).
  destruct (onLines l n1) as [e2 n2]. cbn [fst] in *.
  now rewrite filter_app, W, IH.
Qed.

(** C7.  Live mode with an output file: a command line that names the
    standard input as source and a file [out], the source closing after
    the given lines.  The process prints the header, handles every line,
    and then, once, after the last line and before anything else, writes
    to [out] the raw lines (blank ones included, untrimmed) joined by
    newlines and followed by one newline.  No file is written while lines
    are handled. *)
Theorem output_file_written_once
  (args : list jsstring) (input : list arrival) (out : jsstring)
  (writeError : option jsstring) :
  parseArgs args [] [] = inr (out, lit "-") -> out <> [] ->
  let data := join nl (map text input) ++ nl in
  let run := main args input Close writeError in
  run = transcriptHeader ++ fst (onLines input 0) ++ [WriteFileSync out data]
          ++ afterStream (match writeError with
                          | Some err => Rejected err
                          | None => Resolved
                          end)
  /\ filter isWrite run = [WriteFileSync out data]
  /\ filter isWrite (fst (onLines input 0)) = [].
Proof.
  intros A Hout data run. apply eqb_neq in Hout.
  pose proof (onLines_no_write input 0) as W.
  assert (R : run = transcriptHeader ++ fst (onLines input 0)
                      ++ [WriteFileSync out data]
                      ++ afterStream (match writeError with
                                      | Some err => Rejected err
                                      | None => Resolved
                                      end)).
  { unfold run, main. rewrite A.
    destruct args as [|arg args]; [cbn in A; injection A as <- _; discriminate|].
    change (eqb (lit "-") []) with false.
    change (eqb (lit "-") (lit "-")) with true.
    cbv beta iota zeta. rewrite Hout. cbn [negb andb].
    unfold parseAndStreamOutputWithFile. fold data. now rewrite <- app_assoc. }
  split; [exact R|]. split; [|exact W].
  rewrite R, !filter_app, W. now destruct writeError.
Qed.

Lemma output_file_written_once_witness :
  let input := [ {| text := lit "one"; elapsed := 0; execError := None |};
                 {| text := []; elapsed := 5; execError := None |};
                 {| text := lit " three "; elapsed := 9; execError := None |} ] in
  filter isWrite (main [lit "-"; lit "-o"; lit "out.txt"] input Close None)
  = [WriteFileSync (lit "out.txt") (lit "one" ++ nl ++ nl ++ lit " three " ++ nl)].
Proof.
  intros input.
  destruct (output_file_written_once [lit "-"; lit "-o"; lit "out.txt"] input
              (lit "out.txt") None eq_refl ltac:(discriminate))
    as (_ & H & _).
  exact H.
Defined.

(** ** The command line *)

Lemma main_output_flag_with_file_source
  (args : list jsstring) (outputFile inputSource : jsstring)
  (input : list arrival) (e : ending) (writeError : option jsstring) :
  parseArgs args [] [] = inr (outputFile, inputSource) ->
  outputFile <> [] -> inputSource <> [] -> inputSource <> lit "-" ->
  main args input e writeError
  = [Log (lit "Error: -o option can only be used when streaming from stdin"); Exit 1].
Proof.
  intros P Ho Hi Hs. unfold main. rewrite P.
  destruct args as [|arg args]; [simpl in P; congruence|].
  apply eqb_neq in Ho, Hi, Hs. rewrite Ho, Hi, Hs. reflexivity.
Qed.

(** C6.  What the program does for [-o out.txt in.txt]: it prints the one
    line of the error and exits with status 1 before any line is handled;
    the usage text, which the other rejected command lines get, is not
    printed. *)
Theorem output_flag_with_file_source_prints_no_usage
  (input : list arrival) (e : ending) (writeError : option jsstring) :
  let run := main [lit "-o"; lit "out.txt"; lit "in.txt"] input e writeError in
  run = [Log (lit "Error: -o option can only be used when streaming from stdin"); Exit 1]
  /\ filter isLog run
     = [Log (lit "Error: -o option can only be used when streaming from stdin")]
  /\ main [lit "-o"] input e writeError
     = Log (lit "Error: -o requires a filename") :: printUsage ++ [Exit 1]
  /\ main [lit "in.txt"; lit "extra"] input e writeError
     = Log (lit "Error: unexpected argument 'extra'") :: printUsage ++ [Exit 1]
  /\ main [] input e writeError = printUsage ++ [Exit 1].
Proof.
  cbv zeta.
  rewrite (main_output_flag_with_file_source _ (lit "out.txt") (lit "in.txt"))
    by (reflexivity || discriminate).
  repeat split.
Qed.

(** ** Rendering by kind of event *)

Lemma isString_true (v : option json) (s : jsstring) :
  isString v s = true <-> v = Some (JString s).
Proof.
  unfold isString. destruct v as [[]|]; split; try easy.
  - intros H. apply eqb_eq in H. now subst.
  - intros [= ->]. apply eqb_refl.
Qed.

Lemma isString_other (t s : jsstring) :
  t <> s -> isString (Some (JString t)) s = false.
Proof. intros H. now apply eqb_neq. Qed.

Lemma bind_Ok {A B} (r : result A) (k : A -> result B) (b : B) :
  bind r k = Ok b -> exists a, r = Ok a /\ k a = Ok b.
Proof. destruct r; simpl; [eauto | discriminate]. Qed.

Lemma extract_unknown (msg : json) (t : jsstring) :
  prop msg "type" = Ok (Some (JString t)) -> knownKind t = false ->
  extractCleanJSONContentWithErrorCheck msg
  = Ok {| r_speaker := toUpperCase t; r_content := unknownMessageType;
          r_hasError := false |}.
Proof.
  intros T K. unfold knownKind in K. apply orb_false_iff in K as [K K3].
  apply orb_false_iff in K as [K1 K2].
  unfold extractCleanJSONContentWithErrorCheck. rewrite T. cbn [bind isString].
  rewrite K1, K2, K3. reflexivity.
Qed.

Lemma format_unknown (msg : json) (t : jsstring) :
  prop msg "type" = Ok (Some (JString t)) -> knownKind t = false ->
  formatJSONMessage msg = Ok (toUpperCase t, unknownMessageType).
Proof.
  intros T K. unfold knownKind in K. apply orb_false_iff in K as [K K3].
  apply orb_false_iff in K as [K1 K2].
  unfold formatJSONMessage. rewrite T. cbn [bind isString].
  rewrite K1, K2, K3. reflexivity.
Qed.

Lemma sessionInitialized_shape (msg : json) (c : jsstring) :
  sessionInitialized msg = Ok c -> exists rest, c = ch "S" :: rest.
Proof.
  unfold sessionInitialized. intros H.
  apply bind_Ok in H as (? & _ & H). apply bind_Ok in H as (? & _ & H).
  apply bind_Ok in H as (? & _ & H). apply bind_Ok in H as (? & _ & H).
  injection H as <-. eexists. reflexivity.
Qed.

Lemma extract_system (msg : json) :
  prop msg "type" = Ok (Some (JString (lit "system"))) ->
  forall r, extractCleanJSONContentWithErrorCheck msg = Ok r ->
  r_speaker r = SYSTEM /\ r_hasError r = false
  /\ exists rest, r_content r = ch "S" :: rest.
Proof.
  intros T r. unfold extractCleanJSONContentWithErrorCheck. rewrite T.
  cbn [bind]. change (isString _ (lit "system")) with true. cbv iota.
  intros H. apply bind_Ok in H as (sub & _ & H).
  destruct (isString sub (lit "init")).
  - apply bind_Ok in H as (c & S & H). injection H as <-.
    apply sessionInitialized_shape in S. cbn. auto.
  - injection H as <-. cbn. split; [|split]; try reflexivity. eexists. reflexivity.
Qed.

Lemma format_system (msg : json) :
  prop msg "type" = Ok (Some (JString (lit "system"))) ->
  forall sp ct, formatJSONMessage msg = Ok (sp, ct) ->
  sp = SYSTEM /\ ct <> [].
Proof.
  intros T sp ct. unfold formatJSONMessage. rewrite T.
  cbn [bind]. change (isString _ (lit "system")) with true. cbv iota.
  intros H. apply bind_Ok in H as (sub & _ & H).
  destruct (isString sub (lit "init")).
  - apply bind_Ok in H as (c & S & H). injection H as <- <-.
    apply sessionInitialized_shape in S as [rest ->]. easy.
  - injection H as <- <-. easy.
Qed.

Lemma printSingleEntry_nil (entry : ChatEntry) :
  printSingleEntry entry = [] <-> content entry = [].
Proof.
  unfold printSingleEntry. split.
  - destruct (eqb (content entry) []) eqn:E; [intros _; now apply eqb_eq|].
    destruct (if eqb (speaker entry) ASSISTANT then _ else _) as [sc cc].
    pose proof (split_not_nil 10%N (content entry)) as S.
    destruct (split 10%N (content entry)); [easy | discriminate].
  - intros ->. reflexivity.
Qed.

Lemma startsWith_brace (s : jsstring) :
  startsWith s (lit "{") = true -> exists r, s = ch "{" :: r.
Proof.
  destruct s as [|c r]; [discriminate|].
  change (startsWith (c :: r) (lit "{")) with ((123 =? c)%N && startsWith r []).
  intros H. apply andb_true_iff in H as [H _]. apply N.eqb_eq in H. subst. eauto.
Qed.

(** The annotation is withheld exactly when the message was rendered and
    its rendered content is the literal marker. *)
Lemma annotationEntry_None (raw : jsstring) :
  annotationEntry raw = None
  <-> startsWith raw (lit "{") = true
      /\ exists msg r, JSON_parse raw = Ok msg
           /\ extractCleanJSONContentWithErrorCheck msg = Ok r
           /\ r_content r = unknownMessageType.
Proof.
  unfold annotationEntry. destruct (startsWith raw (lit "{")); [|now split; [|intros []]].
  destruct (JSON_parse raw) as [msg|e]; cbn [bind].
  - destruct (extractCleanJSONContentWithErrorCheck msg) as [r|e'] eqn:X.
    + destruct (eqb (r_content r) unknownMessageType) eqn:E; split.
      * intros _. split; [reflexivity|]. apply eqb_eq in E. eauto.
      * reflexivity.
      * discriminate.
      * intros (_ & msg' & r' & [= <-] & X' & C). rewrite X' in X.
        injection X as ->. apply eqb_neq in E. contradiction.
    + split; [discriminate|]. intros (_ & msg' & r' & [= <-] & X' & _). congruence.
  - split; [discriminate|]. intros (_ & msg' & r' & [=] & _).
Qed.

Lemma buildAnnotation_None (line : jsstring) (n : Z) (ts : jsstring) :
  trim line <> [] ->
  (buildAnnotation line n ts = None <-> annotationEntry (trim line) = None).
Proof.
  intros H. apply eqb_neq in H. unfold buildAnnotation. rewrite H.
  destruct (annotationEntry (trim line)); split; easy.
Qed.

(** C3, as the code has it.  Take a line that decodes and whose [type] is
    a string.  It always yields an entry.  Its console rendering is
    produced unless the rendered body is empty, and its annotation is
    emitted unless the rendered body is the literal marker of the unknown
    type.  For a [system] event both are always produced.  For a type
    other than the three known ones the entry has the uppercased type as
    speaker and the marker as body, the console rendering is produced and
    the annotation is withheld. *)
Theorem rendering_by_kind
  (line : jsstring) (elapsedMs n : Z) (msg : json) (t : jsstring) :
  startsWith (trim line) (lit "{") = true ->
  JSON_parse (trim line) = Ok msg ->
  prop msg "type" = Ok (Some (JString t)) ->
  exists entry,
    parseLine line elapsedMs n = (Some entry, (n + 1)%Z)
    /\ (printSingleEntry entry = [] <-> content entry = [])
    /\ (forall k ts,
          buildAnnotation line k ts = None
          <-> exists r, extractCleanJSONContentWithErrorCheck msg = Ok r
                /\ r_content r = unknownMessageType)
    /\ (t = lit "system" ->
          printSingleEntry entry <> []
          /\ forall k ts, buildAnnotation line k ts <> None)
    /\ (knownKind t = false ->
          speaker entry = toUpperCase t
          /\ content entry = unknownMessageType
          /\ printSingleEntry entry <> []
          /\ forall k ts err, createBuildkiteAnnotation line k ts err = []).
Proof.
  intros B P T.
  destruct (startsWith_brace _ B) as [rest R].
  assert (NE : trim line <> []) by (rewrite R; discriminate).
  assert (A : forall k ts,
             buildAnnotation line k ts = None
             <-> exists r, extractCleanJSONContentWithErrorCheck msg = Ok r
                   /\ r_content r = unknownMessageType).
  { intros k ts. rewrite buildAnnotation_None, annotationEntry_None by assumption.
    split.
    - intros (_ & msg' & r & P' & X & C). rewrite P in P'. injection P' as <-. eauto.
    - intros (r & X & C). eauto 6. }
  destruct (parseLine_entry line elapsedMs n NE) as (entry & E & _).
  exists entry. split; [assumption|]. split; [apply printSingleEntry_nil|].
  split; [assumption|].
  unfold parseLine in E. apply eqb_neq in NE. rewrite NE, B, P in E.
  split.
  - intros ->. split.
    + rewrite printSingleEntry_nil.
      destruct (formatJSONMessage msg) as [[sp ct]|] eqn:F; injection E as <-; cbn.
      * now destruct (format_system msg T sp ct F).
      * rewrite R. discriminate.
    + intros k ts H. apply A in H as (r & X & C).
      destruct (extract_system msg T r X) as (_ & _ & rest' & S).
      rewrite S in C. discriminate.
  - intros K. rewrite (format_unknown msg t T K) in E. injection E as <-.
    cbn [speaker content]. repeat split.
    + rewrite printSingleEntry_nil. discriminate.
    + intros k ts err. unfold createBuildkiteAnnotation.
      destruct (A k ts) as [_ ->]; [reflexivity|].
      eexists. split; [apply (extract_unknown msg t T K)|reflexivity].
Qed.

Lemma rendering_by_kind_witness :
  let line := qlit "{'type':'stra" ++ [0xDF%N] ++ qlit "e','subtype':'success'}" in
  exists entry,
    parseLine line 0 0 = (Some entry, 1%Z)
    /\ speaker entry = lit "STRASSE"
    /\ content entry = unknownMessageType
    /\ createBuildkiteAnnotation line 1 (lit "00:00") None = [].
Proof.
  intros line.
  destruct (rendering_by_kind line 0 0
              (JObject [(lit "type", JString (lit "stra" ++ [0xDF%N] ++ lit "e"));
                        (lit "subtype", JString (lit "success"))])
              (lit "stra" ++ [0xDF%N] ++ lit "e"))
    as (entry & E & _ & _ & _ & K); try (vm_compute; reflexivity).
  exists entry. split; [exact E|].
  destruct (K eq_refl) as (S & C & _ & A).
  split; [rewrite S; vm_compute; reflexivity|]. split; [exact C|]. apply A.
Defined.

(** C3, as the specification states it, fails: the line
    [{"type":"assistant"}] decodes as an assistant event, its annotation
    is emitted, and no console rendering is produced for it. *)
Lemma assistant_without_content_is_not_printed :
  let line := qlit "{'type':'assistant'}" in
  exists msg entry a,
    JSON_parse line = Ok msg
    /\ prop msg "type" = Ok (Some (JString (lit "assistant")))
    /\ parseLine line 0 0 = (Some entry, 1%Z)
    /\ printSingleEntry entry = []
    /\ buildAnnotation line 1 (timestamp entry) = Some a.
Proof.
  cbv zeta. eexists _, _, _.
  split; [vm_compute; reflexivity|].
  split; [vm_compute; reflexivity|].
  split; [vm_compute; reflexivity|].
  split; vm_compute; reflexivity.
Qed.

(** ** Suppression by content *)

(** C10.  The annotation is withheld on equality of the rendered content
    with the literal [Unknown message type].  The assistant event whose
    one text item is that literal decodes to a known kind, is rendered
    with the speaker [ASSISTANT], and gets no annotation: no command is
    run for it, whatever the ordinal and the time stamp. *)
Theorem suppression_is_by_content :
  let line :=
    qlit "{'type':'assistant','message':{'content':[{'type':'text','text':'Unknown message type'}]}}" in
  (forall raw,
     annotationEntry raw = None
     <-> startsWith raw (lit "{") = true
         /\ exists msg r, JSON_parse raw = Ok msg
              /\ extractCleanJSONContentWithErrorCheck msg = Ok r
              /\ r_content r = unknownMessageType)
  /\ exists msg,
       JSON_parse (trim line) = Ok msg
       /\ prop msg "type" = Ok (Some (JString (lit "assistant")))
       /\ knownKind (lit "assistant") = true
       /\ extractCleanJSONContentWithErrorCheck msg
          = Ok {| r_speaker := ASSISTANT; r_content := lit "Unknown message type";
                  r_hasError := false |}
       /\ forall k ts err, createBuildkiteAnnotation line k ts err = [].
Proof.
  cbv zeta. split; [apply annotationEntry_None|].
  eexists. split; [vm_compute; reflexivity|].
  split; [vm_compute; reflexivity|].
  split; [reflexivity|].
  split; [vm_compute; reflexivity|].
  intros k ts err. unfold createBuildkiteAnnotation, buildAnnotation.
  match goal with |- context [annotationEntry ?x] =>
    replace (annotationEntry x) with (@None rendered) by (vm_compute; reflexivity) end.
  match goal with |- context [eqb ?x []] =>
    replace (eqb x []) with false by (vm_compute; reflexivity) end.
  reflexivity.
Qed.

(** ** The style of an annotation *)

Lemma extractUserItem_flag (contentItem : json) (b : bool) (parts : list json) :
  extractUserItem contentItem = Ok (b, parts) -> b = errorFlagged contentItem.
Proof.
  unfold extractUserItem, errorFlagged. intros H.
  apply bind_Ok in H as (ty & -> & H).
  destruct (isString ty (lit "tool_result")).
  - apply bind_Ok in H as (ie & -> & H). apply bind_Ok in H as (rc & _ & H).
    destruct rc as [| | |[|]| |]; try discriminate; now injection H as <- _.
  - apply bind_Ok in H as (tx & T & H). injection H as <- _.
    now destruct (prop contentItem "is_error").
Qed.

Lemma mapM_flags (items : list json) (turns : list (bool * list json)) :
  mapM extractUserItem items = Ok turns ->
  existsb fst turns = existsb errorFlagged items.
Proof.
  revert turns; induction items as [|i items IH]; intros turns; simpl.
  - now intros [= <-].
  - intros H. apply bind_Ok in H as ([b parts] & F & H).
    apply bind_Ok in H as (rest & M & H). injection H as <-.
    simpl. now rewrite (IH rest M), (extractUserItem_flag i b parts F).
Qed.

(** What a rendered message is, by the [type] it was rendered from. *)
Lemma extract_cases (msg : json) (r : rendered) :
  extractCleanJSONContentWithErrorCheck msg = Ok r ->
  exists type,
    prop msg "type" = Ok type
    /\ (isString type (lit "system") = true /\ r_speaker r = SYSTEM
        \/ isString type (lit "assistant") = true /\ r_speaker r = ASSISTANT
           /\ r_hasError r = false
        \/ isString type (lit "user") = true /\ r_speaker r = USER
           /\ (exists items, contentItems msg = Ok items
                 /\ r_hasError r = existsb errorFlagged items)
        \/ r_content r = unknownMessageType).
Proof.
  intros H. pose proof H as H0. unfold extractCleanJSONContentWithErrorCheck in H.
  apply bind_Ok in H as (ty & T & H). exists ty. split; [assumption|].
  destruct (isString ty (lit "system")) eqn:E1.
  { left. split; [reflexivity|]. apply isString_true in E1. subst ty.
    now destruct (extract_system msg T r H0). }
  destruct (isString ty (lit "assistant")) eqn:E2.
  { right; left. apply bind_Ok in H as (? & _ & H). apply bind_Ok in H as (? & _ & H).
    apply bind_Ok in H as (? & _ & H). now injection H as <-. }
  destruct (isString ty (lit "user")) eqn:E3.
  { right; right; left. apply bind_Ok in H as (items & I & H).
    apply bind_Ok in H as (turns & M & H). apply bind_Ok in H as (? & _ & H).
    injection H as <-. cbn. split; [reflexivity|]. split; [reflexivity|].
    exists items. split; [assumption|]. now apply mapM_flags. }
  right; right; right. apply bind_Ok in H as (? & _ & H). now injection H as <-.
Qed.

Lemma startsWith_app (a b p : jsstring) :
  startsWith a p = true -> startsWith (a ++ b) p = true.
Proof.
  revert a; induction p as [|x p IH]; intros a; [reflexivity|].
  destruct a as [|y a]; simpl; [discriminate|].
  intros H. apply andb_true_iff in H as [-> H]. now apply IH.
Qed.

Lemma includes_app_l (a b p : jsstring) :
  includes a p = true -> includes (a ++ b) p = true.
Proof.
  induction a as [|x a IH]; simpl.
  - rewrite orb_false_r. destruct p; [|discriminate]. intros _. now destruct b.
  - intros H. apply orb_true_iff in H as [H|H].
    + apply (startsWith_app (x :: a) b) in H. simpl in H. now rewrite H.
    + rewrite IH by assumption. apply orb_true_r.
Qed.

Lemma includes_app_r (a b p : jsstring) :
  includes b p = true -> includes (a ++ b) p = true.
Proof.
  intros H. induction a as [|x a IH]; simpl; [assumption|].
  rewrite IH. apply orb_true_r.
Qed.

(** C4, as the code has it.  The style follows what the annotation
    renderer makes of the line, in one of two ways.
    - The line is shown as [SYSTEM] text: it does not start with a brace,
      or does not parse, or the annotation renderer throws on the decoded
      message.  The style is [warning], whatever the type of the event and
      the error flags of its items.
    - The line decodes and the annotation renderer returns.  The style is
      [warning] for an event of type [system], [info] for one of type
      [assistant], and for one of type [user] it is [error] when some
      content item is a tool result carrying the error flag and [success]
      when none is.
    No other annotation is emitted.  In particular scenario B has the
    style [error] and a body with the error indicator and [boom], under
    any ordinal and time stamp. *)
Theorem annotation_style_by_role :
  (forall (line : jsstring) (n : Z) (ts : jsstring) (a : annotation),
     buildAnnotation line n ts = Some a ->
     ((startsWith (trim line) (lit "{") = false
       \/ (exists e, JSON_parse (trim line) = Throw e)
       \/ (exists msg e, JSON_parse (trim line) = Ok msg
              /\ extractCleanJSONContentWithErrorCheck msg = Throw e))
      /\ annotationEntry (trim line)
         = Some {| r_speaker := SYSTEM; r_content := trim line; r_hasError := false |}
      /\ style a = lit "warning")
     \/ (exists msg r,
           startsWith (trim line) (lit "{") = true
           /\ JSON_parse (trim line) = Ok msg
           /\ extractCleanJSONContentWithErrorCheck msg = Ok r
           /\ annotationEntry (trim line) = Some r
           /\ (prop msg "type" = Ok (Some (JString (lit "system")))
               /\ r_speaker r = SYSTEM /\ style a = lit "warning"
               \/ prop msg "type" = Ok (Some (JString (lit "assistant")))
                  /\ r_speaker r = ASSISTANT /\ style a = lit "info"
               \/ prop msg "type" = Ok (Some (JString (lit "user")))
                  /\ r_speaker r = USER
                  /\ exists items,
                       contentItems msg = Ok items
                       /\ (existsb errorFlagged items = true -> style a = lit "error")
                       /\ (existsb errorFlagged items = false
                           -> style a = lit "success"))))
  /\ (forall (n : Z) (ts : jsstring),
        exists a,
          buildAnnotation scenarioB n ts = Some a
          /\ style a = lit "error"
          /\ includes (markdownContent a) (crossMark ++ lit " Tool error:") = true
          /\ includes (markdownContent a) (lit "boom") = true).
Proof.
  split.
  - intros line n ts a H. unfold buildAnnotation in H.
    destruct (eqb (trim line) []); [discriminate|].
    destruct (annotationEntry (trim line)) as [r|] eqn:A; [|discriminate].
    injection H as <-. cbn [style]. pose proof A as A0.
    unfold annotationEntry in A.
    destruct (startsWith (trim line) (lit "{")) eqn:B.
    2:{ injection A as <-. left. auto. }
    destruct (JSON_parse (trim line)) as [msg|e] eqn:P; cbn [bind] in A.
    2:{ injection A as <-. left. split; [right; left; now exists e|]. auto. }
    destruct (extractCleanJSONContentWithErrorCheck msg) as [r'|e] eqn:X.
    2:{ injection A as <-. left. split; [right; right; now exists msg, e|]. auto. }
    destruct (eqb (r_content r') unknownMessageType) eqn:C; [discriminate|].
    injection A as ->. apply eqb_neq in C.
    right. exists msg, r. do 4 (split; [assumption || reflexivity|]).
    destruct (extract_cases msg r X) as (ty & T & [(S & Sp)|[(S & Sp & He)|[(S & Sp & I)|U]]]);
      [| | |contradiction]; apply isString_true in S; subst ty; rewrite Sp.
    + left. auto.
    + right; left. auto.
    + right; right. split; [assumption|]. split; [reflexivity|].
      destruct I as (items & I & E). exists items. split; [assumption|].
      rewrite <- E. split; intros ->; reflexivity.
  - intros n ts. unfold buildAnnotation.
    replace (eqb (trim scenarioB) []) with false by (vm_compute; reflexivity).
    replace (annotationEntry (trim scenarioB))
      with (Some {| r_speaker := USER;
                    r_content := crossMark ++ lit " Tool error:" ++ nl ++ lit "boom";
                    r_hasError := true |}) by (vm_compute; reflexivity).
    eexists. split; [reflexivity|]. cbn [style markdownContent r_speaker r_content r_hasError].
    split; [reflexivity|].
    split; apply includes_app_r, includes_app_r, includes_app_r, includes_app_r,
      includes_app_r, includes_app_r, includes_app_r, includes_app_r, includes_app_l;
      vm_compute; reflexivity.
Qed.

Lemma annotation_style_by_role_witness :
  exists a,
    buildAnnotation scenarioB 3 (lit "00:07") = Some a
    /\ style a = lit "error".
Proof.
  destruct (buildAnnotation scenarioB 3 (lit "00:07")) as [a|] eqn:B.
  - exists a. split; [reflexivity|].
    destruct (proj1 annotation_style_by_role _ _ _ _ B)
      as [(_ & R & _)|(msg & r & _ & P & _ & _ & D)].
    + exfalso. revert R. vm_compute. discriminate.
    + assert (E : JSON_parse (trim scenarioB)
                  = Ok (JObject
                          [(lit "type", JString (lit "user"));
                           (lit "message",
                            JObject
                              [(lit "content",
                                JArray
                                  [JObject
                                     [(lit "type", JString (lit "tool_result"));
                                      (lit "is_error", JBool true);
                                      (lit "text", JString (lit "boom"))]])])]))
        by (vm_compute; reflexivity).
      rewrite E in P. injection P as <-.
      destruct D as [(T & _)|[(T & _)|(_ & _ & items & I & S & _)]];
        [discriminate T|discriminate T|].
      apply S. revert I. vm_compute. now intros [= <-].
  - exfalso. revert B. vm_compute. discriminate.
Defined.

(** C4, as the specification states it, fails: the line
    [{"type":"user","message":{"content":[{"type":"tool_result","is_error":true,"text":{"a":1}}]}}]
    decodes as an event of type [user] with a tool result carrying the
    error flag, and the console shows it under the speaker [USER] with the
    error indicator; the annotation renderer throws on the text, which is
    not a string, so that the annotation shows the line as [SYSTEM] text
    and its style is [warning], not [error]. *)
Lemma flagged_user_event_is_styled_warning :
  let line :=
    qlit "{'type':'user','message':{'content':[{'type':'tool_result','is_error':true,'text':{'a':1}}]}}" in
  exists msg items entry a,
    JSON_parse (trim line) = Ok msg
    /\ prop msg "type" = Ok (Some (JString (lit "user")))
    /\ contentItems msg = Ok items
    /\ existsb errorFlagged items = true
    /\ extractCleanJSONContentWithErrorCheck msg = Throw TypeError
    /\ parseLine line 0 0 = (Some entry, 1%Z)
    /\ speaker entry = USER
    /\ includes (content entry) (crossMark ++ lit " Tool error:") = true
    /\ buildAnnotation line 1 (timestamp entry) = Some a
    /\ style a = lit "warning"
    /\ style a <> lit "error".
Proof.
  cbv zeta. eexists _, _, _, _.
  split; [vm_compute; reflexivity|].
  split; [vm_compute; reflexivity|].
  split; [vm_compute; reflexivity|].
  split; [vm_compute; reflexivity|].
  split; [vm_compute; reflexivity|].
  split; [vm_compute; reflexivity|].
  split; [vm_compute; reflexivity|].
  split; [vm_compute; reflexivity|].
  split; [vm_compute; reflexivity|].
  split; [vm_compute; reflexivity|].
  vm_compute. discriminate.
Qed.

(** ** The fuel of [JSON.parse] *)

Ltac break_match :=
  match goal with
  | H : context [match ?x with _ => _ end] |- _ => destruct x eqn:?
  | |- context [match ?x with _ => _ end] => destruct x eqn:?
  end.

Lemma skipWs_length (s : jsstring) : (length (skipWs s) <= length s)%nat.
Proof.
  induction s as [|c r IH]; simpl; [lia|]. destruct (isJSONSpace c); simpl; lia.
Qed.

Lemma spanDigits_length (s : jsstring) (ds : list N) (rest : jsstring) :
  spanDigits s = (ds, rest) -> (length ds + length rest = length s)%nat.
Proof.
  revert ds rest; induction s as [|c r IH]; simpl; intros ds rest.
  - intros [= <- <-]. reflexivity.
  - destruct (isDigit c).
    + destruct (spanDigits r) as [ds' rest']. intros [= <- <-].
      specialize (IH _ _ eq_refl). simpl. lia.
    + intros [= <- <-]. simpl. lia.
Qed.

Lemma parseStringBody_length (s t rest : jsstring) :
  parseStringBody s = Some (t, rest) -> (length rest < length s)%nat.
Proof.
  remember (length s) as n eqn:L. revert s t rest L.
  induction n as [n IH] using lt_wf_ind. intros s t rest L.
  destruct s as [|c r]; [discriminate|]. cbn [parseStringBody].
  intros H. repeat break_match; try discriminate; subst;
    try (injection H as <- <-; simpl; lia);
    match goal with
    | E : parseStringBody ?x = Some (_, ?y) |- _ =>
        apply (IH (length x)) in E; [| simpl; lia | reflexivity];
        injection H as <- <-; simpl in *; lia
    end.
Qed.

Lemma parseExpSign_length (s : jsstring) :
  (length (snd (parseExpSign s)) <= length s)%nat.
Proof.
  destruct s as [|c r]; simpl; [lia|].
  destruct (isChar c "-"); [simpl; lia|]. destruct (isChar c "+"); simpl; lia.
Qed.

Lemma parseExponent_length (s rest : jsstring) (x : Z) :
  parseExponent s = Some (x, rest) -> (length rest <= length s)%nat.
Proof.
  unfold parseExponent. pose proof (parseExpSign_length s) as L.
  destruct (parseExpSign s) as [neg s1]. simpl in L.
  destruct (spanDigits s1) as [ds r] eqn:D. apply spanDigits_length in D.
  destruct ds; [discriminate|]. intros [= <- <-]. lia.
Qed.

Lemma parseOptExponent_length (s rest : jsstring) (x : Z) :
  parseOptExponent s = Some (x, rest) -> (length rest <= length s)%nat.
Proof.
  unfold parseOptExponent. destruct s as [|c r]; [intros [= <- <-]; lia|].
  destruct (isChar c "e" || isChar c "E").
  - intros H. apply parseExponent_length in H. simpl. lia.
  - intros [= <- <-]. lia.
Qed.

Lemma parseSign_length (s : jsstring) :
  (length (snd (parseSign s)) <= length s)%nat.
Proof.
  destruct s as [|c r]; simpl; [lia|]. destruct (isChar c "-"); simpl; lia.
Qed.

Lemma parseInt_length (s rest : jsstring) (ds : list N) :
  parseInt s = Some (ds, rest) -> (length rest < length s)%nat.
Proof.
  unfold parseInt. destruct s as [|c r]; [discriminate|].
  destruct (isChar c "0"); [intros [= <- <-]; simpl; lia|].
  destruct (isDigit c) eqn:D; [|discriminate].
  cbn [spanDigits]. rewrite D. destruct (spanDigits r) as [ds' rest'] eqn:S.
  apply spanDigits_length in S. intros [= <- <-]. simpl. lia.
Qed.

Lemma parseFrac_length (s rest : jsstring) (ds : list N) :
  parseFrac s = Some (ds, rest) -> (length rest <= length s)%nat.
Proof.
  unfold parseFrac. destruct s as [|c r]; [intros [= <- <-]; lia|].
  destruct (isChar c ".").
  - destruct (spanDigits r) as [fds s2] eqn:S. apply spanDigits_length in S.
    destruct fds; [discriminate|]. intros [= <- <-]. simpl. lia.
  - intros [= <- <-]. lia.
Qed.

Lemma parseNumber_length (s rest : jsstring) (x : number) :
  parseNumber s = Some (x, rest) -> (length rest < length s)%nat.
Proof.
  unfold parseNumber, parseMagnitude. pose proof (parseSign_length s) as L.
  destruct (parseSign s) as [neg s0]. simpl in L.
  destruct (parseInt s0) as [[ids s1]|] eqn:I; [|discriminate].
  apply parseInt_length in I.
  destruct (parseFrac s1) as [[fds s2]|] eqn:F; [|discriminate].
  apply parseFrac_length in F.
  destruct (parseOptExponent s2) as [[e s3]|] eqn:E; [|discriminate].
  apply parseOptExponent_length in E. intros [= <- <-]. lia.
Qed.

Lemma parseKey_length (s k rest : jsstring) :
  parseKey s = Some (k, rest) -> (length rest < length s)%nat.
Proof.
  unfold parseKey. intros H. pose proof (skipWs_length s).
  repeat break_match; try discriminate; subst.
  injection H as <- <-.
  match goal with E : parseStringBody _ = _ |- _ => apply parseStringBody_length in E end.
  match goal with E : skipWs ?j = _ :: _ |- _ =>
    pose proof (skipWs_length j) as L; rewrite E in L end.
  simpl in *. lia.
Qed.

Lemma parseLiteral_length (s : jsstring) (w : string) (v v' : json) (rest : jsstring) :
  parseLiteral s w v = POk v' rest -> w <> EmptyString -> (length rest < length s)%nat.
Proof.
  unfold parseLiteral. destruct (startsWith s (lit w)) eqn:E; [|discriminate].
  intros [= <- <-] W. rewrite length_skipn.
  destruct w; [contradiction|]. destruct s; [discriminate|]. simpl. lia.
Qed.

Lemma parse_length (fuel : nat) :
  (forall s v rest, parseValue fuel s = POk v rest -> (length rest < length s)%nat)
  /\ (forall s acc v rest, parseElements fuel s acc = POk v rest ->
        (length rest < length s)%nat)
  /\ (forall s acc v rest, parseMembers fuel s acc = POk v rest ->
        (length rest < length s)%nat).
Proof.
  induction fuel as [|f (IHv & IHe & IHm)]; [repeat split; discriminate|].
  repeat split.
  - intros s v rest. cbn [parseValue]. pose proof (skipWs_length s) as W.
    destruct (skipWs s) as [|c r]; [discriminate|]. simpl in W.
    destruct (isChar c "{").
    { pose proof (skipWs_length r) as W2.
      destruct (skipWs r) as [|c2 r2]; [discriminate|]. simpl in W2.
      destruct (isChar c2 "}"); [intros [= <- <-]; lia|].
      destruct (parseKey r) as [[k r3]|] eqn:K; [|discriminate].
      apply parseKey_length in K.
      destruct (parseValue f r3) as [v1 rest1| |] eqn:V; try discriminate.
      apply IHv in V. intros M. apply IHm in M. lia. }
    destruct (isChar c "[").
    { pose proof (skipWs_length r) as W2.
      destruct (skipWs r) as [|c2 r2]; [discriminate|]. simpl in W2.
      destruct (isChar c2 "]"); [intros [= <- <-]; lia|].
      destruct (parseValue f r) as [v1 rest1| |] eqn:V; try discriminate.
      apply IHv in V. intros M. apply IHe in M. lia. }
    destruct (c =? 34)%N.
    { destruct (parseStringBody r) as [[t rest1]|] eqn:S; [|discriminate].
      apply parseStringBody_length in S. intros [= <- <-]. lia. }
    destruct (isChar c "t");
      [intros L; apply parseLiteral_length in L; [simpl in L; lia|discriminate]|].
    destruct (isChar c "f");
      [intros L; apply parseLiteral_length in L; [simpl in L; lia|discriminate]|].
    destruct (isChar c "n");
      [intros L; apply parseLiteral_length in L; [simpl in L; lia|discriminate]|].
    destruct (parseNumber (c :: r)) as [[x rest1]|] eqn:N; [|discriminate].
    apply parseNumber_length in N. intros [= <- <-]. simpl in N. lia.
  - intros s acc v rest. cbn [parseElements]. pose proof (skipWs_length s) as W.
    destruct (skipWs s) as [|c r]; [discriminate|]. simpl in W.
    destruct (isChar c ",").
    { destruct (parseValue f r) as [v1 rest1| |] eqn:V; try discriminate.
      apply IHv in V. intros M. apply IHe in M. lia. }
    destruct (isChar c "]"); [intros [= <- <-]; lia | discriminate].
  - intros s acc v rest. cbn [parseMembers]. pose proof (skipWs_length s) as W.
    destruct (skipWs s) as [|c r]; [discriminate|]. simpl in W.
    destruct (isChar c ",").
    { destruct (parseKey r) as [[k r3]|] eqn:K; [|discriminate].
      apply parseKey_length in K.
      destruct (parseValue f r3) as [v1 rest1| |] eqn:V; try discriminate.
      apply IHv in V. intros M. apply IHm in M. lia. }
    destruct (isChar c "}"); [intros [= <- <-]; lia | discriminate].
Qed.

(** The fuel [JSON_parse] gives is never exhausted. *)
Lemma parse_fuel (fuel : nat) :
  (forall s, (length s < fuel)%nat -> parseValue fuel s <> PFuel)
  /\ (forall s acc, (length s < fuel)%nat -> parseElements fuel s acc <> PFuel)
  /\ (forall s acc, (length s < fuel)%nat -> parseMembers fuel s acc <> PFuel).
Proof.
  induction fuel as [|f (IHv & IHe & IHm)]; [repeat split; intros; lia|].
  destruct (parse_length f) as (Lv & Le & Lm).
  repeat split.
  - intros s F. cbn [parseValue]. pose proof (skipWs_length s) as W.
    destruct (skipWs s) as [|c r]; [discriminate|]. simpl in W.
    destruct (isChar c "{").
    { pose proof (skipWs_length r) as W2.
      destruct (skipWs r) as [|c2 r2]; [discriminate|]. simpl in W2.
      destruct (isChar c2 "}"); [discriminate|].
      destruct (parseKey r) as [[k r3]|] eqn:K; [|discriminate].
      apply parseKey_length in K.
      destruct (parseValue f r3) as [v1 rest1| |] eqn:V; try discriminate.
      - apply Lv in V. apply IHm. lia.
      - exfalso. revert V. apply IHv. lia. }
    destruct (isChar c "[").
    { pose proof (skipWs_length r) as W2.
      destruct (skipWs r) as [|c2 r2]; [discriminate|]. simpl in W2.
      destruct (isChar c2 "]"); [discriminate|].
      destruct (parseValue f r) as [v1 rest1| |] eqn:V; try discriminate.
      - apply Lv in V. apply IHe. lia.
      - exfalso. revert V. apply IHv. lia. }
    destruct (c =? 34)%N; [now destruct (parseStringBody r) as [[]|]|].
    unfold parseLiteral.
    repeat (match goal with |- context [if ?b then _ else _] => destruct b end;
            try discriminate).
    now destruct (parseNumber (c :: r)) as [[]|].
  - intros s acc F. cbn [parseElements]. pose proof (skipWs_length s) as W.
    destruct (skipWs s) as [|c r]; [discriminate|]. simpl in W.
    destruct (isChar c ",").
    { destruct (parseValue f r) as [v1 rest1| |] eqn:V; try discriminate.
      - apply Lv in V. apply IHe. lia.
      - exfalso. revert V. apply IHv. lia. }
    destruct (isChar c "]"); discriminate.
  - intros s acc F. cbn [parseMembers]. pose proof (skipWs_length s) as W.
    destruct (skipWs s) as [|c r]; [discriminate|]. simpl in W.
    destruct (isChar c ",").
    { destruct (parseKey r) as [[k r3]|] eqn:K; [|discriminate].
      apply parseKey_length in K.
      destruct (parseValue f r3) as [v1 rest1| |] eqn:V; try discriminate.
      - apply Lv in V. apply IHm. lia.
      - exfalso. revert V. apply IHv. lia. }
    destruct (isChar c "}"); discriminate.
Qed.

Lemma JSON_parse_fuel (text : jsstring) :
  parseValue (S (length text)) text <> PFuel.
Proof. apply (proj1 (parse_fuel (S (length text)))). apply Nat.lt_succ_diag_r. Qed.

(** ** Digits *)

Lemma isDigit_digit (d : N) : (d < 10)%N -> isDigit (48 + d)%N = true.
Proof. intros H. unfold isDigit. apply andb_true_iff. split; apply N.leb_le; lia. Qed.

Lemma spanDigits_digitChars (ds : list N) (rest : jsstring) :
  Forall (fun d => (d < 10)%N) ds -> noDigitAhead rest = true ->
  spanDigits (digitChars ds ++ rest) = (ds, rest).
Proof.
  intros F R. unfold digitChars.
  induction F as [|d ds D F IH]; cbn [map app spanDigits].
  - destruct rest as [|c r]; [reflexivity|]. cbn [noDigitAhead] in R.
    apply negb_true_iff in R. cbn [spanDigits]. now rewrite R.
  - rewrite isDigit_digit by assumption. rewrite IH.
    f_equal. f_equal. lia.
Qed.

Lemma stripZeros_nonzero (ds : list N) :
  hd 0%N ds <> 0%N -> stripZeros ds = ds.
Proof.
  destruct ds as [|d r]; simpl; [reflexivity|]. intros H.
  now destruct (N.eqb_spec d 0).
Qed.

Lemma stripZeros_repeat (a : nat) (ds : list N) :
  stripZeros (repeat 0%N a ++ ds) = stripZeros ds.
Proof. induction a; simpl; auto. Qed.

Lemma stripZeros_split (ds : list N) :
  exists a, ds = repeat 0%N a ++ stripZeros ds
            /\ (stripZeros ds = [] \/ hd 0%N (stripZeros ds) <> 0%N).
Proof.
  induction ds as [|d r (a & E & H)]; simpl.
  - exists 0%nat. simpl. auto.
  - destruct (N.eqb_spec d 0) as [->|D].
    + exists (S a). simpl. split; [now f_equal|assumption].
    + exists 0%nat. simpl. auto.
Qed.

Lemma stripZeros_Forall (P : N -> Prop) (ds : list N) :
  Forall P ds -> Forall P (stripZeros ds).
Proof.
  induction 1 as [|d r D F IH]; simpl; [constructor|].
  destruct (d =? 0)%N; [assumption|now constructor].
Qed.

Lemma canonicalDigits_spec (ds : list N) :
  canonicalDigits ds = true
  <-> Forall (fun d => (d < 10)%N) ds /\ hd 0%N ds <> 0%N /\ hd 0%N (rev ds) <> 0%N.
Proof.
  unfold canonicalDigits. rewrite !andb_true_iff, !negb_true_iff, !N.eqb_neq.
  rewrite forallb_forall, Forall_forall.
  split.
  - intros ((F & H) & L). repeat split; try assumption.
    intros d Hd. now apply N.ltb_lt, F.
  - intros (F & H & L). repeat split; try assumption.
    intros d Hd. now apply N.ltb_lt, F.
Qed.

Lemma hd_app {A} (d : A) (a b : list A) : a <> [] -> hd d (a ++ b) = hd d a.
Proof. now destruct a. Qed.

(** Digits without the zeros at both ends are canonical, or there is
    none. *)
Lemma trimmed_digits (ds : list N) :
  Forall (fun d => (d < 10)%N) ds ->
  let t := rev (stripZeros (rev (stripZeros ds))) in
  t = [] \/ canonicalDigits t = true.
Proof.
  intros F. cbv zeta.
  set (lead := stripZeros ds). set (t := stripZeros (rev lead)).
  destruct (rev t) as [|d r] eqn:E; [now left|]. right. rewrite <- E.
  apply canonicalDigits_spec.
  assert (Ft : Forall (fun d => (d < 10)%N) t).
  { apply stripZeros_Forall, Forall_rev, stripZeros_Forall, F. }
  assert (Tne : t <> []) by (intros T; rewrite T in E; discriminate).
  split; [now apply Forall_rev|].
  rewrite rev_involutive.
  destruct (stripZeros_split (rev lead)) as (a & S & [T|T]); fold t in S, T;
    [contradiction|].
  split; [|assumption].
  destruct (stripZeros_split ds) as (b & S' & [T'|T']); fold lead in S', T'.
  - rewrite T' in S. simpl in S. destruct a, t; discriminate.
  - apply (f_equal (@rev _)) in S. rewrite rev_involutive, rev_app_distr in S.
    rewrite S in T'. rewrite hd_app in T'; [assumption|].
    intros R. apply (f_equal (@rev _)) in R. rewrite rev_involutive in R. contradiction.
Qed.

Lemma uintDigits_decimal (u : Decimal.uint) :
  Forall (fun d => (d < 10)%N) (uintDigits u).
Proof.
  unfold uintDigits.
  induction u; cbn [uintChars map]; constructor; (assumption || reflexivity).
Qed.

(** *** The digits of a double read back as the double *)

Lemma readsAs_true (m e : Z) (c : list N * Z) :
  readsAs m e c = true -> decimalToDouble (fst c) (snd c) = BFinite m e.
Proof.
  unfold readsAs. destruct (decimalToDouble _ _) as [|m' e'|]; try discriminate.
  intros H. apply andb_true_iff in H as [M E].
  apply Z.eqb_eq in M, E. now subst.
Qed.

Lemma readsAs_digits (m e : Z) (c : list N * Z) :
  readsAs m e c = true -> fst c <> [].
Proof.
  intros R E. apply readsAs_true in R. rewrite E in R. discriminate.
Qed.

Lemma candidate_digits (s n k : Z) :
  fst (candidate s n k) = [] \/ canonicalDigits (fst (candidate s n k)) = true.
Proof. apply trimmed_digits, uintDigits_decimal. Qed.

Lemma digitsOfLength_sound (m e a b n k : Z) (c : list N * Z) :
  digitsOfLength m e a b n k = Some c ->
  readsAs m e c = true /\ canonicalDigits (fst c) = true.
Proof.
  unfold digitsOfLength. cbv zeta.
  set (A := if (0 <=? n - k)%Z then a else _).
  set (B := if (0 <=? n - k)%Z then _ else b).
  set (lo := candidate (A / B) n k). set (hi := candidate (A / B + 1) n k).
  assert (G : forall c', (c' = lo \/ c' = hi) -> readsAs m e c' = true ->
                readsAs m e c' = true /\ canonicalDigits (fst c') = true).
  { intros c' H R. split; [assumption|].
    pose proof (readsAs_digits _ _ _ R) as NE.
    destruct H as [-> | ->];
      [destruct (candidate_digits (A / B) n k) as [E|E]
      |destruct (candidate_digits (A / B + 1) n k) as [E|E]];
      try assumption; now contradiction NE. }
  destruct (readsAs m e lo) eqn:L, (readsAs m e hi) eqn:H; try discriminate.
  - intros [= <-].
    repeat match goal with |- context [if ?t then _ else _] => destruct t end;
      apply G; auto.
  - intros [= <-]. apply G; auto.
  - intros [= <-]. apply G; auto.
Qed.

Lemma firstSome_some {A B} (f : A -> option B) (l : list A) (b : B) :
  firstSome f l = Some b -> exists a, In a l /\ f a = Some b.
Proof.
  induction l as [|a r IH]; cbn [firstSome]; [discriminate|].
  destruct (f a) as [b'|] eqn:E.
  - intros [= <-]. exists a. split; [now left|assumption].
  - intros H. destruct (IH H) as (a' & I & F). exists a'. split; [now right|assumption].
Qed.

Lemma shortestDigits_sound (m e : Z) (ds : list N) (n : Z) :
  shortestDigits m e = Some (ds, n) ->
  decimalToDouble ds n = BFinite m e /\ canonicalDigits ds = true.
Proof.
  unfold shortestDigits. cbv zeta. intros H.
  apply firstSome_some in H as (k & _ & H).
  apply digitsOfLength_sound in H as [R C].
  split; [exact (readsAs_true _ _ _ R) | exact C].
Qed.

(** A number made of digits is made again of its own digits. *)
Lemma ofDecimal_fixed (neg : bool) (ds : list N) (p : Z) (d : N) (r : list N) (n : Z) :
  ofDecimal neg ds p = Finite neg (d :: r) n ->
  ofDecimal neg (d :: r) n = Finite neg (d :: r) n.
Proof.
  unfold ofDecimal at 1.
  destruct (decimalToDouble ds p) as [|m e|] eqn:D; try discriminate.
  destruct (shortestDigits m e) as [[ds' n']|] eqn:S.
  - intros [= -> ->]. unfold ofDecimal.
    destruct (shortestDigits_sound _ _ _ _ S) as [-> _]. now rewrite S.
  - intros [= -> ->]. unfold ofDecimal. now rewrite D, S.
Qed.

Lemma ofDecimal_digits (neg : bool) (ds : list N) (p : Z) (d : N) (r : list N) (n : Z) :
  ds = [] \/ canonicalDigits ds = true ->
  ofDecimal neg ds p = Finite neg (d :: r) n ->
  canonicalDigits (d :: r) = true.
Proof.
  intros C. unfold ofDecimal.
  destruct (decimalToDouble ds p) as [|m e|] eqn:D; try discriminate.
  destruct (shortestDigits m e) as [[ds' n']|] eqn:S.
  - intros [= -> ->]. now destruct (shortestDigits_sound _ _ _ _ S).
  - intros [= -> ->]. destruct C as [C|C]; [discriminate|assumption].
Qed.

Lemma ofDecimal_sign (neg : bool) (ds : list N) (p : Z) :
  match ofDecimal neg ds p with
  | Finite neg' _ _ => neg' = neg
  | Infinity neg' => neg' = neg
  end.
Proof.
  unfold ofDecimal. destruct (decimalToDouble ds p) as [|m e|]; try reflexivity.
  now destruct (shortestDigits m e) as [[]|].
Qed.

Lemma ofDecimal_zero (neg neg' : bool) (ds : list N) (p n : Z) :
  ds = [] \/ canonicalDigits ds = true ->
  ofDecimal neg ds p = Finite neg' [] n -> n = 0%Z.
Proof.
  intros C. unfold ofDecimal.
  destruct (decimalToDouble ds p) as [|m e|] eqn:D; try discriminate.
  - now intros [= _ <-].
  - destruct (shortestDigits m e) as [[ds' n']|] eqn:S.
    + intros [= _ -> ->]. now destruct (shortestDigits_sound _ _ _ _ S).
    + intros [= _ -> ->]. destruct C as [C|C]; [|discriminate].
      discriminate D.
Qed.

Lemma canonical_fixed (neg : bool) (d : N) (r : list N) (n : Z) :
  canonical (Finite neg (d :: r) n) = true
  <-> canonicalDigits (d :: r) = true
      /\ ofDecimal neg (d :: r) n = Finite neg (d :: r) n.
Proof.
  cbn [canonical]. rewrite andb_true_iff. split; intros [C H]; (split; [assumption|]).
  - pose proof (ofDecimal_sign neg (d :: r) n) as S.
    destruct (ofDecimal neg (d :: r) n) as [neg' ds' n'|]; [|discriminate].
    apply andb_true_iff in H as [H N]. apply andb_true_iff in H as [_ H].
    apply eqb_eq in H. apply Z.eqb_eq in N. now subst.
  - rewrite H, eqb_reflx, eqb_refl, Z.eqb_refl. reflexivity.
Qed.

(** Zeros around canonical digits are dropped and the point follows. *)
Lemma makeNumber_padded (neg : bool) (ds : list N) (a b : nat) (n p : Z) :
  canonicalDigits ds = true ->
  p = (n + Z.of_nat a)%Z ->
  makeNumber neg (repeat 0%N a ++ ds ++ repeat 0%N b) p = ofDecimal neg ds n.
Proof.
  intros C ->. apply canonicalDigits_spec in C as (F & H & L).
  assert (NE : ds <> []) by (intros ->; now apply H).
  unfold makeNumber. rewrite stripZeros_repeat.
  rewrite (stripZeros_nonzero (ds ++ _)) by (rewrite hd_app; assumption).
  rewrite rev_app_distr, rev_repeat, stripZeros_repeat.
  rewrite (stripZeros_nonzero (rev ds)) by assumption.
  rewrite rev_involutive. f_equal.
  rewrite !length_app, repeat_length. lia.
Qed.

Lemma makeNumber_exact (neg : bool) (d : N) (r : list N) (n : Z) :
  canonical (Finite neg (d :: r) n) = true ->
  makeNumber neg (d :: r) n = Finite neg (d :: r) n.
Proof.
  intros C. apply canonical_fixed in C as [C X].
  pose proof (makeNumber_padded neg (d :: r) 0 0 n n C) as H.
  cbn [repeat app] in H. rewrite app_nil_r in H. rewrite H by lia. exact X.
Qed.

Lemma makeNumber_trailing (neg : bool) (d : N) (r : list N) (b : nat) (n : Z) :
  canonical (Finite neg (d :: r) n) = true ->
  makeNumber neg ((d :: r) ++ repeat 0%N b) n = Finite neg (d :: r) n.
Proof.
  intros C. apply canonical_fixed in C as [C X].
  rewrite <- X. apply (makeNumber_padded neg (d :: r) 0 b n n C). lia.
Qed.

Lemma makeNumber_leading (neg : bool) (d : N) (r : list N) (a : nat) (n p : Z) :
  canonical (Finite neg (d :: r) n) = true ->
  p = (n + Z.of_nat a)%Z ->
  makeNumber neg (repeat 0%N a ++ d :: r) p = Finite neg (d :: r) n.
Proof.
  intros C E. apply canonical_fixed in C as [C X].
  pose proof (makeNumber_padded neg (d :: r) a 0 n p C E) as H.
  cbn [repeat] in H. rewrite app_nil_r in H. now rewrite H.
Qed.

Lemma makeNumber_canonical (neg : bool) (ds : list N) (p : Z) :
  Forall (fun d => (d < 10)%N) ds -> canonical (makeNumber neg ds p) = true.
Proof.
  intros F. unfold makeNumber.
  set (t := rev (stripZeros (rev (stripZeros ds)))). set (p' := (p - _)%Z).
  pose proof (trimmed_digits ds F) as T. cbv zeta in T. fold t in T.
  pose proof (ofDecimal_sign neg t p') as S.
  destruct (ofDecimal neg t p') as [neg' [|d r] n|neg'] eqn:E; [| |reflexivity].
  - apply ofDecimal_zero in E; [|assumption]. subst n. reflexivity.
  - subst neg'. apply canonical_fixed. split.
    + exact (ofDecimal_digits _ _ _ _ _ _ T E).
    + exact (ofDecimal_fixed _ _ _ _ _ _ E).
Qed.

(** ** Decimal numerals *)

Lemma uintChars_digitChars (u : Decimal.uint) :
  uintChars u = digitChars (uintDigits u).
Proof.
  unfold uintDigits, digitChars. rewrite map_map.
  induction u; cbn [uintChars map]; [reflexivity|..]; now rewrite <- IHu.
Qed.

Lemma digitsValue_acc (u : Decimal.uint) (acc : positive) :
  digitsValue (Npos acc) (uintDigits u) = Npos (Pos.of_uint_acc u acc).
Proof.
  unfold uintDigits. revert acc.
  induction u; intros acc; cbn [uintChars map digitsValue Pos.of_uint_acc];
    [reflexivity|..]; rewrite <- IHu; f_equal; lia.
Qed.

Lemma digitsValue_of_uint (u : Decimal.uint) :
  digitsValue 0 (uintDigits u) = N.of_uint u.
Proof.
  unfold N.of_uint.
  induction u; cbn [Pos.of_uint]; [reflexivity|exact IHu|..];
    apply (digitsValue_acc u).
Qed.

Lemma uintDigits_to_uint (m : N) : uintDigits (N.to_uint m) <> [].
Proof.
  destruct m as [|p]; [discriminate|]. cbn [N.to_uint].
  pose proof (DecimalPos.Unsigned.to_uint_nonnil p) as H.
  now destruct (Pos.to_uint p).
Qed.

Lemma spanDigits_decN (m : N) (rest : jsstring) :
  noDigitAhead rest = true ->
  exists ds, ds <> [] /\ digitsValue 0 ds = m
             /\ spanDigits (decN m ++ rest) = (ds, rest).
Proof.
  intros R. exists (uintDigits (N.to_uint m)).
  split; [apply uintDigits_to_uint|]. split.
  - rewrite digitsValue_of_uint. apply DecimalN.Unsigned.of_to.
  - unfold decN. rewrite uintChars_digitChars.
    apply spanDigits_digitChars; [apply uintDigits_decimal | assumption].
Qed.

(** ** The digits of a double are always found

    [roundToDouble] returns a double, what is less than half a step away
    from a double rounds to it, and among the multiples of [10^(n-17)]
    one is that near: the search of [shortestDigits] ends within 17
    digits. *)

Local Open Scope Z_scope.

Lemma numer_pos (b j : Z) : 0 < b -> 0 < numer b j.
Proof. intros B. apply Z.pow_pos_nonneg; lia. Qed.

Lemma denom_pos (b j : Z) : 0 < b -> 0 < denom b j.
Proof. intros B. apply Z.pow_pos_nonneg; lia. Qed.

Lemma numer_denom_shift (b j j' : Z) :
  0 < b -> j <= j' -> numer b j' * denom b j = b ^ (j' - j) * (numer b j * denom b j').
Proof.
  intros B L. unfold numer, denom. rewrite <- !Z.pow_add_r by lia. f_equal. lia.
Qed.

Lemma numer_denom_one (b j : Z) : (0 <= j -> denom b j = 1) /\ (j <= 0 -> numer b j = 1).
Proof.
  unfold numer, denom. split; intros H.
  - now rewrite Z.max_r by lia.
  - now rewrite Z.max_r by lia.
Qed.

Lemma scale_eq (p q e : Z) : scale p q e = (p * denom 2 e, q * numer 2 e).
Proof.
  unfold scale, numer, denom. destruct (Z.leb_spec 0 e) as [E|E].
  - rewrite (Z.max_r (- e)), (Z.max_l e) by lia. now rewrite Z.pow_0_r, Z.mul_1_r.
  - rewrite (Z.max_l (- e)), (Z.max_r e) by lia. now rewrite Z.pow_0_r, Z.mul_1_r.
Qed.

Lemma roundHalfEven_near (a b m : Z) :
  0 < b -> (2 * m - 1) * b < 2 * a < (2 * m + 1) * b -> roundHalfEven a b = m.
Proof.
  intros B [L U]. unfold roundHalfEven. cbv zeta.
  pose proof (Z.div_mod a b ltac:(lia)) as D.
  pose proof (Z.mod_pos_bound a b B) as R.
  set (f := a / b) in *. set (r := a mod b) in *.
  assert (f = m \/ f = m - 1) by nia.
  destruct (Z.ltb_spec (2 * r) b); [nia|].
  destruct (Z.ltb_spec b (2 * r)); [nia|].
  assert (2 * r = b) by lia. nia.
Qed.

Lemma roundHalfEven_bounds (a b : Z) :
  0 < b -> a / b <= roundHalfEven a b <= a / b + 1.
Proof.
  intros B. unfold roundHalfEven. cbv zeta.
  destruct (2 * (a mod b) <? b); [lia|].
  destruct (b <? 2 * (a mod b)); [lia|].
  destruct (Z.even (a / b)); lia.
Qed.

Lemma binade_spec (p q : Z) :
  0 < p -> 0 < q ->
  2 ^ 52 * (q * numer 2 (binade p q)) <= p * denom 2 (binade p q)
  /\ p * denom 2 (binade p q) < 2 ^ 53 * (q * numer 2 (binade p q)).
Proof.
  intros P Q. unfold binade. cbv zeta.
  set (lp := Z.log2 p). set (lq := Z.log2 q). set (e0 := lp - lq - 53).
  pose proof (Z.log2_nonneg p) as Lp. pose proof (Z.log2_nonneg q) as Lq.
  fold lp in Lp. fold lq in Lq.
  destruct (Z.log2_spec p P) as [P1 P2]. destruct (Z.log2_spec q Q) as [Q1 Q2].
  fold lp in P1, P2. fold lq in Q1, Q2.
  pose proof (numer_pos 2 e0 ltac:(lia)) as Hh. pose proof (denom_pos 2 e0 ltac:(lia)) as Hl.
  assert (E1 : 2 ^ 52 * (2 ^ Z.succ lq * numer 2 e0) = 2 ^ lp * denom 2 e0).
  { unfold numer, denom. rewrite <- !Z.pow_add_r by lia. f_equal. lia. }
  assert (E2 : 2 ^ Z.succ lp * denom 2 e0 = 2 ^ 54 * (2 ^ lq * numer 2 e0)).
  { unfold numer, denom. rewrite <- !Z.pow_add_r by lia. f_equal. lia. }
  assert (A1 : 2 ^ 52 * (q * numer 2 e0) < p * denom 2 e0).
  { apply Z.lt_le_trans with (2 ^ 52 * (2 ^ Z.succ lq * numer 2 e0)).
    - apply Z.mul_lt_mono_pos_l; [reflexivity|]. apply Z.mul_lt_mono_pos_r; assumption.
    - rewrite E1. apply Z.mul_le_mono_nonneg_r; lia. }
  assert (A2 : p * denom 2 e0 < 2 ^ 54 * (q * numer 2 e0)).
  { apply Z.lt_le_trans with (2 ^ Z.succ lp * denom 2 e0).
    - apply Z.mul_lt_mono_pos_r; assumption.
    - rewrite E2. apply Z.mul_le_mono_nonneg_l; [discriminate|].
      apply Z.mul_le_mono_nonneg_r; lia. }
  rewrite scale_eq. cbn [fst snd].
  assert (B0 : 0 < q * numer 2 e0) by (apply Z.mul_pos_pos; assumption).
  destruct (Z.leb_spec (2 ^ 53) (p * denom 2 e0 / (q * numer 2 e0))) as [T|T].
  - assert (T' : 2 ^ 53 * (q * numer 2 e0) <= p * denom 2 e0).
    { pose proof (Z.mul_div_le (p * denom 2 e0) _ B0) as D.
      apply Z.le_trans with (q * numer 2 e0 * (p * denom 2 e0 / (q * numer 2 e0))); [|exact D].
      rewrite (Z.mul_comm (2 ^ 53)). apply Z.mul_le_mono_nonneg_l; lia. }
    pose proof (numer_denom_shift 2 e0 (e0 + 1) ltac:(lia) ltac:(lia)) as S.
    replace (e0 + 1 - e0) with 1 in S by lia. change (2 ^ 1) with 2 in S.
    pose proof (numer_pos 2 (e0 + 1) ltac:(lia)) as Hh'.
    pose proof (denom_pos 2 (e0 + 1) ltac:(lia)) as Hl'.
    set (U0 := numer 2 e0) in *. set (D0 := denom 2 e0) in *.
    set (U1 := numer 2 (e0 + 1)) in *. set (D1 := denom 2 (e0 + 1)) in *.
    change (2 ^ 52) with 4503599627370496 in *.
    change (2 ^ 53) with 9007199254740992 in *.
    change (2 ^ 54) with 18014398509481984 in *.
    split.
    + apply (Z.mul_le_mono_pos_r _ _ D0 Hl).
      replace (4503599627370496 * (q * U1) * D0)
        with (4503599627370496 * q * (U1 * D0)) by ring.
      rewrite S. nia.
    + apply (Z.mul_lt_mono_pos_r D0 _ _ Hl).
      replace (9007199254740992 * (q * U1) * D0)
        with (9007199254740992 * q * (U1 * D0)) by ring.
      rewrite S. nia.
  - split; [lia|].
    destruct (Z.lt_ge_cases (p * denom 2 e0) (2 ^ 53 * (q * numer 2 e0))) as [X|X]; [exact X|].
    exfalso. rewrite (Z.mul_comm (2 ^ 53)) in X.
    apply Z.div_le_lower_bound in X; [lia|assumption].
Qed.

(** Bounds on [p / q] in units of [2^e'] are bounds in units of [2^e]. *)
Lemma shift_le (b k p q e e' : Z) :
  0 < b -> e <= e' ->
  (k * (q * numer b e') <= p * denom b e' <-> k * b ^ (e' - e) * (q * numer b e) <= p * denom b e).
Proof.
  intros B L. pose proof (numer_denom_shift b e e' B L) as S.
  pose proof (denom_pos b e B) as L1. pose proof (denom_pos b e' B) as L2.
  set (d := b ^ (e' - e)) in *.
  set (U := numer b e) in *. set (D := denom b e) in *.
  set (U' := numer b e') in *. set (D' := denom b e') in *.
  split; intros H.
  - apply (Z.mul_le_mono_pos_r _ _ D' L2).
    replace (k * d * (q * U) * D') with (k * q * (d * (U * D'))) by ring.
    rewrite <- S. nia.
  - apply (Z.mul_le_mono_pos_r _ _ D L1).
    replace (k * (q * U') * D) with (k * q * (U' * D)) by ring.
    rewrite S. nia.
Qed.

Lemma shift_lt (b k p q e e' : Z) :
  0 < b -> e <= e' ->
  (p * denom b e' < k * (q * numer b e') <-> p * denom b e < k * b ^ (e' - e) * (q * numer b e)).
Proof.
  intros B L. pose proof (shift_le b k p q e e' B L) as S. lia.
Qed.

Lemma shift_gt (b k p q e e' : Z) :
  0 < b -> e <= e' ->
  (k * (q * numer b e') < p * denom b e' <-> k * b ^ (e' - e) * (q * numer b e) < p * denom b e).
Proof.
  intros B L. pose proof (numer_denom_shift b e e' B L) as S.
  pose proof (denom_pos b e B) as L1. pose proof (denom_pos b e' B) as L2.
  set (d := b ^ (e' - e)) in *.
  set (U := numer b e) in *. set (D := denom b e) in *.
  set (U' := numer b e') in *. set (D' := denom b e') in *.
  split; intros H.
  - apply (Z.mul_lt_mono_pos_r D' _ _ L2).
    replace (k * d * (q * U) * D') with (k * q * (d * (U * D'))) by ring.
    rewrite <- S. nia.
  - apply (Z.mul_lt_mono_pos_r D _ _ L1).
    replace (k * (q * U') * D) with (k * q * (U' * D)) by ring.
    rewrite S. nia.
Qed.

Lemma pow_ge_base (b d : Z) : 1 < b -> 0 < d -> b <= b ^ d.
Proof.
  intros B D. replace d with (1 + (d - 1)) by lia.
  rewrite Z.pow_add_r by lia. rewrite Z.pow_1_r.
  assert (0 < b ^ (d - 1)) by (apply Z.pow_pos_nonneg; lia). nia.
Qed.

Lemma brackets_le (p q e e' : Z) :
  0 < q -> brackets p q e -> p * denom 2 e' < 2 ^ 53 * (q * numer 2 e') -> e <= e'.
Proof.
  intros Q [B1 _] U. destruct (Z.le_gt_cases e e') as [L|L]; [exact L|]. exfalso.
  apply (shift_le 2 (2 ^ 52) p q e' e ltac:(lia) ltac:(lia)) in B1.
  pose proof (pow_ge_base 2 (e - e') ltac:(lia) ltac:(lia)) as G.
  assert (0 < q * numer 2 e') by (apply Z.mul_pos_pos; [assumption|apply numer_pos; lia]).
  change (2 ^ 52) with 4503599627370496 in *.
  change (2 ^ 53) with 9007199254740992 in *. nia.
Qed.

Lemma brackets_unique (p q e e' : Z) :
  0 < q -> brackets p q e -> brackets p q e' -> e = e'.
Proof.
  intros Q B B'.
  pose proof (brackets_le p q e e' Q B (proj2 B')).
  pose proof (brackets_le p q e' e Q B' (proj2 B)). lia.
Qed.

Lemma roundToDouble_eq (p q : Z) :
  roundToDouble p q
  = let e := Z.max (binade p q) (-1074) in
    let m := roundHalfEven (p * denom 2 e) (q * numer 2 e) in
    if m =? 0 then BZero
    else if m =? 2 ^ 53 then
      if 971 <? e + 1 then BInfinite else BFinite (2 ^ 52) (e + 1)
    else if 971 <? e then BInfinite else BFinite m e.
Proof.
  unfold roundToDouble, binade. cbv zeta. now rewrite !scale_eq.
Qed.

(** What rounds to a double: the values less than half a step away from
    it, and a quarter of a step below it where the step halves. *)
Lemma roundToDouble_near (p q m e : Z) :
  0 < p -> 0 < q -> isDouble m e ->
  2 * (p * denom 2 e) < (2 * m + 1) * (q * numer 2 e) ->
  (2 * m - 1) * (q * numer 2 e) < 2 * (p * denom 2 e) ->
  (m = 2 ^ 52 -> -1074 < e -> (4 * m - 1) * (q * numer 2 e) < 4 * (p * denom 2 e)) ->
  roundToDouble p q = BFinite m e.
Proof.
  intros P Q (M & E & N) Hup Hlo Hq.
  pose proof (binade_spec p q P Q) as B. fold (brackets p q (binade p q)) in B.
  assert (QH : 0 < q * numer 2 e) by (apply Z.mul_pos_pos; [assumption|apply numer_pos; lia]).
  rewrite roundToDouble_eq. cbv zeta.
  assert (F : forall e' m', e' = Z.max (binade p q) (-1074) ->
                roundHalfEven (p * denom 2 e') (q * numer 2 e') = m' ->
                m' <> 0 -> m' <> 2 ^ 53 -> e' <= 971 ->
                (let e := Z.max (binade p q) (-1074) in
                 let m := roundHalfEven (p * denom 2 e) (q * numer 2 e) in
                 if m =? 0 then BZero
                 else if m =? 2 ^ 53 then
                   if 971 <? e + 1 then BInfinite else BFinite (2 ^ 52) (e + 1)
                 else if 971 <? e then BInfinite else BFinite m e)
                = BFinite m' e').
  { intros e' m' E1 E2 Z0 Z1 L. cbv zeta. rewrite <- E1, E2.
    destruct (Z.eqb_spec m' 0); [contradiction|].
    destruct (Z.eqb_spec m' (2 ^ 53)); [contradiction|].
    destruct (Z.ltb_spec 971 e'); [lia|reflexivity]. }
  destruct (Z.le_gt_cases (2 ^ 52 * (q * numer 2 e)) (p * denom 2 e)) as [C|C].
  - (* the value is in the binade of the double *)
    assert (Be : brackets p q e).
    { split; [exact C|]. change (2 ^ 53) with 9007199254740992 in *. nia. }
    pose proof (brackets_unique p q _ _ Q B Be) as X.
    apply F.
    + rewrite X. lia.
    + apply roundHalfEven_near; [assumption|]. lia.
    + lia.
    + lia.
    + lia.
  - (* the value is below the binade of the double *)
    assert (Mle : m <= 2 ^ 52) by (change (2 ^ 52) with 4503599627370496 in *; nia).
    destruct (Z.eq_dec e (-1074)) as [->|NE].
    + assert (L : binade p q <= -1074).
      { apply (brackets_le p q _ _ Q B).
        change (2 ^ 52) with 4503599627370496 in *.
        change (2 ^ 53) with 9007199254740992 in *. nia. }
      apply F.
      * lia.
      * apply roundHalfEven_near; [assumption|]. lia.
      * lia.
      * lia.
      * lia.
    + assert (M52 : m = 2 ^ 52) by lia. specialize (Hq M52 ltac:(lia)).
      pose proof (shift_lt 2 (2 ^ 52) p q (e - 1) e ltac:(lia) ltac:(lia)) as S1.
      pose proof (shift_gt 2 (4 * m - 1) (4 * p) q (e - 1) e ltac:(lia) ltac:(lia)) as S2.
      replace (e - (e - 1)) with 1 in S1, S2 by lia. change (2 ^ 1) with 2 in S1, S2.
      assert (QH' : 0 < q * numer 2 (e - 1))
        by (apply Z.mul_pos_pos; [assumption|apply numer_pos; lia]).
      assert (U1 : p * denom 2 (e - 1) < 2 ^ 53 * (q * numer 2 (e - 1))).
      { apply S1 in C. change (2 ^ 52) with 4503599627370496 in *.
        change (2 ^ 53) with 9007199254740992. lia. }
      assert (L1 : (2 ^ 54 - 1) * (q * numer 2 (e - 1)) < 2 * (p * denom 2 (e - 1))).
      { assert (Y : (4 * m - 1) * (q * numer 2 e) < 4 * p * denom 2 e) by lia.
        apply S2 in Y. subst m. change (2 ^ 52) with 4503599627370496 in *.
        change (2 ^ 54) with 18014398509481984. lia. }
      assert (Be : brackets p q (e - 1)).
      { split; [|exact U1]. change (2 ^ 52) with 4503599627370496.
        change (2 ^ 54) with 18014398509481984 in L1. nia. }
      pose proof (brackets_unique p q _ _ Q B Be) as X.
      rewrite X. rewrite (Z.max_l (e - 1)) by lia.
      rewrite (roundHalfEven_near _ _ (2 ^ 53)); [|assumption|].
      2:{ change (2 ^ 53) with 9007199254740992 in *.
          change (2 ^ 54) with 18014398509481984 in *. lia. }
      change (2 ^ 53 =? 0) with false. cbv iota. rewrite Z.eqb_refl.
      destruct (Z.ltb_spec 971 (e - 1 + 1)); [lia|].
      rewrite M52. f_equal. lia.
Qed.

Lemma roundToDouble_isDouble (p q m e : Z) :
  0 < p -> 0 < q -> roundToDouble p q = BFinite m e -> isDouble m e.
Proof.
  intros P Q. rewrite roundToDouble_eq. cbv zeta.
  pose proof (binade_spec p q P Q) as [B1 B2].
  set (be := binade p q) in *. set (e' := Z.max be (-1074)).
  assert (QH : 0 < q * numer 2 e') by (apply Z.mul_pos_pos; [assumption|apply numer_pos; lia]).
  assert (PL : 0 <= p * denom 2 e') by (pose proof (denom_pos 2 e' ltac:(lia)); nia).
  pose proof (roundHalfEven_bounds (p * denom 2 e') (q * numer 2 e') QH) as [R1 R2].
  pose proof (Z.div_pos _ _ PL QH) as F0.
  assert (FB : (e' = be /\ 2 ^ 52 <= p * denom 2 e' / (q * numer 2 e') < 2 ^ 53)
               \/ (e' = -1074 /\ p * denom 2 e' / (q * numer 2 e') < 2 ^ 52)).
  { destruct (Z.le_gt_cases (-1074) be) as [L|L].
    - left. assert (X : e' = be) by (unfold e'; lia). rewrite X. split; [reflexivity|].
      assert (QB : 0 < q * numer 2 be) by (apply Z.mul_pos_pos; [assumption|apply numer_pos; lia]).
      split.
      + apply Z.div_le_lower_bound; [assumption|]. lia.
      + apply Z.div_lt_upper_bound; [assumption|]. lia.
    - right. assert (X : e' = -1074) by (unfold e'; lia). rewrite X. split; [reflexivity|].
      apply Z.div_lt_upper_bound; [rewrite <- X; assumption|].
      replace (q * numer 2 (-1074) * 2 ^ 52) with (2 ^ 52 * (q * numer 2 (-1074))) by ring.
      apply (shift_lt 2 (2 ^ 52) p q be (-1074) ltac:(lia) ltac:(lia)).
      pose proof (pow_ge_base 2 (-1074 - be) ltac:(lia) ltac:(lia)) as G.
      assert (0 < q * numer 2 be) by (apply Z.mul_pos_pos; [assumption|apply numer_pos; lia]).
      change (2 ^ 52) with 4503599627370496 in *.
      change (2 ^ 53) with 9007199254740992 in *. nia. }
  set (m' := roundHalfEven (p * denom 2 e') (q * numer 2 e')) in *.
  assert (E' : -1074 <= e') by (unfold e'; lia).
  destruct (Z.eqb_spec m' 0) as [|NZ]; [discriminate|].
  destruct (Z.eqb_spec m' (2 ^ 53)) as [|N53].
  - destruct (Z.ltb_spec 971 (e' + 1)); [discriminate|]. intros [= <- <-].
    unfold isDouble. change (2 ^ 52) with 4503599627370496.
    change (2 ^ 53) with 9007199254740992. lia.
  - destruct (Z.ltb_spec 971 e'); [discriminate|]. intros [= <- <-].
    unfold isDouble. change (2 ^ 52) with 4503599627370496 in *.
    change (2 ^ 53) with 9007199254740992 in *. lia.
Qed.

(** *** Decimal digits and their value *)

Lemma nzhead_no_zero (u u' : Decimal.uint) : Decimal.nzhead u <> Decimal.D0 u'.
Proof. induction u; cbn [Decimal.nzhead]; (assumption || discriminate). Qed.

Lemma to_uint_head (n : N) : n <> 0%N -> hd 0%N (uintDigits (N.to_uint n)) <> 0%N.
Proof.
  intros NZ.
  assert (U : Decimal.unorm (N.to_uint n) = N.to_uint n).
  { rewrite <- (DecimalN.Unsigned.of_to n) at 2. symmetry.
    apply DecimalN.Unsigned.to_of. }
  destruct (N.to_uint n) as [|u|u|u|u|u|u|u|u|u|u] eqn:E;
    try (intros H; vm_compute in H; discriminate H).
  - pose proof (uintDigits_to_uint n) as X. rewrite E in X. now contradiction X.
  - exfalso. unfold Decimal.unorm in U. cbn [Decimal.nzhead] in U.
    destruct (Decimal.nzhead u) eqn:Hn;
      try (now apply (nzhead_no_zero u u)); try (rewrite <- Hn in U; now apply (nzhead_no_zero u u)).
    injection U as <-. apply NZ.
    rewrite <- (DecimalN.Unsigned.of_to n), E. reflexivity.
Qed.

Lemma digitsValue_shift (ds : list N) (acc : N) :
  digitsValue acc ds = (acc * 10 ^ N.of_nat (length ds) + digitsValue 0 ds)%N.
Proof.
  revert acc. induction ds as [|d r IH]; intros acc.
  - cbn [digitsValue length]. change (N.of_nat 0) with 0%N. rewrite N.pow_0_r. lia.
  - cbn [digitsValue length]. rewrite IH, (IH (10 * 0 + d)%N).
    rewrite Nat2N.inj_succ, N.pow_succ_r'. lia.
Qed.

Lemma digitsValue_app (a b : list N) (acc : N) :
  digitsValue acc (a ++ b) = digitsValue (digitsValue acc a) b.
Proof. revert acc. induction a as [|d r IH]; intros acc; cbn [app digitsValue]; auto. Qed.

Lemma digitsValue_repeat (z : nat) (acc : N) :
  digitsValue acc (repeat 0%N z) = (acc * 10 ^ N.of_nat z)%N.
Proof.
  rewrite digitsValue_shift, repeat_length.
  assert (E : digitsValue 0 (repeat 0%N z) = 0%N).
  { induction z as [|z IH]; [reflexivity|exact IH]. }
  rewrite E. lia.
Qed.

Lemma digitsValue_below (ds : list N) :
  Forall (fun d => (d < 10)%N) ds -> (digitsValue 0 ds < 10 ^ N.of_nat (length ds))%N.
Proof.
  induction ds as [|d r IH] using rev_ind; intros F.
  - cbn. lia.
  - apply Forall_app in F as [Fr Fd]. inversion Fd as [|? ? D _]; subst.
    specialize (IH Fr). rewrite digitsValue_app. cbn [digitsValue].
    rewrite length_app. cbn [length]. rewrite Nat.add_1_r, Nat2N.inj_succ, N.pow_succ_r'.
    lia.
Qed.

Lemma digitsValue_above (d : N) (r : list N) :
  d <> 0%N -> (10 ^ N.of_nat (length r) <= digitsValue 0 (d :: r))%N.
Proof.
  intros D. cbn [digitsValue]. rewrite digitsValue_shift.
  assert (0 < 10 ^ N.of_nat (length r))%N by (apply N.neq_0_lt_0, N.pow_nonzero; lia).
  nia.
Qed.

(** The number of digits of [z] is the [d] with [10^(d-1) <= z < 10^d]. *)
Lemma decimalLength_spec (z : Z) :
  1 <= z ->
  1 <= decimalLength z
  /\ 10 ^ (decimalLength z - 1) <= z < 10 ^ decimalLength z.
Proof.
  intros Z1. unfold decimalLength. set (n := Z.to_N z).
  assert (NZ : n <> 0%N) by (unfold n; lia).
  pose proof (to_uint_head n NZ) as H.
  pose proof (uintDigits_decimal (N.to_uint n)) as F.
  assert (V : digitsValue 0 (uintDigits (N.to_uint n)) = n)
    by (rewrite digitsValue_of_uint; apply DecimalN.Unsigned.of_to).
  destruct (uintDigits (N.to_uint n)) as [|d r] eqn:E; [now contradiction H|].
  cbn [hd] in H. pose proof (digitsValue_above d r H) as A.
  pose proof (digitsValue_below (d :: r) F) as B. rewrite V in A, B.
  cbn [length] in *. split; [lia|].
  replace (Z.of_nat (S (length r)) - 1) with (Z.of_N (N.of_nat (length r))) by lia.
  replace (Z.of_nat (S (length r))) with (Z.of_N (N.of_nat (S (length r)))) by lia.
  change 10 with (Z.of_N 10). rewrite <- !N2Z.inj_pow.
  replace z with (Z.of_N n) by (unfold n; lia). lia.
Qed.

(** The exponent of a ratio: [10^(n-1) <= a / b < 10^n]. *)
Lemma decimalExponent_spec (a b : Z) :
  0 < a -> 0 < b ->
  1 * (b * numer 10 (decimalExponent a b - 1)) <= a * denom 10 (decimalExponent a b - 1)
  /\ a * denom 10 (decimalExponent a b) < 1 * (b * numer 10 (decimalExponent a b)).
Proof.
  intros A B. unfold decimalExponent.
  destruct (Z.leb_spec b a) as [L|L].
  - assert (Z1 : 1 <= a / b) by (apply Z.div_le_lower_bound; lia).
    destruct (decimalLength_spec (a / b) Z1) as (D1 & D2 & D3).
    set (d := decimalLength (a / b)) in *.
    pose proof (Z.mul_div_le a b B) as M1.
    pose proof (Z.mul_succ_div_gt a b B) as M2.
    replace (numer 10 (d - 1)) with (10 ^ (d - 1)) by (unfold numer; f_equal; lia).
    replace (numer 10 d) with (10 ^ d) by (unfold numer; f_equal; lia).
    replace (denom 10 (d - 1)) with 1 by (unfold denom; now rewrite Z.max_r by lia).
    replace (denom 10 d) with 1 by (unfold denom; now rewrite Z.max_r by lia).
    split; nia.
  - assert (Z1 : 1 <= (b - 1) / a) by (apply Z.div_le_lower_bound; lia).
    destruct (decimalLength_spec ((b - 1) / a) Z1) as (D1 & D2 & D3).
    set (d := decimalLength ((b - 1) / a)) in *.
    pose proof (Z.mul_div_le (b - 1) a A) as M1.
    pose proof (Z.mul_succ_div_gt (b - 1) a A) as M2.
    replace (numer 10 (1 - d - 1)) with 1 by (unfold numer; now rewrite Z.max_r by lia).
    replace (numer 10 (1 - d)) with 1 by (unfold numer; now rewrite Z.max_r by lia).
    replace (denom 10 (1 - d - 1)) with (10 ^ d) by (unfold denom; f_equal; lia).
    replace (denom 10 (1 - d)) with (10 ^ (d - 1)) by (unfold denom; f_equal; lia).
    assert (0 < 10 ^ (d - 1)) by (apply Z.pow_pos_nonneg; lia).
    split; nia.
Qed.

Lemma trimmed_split (ds : list N) :
  hd 0%N ds <> 0%N ->
  exists z, ds = rev (stripZeros (rev (stripZeros ds))) ++ repeat 0%N z.
Proof.
  intros H. rewrite (stripZeros_nonzero ds H).
  destruct (stripZeros_split (rev ds)) as (z & S & _). exists z.
  apply (f_equal (@rev _)) in S. rewrite rev_involutive, rev_app_distr, rev_repeat in S.
  exact S.
Qed.

Lemma decimalToDouble_ratio (ds : list N) (pt : Z) :
  ds <> [] -> -324 < pt < 310 ->
  decimalToDouble ds pt
  = roundToDouble (digitsZ ds * numer 10 (pt - Z.of_nat (length ds)))
                  (denom 10 (pt - Z.of_nat (length ds))).
Proof.
  intros NE [L U]. unfold decimalToDouble. destruct ds as [|d r]; [contradiction|].
  destruct (Z.leb_spec 310 pt); [lia|]. destruct (Z.leb_spec pt (-324)); [lia|].
  cbv zeta. fold (digitsZ (d :: r)).
  set (x := pt - Z.of_nat (length (d :: r))).
  destruct (numer_denom_one 10 x) as [H1 H2].
  destruct (Z.leb_spec 0 x) as [X|X].
  - rewrite H1 by lia. unfold numer. now rewrite Z.max_l by lia.
  - rewrite H2 by lia. rewrite Z.mul_1_r. unfold denom. now rewrite Z.max_l by lia.
Qed.

(** The digits of a candidate make its value: [c * 10^(n-k)]. *)
Lemma candidate_value (c n k : Z) :
  1 <= c ->
  let t := fst (candidate c n k) in
  let x := snd (candidate c n k) - Z.of_nat (length t) in
  t <> []
  /\ snd (candidate c n k) = decimalLength c + n - k
  /\ exists z, 0 <= z /\ x = n - k + z /\ digitsZ t * 10 ^ z = c.
Proof.
  intros C. unfold candidate. cbv zeta. cbn [fst snd]. fold (decimalLength c).
  set (ds := uintDigits (N.to_uint (Z.to_N c))).
  assert (H : hd 0%N ds <> 0%N) by (apply to_uint_head; lia).
  assert (V : digitsValue 0 ds = Z.to_N c)
    by (unfold ds; rewrite digitsValue_of_uint; apply DecimalN.Unsigned.of_to).
  destruct (trimmed_split ds H) as (z & S).
  set (t := rev (stripZeros (rev (stripZeros ds)))) in *.
  assert (L : length ds = (length t + z)%nat)
    by (rewrite S at 1; now rewrite length_app, repeat_length).
  assert (W : digitsZ t * 10 ^ Z.of_nat z = c).
  { unfold digitsZ. rewrite S, digitsValue_app, digitsValue_repeat in V.
    apply (f_equal Z.of_N) in V. rewrite N2Z.inj_mul, N2Z.inj_pow in V.
    rewrite nat_N_Z in V. change (Z.of_N 10) with 10 in V. lia. }
  split; [|split; [reflexivity|]].
  - intros E. unfold digitsZ in W. rewrite E in W. cbn in W. lia.
  - exists (Z.of_nat z). split; [lia|]. split; [|exact W].
    unfold decimalLength. fold ds. lia.
Qed.

(** A candidate less than half a step away from a double reads back as
    the double. *)
Lemma candidate_reads (m e c n k : Z) :
  isDouble m e -> 1 <= c ->
  -324 < decimalLength c + n - k < 310 ->
  2 * (c * (denom 2 e * numer 10 (n - k))) < (2 * m + 1) * (numer 2 e * denom 10 (n - k)) ->
  (2 * m - 1) * (numer 2 e * denom 10 (n - k)) < 2 * (c * (denom 2 e * numer 10 (n - k))) ->
  (m = 2 ^ 52 -> -1074 < e ->
   (4 * m - 1) * (numer 2 e * denom 10 (n - k)) < 4 * (c * (denom 2 e * numer 10 (n - k)))) ->
  readsAs m e (candidate c n k) = true.
Proof.
  intros D C G Hup Hlo Hq.
  destruct (candidate_value c n k C) as (NE & Pt & z & Z0 & X & V).
  set (t := fst (candidate c n k)) in *.
  set (xt := snd (candidate c n k) - Z.of_nat (length t)) in *.
  set (xk := n - k) in *.
  unfold readsAs. fold t. rewrite decimalToDouble_ratio by (assumption || (rewrite Pt; lia)).
  fold xt.
  pose proof (numer_denom_shift 10 xk xt ltac:(lia) ltac:(lia)) as S.
  replace (xt - xk) with z in S by lia.
  pose proof (denom_pos 10 xk ltac:(lia)) as Lk. pose proof (denom_pos 10 xt ltac:(lia)) as Lt.
  pose proof (numer_pos 10 xt ltac:(lia)) as Ht.
  pose proof (numer_pos 2 e ltac:(lia)) as H2. pose proof (denom_pos 2 e ltac:(lia)) as L2.
  assert (Tpos : 0 < digitsZ t).
  { assert (0 < 10 ^ z) by (now apply Z.pow_pos_nonneg).
    destruct (Z.lt_ge_cases 0 (digitsZ t)); [assumption|]. exfalso. nia. }
  set (p := digitsZ t * numer 10 xt). set (q := denom 10 xt).
  assert (E1 : p * denom 2 e * denom 10 xk = c * (denom 2 e * numer 10 xk) * denom 10 xt).
  { unfold p. rewrite <- V.
    replace (digitsZ t * numer 10 xt * denom 2 e * denom 10 xk)
      with (digitsZ t * denom 2 e * (numer 10 xt * denom 10 xk)) by ring.
    rewrite S. ring. }
  assert (E2 : q * numer 2 e * denom 10 xk = numer 2 e * denom 10 xk * denom 10 xt)
    by (unfold q; ring).
  assert (R : roundToDouble p q = BFinite m e).
  { apply roundToDouble_near; try assumption.
    - unfold p. now apply Z.mul_pos_pos.
    - apply (Z.mul_lt_mono_pos_r (denom 10 xk)); [assumption|].
      replace (2 * (p * denom 2 e) * denom 10 xk) with (2 * (p * denom 2 e * denom 10 xk)) by ring.
      replace ((2 * m + 1) * (q * numer 2 e) * denom 10 xk)
        with ((2 * m + 1) * (q * numer 2 e * denom 10 xk)) by ring.
      rewrite E1, E2.
      replace (2 * (c * (denom 2 e * numer 10 xk) * denom 10 xt))
        with (2 * (c * (denom 2 e * numer 10 xk)) * denom 10 xt) by ring.
      replace ((2 * m + 1) * (numer 2 e * denom 10 xk * denom 10 xt))
        with ((2 * m + 1) * (numer 2 e * denom 10 xk) * denom 10 xt) by ring.
      now apply Z.mul_lt_mono_pos_r.
    - apply (Z.mul_lt_mono_pos_r (denom 10 xk)); [assumption|].
      replace (2 * (p * denom 2 e) * denom 10 xk) with (2 * (p * denom 2 e * denom 10 xk)) by ring.
      replace ((2 * m - 1) * (q * numer 2 e) * denom 10 xk)
        with ((2 * m - 1) * (q * numer 2 e * denom 10 xk)) by ring.
      rewrite E1, E2.
      replace (2 * (c * (denom 2 e * numer 10 xk) * denom 10 xt))
        with (2 * (c * (denom 2 e * numer 10 xk)) * denom 10 xt) by ring.
      replace ((2 * m - 1) * (numer 2 e * denom 10 xk * denom 10 xt))
        with ((2 * m - 1) * (numer 2 e * denom 10 xk) * denom 10 xt) by ring.
      now apply Z.mul_lt_mono_pos_r.
    - intros M E. specialize (Hq M E).
      apply (Z.mul_lt_mono_pos_r (denom 10 xk)); [assumption|].
      replace (4 * (p * denom 2 e) * denom 10 xk) with (4 * (p * denom 2 e * denom 10 xk)) by ring.
      replace ((4 * m - 1) * (q * numer 2 e) * denom 10 xk)
        with ((4 * m - 1) * (q * numer 2 e * denom 10 xk)) by ring.
      rewrite E1, E2.
      replace (4 * (c * (denom 2 e * numer 10 xk) * denom 10 xt))
        with (4 * (c * (denom 2 e * numer 10 xk)) * denom 10 xt) by ring.
      replace ((4 * m - 1) * (numer 2 e * denom 10 xk * denom 10 xt))
        with ((4 * m - 1) * (numer 2 e * denom 10 xk) * denom 10 xt) by ring.
      now apply Z.mul_lt_mono_pos_r. }
  fold p q. rewrite R, !Z.eqb_refl. reflexivity.
Qed.

Lemma denom_opp (b j : Z) : denom b (- j) = numer b j.
Proof. unfold numer, denom. now rewrite Z.opp_involutive. Qed.

Lemma numer_opp (b j : Z) : numer b (- j) = denom b j.
Proof. reflexivity. Qed.

Lemma pow_le_pow (b i j : Z) : 0 < b -> 0 <= i <= j -> b ^ i <= b ^ j.
Proof. intros B I. apply Z.pow_le_mono_r; lia. Qed.

(** Seventeen digits tell a double apart: the multiple of [10^(n-17)]
    nearest to the double reads back as the double. *)
Lemma seventeen_digits (m e : Z) :
  isDouble m e ->
  digitsOfLength m e (fst (scale m 1 (- e))) (snd (scale m 1 (- e)))
    (decimalExponent (fst (scale m 1 (- e))) (snd (scale m 1 (- e)))) 17
  <> None.
Proof.
  intros D. pose proof D as (M & E & N).
  rewrite scale_eq. cbn [fst snd]. rewrite denom_opp, numer_opp, Z.mul_1_l.
  pose proof (numer_pos 2 e ltac:(lia)) as H2. pose proof (denom_pos 2 e ltac:(lia)) as L2.
  set (a := m * numer 2 e). set (b := denom 2 e).
  assert (A0 : 0 < a) by (unfold a; nia).
  assert (A1 : numer 2 e <= a) by (unfold a; nia).
  assert (H2u : numer 2 e <= 2 ^ 971) by (apply pow_le_pow; lia).
  assert (L2u : b <= 2 ^ 1074) by (apply pow_le_pow; lia).
  assert (A2 : a < 2 ^ 1024).
  { unfold a. change (2 ^ 1024) with (2 ^ 53 * 2 ^ 971).
    change (2 ^ 53) with 9007199254740992 in *. nia. }
  destruct (decimalExponent_spec a b A0 L2) as [Sp1 Sp2].
  set (n := decimalExponent a b) in *. rewrite !Z.mul_1_l in Sp1, Sp2.
  (* the exponent is that of a double *)
  assert (N1 : -323 <= n).
  { destruct (Z.le_gt_cases (-323) n) as [X|X]; [exact X|]. exfalso.
    replace (numer 10 n) with 1 in Sp2 by (unfold numer; now rewrite Z.max_r by lia).
    assert (G : 10 ^ 324 <= denom 10 n) by (apply pow_le_pow; lia).
    assert (C : 2 ^ 1074 < 10 ^ 324) by (vm_compute; reflexivity).
    assert (10 ^ 324 <= a * denom 10 n) by nia. lia. }
  assert (N2 : n <= 309).
  { destruct (Z.le_gt_cases n 309) as [X|X]; [exact X|]. exfalso.
    replace (denom 10 (n - 1)) with 1 in Sp1 by (unfold denom; now rewrite Z.max_r by lia).
    assert (G : 10 ^ 309 <= numer 10 (n - 1)) by (apply pow_le_pow; lia).
    assert (C : 2 ^ 1024 < 10 ^ 309) by (vm_compute; reflexivity).
    assert (10 ^ 309 <= b * numer 10 (n - 1)) by nia. lia. }
  set (xk := n - 17).
  pose proof (numer_pos 10 xk ltac:(lia)) as Hk. pose proof (denom_pos 10 xk ltac:(lia)) as Lk.
  set (W := b * numer 10 xk). set (T := numer 2 e * denom 10 xk).
  assert (W0 : 0 < W) by (unfold W; nia). assert (T0 : 0 < T) by (unfold T; nia).
  assert (F2 : 10 ^ 16 * W <= m * T).
  { pose proof (proj1 (shift_le 10 1 a b xk (n - 1) ltac:(lia) ltac:(unfold xk; lia))) as S.
    replace (n - 1 - xk) with 16 in S by (unfold xk; lia).
    rewrite !Z.mul_1_l in S. specialize (S Sp1). unfold W, T, a in *. lia. }
  assert (F3 : m * T < 10 ^ 17 * W).
  { pose proof (proj1 (shift_lt 10 1 a b xk n ltac:(lia) ltac:(unfold xk; lia))) as S.
    replace (n - xk) with 17 in S by (unfold xk; lia).
    rewrite !Z.mul_1_l in S. specialize (S Sp2). unfold W, T, a in *. lia. }
  unfold digitsOfLength. cbv zeta. fold xk.
  assert (EA : (if 0 <=? xk then a else a * 10 ^ (- xk)) = m * T).
  { unfold T, a. destruct (numer_denom_one 10 xk) as [O1 _].
    destruct (Z.leb_spec 0 xk) as [X|X].
    - rewrite O1 by assumption. ring.
    - unfold denom. rewrite Z.max_l by lia. ring. }
  assert (EB : (if 0 <=? xk then b * 10 ^ xk else b) = W).
  { unfold W. destruct (numer_denom_one 10 xk) as [_ O2].
    destruct (Z.leb_spec 0 xk) as [X|X].
    - unfold numer. now rewrite Z.max_l by lia.
    - rewrite O2 by lia. ring. }
  rewrite EA, EB.
  pose proof (Z.div_mod (m * T) W ltac:(lia)) as DM.
  pose proof (Z.mod_pos_bound (m * T) W W0) as RB.
  set (f := m * T / W) in *. set (r := (m * T) mod W) in *.
  change (10 ^ 16) with 10000000000000000 in *.
  change (10 ^ 17) with 100000000000000000 in *.
  change (2 ^ 52) with 4503599627370496 in *.
  change (2 ^ 53) with 9007199254740992 in *.
  assert (Fl : 10000000000000000 <= f) by nia.
  assert (Fu : f < 100000000000000000) by nia.
  (* the nearer of the two candidates *)
  assert (R : forall c, (c = f /\ 2 * r <= W) \/ (c = f + 1 /\ W < 2 * r) ->
                readsAs m e (candidate c n 17) = true).
  { intros c Hc.
    assert (Near : 2 * (c * W) <= 2 * (m * T) + W /\ 2 * (m * T) - W <= 2 * (c * W))
      by (destruct Hc as [[-> ?]|[-> ?]]; nia).
    assert (Cl : 10000000000000000 <= c <= 100000000000000000) by lia.
    destruct (decimalLength_spec c ltac:(lia)) as (D1 & D2 & D3).
    set (dl := decimalLength c) in *.
    assert (Dl : 17 <= dl).
    { destruct (Z.le_gt_cases 17 dl) as [X|X]; [exact X|]. exfalso.
      assert (10 ^ dl <= 10 ^ 16) by (apply pow_le_pow; lia).
      change (10 ^ 16) with 10000000000000000 in *. lia. }
    assert (Du : dl <= 18).
    { destruct (Z.le_gt_cases dl 18) as [X|X]; [exact X|]. exfalso.
      assert (10 ^ 18 <= 10 ^ (dl - 1)) by (apply pow_le_pow; lia).
      change (10 ^ 18) with 1000000000000000000 in *. lia. }
    assert (Dn : dl + n <= 326).
    { destruct (Z.le_gt_cases (dl + n) 326) as [X|X]; [exact X|]. exfalso.
      assert (dl = 18) by lia. assert (n = 309) by lia.
      assert (C17 : c = 100000000000000000).
      { assert (10 ^ 17 <= c) by (replace 17 with (dl - 1) by lia; assumption).
        change (10 ^ 17) with 100000000000000000 in *. lia. }
      assert (Xk : xk = 292) by (unfold xk; lia).
      assert (W1 : 10 ^ 292 <= W).
      { unfold W. rewrite Xk. replace (numer 10 292) with (10 ^ 292) by reflexivity.
        assert (0 < 10 ^ 292) by (now apply Z.pow_pos_nonneg). unfold b in *. nia. }
      assert (T1 : T <= 2 ^ 971).
      { unfold T. rewrite Xk. replace (denom 10 292) with 1 by reflexivity. lia. }
      assert (C : 2 * (9007199254740992 * 2 ^ 971)
                  < (2 * 100000000000000000 - 1) * 10 ^ 292) by (vm_compute; reflexivity).
      assert (MT : m * T <= 9007199254740992 * 2 ^ 971)
        by (apply Z.mul_le_mono_nonneg; lia).
      revert C MT W1. generalize (2 ^ 971) (10 ^ 292). intros K P C MT W1.
      subst c. lia. }
    assert (WT : 10000000000000000 * W <= 9007199254740991 * T) by nia.
    apply (candidate_reads m e c n 17 D).
    - lia.
    - fold dl. lia.
    - fold xk. fold b W T.
      replace ((2 * m + 1) * T) with (2 * (m * T) + T) by ring. lia.
    - fold xk. fold b W T.
      replace ((2 * m - 1) * T) with (2 * (m * T) - T) by ring. lia.
    - intros M52 _. fold xk. fold b W T.
      replace ((4 * m - 1) * T) with (4 * (m * T) - T) by ring.
      rewrite M52 in F2. lia. }
  destruct (Z.le_gt_cases (2 * r) W) as [X|X].
  - rewrite (R f) by (left; split; [reflexivity|assumption]).
    now destruct (readsAs m e (candidate (f + 1) n 17)).
  - rewrite (R (f + 1)) by (right; split; [reflexivity|assumption]).
    now destruct (readsAs m e (candidate f n 17)).
Qed.

Lemma firstSome_in {A B} (f : A -> option B) (l : list A) (a : A) :
  In a l -> f a <> None -> firstSome f l <> None.
Proof.
  induction l as [|x r IH]; [contradiction|]. cbn [firstSome In].
  intros [->|I] H.
  - now destruct (f a).
  - destruct (f x); [discriminate|]. now apply IH.
Qed.

(** The search for the digits of a double always ends. *)
Lemma shortestDigits_total (m e : Z) : isDouble m e -> shortestDigits m e <> None.
Proof.
  intros D. unfold shortestDigits. cbv zeta.
  apply (firstSome_in _ _ 17).
  - apply in_map_iff. exists 17%nat. split; [reflexivity|]. apply in_seq. lia.
  - now apply seventeen_digits.
Qed.

Lemma decimalToDouble_isDouble (ds : list N) (pt m e : Z) :
  hd 0%N ds <> 0%N -> decimalToDouble ds pt = BFinite m e -> isDouble m e.
Proof.
  intros H. unfold decimalToDouble. destruct ds as [|d r]; [discriminate|].
  cbn [hd] in H. pose proof (digitsValue_above d r H) as A.
  assert (P : 0 < Z.of_N (digitsValue 0 (d :: r))).
  { assert (0 < 10 ^ N.of_nat (length r))%N by (apply N.neq_0_lt_0, N.pow_nonzero; lia).
    lia. }
  destruct (310 <=? pt); [discriminate|]. destruct (pt <=? -324); [discriminate|].
  cbv zeta. set (x := pt - Z.of_nat (length (d :: r))).
  destruct (Z.leb_spec 0 x) as [X|X].
  - apply roundToDouble_isDouble; [|reflexivity].
    apply Z.mul_pos_pos; [assumption|]. now apply Z.pow_pos_nonneg.
  - apply roundToDouble_isDouble; [assumption|]. apply Z.pow_pos_nonneg; lia.
Qed.

(** A number made of digits holds the digits of its double: the digits of
    the literal are never kept as they are. *)
Lemma ofDecimal_shortest (neg : bool) (ds : list N) (pt m e : Z) :
  hd 0%N ds <> 0%N -> decimalToDouble ds pt = BFinite m e ->
  exists ds' n, shortestDigits m e = Some (ds', n)
                /\ ofDecimal neg ds pt = Finite neg ds' n.
Proof.
  intros H D. pose proof (shortestDigits_total m e (decimalToDouble_isDouble _ _ _ _ H D)) as T.
  unfold ofDecimal. rewrite D.
  destruct (shortestDigits m e) as [[ds' n]|]; [|contradiction]. now exists ds', n.
Qed.

Local Close Scope Z_scope.

(** ** Numbers through the printer and the parser *)

Lemma endsNumber_noDigit (rest : jsstring) :
  endsNumber rest = true -> noDigitAhead rest = true.
Proof.
  destruct rest as [|c r]; [reflexivity|]. cbn.
  intros H. now repeat (apply andb_true_iff in H as [H _]).
Qed.

Lemma parseFrac_none (rest : jsstring) :
  endsNumber rest = true -> parseFrac rest = Some ([], rest).
Proof.
  destruct rest as [|c r]; [reflexivity|]. cbn [endsNumber parseFrac].
  intros H. apply andb_true_iff in H as [H _]. apply andb_true_iff in H as [H _].
  apply andb_true_iff in H as [_ H]. apply negb_true_iff in H. now rewrite H.
Qed.

Lemma parseOptExponent_none (rest : jsstring) :
  endsNumber rest = true -> parseOptExponent rest = Some (0%Z, rest).
Proof.
  destruct rest as [|c r]; [reflexivity|]. cbn [endsNumber parseOptExponent].
  intros H. apply andb_true_iff in H as [H E2]. apply andb_true_iff in H as [_ E1].
  apply negb_true_iff in E1, E2. now rewrite E1, E2.
Qed.

Lemma zeros_digitChars (n : nat) : zeros n = digitChars (repeat 0%N n).
Proof.
  unfold zeros, digitChars. induction n; cbn [repeat map]; [reflexivity|].
  now rewrite IHn.
Qed.

Lemma digitChars_app (a b : list N) :
  digitChars (a ++ b) = digitChars a ++ digitChars b.
Proof. apply map_app. Qed.

Lemma parseInt_digits (d : N) (ds : list N) (rest : jsstring) :
  (d < 10)%N -> d <> 0%N -> Forall (fun d => (d < 10)%N) ds ->
  noDigitAhead rest = true ->
  parseInt (digitChars (d :: ds) ++ rest) = Some (d :: ds, rest).
Proof.
  intros D Z F R. unfold parseInt. cbn [digitChars map app].
  replace (isChar (48 + d)%N "0") with false
    by (symmetry; apply N.eqb_neq; change (ch "0") with 48%N; lia).
  rewrite isDigit_digit by assumption.
  change ((48 + d)%N :: map _ ds ++ rest) with (digitChars (d :: ds) ++ rest).
  now rewrite spanDigits_digitChars by (try constructor; assumption).
Qed.

Lemma parseFrac_digits (d : N) (ds : list N) (rest : jsstring) :
  Forall (fun d => (d < 10)%N) (d :: ds) -> noDigitAhead rest = true ->
  parseFrac (lit "." ++ digitChars (d :: ds) ++ rest) = Some (d :: ds, rest).
Proof.
  intros F R. change (lit ".") with [46%N]. cbn [app parseFrac].
  change (isChar 46%N ".") with true. cbv iota.
  now rewrite spanDigits_digitChars by assumption.
Qed.

Lemma parseExponent_printed (e : Z) (rest : jsstring) :
  endsNumber rest = true ->
  parseOptExponent
    (lit "e" ++ (if (e <? 0)%Z then lit "-" else lit "+") ++ decN (Z.abs_N e) ++ rest)
  = Some (e, rest).
Proof.
  intros R. apply endsNumber_noDigit in R.
  destruct (spanDigits_decN (Z.abs_N e) rest R) as (ds & NE & V & S).
  change (lit "e") with [101%N]. cbn [app parseOptExponent].
  change (isChar 101%N "e") with true. cbn [orb]. unfold parseExponent.
  destruct (Z.ltb_spec e 0) as [L|L].
  - change (lit "-") with [45%N]. cbn [app parseExpSign].
    change (isChar 45%N "-") with true. cbv iota. rewrite S.
    destruct ds; [contradiction|]. rewrite V. f_equal. f_equal. lia.
  - change (lit "+") with [43%N]. cbn [app parseExpSign].
    change (isChar 43%N "-") with false. change (isChar 43%N "+") with true.
    cbv iota. rewrite S.
    destruct ds; [contradiction|]. rewrite V. f_equal. f_equal. lia.
Qed.

Lemma Forall_firstn {A} (P : A -> Prop) (n : nat) (l : list A) :
  Forall P l -> Forall P (firstn n l).
Proof.
  intros F. revert n; induction F; intros [|n]; simpl; constructor; auto.
Qed.

Lemma Forall_skipn {A} (P : A -> Prop) (n : nat) (l : list A) :
  Forall P l -> Forall P (skipn n l).
Proof.
  intros F. revert n; induction F; intros [|n]; simpl; auto.
Qed.

Lemma noDigitAhead_lit_dot (s : jsstring) : noDigitAhead (lit "." ++ s) = true.
Proof. reflexivity. Qed.

Lemma noDigitAhead_lit_e (s : jsstring) : noDigitAhead (lit "e" ++ s) = true.
Proof. reflexivity. Qed.

Lemma endsNumber_lit_e (s : jsstring) : parseFrac (lit "e" ++ s) = Some ([], lit "e" ++ s).
Proof. reflexivity. Qed.

(** The printed digits read back as the same number. *)
Lemma parseMagnitude_digitsToString
  (neg : bool) (d : N) (r : list N) (n : Z) (rest : jsstring) :
  canonical (Finite neg (d :: r) n) = true ->
  endsNumber rest = true ->
  parseMagnitude neg (digitsToString d r n ++ rest) = Some (Finite neg (d :: r) n, rest).
Proof.
  intros K R. pose proof K as C. apply canonical_fixed in C as [C _].
  pose proof C as C'. apply canonicalDigits_spec in C' as (F & H & L).
  cbn [hd] in H. inversion F as [|? ? D Fr]; subst.
  pose proof (endsNumber_noDigit rest R) as R'.
  unfold digitsToString, parseMagnitude.
  set (ds := d :: r) in *. set (k := Z.of_nat (length ds)).
  destruct ((k <=? n)%Z && (n <=? 21)%Z) eqn:E1.
  { apply andb_true_iff in E1 as [E1 _]. apply Z.leb_le in E1.
    rewrite zeros_digitChars, <- digitChars_app.
    unfold ds at 1. cbn [app].
    rewrite parseInt_digits; try assumption.
    2:{ apply Forall_app. split; [assumption|]. apply Forall_forall.
        intros x Hx. apply repeat_spec in Hx. now subst. }
    rewrite parseFrac_none, parseOptExponent_none by assumption.
    f_equal. f_equal. rewrite app_nil_r.
    change (d :: r ++ repeat 0%N (Z.to_nat (n - k)))
      with (ds ++ repeat 0%N (Z.to_nat (n - k))).
    rewrite length_app, repeat_length.
    replace (Z.of_nat (length ds + Z.to_nat (n - k)) + 0)%Z with n by lia.
    exact (makeNumber_trailing neg d r _ n K). }
  destruct ((0 <? n)%Z && (n <=? 21)%Z) eqn:E2.
  { apply andb_true_iff in E2 as [E2 E2']. apply Z.ltb_lt in E2. apply Z.leb_le in E2'.
    apply andb_false_iff in E1 as [E1|E1]; [apply Z.leb_gt in E1|apply Z.leb_gt in E1; lia].
    assert (Hn : (0 < Z.to_nat n < length ds)%nat) by lia.
    destruct (firstn (Z.to_nat n) ds) as [|d' f'] eqn:Ef.
    { apply (f_equal (@length _)) in Ef. rewrite length_firstn in Ef.
      change (length (@nil N)) with 0%nat in Ef. lia. }
    assert (d' = d).
    { unfold ds in Ef. destruct (Z.to_nat n); [lia|]. simpl in Ef. congruence. }
    subst d'.
    assert (Ff : Forall (fun d => (d < 10)%N) (d :: f'))
      by (rewrite <- Ef; now apply Forall_firstn).
    inversion Ff; subst.
    rewrite <- !app_assoc. rewrite parseInt_digits by (try assumption; reflexivity).
    destruct (skipn (Z.to_nat n) ds) as [|d2 s2] eqn:Es.
    { apply (f_equal (@length _)) in Es. rewrite length_skipn in Es.
      change (length (@nil N)) with 0%nat in Es. lia. }
    assert (Fs : Forall (fun d => (d < 10)%N) (d2 :: s2))
      by (rewrite <- Es; now apply Forall_skipn).
    rewrite parseFrac_digits by assumption.
    rewrite parseOptExponent_none by assumption.
    f_equal. f_equal. rewrite <- Ef, <- Es, firstn_skipn.
    rewrite length_firstn.
    replace (Z.of_nat (Nat.min (Z.to_nat n) (length ds)) + 0)%Z with n by lia.
    exact (makeNumber_exact neg d r n K). }
  destruct ((-6 <? n)%Z && (n <=? 0)%Z) eqn:E3.
  { apply andb_true_iff in E3 as [_ E3]. apply Z.leb_le in E3.
    change (lit "0.") with ([48%N] ++ lit ".").
    rewrite zeros_digitChars, <- !app_assoc, (app_assoc (digitChars _)).
    rewrite <- digitChars_app. cbn [app parseInt].
    change (isChar 48%N "0") with true. cbv iota.
    assert (Fz : Forall (fun d => (d < 10)%N) (repeat 0%N (Z.to_nat (- n)) ++ ds)).
    { apply Forall_app. split; [|assumption]. apply Forall_forall.
      intros x Hx. apply repeat_spec in Hx. now subst. }
    destruct (repeat 0%N (Z.to_nat (- n)) ++ ds) as [|z zs] eqn:Ez.
    { destruct (repeat 0%N (Z.to_nat (- n))); discriminate. }
    change (46%N :: digitChars (z :: zs) ++ rest)
      with (lit "." ++ digitChars (z :: zs) ++ rest).
    rewrite parseFrac_digits by assumption.
    rewrite parseOptExponent_none by assumption.
    f_equal. f_equal. rewrite <- Ez.
    change ([0%N] ++ repeat 0%N (Z.to_nat (- n)) ++ ds)
      with (repeat 0%N (S (Z.to_nat (- n))) ++ ds).
    apply makeNumber_leading; [exact K|]. cbn [length]. lia. }
  assert (P : forall tail,
             noDigitAhead tail = true ->
             parseInt (digitChars [d] ++ tail) = Some ([d], tail)).
  { intros tail T. apply parseInt_digits; try assumption. constructor. }
  assert (X : makeNumber neg ds (Z.of_nat (length [d]) + (n - 1)) = Finite neg ds n).
  { replace (Z.of_nat (length [d]) + (n - 1))%Z with n by (cbn [length]; lia).
    exact (makeNumber_exact neg d r n K). }
  destruct r as [|d2 r2].
  - rewrite <- !app_assoc. rewrite P by reflexivity.
    rewrite endsNumber_lit_e, parseExponent_printed by assumption.
    f_equal. f_equal. exact X.
  - rewrite <- !app_assoc. rewrite P by reflexivity.
    rewrite parseFrac_digits by (try assumption; reflexivity).
    rewrite parseExponent_printed by assumption.
    f_equal. f_equal. exact X.
Qed.

Lemma digitsToString_head (d : N) (r : list N) (n : Z) :
  (d < 10)%N ->
  exists c tl, digitsToString d r n = c :: tl /\ isDigit c = true.
Proof.
  intros D. unfold digitsToString.
  destruct ((Z.of_nat (length (d :: r)) <=? n)%Z && (n <=? 21)%Z);
    [eexists _, _; split; [reflexivity|now apply isDigit_digit]|].
  destruct ((0 <? n)%Z && (n <=? 21)%Z) eqn:E.
  { apply andb_true_iff in E as [E _]. apply Z.ltb_lt in E.
    destruct (Z.to_nat n) eqn:N; [lia|].
    eexists _, _; split; [reflexivity|now apply isDigit_digit]. }
  destruct ((-6 <? n)%Z && (n <=? 0)%Z); [eexists _, _; split; reflexivity|].
  destruct r; eexists _, _; (split; [reflexivity|now apply isDigit_digit]).
Qed.

Lemma parseNumber_numberToString (x : number) (rest : jsstring) :
  canonical x = true -> printable x = true -> endsNumber rest = true ->
  parseNumber (numberToString x ++ rest) = Some (x, rest).
Proof.
  intros C P R. destruct x as [neg [|d r] n|neg]; [| |discriminate].
  - destruct neg; [discriminate|]. cbn [canonical] in C. apply Z.eqb_eq in C. subst n.
    cbn [numberToString]. change (lit "0") with [48%N]. unfold parseNumber.
    cbn [app parseSign]. change (isChar 48%N "-") with false. cbv iota.
    unfold parseMagnitude. cbn [parseInt]. change (isChar 48%N "0") with true.
    cbv iota. now rewrite parseFrac_none, parseOptExponent_none by assumption.
  - cbn [numberToString]. unfold parseNumber.
    pose proof C as C'. apply canonical_fixed in C' as [C' _].
    apply canonicalDigits_spec in C' as (F & _). inversion F as [|? ? D _]; subst.
    destruct neg.
    + change (signChars true) with [45%N]. cbn [app parseSign].
      change (isChar 45%N "-") with true. cbv iota.
      now apply parseMagnitude_digitsToString.
    + cbn [signChars app].
      destruct (digitsToString_head d r n D) as (c & tl & E & Dg).
      rewrite <- (parseMagnitude_digitsToString false d r n rest C R).
      rewrite E. cbn [app parseSign].
      replace (isChar c "-") with false; [reflexivity|].
      symmetry. apply N.eqb_neq. unfold isDigit in Dg.
      apply andb_true_iff in Dg as [Dg _]. apply N.leb_le in Dg.
      change (ch "-") with 45%N. lia.
Qed.

(** ** Strings through the printer and the parser *)

Lemma hexValue_hexDigit (x : N) : (x < 16)%N -> hexValue (hexDigit x) = Some x.
Proof.
  intros H.
  assert (E : forallb (fun k => match hexValue (hexDigit (N.of_nat k)) with
                                | Some y => (y =? N.of_nat k)%N
                                | None => false
                                end) (seq 0 16) = true) by reflexivity.
  rewrite forallb_forall in E. specialize (E (N.to_nat x)).
  rewrite N2Nat.id in E.
  destruct (hexValue (hexDigit x)) as [y|].
  - f_equal. apply N.eqb_eq, E, in_seq. lia.
  - discriminate E. apply in_seq. lia.
Qed.

Lemma parseStringBody_unicodeEscape (c : codeunit) (tail : jsstring) :
  (c < 65536)%N ->
  parseStringBody (unicodeEscape c ++ tail) = consParsed c (parseStringBody tail).
Proof.
  intros H. unfold unicodeEscape. change (lit "\u") with [92%N; 117%N].
  cbn [app parseStringBody].
  change (92 =? 34)%N with false. change (92 =? 92)%N with true.
  change (isChar 117%N "u") with true. cbv iota.
  rewrite !hexValue_hexDigit by (apply N.mod_upper_bound; discriminate).
  replace (4096 * (c / 4096 mod 16) + 256 * (c / 256 mod 16)
           + 16 * (c / 16 mod 16) + c mod 16)%N with c
    by (zify; Z.to_euclidean_division_equations; lia).
  reflexivity.
Qed.

Lemma parseStringBody_raw (c : codeunit) (tail : jsstring) :
  (32 <= c)%N -> c <> 34%N -> c <> 92%N ->
  parseStringBody (c :: tail) = consParsed c (parseStringBody tail).
Proof.
  intros H Q B. cbn [parseStringBody].
  apply N.eqb_neq in Q, B. rewrite Q, B.
  destruct (N.ltb_spec c 32); [lia|reflexivity].
Qed.

Lemma parseStringBody_escapeUnit (c : codeunit) (tail : jsstring) :
  parseStringBody (escapeUnit c ++ tail) = consParsed c (parseStringBody tail).
Proof.
  unfold escapeUnit.
  repeat match goal with
  | |- context [if (c =? ?k)%N then _ else _] =>
      destruct (N.eqb_spec c k) as [->|?]; [reflexivity|]
  end.
  destruct (N.ltb_spec c 32).
  - apply parseStringBody_unicodeEscape. lia.
  - now apply parseStringBody_raw.
Qed.

Lemma parseStringBody_quoteBody (s rest : jsstring) :
  parseStringBody (quoteBody s ++ 34%N :: rest) = Some (s, rest).
Proof.
  remember (length s) as n eqn:L. revert s L.
  induction n as [n IH] using lt_wf_ind. intros s L.
  assert (IH' : forall t, (length t < length s)%nat ->
                 parseStringBody (quoteBody t ++ 34%N :: rest) = Some (t, rest))
    by (intros t Ht; apply (IH (length t)); [lia|reflexivity]).
  clear IH. destruct s as [|c r]; [reflexivity|]. cbn [quoteBody].
  destruct (isHighSurrogate c) eqn:Hi.
  - unfold isHighSurrogate in Hi. apply andb_true_iff in Hi as [H1 H2].
    apply N.leb_le in H1, H2.
    destruct r as [|d r'].
    + rewrite parseStringBody_unicodeEscape by lia. reflexivity.
    + destruct (isLowSurrogate d) eqn:Lo.
      * unfold isLowSurrogate in Lo. apply andb_true_iff in Lo as [L1 L2].
        apply N.leb_le in L1, L2. cbn [app].
        rewrite !parseStringBody_raw by lia.
        rewrite IH' by (simpl; lia). reflexivity.
      * rewrite <- app_assoc, parseStringBody_unicodeEscape by lia.
        rewrite IH' by (simpl; lia). reflexivity.
  - destruct (isLowSurrogate c) eqn:Lo.
    + unfold isLowSurrogate in Lo. apply andb_true_iff in Lo as [L1 L2].
      apply N.leb_le in L1, L2.
      rewrite <- app_assoc, parseStringBody_unicodeEscape by lia.
      rewrite IH' by (simpl; lia). reflexivity.
    + rewrite <- app_assoc, parseStringBody_escapeUnit.
      rewrite IH' by (simpl; lia). reflexivity.
Qed.

(** ** Property order *)

Lemma digit_cases (d : N) :
  (d < 10)%N ->
  d = 0%N \/ d = 1%N \/ d = 2%N \/ d = 3%N \/ d = 4%N \/ d = 5%N \/ d = 6%N
  \/ d = 7%N \/ d = 8%N \/ d = 9%N.
Proof. lia. Qed.

Lemma uintDigits_digitsToUint (ds : list N) :
  Forall (fun d => (d < 10)%N) ds -> uintDigits (digitsToUint ds) = ds.
Proof.
  unfold uintDigits. induction 1 as [|d r D F IH]; [reflexivity|].
  cbn [digitsToUint].
  destruct (digit_cases d D) as [->|[->|[->|[->|[->|[->|[->|[->|[->| ->]]]]]]]]];
    cbn [uintChars map]; now rewrite IH.
Qed.

Lemma unorm_digitsToUint (d : N) (r : list N) :
  (d < 10)%N -> d <> 0%N \/ r = [] ->
  Decimal.unorm (digitsToUint (d :: r)) = digitsToUint (d :: r).
Proof.
  intros D H. cbn [digitsToUint].
  destruct (digit_cases d D) as [->|[->|[->|[->|[->|[->|[->|[->|[->| ->]]]]]]]]];
    try reflexivity.
  destruct H as [H| ->]; [contradiction|reflexivity].
Qed.

Lemma keyDigits_decimal (k : jsstring) :
  forallb isDigit k = true ->
  Forall (fun d => (d < 10)%N) (keyDigits k) /\ digitChars (keyDigits k) = k.
Proof.
  unfold keyDigits, digitChars. induction k as [|c r IH]; [now split|].
  cbn [forallb map]. intros H. apply andb_true_iff in H as [C H].
  destruct (IH H) as [F E]. unfold isDigit in C.
  apply andb_true_iff in C as [C1 C2]. apply N.leb_le in C1, C2.
  split; [constructor; [lia|assumption]|]. rewrite E. f_equal. lia.
Qed.

Lemma arrayIndex_Some (k : jsstring) (i : N) :
  arrayIndex k = Some i ->
  exists c r, k = c :: r /\ forallb isDigit k = true
              /\ (c <> 48%N \/ r = []) /\ i = digitsValue 0 (keyDigits k).
Proof.
  unfold arrayIndex. destruct k as [|c r]; [discriminate|].
  destruct (forallb isDigit (c :: r) && (negb (isChar c "0") || eqb r [])) eqn:E;
    [|discriminate].
  apply andb_true_iff in E as [D Z].
  destruct (_ <? _)%N; [|discriminate]. intros [= <-].
  exists c, r. repeat split; try assumption.
  apply orb_true_iff in Z as [Z|Z].
  - left. apply negb_true_iff, N.eqb_neq in Z. exact Z.
  - right. now apply eqb_eq.
Qed.

Lemma arrayIndex_inj (k1 k2 : jsstring) (i : N) :
  arrayIndex k1 = Some i -> arrayIndex k2 = Some i -> k1 = k2.
Proof.
  intros H1 H2.
  apply arrayIndex_Some in H1 as (c1 & r1 & E1 & D1 & Z1 & V1).
  apply arrayIndex_Some in H2 as (c2 & r2 & E2 & D2 & Z2 & V2).
  destruct (keyDigits_decimal k1 D1) as [F1 C1].
  destruct (keyDigits_decimal k2 D2) as [F2 C2].
  rewrite <- C1, <- C2. f_equal.
  rewrite <- (uintDigits_digitsToUint _ F1), <- (uintDigits_digitsToUint _ F2).
  f_equal.
  assert (U : forall k c r, k = c :: r -> forallb isDigit k = true ->
                c <> 48%N \/ r = [] ->
                Decimal.unorm (digitsToUint (keyDigits k)) = digitsToUint (keyDigits k)).
  { intros k c r -> D Z. destruct (keyDigits_decimal _ D) as [F _].
    unfold keyDigits in *. cbn [map] in *. inversion F; subst.
    apply unorm_digitsToUint; [assumption|].
    destruct Z as [Z| ->]; [left|now right].
    cbn [forallb] in D. apply andb_true_iff in D as [D _]. unfold isDigit in D.
    apply andb_true_iff in D as [D _]. apply N.leb_le in D. lia. }
  rewrite <- (U k1 c1 r1 E1 D1 Z1), <- (U k2 c2 r2 E2 D2 Z2).
  apply DecimalN.Unsigned.of_iff.
  rewrite <- !digitsValue_of_uint, !uintDigits_digitsToUint by assumption.
  congruence.
Qed.

Lemma orderedKeys_snoc (ks : list jsstring) (k : jsstring) :
  orderedKeys ks -> Forall (fun k' => keyBefore k' k) ks -> orderedKeys (ks ++ [k]).
Proof.
  induction 1 as [|k' ks F O IH]; intros B; cbn [app].
  - repeat constructor.
  - inversion B; subst. constructor; [|now apply IH].
    apply Forall_app. split; [assumption|]. now constructor.
Qed.

Lemma orderedKeys_snoc_inv (ks : list jsstring) (k : jsstring) :
  orderedKeys (ks ++ [k]) -> orderedKeys ks /\ Forall (fun k' => keyBefore k' k) ks.
Proof.
  induction ks as [|k' ks IH]; cbn [app]; intros O.
  - split; constructor.
  - inversion O as [|? ? F O']; subst. destruct (IH O') as [O1 B].
    apply Forall_app in F as [F1 F2]. inversion F2; subst.
    split; constructor; assumption.
Qed.

Lemma hasKey_false (k : jsstring) (l : list (jsstring * json)) :
  hasKey k l = false <-> Forall (fun k' => k' <> k) (map fst l).
Proof.
  induction l as [|[k' v'] r IH]; cbn [hasKey map fst]; [now split; [constructor|]|].
  rewrite orb_false_iff, IH, eqb_neq. split.
  - intros [H F]. constructor; [congruence|assumption].
  - intros F. inversion F; subst. split; [congruence|assumption].
Qed.

Lemma replaceProp_keys (k : jsstring) (v : json) (l : list (jsstring * json)) :
  map fst (replaceProp k v l) = map fst l.
Proof.
  induction l as [|[k' v'] r IH]; [reflexivity|]. cbn [replaceProp].
  destruct (eqb k k'); cbn [map fst]; congruence.
Qed.

Lemma insertIndex_keys (i : N) (k : jsstring) (v : json) (l : list (jsstring * json)) :
  forall x, In x (map fst (insertIndex i k v l)) <-> x = k \/ In x (map fst l).
Proof.
  induction l as [|[k' v'] r IH]; intros x; cbn [insertIndex].
  - cbn. intuition congruence.
  - destruct (arrayIndex k') as [j|]; [destruct (j <? i)%N|];
      cbn [map fst In]; rewrite ?IH; cbn [map fst In]; intuition congruence.
Qed.

Lemma insertIndex_ordered (i : N) (k : jsstring) (v : json) (l : list (jsstring * json)) :
  arrayIndex k = Some i -> hasKey k l = false -> ordered l ->
  ordered (insertIndex i k v l).
Proof.
  intros A H O. unfold ordered in *. apply hasKey_false in H.
  induction l as [|[k' v'] r IH]; cbn [insertIndex].
  - repeat constructor.
  - cbn [map fst] in O, H. inversion O as [|? ? F O']; subst.
    inversion H as [|? ? N H']; subst.
    assert (B : forall x, In x (map fst r) -> keyBefore k' x)
      by (now apply Forall_forall).
    assert (D : forall x, In x (map fst r) -> x <> k)
      by (now apply Forall_forall).
    destruct (arrayIndex k') as [j|] eqn:A'.
    + destruct (N.ltb_spec j i) as [L|L]; cbn [map fst].
      * constructor; [|now apply IH].
        apply Forall_forall. intros x Hx. apply insertIndex_keys in Hx as [->|Hx].
        -- split; [assumption|]. now rewrite A', A.
        -- now apply B.
      * constructor; [|assumption].
        assert (i <> j) by (intros ->; apply N; eapply arrayIndex_inj; eassumption).
        constructor.
        -- split; [congruence|]. rewrite A, A'. lia.
        -- apply Forall_forall. intros x Hx. split; [intros ->; now apply (D x)|].
           rewrite A. destruct (B x Hx) as [_ Bx]. rewrite A' in Bx.
           destruct (arrayIndex x); [lia|exact I].
    + cbn [map fst]. constructor; [|assumption]. constructor.
      * split; [congruence|]. now rewrite A, A'.
      * apply Forall_forall. intros x Hx. split; [intros ->; now apply (D x)|].
        rewrite A. destruct (B x Hx) as [_ Bx]. rewrite A' in Bx.
        destruct (arrayIndex x); [contradiction|exact I].
Qed.

(** [defineProp] keeps the property order. *)
Lemma defineProp_ordered (k : jsstring) (v : json) (l : list (jsstring * json)) :
  ordered l -> ordered (defineProp k v l).
Proof.
  intros O. unfold defineProp. destruct (hasKey k l) eqn:H.
  - unfold ordered. now rewrite replaceProp_keys.
  - destruct (arrayIndex k) as [i|] eqn:A; [now apply insertIndex_ordered|].
    unfold ordered. rewrite map_app. cbn [map fst].
    apply orderedKeys_snoc; [assumption|].
    apply hasKey_false in H. unfold ordered in O.
    clear O. induction H as [|k' ks N F IH]; constructor; [|assumption].
    split; [assumption|]. rewrite A. now destruct (arrayIndex k').
Qed.

(** A property that comes last in the order is added at the end. *)
Lemma defineProp_last (k : jsstring) (v : json) (l : list (jsstring * json)) :
  ordered (l ++ [(k, v)]) -> defineProp k v l = l ++ [(k, v)].
Proof.
  unfold ordered. rewrite map_app. intros O.
  apply orderedKeys_snoc_inv in O as [_ B]. unfold defineProp.
  replace (hasKey k l) with false.
  2:{ symmetry. apply hasKey_false. eapply Forall_impl; [|exact B].
      now intros k' [N _]. }
  destruct (arrayIndex k) as [i|] eqn:A; [|reflexivity].
  induction l as [|[k' v'] r IH]; [reflexivity|].
  cbn [map fst] in B. inversion B as [|? ? [_ Bk] B']; subst.
  cbn [insertIndex app]. rewrite A in Bk.
  destruct (arrayIndex k') as [j|]; [|contradiction].
  apply N.ltb_lt in Bk. rewrite Bk. now rewrite IH.
Qed.

(** ** What [JSON.parse] returns *)

Lemma spanDigits_decimal (s : jsstring) (ds : list N) (rest : jsstring) :
  spanDigits s = (ds, rest) -> Forall (fun d => (d < 10)%N) ds.
Proof.
  revert ds rest; induction s as [|c r IH]; cbn [spanDigits]; intros ds rest.
  - intros [= <- <-]. constructor.
  - destruct (isDigit c) eqn:D; [|intros [= <- <-]; constructor].
    destruct (spanDigits r) as [ds' rest']. intros [= <- <-].
    constructor; [|now apply (IH _ _ eq_refl)].
    unfold isDigit in D. apply andb_true_iff in D as [D1 D2].
    apply N.leb_le in D1, D2. lia.
Qed.

Lemma parseNumber_canonical (s rest : jsstring) (x : number) :
  parseNumber s = Some (x, rest) -> canonical x = true.
Proof.
  unfold parseNumber, parseMagnitude. destruct (parseSign s) as [neg s0].
  destruct (parseInt s0) as [[ids s1]|] eqn:I; [|discriminate].
  destruct (parseFrac s1) as [[fds s2]|] eqn:F; [|discriminate].
  destruct (parseOptExponent s2) as [[e s3]|]; [|discriminate].
  intros [= <- <-]. apply makeNumber_canonical, Forall_app. split.
  - unfold parseInt in I. destruct s0 as [|c r]; [discriminate|].
    destruct (isChar c "0"); [injection I as <- <-; now repeat constructor|].
    destruct (isDigit c); [|discriminate].
    apply (spanDigits_decimal (c :: r) ids s1). injection I as I. exact I.
  - unfold parseFrac in F. destruct s1 as [|c r]; [injection F as <- <-; constructor|].
    destruct (isChar c "."); [|injection F as <- <-; constructor].
    destruct (spanDigits r) as [ds r'] eqn:S. apply spanDigits_decimal in S.
    destruct ds; [discriminate|]. now injection F as <- <-.
Qed.

Lemma defineProp_wellFormed (k : jsstring) (v : json) (l : list (jsstring * json)) :
  wellFormed v -> Forall (fun kv => wellFormed (snd kv)) l ->
  Forall (fun kv => wellFormed (snd kv)) (defineProp k v l).
Proof.
  intros W F. unfold defineProp. destruct (hasKey k l).
  - induction F as [|[k' v'] r X F IH]; cbn [replaceProp]; [constructor|].
    destruct (eqb k k'); constructor; assumption.
  - destruct (arrayIndex k) as [i|].
    + induction F as [|[k' v'] r X F IH]; cbn [insertIndex]; [now repeat constructor|].
      destruct (arrayIndex k') as [j|]; [destruct (j <? i)%N|];
        repeat constructor; assumption.
    + apply Forall_app. split; [assumption|now repeat constructor].
Qed.

Lemma parseLiteral_value (s : jsstring) (w : string) (v v' : json) (rest : jsstring) :
  parseLiteral s w v = POk v' rest -> v' = v.
Proof. unfold parseLiteral. destruct (startsWith s (lit w)); now intros [=]. Qed.

Lemma parse_wellFormed (fuel : nat) :
  (forall s v rest, parseValue fuel s = POk v rest -> wellFormed v)
  /\ (forall s acc v rest,
        Forall wellFormed acc -> parseElements fuel s acc = POk v rest -> wellFormed v)
  /\ (forall s acc v rest,
        ordered acc -> Forall (fun kv => wellFormed (snd kv)) acc ->
        parseMembers fuel s acc = POk v rest -> wellFormed v).
Proof.
  induction fuel as [|f (IHv & IHe & IHm)]; [repeat split; discriminate|].
  repeat split.
  - intros s v rest. cbn [parseValue].
    destruct (skipWs s) as [|c r]; [discriminate|].
    destruct (isChar c "{").
    { destruct (skipWs r) as [|c2 r2]; [discriminate|].
      destruct (isChar c2 "}"); [intros [= <- <-]; repeat constructor|].
      destruct (parseKey r) as [[k r3]|]; [|discriminate].
      destruct (parseValue f r3) as [v1 rest1| |] eqn:V; try discriminate.
      apply IHv in V. apply IHm.
      - apply defineProp_ordered. constructor.
      - apply defineProp_wellFormed; [assumption|constructor]. }
    destruct (isChar c "[").
    { destruct (skipWs r) as [|c2 r2]; [discriminate|].
      destruct (isChar c2 "]"); [intros [= <- <-]; repeat constructor|].
      destruct (parseValue f r) as [v1 rest1| |] eqn:V; try discriminate.
      apply IHv in V. apply IHe. now repeat constructor. }
    destruct (c =? 34)%N.
    { destruct (parseStringBody r) as [[t rest1]|]; [|discriminate].
      intros [= <- <-]. constructor. }
    destruct (isChar c "t"); [intros L; apply parseLiteral_value in L; subst; constructor|].
    destruct (isChar c "f"); [intros L; apply parseLiteral_value in L; subst; constructor|].
    destruct (isChar c "n"); [intros L; apply parseLiteral_value in L; subst; constructor|].
    destruct (parseNumber (c :: r)) as [[x rest1]|] eqn:N; [|discriminate].
    apply parseNumber_canonical in N. intros [= <- <-]. now constructor.
  - intros s acc v rest A. cbn [parseElements].
    destruct (skipWs s) as [|c r]; [discriminate|].
    destruct (isChar c ",").
    { destruct (parseValue f r) as [v1 rest1| |] eqn:V; try discriminate.
      apply IHv in V. apply IHe. now constructor. }
    destruct (isChar c "]"); [|discriminate].
    intros [= <- <-]. constructor. now apply Forall_rev.
  - intros s acc v rest O A. cbn [parseMembers].
    destruct (skipWs s) as [|c r]; [discriminate|].
    destruct (isChar c ",").
    { destruct (parseKey r) as [[k r3]|]; [|discriminate].
      destruct (parseValue f r3) as [v1 rest1| |] eqn:V; try discriminate.
      apply IHv in V. apply IHm.
      - now apply defineProp_ordered.
      - now apply defineProp_wellFormed. }
    destruct (isChar c "}"); [|discriminate].
    intros [= <- <-]. now constructor.
Qed.

Lemma JSON_parse_wellFormed (text : jsstring) (v : json) :
  JSON_parse text = Ok v -> wellFormed v.
Proof.
  unfold JSON_parse.
  destruct (parseValue (S (length text)) text) as [v' rest| |] eqn:P; try discriminate.
  destruct (skipWs rest); [|discriminate]. intros [= <-].
  now apply (proj1 (parse_wellFormed _)) in P.
Qed.

(** ** The pretty-printer read back *)

Lemma json_induction (P : json -> Prop) :
  P JNull -> (forall b, P (JBool b)) -> (forall x, P (JNumber x)) ->
  (forall s, P (JString s)) ->
  (forall l, Forall P l -> P (JArray l)) ->
  (forall l, Forall (fun kv => P (snd kv)) l -> P (JObject l)) ->
  forall v, P v.
Proof.
  intros Hn Hb Hx Hs Ha Ho. fix F 1. intros [| b | x | s | l | l].
  - exact Hn.
  - apply Hb.
  - apply Hx.
  - apply Hs.
  - apply Ha. induction l as [|v l IH]; constructor; [apply F|exact IH].
  - apply Ho. induction l as [|[k v] l IH]; constructor; [apply F|exact IH].
Qed.

Lemma skipWs_spaces (ws s : jsstring) : spaces ws -> skipWs (ws ++ s) = skipWs s.
Proof. induction 1 as [|c ws C W IH]; cbn [app skipWs]; [reflexivity|now rewrite C]. Qed.

Lemma skipWs_head (c : codeunit) (tl : jsstring) :
  isJSONSpace c = false -> skipWs (c :: tl) = c :: tl.
Proof. intros H. cbn [skipWs]. now rewrite H. Qed.

Lemma parseValue_spaces (fuel : nat) (ws s : jsstring) :
  spaces ws -> parseValue fuel (ws ++ s) = parseValue fuel s.
Proof. intros W. destruct fuel; cbn [parseValue]; [reflexivity|]. now rewrite skipWs_spaces. Qed.

Lemma spaces_gap2 : spaces gap2.
Proof. repeat constructor. Qed.

Lemma spaces_inner (indent : jsstring) : spaces indent -> spaces ([10%N] ++ indent ++ gap2).
Proof.
  intros W. constructor; [reflexivity|]. apply Forall_app. split; [assumption|apply spaces_gap2].
Qed.

Lemma spaces_closing (indent : jsstring) : spaces indent -> spaces ([10%N] ++ indent).
Proof. intros W. now constructor. Qed.

Lemma stringify_head (gap indent : jsstring) (v : json) :
  wellFormed v ->
  exists c tl, stringify gap indent v = c :: tl
    /\ isJSONSpace c = false /\ isChar c "]" = false /\ isChar c "}" = false.
Proof.
  intros W. destruct W as [|[]|x C| |l _|l _ _]; cbn [stringify];
    try (eexists _, _; repeat split; reflexivity).
  - destruct x as [neg [|d r] n|neg]; try (eexists _, _; repeat split; reflexivity).
    cbn [numberToString]. destruct neg; [eexists _, _; repeat split; reflexivity|].
    apply canonical_fixed in C as [C _]. apply canonicalDigits_spec in C as (F & _).
    inversion F as [|? ? D _]; subst.
    destruct (digitsToString_head d r n D) as (c & tl & -> & Dg).
    exists c, tl. unfold isDigit in Dg. apply andb_true_iff in Dg as [D1 D2].
    apply N.leb_le in D1, D2.
    repeat split; unfold isJSONSpace, isChar;
      repeat (apply orb_false_iff; split); apply N.eqb_neq;
      try change (ch "]") with 93%N; try change (ch "}") with 125%N; lia.
  - unfold wrapParts. destruct (map _ l); [|destruct (eqb gap [])];
      eexists _, _; repeat split; reflexivity.
  - unfold wrapParts. destruct (map _ l); [|destruct (eqb gap [])];
      eexists _, _; repeat split; reflexivity.
Qed.

Lemma join_cons (sep p : jsstring) (ps : list jsstring) :
  join sep (p :: ps) = p ++ concat (map (fun q => sep ++ q) ps).
Proof.
  revert p; induction ps as [|q ps IH]; intros p.
  - cbn [join map concat]. now rewrite app_nil_r.
  - change (join sep (p :: q :: ps)) with (p ++ sep ++ join sep (q :: ps)).
    rewrite IH. cbn [map concat]. now rewrite <- app_assoc.
Qed.

Lemma spaces_breakLine (indent : jsstring) : spaces indent -> spaces (breakLine indent).
Proof. intros W. now constructor. Qed.

Lemma spaces_deeper (indent : jsstring) : spaces indent -> spaces (indent ++ gap2).
Proof. intros W. apply Forall_app. split; [assumption|apply spaces_gap2]. Qed.

Lemma elementsText_cons (inner : jsstring) (v : json) (l : list json) :
  elementsText inner (v :: l)
  = lit "," ++ breakLine inner ++ stringify gap2 inner v ++ elementsText inner l.
Proof. unfold elementsText. cbn [map concat]. now rewrite <- !app_assoc. Qed.

Lemma membersText_cons (inner : jsstring) (kv : jsstring * json)
  (l : list (jsstring * json)) :
  membersText inner (kv :: l)
  = lit "," ++ breakLine inner ++ quote (fst kv) ++ lit ":" ++ lit " "
      ++ stringify gap2 inner (snd kv) ++ membersText inner l.
Proof.
  unfold membersText, memberText. cbn [map concat]. now rewrite <- !app_assoc.
Qed.

Lemma stringify_array_cons (indent : jsstring) (v : json) (l : list json) :
  stringify gap2 indent (JArray (v :: l))
  = lit "[" ++ breakLine (indent ++ gap2) ++ stringify gap2 (indent ++ gap2) v
      ++ elementsText (indent ++ gap2) l ++ breakLine indent ++ lit "]".
Proof.
  cbn [stringify map]. unfold wrapParts. change (eqb gap2 []) with false. cbv iota.
  rewrite join_cons, map_map. unfold elementsText, breakLine.
  cbn [app]. rewrite <- !app_assoc. reflexivity.
Qed.

Lemma stringify_object_cons (indent : jsstring) (kv : jsstring * json)
  (l : list (jsstring * json)) :
  stringify gap2 indent (JObject (kv :: l))
  = lit "{" ++ breakLine (indent ++ gap2) ++ quote (fst kv) ++ lit ":" ++ lit " "
      ++ stringify gap2 (indent ++ gap2) (snd kv)
      ++ membersText (indent ++ gap2) l ++ breakLine indent ++ lit "}".
Proof.
  cbn [stringify map]. unfold wrapParts. change (eqb gap2 []) with false. cbv iota.
  rewrite join_cons, map_map. unfold membersText, memberText, breakLine.
  cbn [app fst snd]. rewrite <- !app_assoc. reflexivity.
Qed.

Lemma parseKey_member (ws k tail : jsstring) :
  spaces ws -> parseKey (ws ++ quote k ++ lit ":" ++ tail) = Some (k, tail).
Proof.
  intros W. unfold parseKey, quote. rewrite skipWs_spaces by assumption.
  rewrite <- !app_assoc. cbn [app skipWs].
  change (isJSONSpace 34%N) with false. cbv iota.
  change (34 =? 34)%N with true. cbv iota.
  rewrite parseStringBody_quoteBody.
  change (lit ":") with [58%N]. cbn [app skipWs].
  change (isJSONSpace 58%N) with false. cbv iota.
  change (isChar 58%N ":") with true. reflexivity.
Qed.

Lemma endsNumber_elementsText (inner : jsstring) (l : list json) (tail : jsstring) :
  endsNumber (elementsText inner l ++ breakLine tail) = true.
Proof. destruct l; reflexivity. Qed.

Lemma endsNumber_membersText (inner : jsstring) (l : list (jsstring * json))
  (tail : jsstring) :
  endsNumber (membersText inner l ++ breakLine tail) = true.
Proof. destruct l; reflexivity. Qed.

Lemma orderedKeys_app_l (a b : list jsstring) : orderedKeys (a ++ b) -> orderedKeys a.
Proof.
  induction a as [|k a IH]; cbn [app]; intros O; [constructor|].
  inversion O as [|? ? F O']; subst. apply Forall_app in F as [F _].
  constructor; [assumption|now apply IH].
Qed.

Ltac lengths :=
  cbn [length] in *; repeat rewrite length_app in *; cbn [length] in *; lia.

Lemma parseElements_text (l : list json) :
  Forall readsBack l -> Forall wellFormed l -> forallb plainNumbers l = true ->
  forall acc indent rest fuel,
    spaces indent ->
    (length (elementsText (indent ++ gap2) l ++ breakLine indent ++ lit "]" ++ rest)
     < fuel)%nat ->
    parseElements fuel
      (elementsText (indent ++ gap2) l ++ breakLine indent ++ lit "]" ++ rest) acc
    = POk (JArray (rev acc ++ l)) rest.
Proof.
  induction 1 as [|v l R _ IH]; intros W Pl acc indent rest fuel S L.
  - destruct fuel; [inversion L|]. change (elementsText (indent ++ gap2) []) with (@nil codeunit).
    cbn [app parseElements]. rewrite skipWs_spaces by now apply spaces_breakLine.
    rewrite app_nil_r. reflexivity.
  - inversion W as [|? ? Wv Wl]; subst. cbn [forallb] in Pl.
    apply andb_true_iff in Pl as [Pv Pl].
    destruct fuel; [inversion L|].
    rewrite elementsText_cons in *. rewrite <- !app_assoc in *.
    change (lit ",") with [44%N] in *. cbn [app] in L |- *.
    cbn [parseElements skipWs]. change (isJSONSpace 44%N) with false. cbv iota.
    change (isChar 44%N ",") with true. cbv iota.
    rewrite parseValue_spaces by now apply spaces_breakLine, spaces_deeper.
    rewrite (R Wv Pv (indent ++ gap2)).
    + rewrite IH; try assumption.
      * cbn [rev]. now rewrite <- app_assoc.
      * lengths.
    + now apply spaces_deeper.
    + apply endsNumber_elementsText.
    + lengths.
Qed.

Lemma parseMembers_text (l : list (jsstring * json)) :
  Forall (fun kv => readsBack (snd kv)) l ->
  Forall (fun kv => wellFormed (snd kv)) l ->
  forallb (fun kv => plainNumbers (snd kv)) l = true ->
  forall acc indent rest fuel,
    ordered (acc ++ l) -> spaces indent ->
    (length (membersText (indent ++ gap2) l ++ breakLine indent ++ lit "}" ++ rest)
     < fuel)%nat ->
    parseMembers fuel
      (membersText (indent ++ gap2) l ++ breakLine indent ++ lit "}" ++ rest) acc
    = POk (JObject (acc ++ l)) rest.
Proof.
  induction 1 as [|[k v] l R _ IH]; intros W Pl acc indent rest fuel O S L.
  - destruct fuel; [inversion L|]. change (membersText (indent ++ gap2) []) with (@nil codeunit).
    cbn [app parseMembers]. rewrite skipWs_spaces by now apply spaces_breakLine.
    rewrite app_nil_r. reflexivity.
  - inversion W as [|? ? Wv Wl]; subst. cbn [forallb snd] in Pl, Wv, R.
    apply andb_true_iff in Pl as [Pv Pl].
    destruct fuel; [inversion L|].
    rewrite membersText_cons in *. cbn [fst snd] in *. rewrite <- !app_assoc in *.
    change (lit ",") with [44%N] in *. cbn [app] in L |- *.
    cbn [parseMembers skipWs]. change (isJSONSpace 44%N) with false. cbv iota.
    change (isChar 44%N ",") with true. cbv iota.
    rewrite parseKey_member by now apply spaces_breakLine, spaces_deeper.
    rewrite (parseValue_spaces fuel (lit " ")) by (repeat constructor).
    rewrite (R Wv Pv (indent ++ gap2)).
    + assert (D : defineProp k v acc = acc ++ [(k, v)]).
      { apply defineProp_last. unfold ordered in *.
        replace (acc ++ (k, v) :: l) with ((acc ++ [(k, v)]) ++ l) in O
          by now rewrite <- app_assoc.
        rewrite map_app in O. now apply orderedKeys_app_l in O. }
      rewrite D, IH; try assumption.
      * now rewrite <- app_assoc.
      * now rewrite <- app_assoc.
      * lengths.
    + now apply spaces_deeper.
    + apply endsNumber_membersText.
    + lengths.
Qed.

(** Every well-formed value with plain numbers is read back from its
    pretty-printed text. *)
Lemma stringify_readsBack (v : json) : readsBack v.
Proof.
  induction v as [| b | x | s | l IH | l IH] using json_induction;
    intros W Pl indent rest fuel S E L; (destruct fuel; [inversion L|]).
  - reflexivity.
  - destruct b; reflexivity.
  - inversion W as [| |? C| | |]; subst. cbn [plainNumbers] in Pl.
    assert (X : stringify gap2 indent (JNumber x) = numberToString x)
      by (destruct x as [? [|? ?] ?|]; [reflexivity|reflexivity|discriminate]).
    destruct (stringify_head gap2 indent (JNumber x) W) as (c & tl & H & Sp & _).
    rewrite X in *. cbn [parseValue].
    pose proof (parseNumber_numberToString x rest C Pl E) as N.
    rewrite H in *. cbn [app] in *. rewrite skipWs_head by assumption.
    rewrite N.
    assert (D : isDigit c = true \/ c = 45%N).
    { destruct x as [neg [|d r] n|]; [injection H as <- _; now left| |discriminate].
      cbn [numberToString] in H. destruct neg; [injection H as <- _; now right|].
      apply canonical_fixed in C as [C _]. apply canonicalDigits_spec in C as (F & _).
      inversion F as [|? ? Dd _]; subst.
      destruct (digitsToString_head d r n Dd) as (c' & tl' & H' & Dg).
      cbn [signChars app] in H. rewrite H' in H. injection H as <- _. now left. }
    assert (K : forall k, (k < 45 \/ 57 < k)%N -> (c =? k)%N = false).
    { intros k Hk. apply N.eqb_neq. destruct D as [D| ->]; [|lia].
      unfold isDigit in D. apply andb_true_iff in D as [D1 D2].
      apply N.leb_le in D1, D2. lia. }
    unfold isChar. rewrite !K by (cbn; lia). reflexivity.
  - cbn [stringify]. unfold quote. rewrite <- !app_assoc. cbn [app parseValue skipWs].
    change (isJSONSpace 34%N) with false. cbv iota.
    change (isChar 34%N "{") with false. change (isChar 34%N "[") with false.
    change (34 =? 34)%N with true. cbv iota.
    now rewrite parseStringBody_quoteBody.
  - inversion W as [| | | |? Wl|]; subst. cbn [plainNumbers] in Pl.
    destruct l as [|v l]; [reflexivity|].
    inversion IH as [|? ? Rv Rl]; subst. inversion Wl as [|? ? Wv Wl']; subst.
    cbn [forallb] in Pl. apply andb_true_iff in Pl as [Pv Pl'].
    rewrite stringify_array_cons in *. rewrite <- !app_assoc in *.
    change (lit "[") with [91%N] in *. cbn [app] in L |- *.
    cbn [parseValue skipWs]. change (isJSONSpace 91%N) with false. cbv iota.
    change (isChar 91%N "{") with false. change (isChar 91%N "[") with true. cbv iota.
    rewrite skipWs_spaces by now apply spaces_breakLine, spaces_deeper.
    destruct (stringify_head gap2 (indent ++ gap2) v Wv) as (c & tl & H & Sp & B & _).
    rewrite H. cbn [app]. rewrite skipWs_head by assumption. rewrite B.
    change (c :: tl ++ ?x) with ((c :: tl) ++ x). rewrite <- H.
    rewrite parseValue_spaces by now apply spaces_breakLine, spaces_deeper.
    rewrite (Rv Wv Pv (indent ++ gap2)).
    + now rewrite (parseElements_text l Rl Wl' Pl' [v]) by (assumption || lengths).
    + now apply spaces_deeper.
    + apply endsNumber_elementsText.
    + lengths.
  - inversion W as [| | | | |? O Wl]; subst. cbn [plainNumbers] in Pl.
    destruct l as [|[k v] l]; [reflexivity|].
    inversion IH as [|? ? Rv Rl]; subst. inversion Wl as [|? ? Wv Wl']; subst.
    cbn [forallb snd] in Pl, Rv, Wv. apply andb_true_iff in Pl as [Pv Pl'].
    rewrite stringify_object_cons in *. cbn [fst snd] in *. rewrite <- !app_assoc in *.
    change (lit "{") with [123%N] in *. cbn [app] in L |- *.
    cbn [parseValue skipWs]. change (isJSONSpace 123%N) with false. cbv iota.
    change (isChar 123%N "{") with true. cbv iota.
    rewrite skipWs_spaces by now apply spaces_breakLine, spaces_deeper.
    unfold quote at 1. cbn [app skipWs]. change (isJSONSpace 34%N) with false.
    cbv iota. change (isChar 34%N "}") with false. cbv iota.
    rewrite parseKey_member by now apply spaces_breakLine, spaces_deeper.
    rewrite (parseValue_spaces fuel (lit " ")) by (repeat constructor).
    rewrite (Rv Wv Pv (indent ++ gap2)).
    + assert (D : defineProp k v [] = [(k, v)]).
      { apply (defineProp_last k v []). unfold ordered in *. cbn [map fst app] in *.
        inversion O; subst. repeat constructor. }
      rewrite D.
      now rewrite (parseMembers_text l Rl Wl' Pl' [(k, v)]) by (assumption || lengths).
    + now apply spaces_deeper.
    + apply endsNumber_membersText.
    + lengths.
Qed.

(** ** The round trip *)

Lemma JSON_parse_stringify2 (v : json) :
  wellFormed v -> plainNumbers v = true -> JSON_parse (JSON_stringify2 v) = Ok v.
Proof.
  intros W P. unfold JSON_parse, JSON_stringify2. fold gap2.
  pose proof (stringify_readsBack v W P [] [] (S (length (stringify gap2 [] v)))) as R.
  rewrite app_nil_r in R. rewrite R; [reflexivity|constructor|reflexivity|lia].
Qed.

(** C9, as the code has it.  For every line that decodes as structured
    data, if the decoded value holds no number beyond the range of a double
    (which decodes to [Infinity]) and no negative zero, then the text put in
    the raw-JSON disclosure block is the pretty-printed value, and parsing
    that text gives the decoded value again. *)
Theorem pretty_print_round_trip (line : jsstring) (v : json) :
  startsWith (trim line) (lit "{") = true ->
  JSON_parse (trim line) = Ok v ->
  plainNumbers v = true ->
  prettyOrRaw (trim line) = JSON_stringify2 v
  /\ JSON_parse (prettyOrRaw (trim line)) = Ok v.
Proof.
  intros B P N. unfold prettyOrRaw. rewrite B, P. split; [reflexivity|].
  apply JSON_parse_stringify2; [|assumption]. eapply JSON_parse_wellFormed, P.
Qed.

Lemma pretty_print_round_trip_witness :
  let line :=
    qlit " {'b':[1.5e3,-0.25,'x\ny'],'10':{},'9':null,'b':true,'i':9007199254740993,'n':0.1234567890123456789,'s':2.5e-324} " in
  exists v,
    JSON_parse (trim line) = Ok v
    /\ includes (prettyOrRaw (trim line)) (qlit "'i': 9007199254740992,") = true
    /\ includes (prettyOrRaw (trim line)) (qlit "'n': 0.12345678901234568,") = true
    /\ includes (prettyOrRaw (trim line)) (qlit "'s': 5e-324") = true
    /\ JSON_parse (prettyOrRaw (trim line)) = Ok v.
Proof.
  intros line. destruct (JSON_parse (trim line)) as [v|] eqn:P.
  - exists v. split; [reflexivity|].
    do 3 (split; [vm_compute; reflexivity|]).
    apply (pretty_print_round_trip line v); [reflexivity|exact P|].
    revert P. vm_compute. intros [= <-]. reflexivity.
  - exfalso. revert P. vm_compute. discriminate.
Defined.

(** C9, as the specification states it, fails: the line [{"a":1e999}]
    decodes, with [Infinity] for [a]; the pretty-printer writes [null] for
    it, and the text parses to a different value. *)
Lemma overflowing_number_does_not_round_trip :
  let line := qlit "{'a':1e999}" in
  JSON_parse (trim line) = Ok (JObject [(lit "a", JNumber (Infinity false))])
  /\ JSON_parse (prettyOrRaw (trim line)) = Ok (JObject [(lit "a", JNull)])
  /\ JObject [(lit "a", JNumber (Infinity false))] <> JObject [(lit "a", JNull)].
Proof.
  cbv zeta. split; [vm_compute; reflexivity|].
  split; [vm_compute; reflexivity|discriminate].
Qed.

(** * Further properties of the program *)

(** ** White space around a line *)

Lemma trimStart_nil (s : jsstring) :
  trimStart s = [] <-> forallb isWhiteSpace s = true.
Proof.
  induction s as [|c r IH]; simpl; [easy|].
  destruct (isWhiteSpace c); simpl; [exact IH | easy].
Qed.

Lemma trimStart_head (s : jsstring) (c : codeunit) (r : jsstring) :
  trimStart s = c :: r -> isWhiteSpace c = false.
Proof.
  induction s as [|x s IH]; simpl; [discriminate|].
  destruct (isWhiteSpace x) eqn:E; [exact IH|]. now intros [= <- _].
Qed.

Lemma trimStart_keeps (c : codeunit) (r : jsstring) :
  isWhiteSpace c = false -> trimStart (c :: r) = c :: r.
Proof. intros H. simpl. now rewrite H. Qed.

Lemma trimStart_idem (s : jsstring) : trimStart (trimStart s) = trimStart s.
Proof.
  destruct (trimStart s) as [|c r] eqn:E; [reflexivity|].
  apply trimStart_keeps. exact (trimStart_head _ _ _ E).
Qed.

Lemma trimStart_last (s : jsstring) (c : codeunit) :
  isWhiteSpace c = false -> exists u, trimStart (s ++ [c]) = u ++ [c].
Proof.
  intros H. induction s as [|x s IH]; simpl.
  - rewrite H. now exists [].
  - destruct (isWhiteSpace x); [exact IH|]. now exists (x :: s).
Qed.

Lemma forallb_rev {A} (f : A -> bool) (l : list A) :
  forallb f (rev l) = forallb f l.
Proof.
  induction l as [|x l IH]; simpl; [reflexivity|].
  rewrite forallb_app, IH. simpl. rewrite andb_true_r. apply andb_comm.
Qed.

Lemma trim_nil (s : jsstring) : trim s = [] <-> forallb isWhiteSpace s = true.
Proof.
  unfold trim, trimEnd. rewrite <- trimStart_nil. split.
  - intros H. apply (f_equal (@rev _)) in H. rewrite rev_involutive in H. simpl in H.
    apply trimStart_nil in H. rewrite forallb_rev in H.
    destruct (trimStart s) as [|c r] eqn:E; [reflexivity|].
    apply trimStart_head in E. simpl in H. rewrite E in H. discriminate.
  - intros ->. reflexivity.
Qed.

Lemma trim_idem (s : jsstring) : trim (trim s) = trim s.
Proof.
  unfold trim, trimEnd.
  destruct (trimStart s) as [|c r] eqn:E; [reflexivity|].
  pose proof (trimStart_head _ _ _ E) as Hc.
  change (rev (c :: r)) with (rev r ++ [c]).
  destruct (trimStart_last (rev r) c Hc) as [u U].
  assert (K : trimStart (rev (trimStart (rev r ++ [c]))) = rev (trimStart (rev r ++ [c]))).
  { rewrite U, rev_app_distr. simpl. now rewrite Hc. }
  rewrite K, rev_involutive, trimStart_idem. reflexivity.
Qed.

(** ** Lines of a text *)

Lemma split_length (c : codeunit) (s : jsstring) :
  length (split c s) = S (count_occ N.eq_dec s c).
Proof.
  induction s as [|x s IH]; [reflexivity|].
  simpl split. pose proof (split_not_nil c s) as NE.
  destruct (N.eqb_spec x c) as [->|D].
  - rewrite count_occ_cons_eq by reflexivity. simpl. now rewrite IH.
  - rewrite count_occ_cons_neq by assumption.
    destruct (split c s) as [|l ls]; [contradiction|]. exact IH.
Qed.

Lemma split_app_sep (c : codeunit) (l s : jsstring) :
  ~ In c l -> split c (l ++ c :: s) = l :: split c s.
Proof.
  induction l as [|x l IH]; simpl; intros H.
  - now rewrite N.eqb_refl.
  - destruct (N.eqb_spec x c) as [->|_]; [tauto|].
    rewrite IH by tauto. reflexivity.
Qed.

Lemma split_join (c : codeunit) (ls : list jsstring) :
  ls <> [] -> Forall (fun l => ~ In c l) ls -> split c (join [c] ls) = ls.
Proof.
  induction ls as [|l ls IH]; [easy|]. intros _ F.
  apply Forall_cons_iff in F as [Hl F].
  destruct ls as [|l' ls].
  - simpl. now apply split_single.
  - change (join [c] (l :: l' :: ls)) with (l ++ c :: join [c] (l' :: ls)).
    rewrite split_app_sep by assumption. now rewrite IH.
Qed.

(** ** Blank lines and trimmed lines *)

(** X1.  [parseLine] returns no entry exactly for the lines made of white
    space only (the code units [trim] strips: tab, line feed, vertical tab,
    form feed, carriage return, space, no-break space, the Unicode spaces,
    the line and paragraph separators and the byte-order mark; the empty
    line included), and then leaves the counter as it is; for every other
    line the counter goes up by one. *)
Theorem blank_line_is_white_space (line : jsstring) (elapsedMs n : Z) :
  (fst (parseLine line elapsedMs n) = None <-> forallb isWhiteSpace line = true)
  /\ snd (parseLine line elapsedMs n)
     = (if forallb isWhiteSpace line then n else n + 1)%Z.
Proof.
  destruct (forallb isWhiteSpace line) eqn:W.
  - rewrite parseLine_blank by (now apply trim_nil). now split.
  - assert (NE : trim line <> []).
    { intros E. apply trim_nil in E. congruence. }
    destruct (parseLine_entry line elapsedMs n NE) as (entry & -> & _).
    split; [|reflexivity]. split; discriminate.
Qed.

(** X2.  The handler of a line does to the trimmed line exactly what it
    does to the line: [parseLine] and [createBuildkiteAnnotation] both
    trim what they are given, and trimming twice is trimming once.  The
    console lines, the annotation and the counter are the same. *)
Theorem white_space_around_a_line_is_immaterial (a : arrival) (n : Z) :
  onLine (trimmed a) n = onLine a n.
Proof.
  unfold onLine, trimmed. cbn [text elapsed execError].
  assert (P : parseLine (trim (text a)) (elapsed a) n = parseLine (text a) (elapsed a) n).
  { unfold parseLine. now rewrite trim_idem. }
  rewrite P. destruct (parseLine (text a) (elapsed a) n) as [[entry|] n']; [|reflexivity].
  unfold createBuildkiteAnnotation, buildAnnotation. now rewrite trim_idem.
Qed.

(** ** Decoded messages *)

Lemma formatJSONMessage_no_type (msg : json) (type : option json) :
  prop msg "type" = Ok type -> (forall t, type <> Some (JString t)) ->
  formatJSONMessage msg = Throw TypeError
  /\ extractCleanJSONContentWithErrorCheck msg = Throw TypeError.
Proof.
  intros T N.
  assert (I : forall s, isString type s = false).
  { intros s. destruct type as [[]|]; try reflexivity. now destruct (N s0). }
  assert (U : unknownSpeaker type = Throw TypeError).
  { destruct type as [[]|]; try reflexivity. now destruct (N s). }
  unfold formatJSONMessage, extractCleanJSONContentWithErrorCheck.
  rewrite T. cbn [bind]. rewrite !I, U. now split.
Qed.

(** X4.  A line that decodes, but whose [type] is missing or is not a
    string, makes both renderers throw ([msg.type.toUpperCase] is not a
    function).  Both callers catch it: the console entry is the trimmed
    line itself under the speaker [SYSTEM], still flagged as JSON (the
    flag is set before the renderer is called), and the annotation shows
    the trimmed line as [SYSTEM] text in the style [warning]. *)
Theorem message_without_string_type_is_plain_text
  (line : jsstring) (elapsedMs n : Z) (msg : json) (type : option json) :
  startsWith (trim line) (lit "{") = true ->
  JSON_parse (trim line) = Ok msg ->
  prop msg "type" = Ok type ->
  (forall t, type <> Some (JString t)) ->
  fst (parseLine line elapsedMs n)
  = Some {| lineNumber := n + 1; speaker := SYSTEM; content := trim line;
            timestamp := formatRelativeTime elapsedMs; isJSON := true;
            rawLine := trim line |}
  /\ annotationEntry (trim line)
     = Some {| r_speaker := SYSTEM; r_content := trim line; r_hasError := false |}
  /\ forall k ts, exists a,
       buildAnnotation line k ts = Some a /\ style a = lit "warning".
Proof.
  intros B P T N.
  destruct (formatJSONMessage_no_type msg type T N) as [F X].
  destruct (startsWith_brace _ B) as [rest R].
  assert (NE : eqb (trim line) [] = false) by (apply eqb_neq; rewrite R; discriminate).
  assert (A : annotationEntry (trim line)
              = Some {| r_speaker := SYSTEM; r_content := trim line;
                        r_hasError := false |}).
  { unfold annotationEntry. rewrite B, P. cbn [bind]. now rewrite X. }
  split; [|split; [exact A|]].
  - unfold parseLine. rewrite NE, B, P, F. reflexivity.
  - intros k ts. unfold buildAnnotation. rewrite NE, A. eexists. split; reflexivity.
Qed.

Lemma message_without_string_type_is_plain_text_witness :
  fst (parseLine (qlit " {'kind':'note'} ") 61000 4)
  = Some {| lineNumber := 5; speaker := SYSTEM; content := qlit "{'kind':'note'}";
            timestamp := lit "01:01"; isJSON := true;
            rawLine := qlit "{'kind':'note'}" |}.
Proof.
  refine (proj1 (message_without_string_type_is_plain_text (qlit " {'kind':'note'} ") 61000 4
                   (JObject [(lit "kind", JString (lit "note"))]) None _ _ _ _));
    try (vm_compute; reflexivity).
  discriminate.
Defined.

(** ** The items of a message *)

Lemma roundHalfEven_floor (p q : Z) : (p / q <= roundHalfEven p q)%Z.
Proof.
  unfold roundHalfEven. cbv zeta.
  destruct (2 * (p mod q) <? q)%Z; [lia|].
  destruct (q <? 2 * (p mod q))%Z; [lia|].
  destruct (Z.even (p / q)); lia.
Qed.

(** A value of at least 1 does not round to zero. *)
Lemma roundToDouble_large (p q : Z) :
  (0 < q <= p)%Z -> roundToDouble p q <> BZero.
Proof.
  intros [Q P]. unfold roundToDouble. cbv zeta.
  set (e0 := (Z.log2 p - Z.log2 q - 53)%Z).
  set (e1 := if (2 ^ 53 <=? _)%Z then (e0 + 1)%Z else e0).
  pose proof (Z.log2_le_mono q p P) as M.
  pose proof (Z.log2_nonneg q) as Lq.
  destruct (Z.log2_spec p ltac:(lia)) as [Pl _].
  destruct (Z.log2_spec q Q) as [_ Qu].
  assert (E : (-53 <= e1)%Z /\ (0 <= e1 -> q * 2 ^ e1 <= p)%Z).
  { unfold e1. destruct (Z.leb_spec (2 ^ 53) (fst (scale p q e0) / snd (scale p q e0))) as [T|T].
    - split; [lia|]. intros E1. unfold scale in T.
      destruct (Z.leb_spec 0 e0) as [E0|E0]; cbn [fst snd] in T.
      + assert (B : (0 < q * 2 ^ e0)%Z) by (apply Z.mul_pos_pos; [lia|now apply Z.pow_pos_nonneg]).
        pose proof (Z.mul_div_le p _ B) as D.
        rewrite Z.pow_add_r by lia. change (2 ^ 1)%Z with 2%Z. nia.
      + replace e0 with (-1)%Z by lia. change (2 ^ (-1 + 1))%Z with 1%Z. lia.
    - split; [lia|]. intros E0.
      assert (X : (2 ^ Z.succ (Z.log2 q) * 2 ^ e0 <= 2 ^ Z.log2 p)%Z).
      { rewrite <- Z.pow_add_r by lia. apply Z.pow_le_mono_r; lia. }
      assert (0 < 2 ^ e0)%Z by (now apply Z.pow_pos_nonneg). nia. }
  destruct E as [E1 E2]. rewrite (Z.max_l e1) by lia.
  assert (F : (1 <= fst (scale p q e1) / snd (scale p q e1))%Z).
  { unfold scale. destruct (Z.leb_spec 0 e1) as [E|E]; cbn [fst snd].
    - apply Z.div_le_lower_bound; [|specialize (E2 E); lia].
      apply Z.mul_pos_pos; [lia|now apply Z.pow_pos_nonneg].
    - apply Z.div_le_lower_bound; [lia|].
      assert (0 < 2 ^ (- e1))%Z by (apply Z.pow_pos_nonneg; lia). nia. }
  pose proof (roundHalfEven_floor (fst (scale p q e1)) (snd (scale p q e1))) as R.
  destruct (Z.eqb_spec (roundHalfEven (fst (scale p q e1)) (snd (scale p q e1))) 0) as [Z0|_];
    [lia|].
  repeat match goal with |- context [if ?t then _ else _] => destruct t end; discriminate.
Qed.

Lemma digitsValue_ge (ds : list N) (acc : N) : (acc <= digitsValue acc ds)%N.
Proof.
  revert acc. induction ds as [|d r IH]; intros acc; cbn [digitsValue]; [lia|].
  specialize (IH (10 * acc + d)%N). lia.
Qed.

Lemma digitsValue_pos (ds : list N) :
  hd 0%N ds <> 0%N -> (0 < digitsValue 0 ds)%N.
Proof.
  destruct ds as [|d r]; cbn [hd digitsValue]; [contradiction|]. intros D.
  pose proof (digitsValue_ge r (10 * 0 + d)). lia.
Qed.

(** Digits with the point behind them make an integer, which does not
    round to zero. *)
Lemma decimalToDouble_integer (ds : list N) (point : Z) :
  hd 0%N ds <> 0%N -> (Z.of_nat (length ds) <= point)%Z ->
  decimalToDouble ds point <> BZero.
Proof.
  intros H L. pose proof (digitsValue_pos ds H) as V.
  unfold decimalToDouble. destruct ds as [|d r]; [now contradiction H|].
  destruct (310 <=? point)%Z; [discriminate|].
  destruct (Z.leb_spec point (-324)) as [X|_]; [lia|]. cbv zeta.
  destruct (Z.leb_spec 0 (point - Z.of_nat (length (d :: r)))) as [_|X]; [|lia].
  apply roundToDouble_large.
  assert (0 < 10 ^ (point - Z.of_nat (length (d :: r))))%Z
    by (apply Z.pow_pos_nonneg; lia).
  nia.
Qed.

Lemma stripZeros_nil_value (ds : list N) :
  stripZeros ds = [] -> digitsValue 0 ds = 0%N.
Proof.
  induction ds as [|d r IH]; simpl; [reflexivity|].
  destruct (N.eqb_spec d 0) as [->|_]; [exact IH | discriminate].
Qed.

Lemma isPositive_numberOfN (n : N) :
  isPositive (numberOfN n) = negb (n =? 0)%N.
Proof.
  destruct (N.eqb_spec n 0) as [->|NZ]; [reflexivity|].
  unfold numberOfN, makeNumber. cbv zeta.
  set (ds := uintDigits (N.to_uint n)).
  assert (V : digitsValue 0 ds = n)
    by (unfold ds; rewrite digitsValue_of_uint; apply DecimalN.Unsigned.of_to).
  set (lead := stripZeros ds).
  destruct (stripZeros_split ds) as (a & S & [T|T]); fold lead in S, T.
  { apply stripZeros_nil_value in T. congruence. }
  set (t := stripZeros (rev lead)).
  destruct (stripZeros_split (rev lead)) as (b & S2 & [T2|T2]); fold t in S2, T2.
  { exfalso. rewrite T2, app_nil_r in S2. apply (f_equal (@rev _)) in S2.
    rewrite rev_involutive, rev_repeat in S2. rewrite S2 in T. now destruct b. }
  assert (L : (length (rev t) <= length lead)%nat).
  { rewrite length_rev. apply (f_equal (@length _)) in S2.
    rewrite length_rev, length_app in S2. lia. }
  assert (L2 : (length lead <= length ds)%nat).
  { apply (f_equal (@length _)) in S. rewrite length_app in S. lia. }
  assert (Hd : hd 0%N (rev t) <> 0%N).
  { pose proof (trimmed_digits ds (uintDigits_decimal _)) as C. cbv zeta in C.
    fold lead t in C. destruct C as [C|C].
    - apply (f_equal (@rev _)) in C. rewrite rev_involutive in C.
      rewrite C in T2. now contradiction T2.
    - now apply canonicalDigits_spec in C as (_ & C & _). }
  set (p := (Z.of_nat (length ds) - Z.of_nat (length ds - length lead))%Z).
  pose proof (decimalToDouble_integer (rev t) p Hd ltac:(unfold p; lia)) as NZ'.
  pose proof (ofDecimal_sign false (rev t) p) as Sg.
  assert (TC : rev t = [] \/ canonicalDigits (rev t) = true)
    by (exact (trimmed_digits ds (uintDigits_decimal _))).
  destruct (ofDecimal false (rev t) p) as [neg [|d r] x|neg] eqn:E; subst neg;
    try reflexivity.
  exfalso. unfold ofDecimal in E.
  destruct (decimalToDouble (rev t) p) as [|m e|] eqn:D; [now apply NZ'| |discriminate].
  destruct (shortestDigits m e) as [[ds' n']|] eqn:Sh.
  - injection E as -> ->. now destruct (shortestDigits_sound _ _ _ _ Sh).
  - injection E as E _. rewrite E in Hd. now apply Hd.
Qed.

Lemma message_is_object (m : json) (name : jsstring) (v : json) :
  getProp (Some m) name = Ok (Some v) -> eqb name (lit "length") = false ->
  truthy (Some m) = true.
Proof.
  intros G L. destruct m; cbn [getProp] in G; try discriminate; try reflexivity;
    rewrite L in G; discriminate.
Qed.

Lemma contentItems_array (msg m : json) (l : list json) :
  prop msg "message" = Ok (Some m) ->
  getProp (Some m) (lit "content") = Ok (Some (JArray l)) ->
  contentItems msg = Ok l.
Proof.
  intros M C. unfold contentItems. rewrite M. cbn [bind].
  rewrite (message_is_object m _ _ C) by reflexivity. rewrite C. cbn [bind getProp].
  change (eqb (lit "length") (lit "length")) with true. cbv iota.
  cbn [bind gtZero]. rewrite isPositive_numberOfN. now destruct l.
Qed.

Lemma contentItems_string (msg m : json) (s : jsstring) :
  prop msg "message" = Ok (Some m) ->
  getProp (Some m) (lit "content") = Ok (Some (JString s)) ->
  contentItems msg = Ok (map JString (codePoints s)).
Proof.
  intros M C. unfold contentItems. rewrite M. cbn [bind].
  rewrite (message_is_object m _ _ C) by reflexivity. rewrite C. cbn [bind getProp].
  change (eqb (lit "length") (lit "length")) with true. cbv iota.
  cbn [bind gtZero]. rewrite isPositive_numberOfN. now destruct s.
Qed.

Lemma mapM_ext_const {A B} (f : A -> result B) (b : B) (l : list A) :
  (forall a, In a l -> f a = Ok b) -> mapM f l = Ok (map (fun _ => b) l).
Proof.
  induction l as [|a l IH]; intros H; simpl; [reflexivity|].
  rewrite (H a) by now left. cbn [bind]. rewrite IH by (intros; apply H; now right).
  reflexivity.
Qed.

Lemma concat_nils {A B} (l : list A) : concat (map (fun _ => @nil B) l) = [].
Proof. induction l; simpl; auto. Qed.

Lemma string_item_pushes_nothing (c : jsstring) :
  extractAssistantItem (JString c) = Ok []
  /\ extractUserItem (JString c) = Ok (false, [])
  /\ formatAssistantItem (JString c) = Ok []
  /\ formatUserItem (JString c) = Ok [].
Proof. repeat split. Qed.

Lemma existsb_map_false {A B} (f : B -> bool) (g : A -> B) (l : list A) :
  (forall a, f (g a) = false) -> existsb f (map g l) = false.
Proof. intros H. induction l; simpl; [reflexivity|]. now rewrite H. Qed.

Lemma string_content_is_empty (msg m : json) (s : jsstring) :
  prop msg "message" = Ok (Some m) ->
  getProp (Some m) (lit "content") = Ok (Some (JString s)) ->
  (prop msg "type" = Ok (Some (JString (lit "user"))) ->
     formatJSONMessage msg = Ok (USER, [])
     /\ extractCleanJSONContentWithErrorCheck msg
        = Ok {| r_speaker := USER; r_content := []; r_hasError := false |})
  /\ (prop msg "type" = Ok (Some (JString (lit "assistant"))) ->
        formatJSONMessage msg = Ok (ASSISTANT, [])
        /\ extractCleanJSONContentWithErrorCheck msg
           = Ok {| r_speaker := ASSISTANT; r_content := []; r_hasError := false |}).
Proof.
  intros M C. pose proof (contentItems_string msg m s M C) as I.
  assert (Q : forall c, In c (map JString (codePoints s)) ->
                       extractAssistantItem c = Ok []
                       /\ extractUserItem c = Ok (false, [])
                       /\ formatAssistantItem c = Ok []
                       /\ formatUserItem c = Ok []).
  { intros c H. apply in_map_iff in H as (x & <- & _). apply string_item_pushes_nothing. }
  split.
  - intros T. unfold formatJSONMessage, extractCleanJSONContentWithErrorCheck.
    rewrite T, I. cbn [bind].
    change (isString _ (lit "system")) with false.
    change (isString _ (lit "assistant")) with false.
    change (isString _ (lit "user")) with true. cbv iota.
    rewrite (mapM_ext_const formatUserItem []) by (intros; now apply Q).
    rewrite (mapM_ext_const extractUserItem (false, [])) by (intros; now apply Q).
    cbn [bind]. rewrite !concat_nils.
    assert (S : forall l : list json,
               concat (map snd (map (fun _ => (false, @nil json)) l)) = [])
      by (induction l; auto).
    rewrite S, existsb_map_false by reflexivity. split; reflexivity.
  - intros T. unfold formatJSONMessage, extractCleanJSONContentWithErrorCheck.
    rewrite T, I. cbn [bind].
    change (isString _ (lit "system")) with false.
    change (isString _ (lit "assistant")) with true. cbv iota.
    rewrite (mapM_ext_const formatAssistantItem []) by (intros; now apply Q).
    rewrite (mapM_ext_const extractAssistantItem []) by (intros; now apply Q).
    cbn [bind]. rewrite !concat_nils. split; reflexivity.
Qed.

(** X5.  A [user] or [assistant] message whose [content] is a string, not
    an array of items: the loop visits the characters of the string, none
    of which has a [type] or a [text], so nothing is pushed and the
    rendered body is empty.  The console prints nothing for the line; the
    annotation is still posted (style [success] for [user], [info] for
    [assistant]). *)
Theorem string_content_renders_empty
  (line : jsstring) (elapsedMs n : Z) (msg m : json) (s kind : jsstring) :
  startsWith (trim line) (lit "{") = true ->
  JSON_parse (trim line) = Ok msg ->
  prop msg "type" = Ok (Some (JString kind)) ->
  kind = lit "user" \/ kind = lit "assistant" ->
  prop msg "message" = Ok (Some m) ->
  getProp (Some m) (lit "content") = Ok (Some (JString s)) ->
  formatJSONMessage msg = Ok (toUpperCase kind, [])
  /\ extractCleanJSONContentWithErrorCheck msg
     = Ok {| r_speaker := toUpperCase kind; r_content := []; r_hasError := false |}
  /\ (exists entry,
        fst (parseLine line elapsedMs n) = Some entry
        /\ speaker entry = toUpperCase kind
        /\ printSingleEntry entry = [])
  /\ forall k ts, exists a,
       buildAnnotation line k ts = Some a
       /\ style a = (if eqb kind (lit "user") then lit "success" else lit "info").
Proof.
  intros B P T K M C.
  destruct (string_content_is_empty msg m s M C) as [U A].
  assert (R : formatJSONMessage msg = Ok (toUpperCase kind, [])
              /\ extractCleanJSONContentWithErrorCheck msg
                 = Ok {| r_speaker := toUpperCase kind; r_content := [];
                         r_hasError := false |}).
  { destruct K as [-> | ->]; [now apply U | now apply A]. }
  destruct R as [F X]. split; [exact F|]. split; [exact X|].
  destruct (startsWith_brace _ B) as [rest R].
  assert (NE : eqb (trim line) [] = false) by (apply eqb_neq; rewrite R; discriminate).
  split.
  - unfold parseLine. rewrite NE, B, P, F. eexists. split; [reflexivity|]. split; reflexivity.
  - intros k ts. unfold buildAnnotation, annotationEntry. rewrite NE, B, P. cbn [bind].
    rewrite X. cbn [r_content]. change (eqb [] unknownMessageType) with false. cbv iota.
    eexists. split; [reflexivity|]. cbn [style r_speaker r_hasError].
    now destruct K as [-> | ->].
Qed.

Lemma string_content_renders_empty_witness :
  let line := qlit "{'type':'user','message':{'role':'user','content':'hello'}}" in
  exists entry,
    fst (parseLine line 0 0) = Some entry
    /\ speaker entry = USER
    /\ printSingleEntry entry = [].
Proof.
  refine (proj1 (proj2 (proj2 (string_content_renders_empty
            (qlit "{'type':'user','message':{'role':'user','content':'hello'}}") 0 0
            (JObject [(lit "type", JString (lit "user"));
                      (lit "message", JObject [(lit "role", JString (lit "user"));
                                               (lit "content", JString (lit "hello"))])])
            (JObject [(lit "role", JString (lit "user"));
                      (lit "content", JString (lit "hello"))])
            (lit "hello") (lit "user") _ _ _ _ _ _))));
    try (vm_compute; reflexivity).
  now left.
Defined.

(** ** A tool result without a body *)

Lemma whenTruthy_false (v : option json) : truthy v = false -> whenTruthy v = [].
Proof. intros H. unfold whenTruthy. destruct v; [now rewrite H | reflexivity]. Qed.

Lemma toolResultContent_empty (contentItem : json) (text content : option json) :
  prop contentItem "text" = Ok text -> truthy text = false ->
  prop contentItem "content" = Ok content -> truthy content = false ->
  toolResultContent contentItem = Ok (JString []).
Proof.
  intros T Tf C Cf. unfold toolResultContent. rewrite T. cbn [bind].
  rewrite (whenTruthy_false text Tf), C. cbn [bind].
  now rewrite (whenTruthy_false content Cf).
Qed.

(** X6.  A [user] message whose one item is a tool result carrying the
    error flag, with neither a [text] nor a [content]: the error is seen
    (the annotation has the style [error]), but the body, in the
    annotation and on the console, is the fixed line with the check mark,
    [Tool result received]; the cross mark of an error is not in it. *)
Theorem errored_tool_result_without_body
  (msg contentItem : json) (is_error text content : option json) :
  prop msg "type" = Ok (Some (JString (lit "user"))) ->
  contentItems msg = Ok [contentItem] ->
  prop contentItem "type" = Ok (Some (JString (lit "tool_result"))) ->
  prop contentItem "is_error" = Ok is_error -> truthy is_error = true ->
  prop contentItem "text" = Ok text -> truthy text = false ->
  prop contentItem "content" = Ok content -> truthy content = false ->
  extractCleanJSONContentWithErrorCheck msg
  = Ok {| r_speaker := USER;
          r_content := checkMark ++ lit " Tool result received";
          r_hasError := true |}
  /\ annotationStyle USER true = lit "error"
  /\ includes (checkMark ++ lit " Tool result received") crossMark = false
  /\ formatJSONMessage msg
     = Ok (USER, ColorMagenta ++ checkMark ++ lit " Tool result received" ++ ColorReset).
Proof.
  intros T I Ty E Et X Xf C Cf.
  pose proof (toolResultContent_empty contentItem text content X Xf C Cf) as R.
  split; [|split; [reflexivity|split; [reflexivity|]]].
  - unfold extractCleanJSONContentWithErrorCheck. rewrite T, I. cbn [bind].
    change (isString _ (lit "system")) with false.
    change (isString _ (lit "assistant")) with false.
    change (isString _ (lit "user")) with true. cbv iota.
    cbn [mapM]. unfold extractUserItem. rewrite Ty. cbn [bind].
    change (isString _ (lit "tool_result")) with true. cbv iota.
    rewrite E, R. cbn [bind]. rewrite Et. reflexivity.
  - unfold formatJSONMessage. rewrite T, I. cbn [bind].
    change (isString _ (lit "system")) with false.
    change (isString _ (lit "assistant")) with false.
    change (isString _ (lit "user")) with true. cbv iota.
    cbn [mapM]. unfold formatUserItem. rewrite Ty. cbn [bind].
    change (isString _ (lit "tool_result")) with true. cbv iota.
    rewrite R. reflexivity.
Qed.

Lemma errored_tool_result_without_body_witness :
  extractCleanJSONContentWithErrorCheck
    (JObject [(lit "type", JString (lit "user"));
              (lit "message",
               JObject [(lit "content",
                         JArray [JObject [(lit "type", JString (lit "tool_result"));
                                          (lit "is_error", JBool true)]])])])
  = Ok {| r_speaker := USER;
          r_content := checkMark ++ lit " Tool result received";
          r_hasError := true |}.
Proof.
  refine (proj1 (errored_tool_result_without_body _
                   (JObject [(lit "type", JString (lit "tool_result"));
                             (lit "is_error", JBool true)])
                   (Some (JBool true)) None None _ _ _ _ _ _ _ _ _));
    vm_compute; reflexivity.
Defined.

(** ** The two renderers side by side *)

Lemma strings_app (a b : list json) : strings (a ++ b) <-> strings a /\ strings b.
Proof.
  unfold strings. induction a as [|x a IH]; simpl.
  - split; [intros H; split; [now exists []|exact H] | now intros [_ H]].
  - destruct (toStringJ x) as [s|e]; cbn [bind].
    + split.
      * intros [ss H]. apply bind_Ok in H as (t & H & _).
        destruct (proj1 IH (ex_intro _ t H)) as [[sa Ha] Hb].
        split; [|exact Hb]. rewrite Ha. now eexists.
      * intros [[ss H] Hb]. apply bind_Ok in H as (t & H & _).
        destruct (proj2 IH (conj (ex_intro _ t H) Hb)) as [u Hu].
        rewrite Hu. now eexists.
    + split; [intros [ss H]; discriminate | intros [[ss H] _]; discriminate].
Qed.

Lemma strings_joinParts (sep : jsstring) (parts : list json) :
  strings parts <-> exists c, joinParts sep parts = Ok c.
Proof.
  unfold strings, joinParts. destruct (mapM toStringJ parts); cbn [bind].
  - split; eauto.
  - split; intros [? H]; discriminate.
Qed.

Lemma assistantItem_agree (contentItem : json) (parts : list json) :
  extractAssistantItem contentItem = Ok parts ->
  exists parts', formatAssistantItem contentItem = Ok parts'
                 /\ (strings parts -> strings parts').
Proof.
  unfold extractAssistantItem, formatAssistantItem. intros H.
  apply bind_Ok in H as (ty & -> & H). cbn [bind].
  destruct (isString ty (lit "text")); [eauto|].
  destruct (isString ty (lit "tool_use")); [|eauto].
  apply bind_Ok in H as (input & -> & H). cbn [bind].
  apply bind_Ok in H as (name & -> & H). cbn [bind].
  apply bind_Ok in H as (nm & -> & H). cbn [bind].
  eexists. split; [reflexivity|]. intros _. now eexists.
Qed.

Lemma userItem_agree (contentItem : json) (b : bool) (parts : list json) :
  extractUserItem contentItem = Ok (b, parts) ->
  exists parts', formatUserItem contentItem = Ok parts'
                 /\ (strings parts -> strings parts').
Proof.
  unfold extractUserItem, formatUserItem. intros H.
  apply bind_Ok in H as (ty & -> & H). cbn [bind].
  destruct (isString ty (lit "tool_result")).
  - apply bind_Ok in H as (ie & -> & H).
    apply bind_Ok in H as (rc & -> & H). cbn [bind].
    destruct rc as [| | |[|c rc]| |]; try discriminate;
      (eexists; split; [reflexivity|]; intros _; now eexists).
  - apply bind_Ok in H as (tx & -> & H). cbn [bind]. injection H as _ <-. eauto.
Qed.

Lemma assistantItems_agree (items : list json) (pushed : list (list json)) :
  mapM extractAssistantItem items = Ok pushed ->
  exists pushed', mapM formatAssistantItem items = Ok pushed'
                  /\ (strings (concat pushed) -> strings (concat pushed')).
Proof.
  revert pushed; induction items as [|i items IH]; intros pushed; simpl.
  - intros [= <-]. eauto.
  - intros H. apply bind_Ok in H as (p & E & H). apply bind_Ok in H as (ps & M & H).
    injection H as <-.
    destruct (assistantItem_agree i p E) as (p' & -> & S).
    destruct (IH ps M) as (ps' & -> & Ss). cbn [bind].
    eexists. split; [reflexivity|]. simpl. rewrite !strings_app. tauto.
Qed.

Lemma userItems_agree (items : list json) (turns : list (bool * list json)) :
  mapM extractUserItem items = Ok turns ->
  exists pushed', mapM formatUserItem items = Ok pushed'
                  /\ (strings (concat (map snd turns)) -> strings (concat pushed')).
Proof.
  revert turns; induction items as [|i items IH]; intros turns; simpl.
  - intros [= <-]. eauto.
  - intros H. apply bind_Ok in H as ([b p] & E & H). apply bind_Ok in H as (ps & M & H).
    injection H as <-.
    destruct (userItem_agree i b p E) as (p' & -> & S).
    destruct (IH ps M) as (ps' & -> & Ss). cbn [bind].
    eexists. split; [reflexivity|]. simpl. rewrite !strings_app. tauto.
Qed.

(** X7.  Whenever the annotation renderer renders a message, the console
    renderer renders it too, under the same speaker; for a [system] event
    the two bodies are equal as well. *)
Theorem console_and_annotation_agree_on_speaker (msg : json) (r : rendered) :
  extractCleanJSONContentWithErrorCheck msg = Ok r ->
  exists c,
    formatJSONMessage msg = Ok (r_speaker r, c)
    /\ (r_speaker r = SYSTEM -> c = r_content r).
Proof.
  unfold extractCleanJSONContentWithErrorCheck, formatJSONMessage. intros H.
  apply bind_Ok in H as (ty & -> & H). cbn [bind].
  destruct (isString ty (lit "system")).
  { apply bind_Ok in H as (sub & -> & H). cbn [bind].
    destruct (isString sub (lit "init")).
    - apply bind_Ok in H as (c & -> & H). injection H as <-. cbn. eauto.
    - injection H as <-. cbn. eauto. }
  destruct (isString ty (lit "assistant")).
  { apply bind_Ok in H as (items & -> & H). cbn [bind].
    apply bind_Ok in H as (pushed & M & H). apply bind_Ok in H as (c & J & H).
    injection H as <-. cbn [r_speaker r_content].
    destruct (assistantItems_agree items pushed M) as (pushed' & -> & S). cbn [bind].
    destruct (proj1 (strings_joinParts nl _) (S (proj2 (strings_joinParts _ _) (ex_intro _ c J))))
      as [c' ->].
    exists c'. split; [reflexivity|]. discriminate. }
  destruct (isString ty (lit "user")).
  { apply bind_Ok in H as (items & -> & H). cbn [bind].
    apply bind_Ok in H as (turns & M & H). apply bind_Ok in H as (c & J & H).
    injection H as <-. cbn [r_speaker r_content].
    destruct (userItems_agree items turns M) as (pushed' & -> & S). cbn [bind].
    destruct (proj1 (strings_joinParts nl _) (S (proj2 (strings_joinParts _ _) (ex_intro _ c J))))
      as [c' ->].
    exists c'. split; [reflexivity|]. discriminate. }
  apply bind_Ok in H as (sp & -> & H). injection H as <-. cbn. eauto.
Qed.

Lemma console_and_annotation_agree_on_speaker_witness :
  exists c,
    formatJSONMessage
      (JObject [(lit "type", JString (lit "system")); (lit "subtype", JString (lit "init"));
                (lit "session_id", JString (lit "s1")); (lit "model", JString (lit "m"))])
    = Ok (SYSTEM, c)
    /\ (SYSTEM = SYSTEM -> c = lit "Session initialized (ID: s1, Model: m)").
Proof.
  refine (console_and_annotation_agree_on_speaker _
            {| r_speaker := SYSTEM;
               r_content := lit "Session initialized (ID: s1, Model: m)";
               r_hasError := false |} _).
  vm_compute; reflexivity.
Defined.

Lemma toolResultContent_kept (contentItem t : json) :
  prop contentItem "text" = Ok (Some t) -> truthy (Some t) = true ->
  (forall s v, toStringJ t = Ok s -> JSON_parse s <> Ok v) ->
  toolResultContent contentItem = Ok t.
Proof.
  intros T Tt N. unfold toolResultContent. rewrite T. cbn [bind].
  unfold whenTruthy. rewrite Tt.
  destruct (toStringJ t) as [s|e] eqn:S; cbn [bind]; [|reflexivity].
  destruct (JSON_parse s) as [v|e] eqn:P; [|reflexivity].
  now destruct (N s v eq_refl).
Qed.

(** X8.  The converse of X7 fails.  Take a [user] message of one tool
    result whose [text] is truthy, is not a string and does not read as
    JSON once turned into a string (an object, say).  The console renderer
    shows it under [USER], with the indicator and the string form of the
    value.  The annotation renderer throws ([resultContent.split] is not a
    function), so the annotation of the same line shows the raw line as
    [SYSTEM] text. *)
Theorem structured_text_of_a_tool_result_diverges
  (line : jsstring) (elapsedMs n : Z) (msg contentItem t : json)
  (is_error : option json) (s : jsstring) (e : exn) :
  startsWith (trim line) (lit "{") = true ->
  JSON_parse (trim line) = Ok msg ->
  prop msg "type" = Ok (Some (JString (lit "user"))) ->
  contentItems msg = Ok [contentItem] ->
  prop contentItem "type" = Ok (Some (JString (lit "tool_result"))) ->
  prop contentItem "is_error" = Ok is_error ->
  prop contentItem "text" = Ok (Some t) ->
  (forall u, t <> JString u) -> truthy (Some t) = true ->
  toStringJ t = Ok s -> JSON_parse s = Throw e ->
  formatJSONMessage msg = Ok (USER, toolIndicator is_error ++ nl ++ s)
  /\ extractCleanJSONContentWithErrorCheck msg = Throw TypeError
  /\ (exists entry,
        fst (parseLine line elapsedMs n) = Some entry /\ speaker entry = USER)
  /\ annotationEntry (trim line)
     = Some {| r_speaker := SYSTEM; r_content := trim line; r_hasError := false |}.
Proof.
  intros B P T I Ty E X NS Tt S PE.
  assert (R : toolResultContent contentItem = Ok t).
  { apply toolResultContent_kept; try assumption.
    intros s' v S'. rewrite S in S'. injection S' as <-. congruence. }
  assert (F : formatJSONMessage msg = Ok (USER, toolIndicator is_error ++ nl ++ s)).
  { unfold formatJSONMessage. rewrite T, I. cbn [bind].
    change (isString _ (lit "system")) with false.
    change (isString _ (lit "assistant")) with false.
    change (isString _ (lit "user")) with true. cbv iota.
    cbn [mapM]. unfold formatUserItem. rewrite Ty. cbn [bind].
    change (isString _ (lit "tool_result")) with true. cbv iota.
    rewrite R. cbn [bind].
    destruct t as [| | |[|c u]| |]; try (now destruct (NS [])); try discriminate;
      try (now destruct (NS (c :: u)));
      rewrite E; cbn [bind]; rewrite S; cbn [bind concat app joinParts mapM toStringJ join];
      reflexivity. }
  assert (Xt : extractCleanJSONContentWithErrorCheck msg = Throw TypeError).
  { unfold extractCleanJSONContentWithErrorCheck. rewrite T, I. cbn [bind].
    change (isString _ (lit "system")) with false.
    change (isString _ (lit "assistant")) with false.
    change (isString _ (lit "user")) with true. cbv iota.
    cbn [mapM]. unfold extractUserItem. rewrite Ty. cbn [bind].
    change (isString _ (lit "tool_result")) with true. cbv iota.
    rewrite E, R. cbn [bind].
    destruct t as [| | |u| |]; try reflexivity. now destruct (NS u). }
  destruct (startsWith_brace _ B) as [rest Rl].
  assert (NE : eqb (trim line) [] = false) by (apply eqb_neq; rewrite Rl; discriminate).
  split; [exact F|]. split; [exact Xt|]. split.
  - unfold parseLine. rewrite NE, B, P, F. eexists. split; reflexivity.
  - unfold annotationEntry. rewrite B, P. cbn [bind]. now rewrite Xt.
Qed.

Lemma structured_text_of_a_tool_result_diverges_witness :
  let line :=
    qlit "{'type':'user','message':{'content':[{'type':'tool_result','text':{'ok':true}}]}}" in
  (exists entry, fst (parseLine line 0 0) = Some entry /\ speaker entry = USER)
  /\ annotationEntry (trim line)
     = Some {| r_speaker := SYSTEM; r_content := trim line; r_hasError := false |}.
Proof.
  refine (proj2 (proj2 (structured_text_of_a_tool_result_diverges
            (qlit "{'type':'user','message':{'content':[{'type':'tool_result','text':{'ok':true}}]}}")
            0 0
            (JObject [(lit "type", JString (lit "user"));
                      (lit "message",
                       JObject [(lit "content",
                                 JArray [JObject [(lit "type", JString (lit "tool_result"));
                                                  (lit "text",
                                                   JObject [(lit "ok", JBool true)])]])])])
            (JObject [(lit "type", JString (lit "tool_result"));
                      (lit "text", JObject [(lit "ok", JBool true)])])
            (JObject [(lit "ok", JBool true)]) None (lit "[object Object]") SyntaxError
            _ _ _ _ _ _ _ _ _ _ _)));
    try (vm_compute; reflexivity).
  discriminate.
Defined.

(** ** Missing fields *)

(** X9.  A [system] event of subtype [init] that has neither a
    [session_id] nor a [model]: both renderers print the missing fields as
    [undefined]; nothing throws and nothing is left out. *)
Theorem session_without_id_or_model (msg : json) :
  prop msg "type" = Ok (Some (JString (lit "system"))) ->
  prop msg "subtype" = Ok (Some (JString (lit "init"))) ->
  prop msg "session_id" = Ok None ->
  prop msg "model" = Ok None ->
  formatJSONMessage msg
  = Ok (SYSTEM, lit "Session initialized (ID: undefined, Model: undefined)")
  /\ extractCleanJSONContentWithErrorCheck msg
     = Ok {| r_speaker := SYSTEM;
             r_content := lit "Session initialized (ID: undefined, Model: undefined)";
             r_hasError := false |}.
Proof.
  intros T S I M.
  unfold formatJSONMessage, extractCleanJSONContentWithErrorCheck, sessionInitialized.
  rewrite T, S. cbn [bind].
  change (isString _ (lit "system")) with true.
  change (isString _ (lit "init")) with true. cbv iota.
  rewrite I, M. split; reflexivity.
Qed.

Lemma session_without_id_or_model_witness :
  formatJSONMessage
    (JObject [(lit "type", JString (lit "system")); (lit "subtype", JString (lit "init"))])
  = Ok (SYSTEM, lit "Session initialized (ID: undefined, Model: undefined)").
Proof.
  refine (proj1 (session_without_id_or_model _ _ _ _ _)); vm_compute; reflexivity.
Defined.

(** ** Messages of text items *)

Lemma mapM_map {A B C} (f : B -> result C) (g : A -> B) (h : A -> C) (l : list A) :
  (forall a, f (g a) = Ok (h a)) -> mapM f (map g l) = Ok (map h l).
Proof.
  intros H. induction l as [|a l IH]; simpl; [reflexivity|].
  rewrite H. cbn [bind]. rewrite IH. reflexivity.
Qed.

Lemma concat_whenTruthy (texts : list jsstring) :
  concat (map (fun t => whenTruthy (Some (JString t))) texts)
  = map JString (filter nonEmpty texts).
Proof.
  induction texts as [|t ts IH]; [reflexivity|].
  cbn [map concat filter]. rewrite IH.
  change (whenTruthy (Some (JString t)))
    with (if nonEmpty t then [JString t] else []).
  now destruct (nonEmpty t).
Qed.

Lemma joinParts_strings (sep : jsstring) (l : list jsstring) :
  joinParts sep (map JString l) = Ok (join sep l).
Proof.
  unfold joinParts. rewrite (mapM_map toStringJ JString (fun s => s)) by reflexivity.
  cbn [bind]. now rewrite map_id.
Qed.

(** X10.  A [user] or [assistant] message whose items are all of type
    [text]: the body is the texts that are not empty, in order, joined by
    one line feed on the console and by two in the annotation; no error is
    flagged.  An empty list of items gives the empty body. *)
Theorem text_items_are_joined (msg m : json) (texts : list jsstring) (kind : jsstring) :
  prop msg "type" = Ok (Some (JString kind)) ->
  kind = lit "assistant" \/ kind = lit "user" ->
  prop msg "message" = Ok (Some m) ->
  getProp (Some m) (lit "content") = Ok (Some (JArray (map textItem texts))) ->
  formatJSONMessage msg = Ok (toUpperCase kind, join nl (filter nonEmpty texts))
  /\ extractCleanJSONContentWithErrorCheck msg
     = Ok {| r_speaker := toUpperCase kind;
             r_content := join (nl ++ nl) (filter nonEmpty texts);
             r_hasError := false |}.
Proof.
  intros T K M C. pose proof (contentItems_array msg m _ M C) as I.
  unfold formatJSONMessage, extractCleanJSONContentWithErrorCheck. rewrite T, I. cbn [bind].
  destruct K as [-> | ->].
  - change (isString _ (lit "system")) with false.
    change (isString _ (lit "assistant")) with true. cbv iota.
    rewrite (mapM_map formatAssistantItem textItem
               (fun t => whenTruthy (Some (JString t)))) by reflexivity.
    rewrite (mapM_map extractAssistantItem textItem
               (fun t => whenTruthy (Some (JString t)))) by reflexivity.
    cbn [bind]. rewrite concat_whenTruthy, !joinParts_strings. split; reflexivity.
  - change (isString _ (lit "system")) with false.
    change (isString _ (lit "assistant")) with false.
    change (isString _ (lit "user")) with true. cbv iota.
    rewrite (mapM_map formatUserItem textItem
               (fun t => whenTruthy (Some (JString t)))) by reflexivity.
    rewrite (mapM_map extractUserItem textItem
               (fun t => (false, whenTruthy (Some (JString t))))) by reflexivity.
    cbn [bind]. rewrite map_map. cbn [snd].
    rewrite concat_whenTruthy, !joinParts_strings.
    rewrite existsb_map_false by reflexivity. split; reflexivity.
Qed.

Lemma text_items_are_joined_witness :
  formatJSONMessage
    (JObject [(lit "type", JString (lit "assistant"));
              (lit "message",
               JObject [(lit "content", JArray (map textItem [lit "one"; []; lit "two"]))])])
  = Ok (ASSISTANT, lit "one" ++ nl ++ lit "two").
Proof.
  refine (proj1 (text_items_are_joined _
                   (JObject [(lit "content",
                              JArray (map textItem [lit "one"; []; lit "two"]))])
                   [lit "one"; []; lit "two"] (lit "assistant") _ _ _ _));
    try (vm_compute; reflexivity).
  now left.
Defined.

(** ** No line is lost *)

Lemma alike_strings (s t : jsstring) : s <> [] -> t <> [] -> alike (JString s) (JString t).
Proof. intros S T. right. now exists s, t. Qed.

Lemma Forall2_alike_refl (l : list json) : Forall2 alike l l.
Proof. induction l; constructor; [now left | assumption]. Qed.

Lemma describeToolInput_not_nil (toolDesc toolInput : jsstring) :
  toolDesc <> [] -> describeToolInput toolDesc toolInput <> [].
Proof.
  intros H. unfold describeToolInput.
  destruct (negb _); [now destruct toolDesc|].
  destruct (splitPreview 300 toolInput) as [p r]. destruct (negb _); now destruct toolDesc.
Qed.

Lemma describeToolResult_not_nil (errorIndicator resultContent : jsstring) :
  errorIndicator <> [] -> describeToolResult errorIndicator resultContent <> [].
Proof.
  intros H. unfold describeToolResult.
  destruct (negb _); [now destruct errorIndicator|].
  destruct (splitPreview 400 resultContent) as [p r].
  destruct (negb _); now destruct errorIndicator.
Qed.

Lemma assistantItem_alike (contentItem : json) (ps qs : list json) :
  extractAssistantItem contentItem = Ok ps ->
  formatAssistantItem contentItem = Ok qs ->
  Forall2 alike ps qs.
Proof.
  unfold extractAssistantItem, formatAssistantItem. intros E F.
  apply bind_Ok in E as (ty & T & E). rewrite T in F. cbn [bind] in F.
  destruct (isString ty (lit "text")).
  { rewrite E in F. injection F as <-. apply Forall2_alike_refl. }
  destruct (isString ty (lit "tool_use")).
  2:{ injection E as <-. injection F as <-. constructor. }
  apply bind_Ok in E as (input & I & E). rewrite I in F. cbn [bind] in F.
  apply bind_Ok in E as (name & N & E). rewrite N in F. cbn [bind] in F.
  apply bind_Ok in E as (nm & S & E). rewrite S in F. cbn [bind] in F.
  injection F as <-.
  assert (D : wrench ++ lit " Using tool: " ++ nm <> []) by discriminate.
  destruct (_ && _); injection E as <-; (constructor; [|constructor]);
    apply alike_strings; try discriminate; try exact D.
  now apply describeToolInput_not_nil.
Qed.

Lemma userItem_alike (contentItem : json) (b : bool) (ps qs : list json) :
  extractUserItem contentItem = Ok (b, ps) ->
  formatUserItem contentItem = Ok qs ->
  Forall2 alike ps qs.
Proof.
  unfold extractUserItem, formatUserItem. intros E F.
  apply bind_Ok in E as (ty & T & E). rewrite T in F. cbn [bind] in F.
  destruct (isString ty (lit "tool_result")).
  - apply bind_Ok in E as (ie & I & E). apply bind_Ok in E as (rc & R & E).
    rewrite R in F. cbn [bind] in F.
    destruct rc as [| | |[|c rc]| |]; try discriminate.
    + injection E as _ <-. injection F as <-. constructor; [|constructor].
      apply alike_strings; discriminate.
    + rewrite I in F. cbn [bind toStringJ] in F. injection E as _ <-. injection F as <-.
      constructor; [|constructor]. apply alike_strings.
      * apply describeToolResult_not_nil. destruct (truthy ie); discriminate.
      * destruct (truthy ie); discriminate.
  - apply bind_Ok in E as (tx & X & E). rewrite X in F. cbn [bind] in F.
    injection E as _ <-. injection F as <-. apply Forall2_alike_refl.
Qed.

Lemma assistantItems_alike (items : list json) :
  forall pss qss,
    mapM extractAssistantItem items = Ok pss ->
    mapM formatAssistantItem items = Ok qss ->
    Forall2 alike (concat pss) (concat qss).
Proof.
  induction items as [|i items IH]; intros pss qss; simpl.
  - intros [= <-] [= <-]. constructor.
  - intros E F. apply bind_Ok in E as (p & Ep & E). apply bind_Ok in E as (ps & Eps & E).
    apply bind_Ok in F as (q & Fq & F). apply bind_Ok in F as (qs & Fqs & F).
    injection E as <-. injection F as <-. simpl.
    apply Forall2_app; [now apply (assistantItem_alike i) | now apply IH].
Qed.

Lemma userItems_alike (items : list json) :
  forall turns qss,
    mapM extractUserItem items = Ok turns ->
    mapM formatUserItem items = Ok qss ->
    Forall2 alike (concat (map snd turns)) (concat qss).
Proof.
  induction items as [|i items IH]; intros turns qss; simpl.
  - intros [= <-] [= <-]. constructor.
  - intros E F. apply bind_Ok in E as ([b p] & Ep & E). apply bind_Ok in E as (ps & Eps & E).
    apply bind_Ok in F as (q & Fq & F). apply bind_Ok in F as (qs & Fqs & F).
    injection E as <-. injection F as <-. simpl.
    apply Forall2_app; [now apply (userItem_alike i b) | now apply IH].
Qed.

(** When the parts are alike and the console body is empty, so is the
    body of the annotation. *)
Lemma joinParts_alike (ps qs : list json) (sep sep' c c' : jsstring) :
  Forall2 alike ps qs -> sep' <> [] ->
  joinParts sep ps = Ok c -> joinParts sep' qs = Ok c' -> c' = [] -> c = [].
Proof.
  unfold joinParts. intros A S J J' ->.
  apply bind_Ok in J as (ss & M & J). injection J as <-.
  apply bind_Ok in J' as (ts & M' & J'). injection J' as J'.
  destruct A as [|p q ps qs Apq A]; [now injection M as <-|].
  cbn [mapM] in M, M'.
  apply bind_Ok in M as (s & Sp & M). apply bind_Ok in M as (ss' & Mp & M).
  apply bind_Ok in M' as (t & Tq & M'). apply bind_Ok in M' as (ts' & Mq & M').
  injection M as <-. injection M' as <-.
  destruct A as [|p2 q2 ps qs A2 A].
  - injection Mp as <-. injection Mq as <-. cbn [join] in *. subst t.
    destruct Apq as [->|(s' & t' & -> & -> & Hs & Ht)]; [congruence|].
    cbn in Tq. congruence.
  - exfalso. cbn [mapM] in Mq.
    apply bind_Ok in Mq as (t2 & _ & Mq). apply bind_Ok in Mq as (ts2 & _ & Mq).
    injection Mq as <-.
    change (join sep' (t :: t2 :: ts2)) with (t ++ sep' ++ join sep' (t2 :: ts2)) in J'.
    apply app_eq_nil in J' as [_ J']. apply app_eq_nil in J' as [J' _]. contradiction.
Qed.

(** A message whose annotation is withheld is printed on the console. *)
Lemma marker_is_printed (msg : json) (r : rendered) (sp c : jsstring) :
  extractCleanJSONContentWithErrorCheck msg = Ok r ->
  r_content r = unknownMessageType ->
  formatJSONMessage msg = Ok (sp, c) ->
  c <> [].
Proof.
  unfold extractCleanJSONContentWithErrorCheck, formatJSONMessage. intros E U F.
  apply bind_Ok in E as (ty & T & E). rewrite T in F. cbn [bind] in F.
  destruct (isString ty (lit "system")).
  { apply bind_Ok in E as (sub & S & E). rewrite S in F. cbn [bind] in F.
    destruct (isString sub (lit "init")).
    - apply bind_Ok in E as (c0 & I & E). rewrite I in F. cbn [bind] in F.
      injection E as <-. injection F as _ <-. cbn in U. now rewrite U.
    - injection F as _ <-. discriminate. }
  destruct (isString ty (lit "assistant")).
  { apply bind_Ok in E as (items & I & E). rewrite I in F. cbn [bind] in F.
    apply bind_Ok in E as (pss & Mp & E). apply bind_Ok in E as (c0 & J & E).
    apply bind_Ok in F as (qss & Mq & F). apply bind_Ok in F as (c1 & J' & F).
    injection E as <-. injection F as _ <-. cbn in U. intros ->.
    pose proof (joinParts_alike _ _ (nl ++ nl) nl c0 []
                  (assistantItems_alike items pss qss Mp Mq)
                  ltac:(discriminate) J J' eq_refl) as Z.
    rewrite Z in U. discriminate. }
  destruct (isString ty (lit "user")).
  { apply bind_Ok in E as (items & I & E). rewrite I in F. cbn [bind] in F.
    apply bind_Ok in E as (turns & Mp & E). apply bind_Ok in E as (c0 & J & E).
    apply bind_Ok in F as (qss & Mq & F). apply bind_Ok in F as (c1 & J' & F).
    injection E as <-. injection F as _ <-. cbn in U. intros ->.
    pose proof (joinParts_alike _ _ (nl ++ nl) nl c0 []
                  (userItems_alike items turns qss Mp Mq)
                  ltac:(discriminate) J J' eq_refl) as Z.
    rewrite Z in U. discriminate. }
  apply bind_Ok in F as (s & _ & F). injection F as _ <-. discriminate.
Qed.

(** X11.  No line that is not blank is lost: its handler prints at least one
    console line or runs the external command once.  The console stays
    silent only for an empty rendered body, and the annotation is withheld
    only for the marker of the unknown type; the two never meet, since a
    message rendered with the marker in the annotation has a body that is
    not empty on the console. *)
Theorem no_line_is_lost (a : arrival) (n : Z) :
  isBlank a = false ->
  filter isLog (fst (onLine a n)) <> [] \/ filter isExec (fst (onLine a n)) <> [].
Proof.
  intros B. apply eqb_neq in B. pose proof B as NE. apply eqb_neq in NE.
  assert (K : forall e l, filter isExec (createBuildkiteAnnotation (text a) e l (execError a))
                          = []
                          -> annotationEntry (trim (text a)) = None).
  { intros k ts. unfold createBuildkiteAnnotation.
    destruct (buildAnnotation (text a) k ts) eqn:A; [discriminate|]. intros _.
    now apply (buildAnnotation_None (text a) k ts B). }
  unfold onLine, parseLine. rewrite NE.
  assert (P : forall entry, content entry <> [] ->
                filter isLog (printSingleEntry entry
                              ++ createBuildkiteAnnotation (text a) (lineNumber entry)
                                   (timestamp entry) (execError a)) <> []).
  { intros entry C. rewrite filter_app, (filter_all isLog) by apply printSingleEntry_logs.
    intros Z. apply app_eq_nil in Z as [Z _]. now apply printSingleEntry_nil in Z. }
  destruct (startsWith (trim (text a)) (lit "{")) eqn:S; [|left; now apply P].
  destruct (JSON_parse (trim (text a))) as [msg|e] eqn:J; [|left; now apply P].
  destruct (formatJSONMessage msg) as [[sp c]|e] eqn:F; [|left; now apply P].
  cbn [fst].
  destruct c as [|x c]; [|left; now apply P].
  right. rewrite filter_app. intros Z. apply app_eq_nil in Z as [_ Z].
  apply K in Z. apply annotationEntry_None in Z as (_ & msg' & r & J' & X & U).
  rewrite J in J'. injection J' as <-.
  now apply (marker_is_printed msg r sp [] X U F).
Qed.

Lemma no_line_is_lost_witness :
  let a := {| text := qlit "{'type':'assistant'}"; elapsed := 0; execError := None |} in
  filter isLog (fst (onLine a 0)) <> [] \/ filter isExec (fst (onLine a 0)) <> [].
Proof.
  intros a. apply (no_line_is_lost a 0). reflexivity.
Defined.

(** ** What a disclosure keeps of a text *)

Lemma split_no_sep (c : codeunit) (s : jsstring) :
  Forall (fun l => ~ In c l) (split c s).
Proof.
  induction s as [|x s IH]; simpl; [repeat constructor; easy|].
  destruct (N.eqb_spec x c) as [->|D]; [constructor; [easy|exact IH]|].
  destruct (split c s) as [|l ls]; [repeat constructor; simpl; intuition|].
  apply Forall_cons_iff in IH as [Hl Hls]. constructor; [|exact Hls].
  simpl. intuition.
Qed.

Lemma needsDisclosure_cases (maxPreviewLength : nat) (text : jsstring) :
  needsDisclosure maxPreviewLength text = true ->
  (exists a b c r,
     split 10%N text = a :: b :: c :: r
     /\ splitPreview maxPreviewLength text = (a ++ nl ++ b, join nl (c :: r))
     /\ (a ++ nl ++ b) ++ nl ++ join nl (c :: r) = text
     /\ split 10%N (a ++ nl ++ b) = [a; b])
  \/ ((length (split 10%N text) <= 2)%nat
      /\ (maxPreviewLength < length text)%nat
      /\ splitPreview maxPreviewLength text
         = (firstn maxPreviewLength text ++ lit "...", skipn maxPreviewLength text)
      /\ skipn maxPreviewLength text <> []).
Proof.
  intros H. apply needsDisclosure_iff in H.
  destruct (Nat.ltb_spec 2 (length (split 10%N text))) as [L|L].
  - left. pose proof (join_split 10%N text) as J.
    pose proof (split_no_sep 10%N text) as F.
    unfold splitPreview. apply Nat.ltb_lt in L. rewrite L.
    destruct (split 10%N text) as [|a [|b [|c r]]]; try discriminate.
    exists a, b, c, r. split; [reflexivity|]. split; [reflexivity|]. split.
    + rewrite <- J. change (join [10%N] (a :: b :: c :: r))
        with (a ++ nl ++ b ++ nl ++ join nl (c :: r)).
      now rewrite <- !app_assoc.
    + apply Forall_cons_iff in F as [Fa F]. apply Forall_cons_iff in F as [Fb _].
      apply (split_join 10%N [a; b]); [discriminate|]. now repeat constructor.
  - right. assert (M : (maxPreviewLength < length text)%nat) by lia.
    split; [assumption|]. split; [assumption|]. split.
    + unfold splitPreview. apply Nat.ltb_ge in L. rewrite L.
      apply Nat.ltb_lt in M. now rewrite M.
    + intros E. apply (f_equal (@length _)) in E. rewrite length_skipn in E.
      simpl in E. lia.
Qed.

(** X12.  Where a disclosure is needed, nothing of the text is lost and
    the last branch of the source ([preview = text], [remaining] empty) is
    never taken.  With more than two lines, the preview is the first two
    lines and the preview, a line feed and the remainder make up the text.
    With at most two lines the text is longer than the threshold, the
    preview is its first [maxPreviewLength] code units and three dots, and
    the remainder is the rest, which is not empty. *)
Theorem disclosure_split_keeps_the_text (maxPreviewLength : nat) (text : jsstring) :
  needsDisclosure maxPreviewLength text = true ->
  let preview := fst (splitPreview maxPreviewLength text) in
  let remaining := snd (splitPreview maxPreviewLength text) in
  ((2 < length (split 10%N text))%nat ->
     preview ++ nl ++ remaining = text
     /\ length (split 10%N preview) = 2%nat)
  /\ ((length (split 10%N text) <= 2)%nat ->
        preview = firstn maxPreviewLength text ++ lit "..."
        /\ firstn maxPreviewLength text ++ remaining = text
        /\ remaining <> []).
Proof.
  intros H preview remaining. subst preview remaining.
  destruct (needsDisclosure_cases _ _ H) as [(a & b & c & r & S & -> & J & P)|(L & M & -> & N)];
    cbn [fst snd].
  - split.
    + intros _. split; [exact J|]. now rewrite P.
    + rewrite S. simpl. lia.
  - split; [lia|]. intros _. split; [reflexivity|]. split; [apply firstn_skipn|exact N].
Qed.

Lemma disclosure_split_keeps_the_text_witness :
  fst (splitPreview 400 (lit "a" ++ nl ++ lit "b" ++ nl ++ lit "c" ++ nl ++ lit "d"))
    ++ nl
    ++ snd (splitPreview 400 (lit "a" ++ nl ++ lit "b" ++ nl ++ lit "c" ++ nl ++ lit "d"))
  = lit "a" ++ nl ++ lit "b" ++ nl ++ lit "c" ++ nl ++ lit "d"
  /\ length (split 10%N
       (fst (splitPreview 400 (lit "a" ++ nl ++ lit "b" ++ nl ++ lit "c" ++ nl ++ lit "d"))))
     = 2%nat.
Proof.
  refine (proj1 (disclosure_split_keeps_the_text 400
                   (lit "a" ++ nl ++ lit "b" ++ nl ++ lit "c" ++ nl ++ lit "d") _) _);
    vm_compute; [reflexivity|lia].
Defined.

(** ** Structured values are always disclosed *)

Lemma stringify2_container (v : json) :
  nonEmptyContainer v = true ->
  exists o body c,
    JSON_stringify2 v = [o] ++ [10%N] ++ body ++ [10%N] ++ [c] /\ c <> 10%N.
Proof.
  unfold JSON_stringify2. destruct v as [| | | |[|x l]|[|kv l]]; try discriminate; intros _;
    cbn [stringify]; unfold wrapParts; cbn [map];
    change (eqb (lit "  ") []) with false; cbv iota.
  - exists 91%N. eexists. exists 93%N. split; [|discriminate].
    change (lit "[") with [91%N]. change (lit "]") with [93%N].
    rewrite (app_assoc _ (join _ _)). reflexivity.
  - exists 123%N. eexists. exists 125%N. split; [|discriminate].
    change (lit "{") with [123%N]. change (lit "}") with [125%N].
    rewrite (app_assoc _ (join _ _)). reflexivity.
Qed.

Lemma container_lines (v : json) :
  nonEmptyContainer v = true ->
  (2 < length (split 10%N (JSON_stringify2 v)))%nat
  /\ (3 < length (JSON_stringify2 v))%nat
  /\ forall p, JSON_stringify2 v <> p ++ nl ++ [].
Proof.
  intros H. destruct (stringify2_container v H) as (o & body & c & -> & C).
  split; [|split].
  - rewrite split_length, !count_occ_app. simpl.
    destruct (N.eq_dec c 10); [contradiction|]. lia.
  - rewrite !length_app. simpl. lia.
  - intros p E. apply (f_equal (@rev _)) in E.
    rewrite !rev_app_distr in E. simpl in E. now injection E.
Qed.

Lemma container_split (maxPreviewLength : nat) (v : json) :
  nonEmptyContainer v = true ->
  needsDisclosure maxPreviewLength (JSON_stringify2 v) = true
  /\ exists preview remaining,
       splitPreview maxPreviewLength (JSON_stringify2 v) = (preview, remaining)
       /\ preview ++ nl ++ remaining = JSON_stringify2 v
       /\ length (split 10%N preview) = 2%nat
       /\ eqb remaining [] = false.
Proof.
  intros H. destruct (container_lines v H) as (L & _ & E).
  assert (D : needsDisclosure maxPreviewLength (JSON_stringify2 v) = true)
    by (apply needsDisclosure_iff; now left).
  split; [exact D|].
  destruct (needsDisclosure_cases _ _ D) as [(a & b & c & r & S & P & J & Q)|(L' & _)];
    [|lia].
  exists (a ++ nl ++ b), (join nl (c :: r)). split; [exact P|]. split; [exact J|].
  split; [now rewrite Q|]. apply eqb_neq. intros R. rewrite R in J.
  now apply (E (a ++ nl ++ b)).
Qed.

Lemma container_text (v : json) :
  nonEmptyContainer v = true ->
  eqb (JSON_stringify2 v) [] = false /\ eqb (JSON_stringify2 v) (lit "{}") = false.
Proof.
  intros H. destruct (container_lines v H) as (_ & L & _).
  split; apply eqb_neq; intros E; rewrite E in L; simpl in L; lia.
Qed.

Lemma compact_container (v : json) :
  nonEmptyContainer v = true ->
  negb (eqb (JSON_stringify v) []) && negb (eqb (JSON_stringify v) (lit "{}")) = true.
Proof.
  destruct v as [| | | |[|x l]|[|kv l]]; try discriminate; intros _;
    unfold JSON_stringify; cbn [stringify map]; unfold wrapParts;
    change (eqb [] []) with true; cbv iota; [reflexivity|].
  unfold quote. destruct (map _ l); reflexivity.
Qed.

(** X13.  A tool call whose [input] is an object or an array with
    something in it: the pretty-printed input has at least three lines, so
    whatever its length the annotation shows its first two lines and puts
    the rest, never empty, in the block [Show more input...]; the console
    shows the compact form after [with]. *)
Theorem tool_with_arguments_is_always_disclosed
  (contentItem input : json) (name : option json) (nm : jsstring) :
  prop contentItem "type" = Ok (Some (JString (lit "tool_use"))) ->
  prop contentItem "input" = Ok (Some input) ->
  nonEmptyContainer input = true ->
  prop contentItem "name" = Ok name -> toStr name = Ok nm ->
  exists preview remaining,
    preview ++ nl ++ remaining = JSON_stringify2 input
    /\ length (split 10%N preview) = 2%nat
    /\ extractAssistantItem contentItem
       = Ok [JString (wrench ++ lit " Using tool: " ++ nm ++ lit " with " ++ preview
                        ++ detailsBlock (lit "Show more input...") (lit "json") remaining)]
    /\ formatAssistantItem contentItem
       = Ok [JString (ColorGreen ++ wrench ++ lit " Using tool: " ++ nm ++ lit " with "
                        ++ JSON_stringify input ++ ColorReset)].
Proof.
  intros T I C N S.
  destruct (container_split 300 input C) as (D & preview & remaining & P & J & L & R).
  destruct (container_text input C) as [E1 E2].
  exists preview, remaining. split; [exact J|]. split; [exact L|]. split.
  - unfold extractAssistantItem. rewrite T. cbn [bind].
    change (isString _ (lit "text")) with false.
    change (isString _ (lit "tool_use")) with true. cbv iota.
    rewrite I. cbn [bind]. unfold whenTruthy.
    replace (truthy (Some input)) with true by (now destruct input as [| | | |[|]|[|]]).
    rewrite N. cbn [bind]. rewrite S. cbn [bind]. rewrite E1, E2. cbn [negb andb].
    unfold describeToolInput. rewrite D, P, R. cbn [negb].
    now rewrite <- !app_assoc.
  - unfold formatAssistantItem. rewrite T. cbn [bind].
    change (isString _ (lit "text")) with false.
    change (isString _ (lit "tool_use")) with true. cbv iota.
    rewrite I. cbn [bind]. unfold whenTruthy.
    replace (truthy (Some input)) with true by (now destruct input as [| | | |[|]|[|]]).
    rewrite N. cbn [bind]. rewrite S. cbn [bind].
    rewrite (compact_container input C). reflexivity.
Qed.

Lemma tool_with_arguments_is_always_disclosed_witness :
  let input := JObject [(lit "command", JString (lit "ls"))] in
  let contentItem :=
    JObject [(lit "type", JString (lit "tool_use")); (lit "name", JString (lit "Bash"));
             (lit "input", input)] in
  exists preview remaining,
    preview ++ nl ++ remaining = JSON_stringify2 input
    /\ length (split 10%N preview) = 2%nat
    /\ extractAssistantItem contentItem
       = Ok [JString (wrench ++ lit " Using tool: " ++ lit "Bash" ++ lit " with " ++ preview
                        ++ detailsBlock (lit "Show more input...") (lit "json") remaining)]
    /\ formatAssistantItem contentItem
       = Ok [JString (ColorGreen ++ wrench ++ lit " Using tool: " ++ lit "Bash" ++ lit " with "
                        ++ JSON_stringify input ++ ColorReset)].
Proof.
  intros input contentItem.
  apply (tool_with_arguments_is_always_disclosed contentItem input
           (Some (JString (lit "Bash"))) (lit "Bash")); reflexivity.
Defined.

(** X14.  A tool result without [text] whose [content] is an object or an
    array with something in it: the annotation shows the first two lines
    of the pretty-printed [content] under the indicator and puts the rest,
    never empty, in the block [Show more...], whatever the length; the
    console shows the whole pretty-printed [content]. *)
Theorem structured_tool_result_is_always_disclosed
  (contentItem content : json) (is_error text : option json) :
  prop contentItem "type" = Ok (Some (JString (lit "tool_result"))) ->
  prop contentItem "is_error" = Ok is_error ->
  prop contentItem "text" = Ok text -> truthy text = false ->
  prop contentItem "content" = Ok (Some content) ->
  nonEmptyContainer content = true ->
  exists preview remaining,
    preview ++ nl ++ remaining = JSON_stringify2 content
    /\ length (split 10%N preview) = 2%nat
    /\ extractUserItem contentItem
       = Ok (truthy is_error,
             [JString ((if truthy is_error then crossMark ++ lit " Tool error:"
                        else checkMark ++ lit " Tool result:")
                       ++ nl ++ preview ++ detailsBlock (lit "Show more...") [] remaining)])
    /\ formatUserItem contentItem
       = Ok [JString (toolIndicator is_error ++ nl ++ JSON_stringify2 content)].
Proof.
  intros T E X Xf C N.
  destruct (container_split 400 content N) as (D & preview & remaining & P & J & L & R).
  destruct (container_text content N) as [E1 _].
  assert (Q : toolResultContent contentItem = Ok (JString (JSON_stringify2 content))).
  { unfold toolResultContent. rewrite X. cbn [bind]. rewrite (whenTruthy_false text Xf), C.
    cbn [bind]. unfold whenTruthy.
    replace (truthy (Some content)) with true by (now destruct content as [| | | |[|]|[|]]).
    reflexivity. }
  exists preview, remaining. split; [exact J|]. split; [exact L|]. split.
  - unfold extractUserItem. rewrite T. cbn [bind].
    change (isString _ (lit "tool_result")) with true. cbv iota.
    rewrite E, Q. cbn [bind].
    destruct (JSON_stringify2 content) as [|c rc] eqn:S; [discriminate|].
    unfold describeToolResult. rewrite D, P, R. reflexivity.
  - unfold formatUserItem. rewrite T. cbn [bind].
    change (isString _ (lit "tool_result")) with true. cbv iota.
    rewrite Q. cbn [bind].
    destruct (JSON_stringify2 content) as [|c rc] eqn:S; [discriminate|].
    rewrite E. reflexivity.
Qed.

Lemma structured_tool_result_is_always_disclosed_witness :
  let content := JArray [JObject [(lit "type", JString (lit "text"));
                                  (lit "text", JString (lit "done"))]] in
  let contentItem :=
    JObject [(lit "type", JString (lit "tool_result")); (lit "content", content)] in
  exists preview remaining,
    preview ++ nl ++ remaining = JSON_stringify2 content
    /\ length (split 10%N preview) = 2%nat
    /\ extractUserItem contentItem
       = Ok (truthy None,
             [JString ((if truthy None then crossMark ++ lit " Tool error:"
                        else checkMark ++ lit " Tool result:")
                       ++ nl ++ preview ++ detailsBlock (lit "Show more...") [] remaining)])
    /\ formatUserItem contentItem
       = Ok [JString (toolIndicator None ++ nl ++ JSON_stringify2 content)].
Proof.
  intros content contentItem.
  apply (structured_tool_result_is_always_disclosed contentItem content None None);
    reflexivity.
Defined.

(** ** The threshold of a tool input *)



(** ** Pretty text shown again *)

(** X16.  Pretty-printing the text of a tool result is idempotent.  If the
    text reads as JSON, with no number beyond the range of a double and no
    negative zero, what is shown is the pretty-printed value; and an item
    whose text is already that pretty form is shown unchanged. *)
Theorem pretty_tool_result_is_a_fixed_point
  (contentItem shown : json) (t : jsstring) (v : json) :
  prop contentItem "text" = Ok (Some (JString t)) ->
  JSON_parse t = Ok v -> plainNumbers v = true ->
  prop shown "text" = Ok (Some (JString (JSON_stringify2 v))) ->
  toolResultContent contentItem = Ok (JString (JSON_stringify2 v))
  /\ toolResultContent shown = Ok (JString (JSON_stringify2 v)).
Proof.
  intros T P N S.
  pose proof (JSON_parse_stringify2 v (JSON_parse_wellFormed t v P) N) as R.
  assert (K : forall u w, JSON_parse u = Ok w -> eqb u [] = false).
  { intros u w H. apply eqb_neq. intros ->. discriminate. }
  unfold toolResultContent. rewrite T, S. cbn [bind]. unfold whenTruthy, truthy.
  rewrite (K _ _ P), (K _ _ R). cbn [negb toStringJ bind]. now rewrite P, R.
Qed.

Lemma pretty_tool_result_is_a_fixed_point_witness :
  let v :=
    JObject [(lit "a",
              JArray [JNumber (Finite false [1; 2; 3; 4; 5; 6; 7; 8; 9; 0; 1; 2; 3; 4;
                                             5; 6; 8]%N 0);
                      JNull])] in
  JSON_stringify2 v
  = qlit "{" ++ nl ++ qlit "  'a': [" ++ nl ++ lit "    0.12345678901234568," ++ nl
      ++ lit "    null" ++ nl ++ lit "  ]" ++ nl ++ lit "}"
  /\ toolResultContent
       (JObject [(lit "text", JString (qlit "{'a': [0.1234567890123456789, null]}"))])
     = Ok (JString (JSON_stringify2 v))
  /\ toolResultContent (JObject [(lit "text", JString (JSON_stringify2 v))])
     = Ok (JString (JSON_stringify2 v)).
Proof.
  intros v. split; [vm_compute; reflexivity|].
  apply (pretty_tool_result_is_a_fixed_point _ _
           (qlit "{'a': [0.1234567890123456789, null]}") v);
    vm_compute; reflexivity.
Defined.

(** ** The code units of a printed value

    [JSON.stringify] escapes the control characters of a string, so the
    text of a value holds visible code units only, and the line feeds of
    its layout when there is a gap. *)

Section Layout.

Variable ok : codeunit -> Prop.
Hypothesis ok_visible : forall c, (32 <= c)%N -> ok c.

Lemma ok_closed (s : jsstring) :
  forallb (fun c => 32 <=? c)%N s = true -> Forall ok s.
Proof.
  intros H. apply Forall_forall. intros c I.
  rewrite forallb_forall in H. apply ok_visible, N.leb_le, H, I.
Qed.

Lemma ok_digitChars (ds : list N) : Forall ok (digitChars ds).
Proof. apply Forall_map, Forall_forall. intros d _. apply ok_visible. lia. Qed.

Lemma ok_zeros (n : nat) : Forall ok (zeros n).
Proof.
  apply Forall_forall. intros c I. apply repeat_spec in I. subst. now apply ok_visible.
Qed.

Lemma ok_decN (n : N) : Forall ok (decN n).
Proof. unfold decN. rewrite uintChars_digitChars. apply ok_digitChars. Qed.

Lemma ok_signChars (neg : bool) : Forall ok (signChars neg).
Proof. destruct neg; [now apply ok_closed | constructor]. Qed.

Lemma ok_app (a b : jsstring) : Forall ok a -> Forall ok b -> Forall ok (a ++ b).
Proof. intros A B. apply Forall_app. now split. Qed.

Lemma ok_numberToString (x : number) : Forall ok (numberToString x).
Proof.
  assert (L : forall s : string, forallb (fun c => 32 <=? c)%N (lit s) = true ->
                                 Forall ok (lit s)) by (intros; now apply ok_closed).
  destruct x as [neg [|d r] n|neg]; cbn [numberToString].
  - now apply L.
  - apply ok_app; [apply ok_signChars|]. unfold digitsToString. cbv zeta.
    repeat match goal with |- context [if ?b then _ else _] => destruct b end;
      try destruct r;
      repeat (apply ok_app || apply ok_digitChars || apply ok_zeros || apply ok_decN
              || (apply L; reflexivity)).
  - apply ok_app; [apply ok_signChars | now apply L].
Qed.

Lemma ok_hexDigit (d : N) : ok (hexDigit d).
Proof. apply ok_visible. unfold hexDigit. destruct (d <? 10)%N; lia. Qed.

Lemma ok_unicodeEscape (c : codeunit) : Forall ok (unicodeEscape c).
Proof.
  unfold unicodeEscape. apply ok_app; [now apply ok_closed|].
  repeat (constructor; [apply ok_hexDigit|]). constructor.
Qed.

Lemma ok_escapeUnit (c : codeunit) : Forall ok (escapeUnit c).
Proof.
  unfold escapeUnit.
  repeat match goal with
         | |- context [if (c =? ?k)%N then _ else _] =>
             destruct (c =? k)%N; [now apply ok_closed|]
         end.
  destruct (N.ltb_spec c 32); [apply ok_unicodeEscape|].
  constructor; [now apply ok_visible | constructor].
Qed.

Lemma quoteBody_cons (c : codeunit) (r : jsstring) :
  quoteBody (c :: r)
  = if isHighSurrogate c then
      match r with
      | d :: r' =>
          if isLowSurrogate d then c :: d :: quoteBody r'
          else unicodeEscape c ++ quoteBody r
      | [] => unicodeEscape c
      end
    else if isLowSurrogate c then unicodeEscape c ++ quoteBody r
    else escapeUnit c ++ quoteBody r.
Proof. reflexivity. Qed.

Lemma ok_quoteBody (s : jsstring) :
  Forall ok (quoteBody s) /\ forall c, Forall ok (quoteBody (c :: s)).
Proof.
  assert (S : forall c, isHighSurrogate c = true \/ isLowSurrogate c = true -> ok c).
  { intros c [H|H]; apply andb_true_iff in H as [H _]; apply N.leb_le in H;
      apply ok_visible; lia. }
  induction s as [|d r [IH1 IH2]].
  - split; [constructor|]. intros c. rewrite quoteBody_cons. cbn [quoteBody].
    destruct (isHighSurrogate c); [apply ok_unicodeEscape|].
    destruct (isLowSurrogate c);
      [rewrite app_nil_r; apply ok_unicodeEscape
      |rewrite app_nil_r; apply ok_escapeUnit].
  - split; [apply IH2|]. intros c. rewrite quoteBody_cons.
    destruct (isHighSurrogate c) eqn:H.
    + destruct (isLowSurrogate d) eqn:L.
      * constructor; [apply S; auto|]. constructor; [apply S; auto|]. exact IH1.
      * apply ok_app; [apply ok_unicodeEscape | apply IH2].
    + destruct (isLowSurrogate c);
        (apply ok_app; [apply ok_unicodeEscape || apply ok_escapeUnit | apply IH2]).
Qed.

Lemma ok_quote (s : jsstring) : Forall ok (quote s).
Proof.
  unfold quote. apply ok_app; [now apply ok_closed|].
  apply ok_app; [apply ok_quoteBody | now apply ok_closed].
Qed.

Lemma ok_join (sep : jsstring) (parts : list jsstring) :
  Forall ok sep -> Forall (Forall ok) parts -> Forall ok (join sep parts).
Proof.
  intros S. induction 1 as [|p ps P F IH]; [constructor|].
  destruct ps as [|q ps]; [exact P|].
  change (Forall ok (p ++ sep ++ join sep (q :: ps))).
  repeat apply ok_app; assumption.
Qed.

Lemma ok_wrapParts (gap indent : jsstring) (opening closing : string)
  (parts : list jsstring) :
  Forall ok gap -> Forall ok indent -> gap = [] \/ ok 10%N ->
  forallb (fun c => 32 <=? c)%N (lit opening) = true ->
  forallb (fun c => 32 <=? c)%N (lit closing) = true ->
  Forall (Forall ok) parts ->
  Forall ok (wrapParts gap indent (lit opening) (lit closing) parts).
Proof.
  intros G I L O C F. apply ok_closed in O, C. unfold wrapParts.
  destruct parts as [|p ps]; [now apply ok_app|].
  destruct (eqb gap []) eqn:E.
  - repeat apply ok_app; try assumption. apply ok_join; [now apply ok_closed | exact F].
  - assert (N : ok 10%N).
    { destruct L as [->|L]; [discriminate | exact L]. }
    assert (B : Forall ok [10%N]) by (now constructor).
    repeat apply ok_app; try assumption.
    apply ok_join; [|exact F].
    repeat apply ok_app; try assumption. now apply ok_closed.
Qed.

Lemma ok_stringify (gap : jsstring) (v : json) :
  Forall ok gap -> gap = [] \/ ok 10%N ->
  forall indent, Forall ok indent -> Forall ok (stringify gap indent v).
Proof.
  intros G L.
  induction v as [| b | x | s | l IH | l IH] using json_induction; intros indent I;
    cbn [stringify].
  - now apply ok_closed.
  - destruct b; now apply ok_closed.
  - destruct x; [apply ok_numberToString | now apply ok_closed].
  - apply ok_quote.
  - apply ok_wrapParts; try assumption; try reflexivity.
    apply Forall_map. eapply Forall_impl; [|exact IH]. cbv beta.
    intros v H. apply H. now apply ok_app.
  - apply ok_wrapParts; try assumption; try reflexivity.
    apply Forall_map. eapply Forall_impl; [|exact IH]. cbv beta. intros kv H.
    apply ok_app; [apply ok_quote|]. apply ok_app; [now apply ok_closed|].
    apply ok_app; [destruct (eqb gap []); [constructor | now apply ok_closed]|].
    apply H. now apply ok_app.
Qed.

End Layout.

Lemma oneLine_stringify (v : json) : oneLine (JSON_stringify v).
Proof.
  apply (ok_stringify (fun c => c <> 10%N)).
  - intros c H. lia.
  - constructor.
  - now left.
  - constructor.
Qed.

Lemma clean_stringify2 (v : json) : clean (JSON_stringify2 v).
Proof.
  apply (ok_stringify (fun c => c <> 27%N)).
  - intros c H. lia.
  - repeat constructor; discriminate.
  - right. discriminate.
  - constructor.
Qed.

Lemma oneLine_closed (s : jsstring) :
  forallb (fun c => negb (c =? 10)%N) s = true -> oneLine s.
Proof.
  intros H. apply Forall_forall. intros c I.
  rewrite forallb_forall in H. specialize (H c I).
  apply negb_true_iff in H. now apply N.eqb_neq.
Qed.

Lemma oneLine_app (a b : jsstring) : oneLine a -> oneLine b -> oneLine (a ++ b).
Proof. intros A B. apply Forall_app. now split. Qed.

Lemma oneLine_split (s : jsstring) : oneLine s -> split 10%N s = [s].
Proof.
  intros H. apply split_single. intros I.
  unfold oneLine in H. rewrite Forall_forall in H. now apply (H _ I).
Qed.

(** X17.  On the console a tool call is one line, whatever its input: the
    compact form of a value holds no line feed (line feeds inside strings
    are escaped), so the description does not break unless the name of the
    tool does. *)
Theorem tool_call_is_one_console_line
  (contentItem : json) (input name : option json) (nm : jsstring) :
  prop contentItem "type" = Ok (Some (JString (lit "tool_use"))) ->
  prop contentItem "input" = Ok input ->
  prop contentItem "name" = Ok name -> toStr name = Ok nm -> oneLine nm ->
  let description :=
    ColorGreen ++ wrench ++ lit " Using tool: " ++ nm
      ++ withClause (compactInput input) ++ ColorReset in
  formatAssistantItem contentItem = Ok [JString description]
  /\ oneLine description
  /\ split 10%N description = [description].
Proof.
  intros T I N S L description.
  assert (O : oneLine description).
  { unfold description, withClause, compactInput.
    repeat apply oneLine_app; try (apply oneLine_closed; reflexivity); try assumption.
    match goal with |- context [if ?b then _ else _] => destruct b end; [|constructor].
    apply oneLine_app; [apply oneLine_closed; reflexivity|].
    destruct (whenTruthy input); [constructor | apply oneLine_stringify]. }
  split; [|split; [exact O | apply oneLine_split, O]].
  unfold formatAssistantItem. rewrite T. cbn [bind].
  change (isString _ (lit "text")) with false.
  change (isString _ (lit "tool_use")) with true. cbv iota.
  rewrite I. cbn [bind]. rewrite N. cbn [bind]. rewrite S. reflexivity.
Qed.

Lemma tool_call_is_one_console_line_witness :
  let input := Some (JObject [(lit "content", JString (lit "a" ++ nl ++ lit "b"))]) in
  let contentItem :=
    JObject [(lit "type", JString (lit "tool_use")); (lit "name", JString (lit "Write"));
             (lit "input", JObject [(lit "content", JString (lit "a" ++ nl ++ lit "b"))])] in
  let description :=
    ColorGreen ++ wrench ++ lit " Using tool: " ++ lit "Write"
      ++ withClause (compactInput input) ++ ColorReset in
  formatAssistantItem contentItem = Ok [JString description]
  /\ oneLine description
  /\ split 10%N description = [description].
Proof.
  intros input contentItem.
  apply (tool_call_is_one_console_line contentItem input
           (Some (JString (lit "Write"))) (lit "Write")); try reflexivity.
  repeat constructor; discriminate.
Defined.

(** ** The annotation holds no colour code *)

Lemma clean_closed (s : jsstring) :
  forallb (fun c => negb (c =? 27)%N) s = true <-> clean s.
Proof.
  unfold clean. rewrite forallb_forall, Forall_forall.
  split; intros H c I; specialize (H c I).
  - now apply N.eqb_neq, negb_true_iff.
  - now apply negb_true_iff, N.eqb_neq.
Qed.

Lemma clean_app (a b : jsstring) : clean a -> clean b -> clean (a ++ b).
Proof. intros A B. apply Forall_app. now split. Qed.

Lemma clean_visible (c : codeunit) : (32 <= c)%N -> c <> 27%N.
Proof. lia. Qed.

Lemma clean_decZ (z : Z) : clean (decZ z).
Proof.
  destruct z; cbn [decZ]; try apply (ok_decN _ clean_visible).
  constructor; [discriminate | apply (ok_decN _ clean_visible)].
Qed.

Lemma clean_firstn (n : nat) (s : jsstring) : clean s -> clean (firstn n s).
Proof. apply Forall_firstn. Qed.

Lemma clean_skipn (n : nat) (s : jsstring) : clean s -> clean (skipn n s).
Proof. apply Forall_skipn. Qed.

Lemma clean_rev (s : jsstring) : clean s -> clean (rev s).
Proof. apply Forall_rev. Qed.

Lemma clean_trimStart (s : jsstring) : clean s -> clean (trimStart s).
Proof.
  induction 1 as [|c r C F IH]; simpl; [constructor|].
  destruct (isWhiteSpace c); [exact IH | now constructor].
Qed.

Lemma clean_trim (s : jsstring) : clean s -> clean (trim s).
Proof. intros H. now apply clean_rev, clean_trimStart, clean_rev, clean_trimStart. Qed.

Lemma clean_split (c : codeunit) (s : jsstring) : clean s -> Forall clean (split c s).
Proof.
  induction 1 as [|x r X F IH]; simpl; [repeat constructor|].
  destruct (x =? c)%N; [constructor; [constructor | exact IH]|].
  destruct (split c r) as [|l ls]; [repeat constructor; assumption|].
  apply Forall_cons_iff in IH as [Hl Hls]. constructor; [now constructor | exact Hls].
Qed.

Lemma clean_join (sep : jsstring) (parts : list jsstring) :
  clean sep -> Forall clean parts -> clean (join sep parts).
Proof. apply (ok_join (fun c => c <> 27%N)). Qed.

Lemma clean_cons (c : codeunit) (s : jsstring) : c <> 27%N -> clean s -> clean (c :: s).
Proof. now constructor. Qed.

(** The texts put together from literals and clean pieces. *)
Ltac cleanliness :=
  repeat first
    [ assumption
    | apply clean_closed; reflexivity
    | apply clean_cons; [discriminate|]
    | apply clean_app
    | apply clean_decZ
    | apply clean_firstn
    | apply clean_skipn
    | apply clean_trim ].

Create HintDb clean.
#[local] Hint Resolve clean_app clean_decZ clean_firstn clean_skipn clean_trim clean_join
  clean_split clean_stringify2 : clean.
#[local] Hint Extern 2 (clean _) => (apply clean_closed; reflexivity) : clean.

Lemma clean_formatRelativeTime (elapsedMs : Z) : clean (formatRelativeTime elapsedMs).
Proof.
  unfold formatRelativeTime, padStart. cbv zeta.
  assert (R : forall n, clean (repeat 48%N n)).
  { intros n. apply Forall_forall. intros c I. apply repeat_spec in I. now subst. }
  destruct (0 <? _)%Z; auto 12 with clean.
Qed.

Lemma clean_splitPreview (maxPreviewLength : nat) (text : jsstring) :
  clean text ->
  clean (fst (splitPreview maxPreviewLength text))
  /\ clean (snd (splitPreview maxPreviewLength text)).
Proof.
  intros H. unfold splitPreview.
  pose proof (clean_split 10%N text H) as S.
  destruct (2 <? length (split 10%N text))%nat; cbn [fst snd].
  - split; apply clean_join; auto with clean;
      [now apply Forall_firstn | now apply Forall_skipn].
  - destruct (maxPreviewLength <? length text)%nat; cbn [fst snd]; split;
      auto with clean.
Qed.

Lemma clean_detailsBlock (summary fence remaining : jsstring) :
  clean summary -> clean fence -> clean remaining ->
  clean (detailsBlock summary fence remaining).
Proof. intros. unfold detailsBlock. auto 30 with clean. Qed.

Lemma clean_describeToolInput (toolDesc toolInput : jsstring) :
  clean toolDesc -> clean toolInput -> clean (describeToolInput toolDesc toolInput).
Proof.
  intros D I. unfold describeToolInput.
  destruct (clean_splitPreview 300 toolInput I) as [P R].
  destruct (negb _); [auto with clean|].
  destruct (splitPreview 300 toolInput) as [p r]. cbn [fst snd] in P, R.
  destruct (negb _); auto 10 using clean_detailsBlock with clean.
Qed.

Lemma clean_describeToolResult (errorIndicator resultContent : jsstring) :
  clean errorIndicator -> clean resultContent ->
  clean (describeToolResult errorIndicator resultContent).
Proof.
  intros D I. unfold describeToolResult.
  destruct (clean_splitPreview 400 resultContent I) as [P R].
  destruct (negb _); [auto with clean|].
  destruct (splitPreview 400 resultContent) as [p r]. cbn [fst snd] in P, R.
  destruct (negb _); auto 10 using clean_detailsBlock with clean.
Qed.

(** *** Values and what is read from them *)

Lemma cleanValue_toStringJ (v : json) :
  cleanValue v = true -> forall s, toStringJ v = Ok s -> clean s.
Proof.
  induction v as [| b | x | t | l IH | l IH] using json_induction; intros C s E.
  - injection E as <-. auto with clean.
  - destruct b; injection E as <-; auto with clean.
  - injection E as <-. apply (ok_numberToString _ clean_visible).
  - injection E as <-. now apply clean_closed.
  - cbn [toStringJ] in E. apply bind_Ok in E as (parts & P & E). injection E as <-.
    apply clean_join; [auto with clean|].
    cbn [cleanValue] in C. revert parts P. induction IH as [|e r He Hr IHr]; intros parts P.
    + injection P as <-. constructor.
    + cbn [forallb] in C. apply andb_true_iff in C as [Ce Cr].
      apply bind_Ok in P as (p & Pe & P). apply bind_Ok in P as (ps & Pr & P).
      injection P as <-. constructor; [|now apply IHr].
      destruct e; try (now apply (He Ce)). injection Pe as <-. constructor.
  - cbn [toStringJ] in E. destruct (lookup _ l); [discriminate|].
    injection E as <-. auto with clean.
Qed.

Lemma cleanValue_lookup (k : jsstring) (l : list (jsstring * json)) (x : json) :
  forallb (fun kv => cleanValue (snd kv)) l = true -> lookup k l = Some x ->
  cleanValue x = true.
Proof.
  induction l as [|[k' v] l IH]; simpl; [discriminate|].
  intros C. apply andb_true_iff in C as [Cv Cl].
  destruct (eqb k k'); [now intros [= <-] | now apply IH].
Qed.

Lemma cleanValue_getProp (v : option json) (name : jsstring) (x : json) :
  (forall j, v = Some j -> cleanValue j = true) ->
  getProp v name = Ok (Some x) -> cleanValue x = true.
Proof.
  intros C. destruct v as [[| b | n | s | l | l]|]; cbn [getProp]; try discriminate.
  - destruct (eqb name (lit "length")); [now intros [= <-] | discriminate].
  - destruct (eqb name (lit "length")); [now intros [= <-] | discriminate].
  - intros [= E]. eapply cleanValue_lookup; [|exact E]. exact (C _ eq_refl).
Qed.

Lemma cleanValue_prop (v : json) (name : string) (x : option json) :
  cleanValue v = true -> prop v name = Ok x ->
  forall j, x = Some j -> cleanValue j = true.
Proof.
  intros C P j ->. eapply cleanValue_getProp; [|exact P]. now intros ? [= <-].
Qed.

Lemma clean_toStr (v : option json) (s : jsstring) :
  (forall j, v = Some j -> cleanValue j = true) -> toStr v = Ok s -> clean s.
Proof.
  intros C. destruct v as [j|]; cbn [toStr].
  - apply cleanValue_toStringJ. now apply C.
  - intros [= <-]. auto with clean.
Qed.

Lemma cleanValue_whenTruthy (v : option json) :
  (forall j, v = Some j -> cleanValue j = true) ->
  Forall (fun p => cleanValue p = true) (whenTruthy v).
Proof.
  intros C. unfold whenTruthy. destruct v as [j|]; [|constructor].
  destruct (truthy (Some j)); [|constructor]. constructor; [now apply C | constructor].
Qed.

Lemma cleanValue_string (s : jsstring) : clean s -> cleanValue (JString s) = true.
Proof. apply clean_closed. Qed.

Lemma codePoints_clean (s : jsstring) : clean s -> Forall clean (codePoints s).
Proof.
  intros H.
  assert (G : Forall clean (codePoints s) /\ forall c, c <> 27%N ->
                Forall clean (codePoints (c :: s))).
  { induction H as [|d r D F [IH1 IH2]].
    - split; [constructor|]. intros c C. repeat constructor. exact C.
    - split; [now apply IH2|]. intros c C.
      change (codePoints (c :: d :: r))
        with (if isHighSurrogate c && isLowSurrogate d then [c; d] :: codePoints r
              else [c] :: codePoints (d :: r)).
      destruct (_ && _); constructor; try (now apply IH2); try exact IH1;
        repeat constructor; assumption. }
  exact (proj1 G).
Qed.

Lemma clean_codePoints (s : jsstring) :
  clean s -> Forall (fun p => cleanValue p = true) (map JString (codePoints s)).
Proof.
  intros H. apply Forall_map.
  eapply Forall_impl; [|exact (codePoints_clean s H)]. apply cleanValue_string.
Qed.

Lemma cleanValue_contentItems (msg : json) (items : list json) :
  cleanValue msg = true -> contentItems msg = Ok items ->
  Forall (fun i => cleanValue i = true) items.
Proof.
  intros C. unfold contentItems. intros E.
  apply bind_Ok in E as (message & M & E).
  destruct (truthy message); [|injection E as <-; constructor].
  apply bind_Ok in E as (content & G & E). apply bind_Ok in E as (len & _ & E).
  apply bind_Ok in E as (positive & _ & E).
  destruct positive; [|injection E as <-; constructor].
  assert (Cc : forall j, content = Some j -> cleanValue j = true).
  { intros j ->. eapply cleanValue_getProp; [|exact G]. now apply (cleanValue_prop msg "message"). }
  destruct content as [[| | | s | l |]|]; try discriminate; injection E as <-.
  - apply clean_codePoints, clean_closed. exact (Cc _ eq_refl).
  - apply Forall_forall. intros i I. pose proof (Cc _ eq_refl) as L.
    cbn [cleanValue] in L. rewrite forallb_forall in L. now apply L.
Qed.

(** *** The parts pushed by the annotation renderer *)

Lemma cleanValue_extractAssistantItem (contentItem : json) (parts : list json) :
  cleanValue contentItem = true -> extractAssistantItem contentItem = Ok parts ->
  Forall (fun p => cleanValue p = true) parts.
Proof.
  intros C. unfold extractAssistantItem. intros E.
  apply bind_Ok in E as (ty & _ & E).
  destruct (isString ty (lit "text")).
  { apply bind_Ok in E as (text & T & E). injection E as <-.
    apply cleanValue_whenTruthy. now apply (cleanValue_prop contentItem "text"). }
  destruct (isString ty (lit "tool_use")); [|injection E as <-; constructor].
  apply bind_Ok in E as (input & _ & E). apply bind_Ok in E as (name & N & E).
  apply bind_Ok in E as (nm & S & E).
  assert (Cn : clean nm).
  { eapply clean_toStr; [|exact S]. now apply (cleanValue_prop contentItem "name"). }
  assert (Ci : clean match whenTruthy input with
                     | [] => []
                     | i :: _ => JSON_stringify2 i
                     end).
  { destruct (whenTruthy input); auto with clean. }
  assert (Cd : clean (wrench ++ lit " Using tool: " ++ nm)) by auto with clean.
  destruct (_ && _); injection E as <-; (constructor; [|constructor]);
    apply cleanValue_string;
    [apply clean_describeToolInput; [exact Cd | exact Ci] | exact Cd].
Qed.

Lemma cleanValue_toolResultContent (contentItem resultContent : json) :
  cleanValue contentItem = true -> toolResultContent contentItem = Ok resultContent ->
  cleanValue resultContent = true.
Proof.
  intros C. unfold toolResultContent. intros E.
  apply bind_Ok in E as (text & T & E).
  pose proof (cleanValue_whenTruthy text (cleanValue_prop contentItem "text" text C T)) as W.
  destruct (whenTruthy text) as [|t ts].
  - apply bind_Ok in E as (content & G & E).
    pose proof (cleanValue_whenTruthy content
                  (cleanValue_prop contentItem "content" content C G)) as W'.
    destruct (whenTruthy content); injection E as <-; [reflexivity|].
    apply cleanValue_string. auto with clean.
  - destruct (bind _ _); injection E as <-.
    + apply cleanValue_string. auto with clean.
    + now apply Forall_cons_iff in W.
Qed.

Lemma cleanValue_extractUserItem (contentItem : json) (b : bool) (parts : list json) :
  cleanValue contentItem = true -> extractUserItem contentItem = Ok (b, parts) ->
  Forall (fun p => cleanValue p = true) parts.
Proof.
  intros C. unfold extractUserItem. intros E.
  apply bind_Ok in E as (ty & _ & E).
  destruct (isString ty (lit "tool_result")).
  - apply bind_Ok in E as (ie & _ & E). apply bind_Ok in E as (rc & R & E).
    pose proof (cleanValue_toolResultContent contentItem rc C R) as Crc.
    destruct rc as [| | |[|c rc]| |]; try discriminate; injection E as _ <-;
      (constructor; [|constructor]); apply cleanValue_string; [auto with clean|].
    apply clean_describeToolResult; [|now apply clean_closed].
    destruct (truthy ie); auto with clean.
  - apply bind_Ok in E as (text & T & E). injection E as _ <-.
    apply cleanValue_whenTruthy. now apply (cleanValue_prop contentItem "text").
Qed.

Lemma cleanValue_pushed {A} (f : json -> result A) (g : A -> list json)
  (items : list json) (rs : list A) :
  (forall i r, cleanValue i = true -> f i = Ok r ->
               Forall (fun p => cleanValue p = true) (g r)) ->
  Forall (fun i => cleanValue i = true) items ->
  mapM f items = Ok rs ->
  Forall (fun p => cleanValue p = true) (concat (map g rs)).
Proof.
  intros H F. revert rs. induction F as [|i items Ci F IH]; intros rs; simpl.
  - intros [= <-]. constructor.
  - intros E. apply bind_Ok in E as (r & R & E). apply bind_Ok in E as (rs' & M & E).
    injection E as <-. simpl. apply Forall_app. split; [now apply (H i) | now apply IH].
Qed.

Lemma clean_joinParts (sep : jsstring) (parts : list json) (c : jsstring) :
  clean sep -> Forall (fun p => cleanValue p = true) parts ->
  joinParts sep parts = Ok c -> clean c.
Proof.
  intros S F. unfold joinParts. intros E. apply bind_Ok in E as (ss & M & E).
  injection E as <-. apply clean_join; [exact S|].
  revert ss M. induction F as [|p ps Cp F IH]; intros ss; simpl.
  - intros [= <-]. constructor.
  - intros E. apply bind_Ok in E as (s & Sp & E). apply bind_Ok in E as (ss' & M & E).
    injection E as <-. constructor; [now apply (cleanValue_toStringJ p) | now apply IH].
Qed.

Lemma codePoints_shape (s : jsstring) :
  Forall (fun p => (exists c, p = [c]) \/ exists c d, p = [c; d]) (codePoints s).
Proof.
  assert (G : forall n s, (length s <= n)%nat ->
                Forall (fun p => (exists c, p = [c]) \/ exists c d, p = [c; d])
                       (codePoints s)).
  { clear s. induction n as [|n IH]; intros s L.
    - destruct s; [constructor | cbn [length] in L; lia].
    - destruct s as [|c [|d r]]; [constructor| |].
      + constructor; [left; now exists c | constructor].
      + change (codePoints (c :: d :: r))
          with (if isHighSurrogate c && isLowSurrogate d then [c; d] :: codePoints r
                else [c] :: codePoints (d :: r)).
        cbn [length] in L.
        destruct (_ && _); constructor.
        * right. now exists c, d.
        * apply IH. lia.
        * left. now exists c.
        * apply IH. cbn [length]. lia. }
  exact (G (length s) s (Nat.le_refl _)).
Qed.

Lemma upperPoint_clean (c : N) : c <> 27%N -> clean (upperPoint c).
Proof.
  intros C. unfold upperPoint.
  destruct (find _ upperSpecial) as [[c' l]|] eqn:S.
  - apply find_some in S as [I _].
    assert (T : forallb (fun e => forallb (fun x => negb (x =? 27)%N) (snd e)) upperSpecial
                = true) by (vm_compute; reflexivity).
    rewrite forallb_forall in T. specialize (T _ I). cbn [snd] in T.
    rewrite forallb_forall in T. apply Forall_forall. intros x Hx.
    specialize (T x Hx). apply negb_true_iff in T. now apply N.eqb_neq.
  - destruct (find (inRange c) upperRanges) as [[[[first last] step] target]|] eqn:F;
      [|now repeat constructor].
    apply find_some in F as [I _].
    assert (T : forallb (fun r => (27 <? snd r)%N) upperRanges = true)
      by (vm_compute; reflexivity).
    rewrite forallb_forall in T. specialize (T _ I). cbn [snd] in T.
    apply N.ltb_lt in T. repeat constructor. lia.
Qed.

Lemma codeUnitsOf_clean (p : N) : p <> 27%N -> clean (codeUnitsOf p).
Proof.
  intros P. unfold codeUnitsOf.
  destruct (p <? 0x10000)%N; [now repeat constructor|].
  constructor; [|constructor; [|constructor]].
  - generalize ((p - 0x10000) / 0x400)%N. intros x. lia.
  - generalize ((p - 0x10000) mod 0x400)%N. intros x. lia.
Qed.

Lemma clean_flat_map {A} (f : A -> jsstring) (l : list A) :
  Forall (fun a => clean (f a)) l -> clean (flat_map f l).
Proof.
  induction 1 as [|a r H F IH]; cbn [flat_map]; [constructor|].
  apply Forall_app. now split.
Qed.

Lemma clean_toUpperCase (s : jsstring) : clean s -> clean (toUpperCase s).
Proof.
  intros H. unfold toUpperCase. apply clean_flat_map.
  pose proof (codePoints_shape s) as Sh. pose proof (codePoints_clean s H) as Cl.
  rewrite Forall_forall in *. intros p I. specialize (Sh p I). specialize (Cl p I).
  assert (P : codePointOf p <> 27%N).
  { destruct Sh as [(c & ->)|(c & d & ->)]; cbn [codePointOf].
    - now inversion Cl.
    - lia. }
  apply clean_flat_map. eapply Forall_impl; [|exact (upperPoint_clean _ P)].
  cbv beta. intros q. apply codeUnitsOf_clean.
Qed.

(** What the annotation renderer returns for a message without the escape
    character holds none. *)
Lemma clean_extract (msg : json) (r : rendered) :
  cleanValue msg = true -> extractCleanJSONContentWithErrorCheck msg = Ok r ->
  clean (r_speaker r) /\ clean (r_content r).
Proof.
  intros C. unfold extractCleanJSONContentWithErrorCheck. intros E.
  apply bind_Ok in E as (ty & T & E).
  destruct (isString ty (lit "system")).
  { apply bind_Ok in E as (sub & _ & E). destruct (isString sub (lit "init")).
    - apply bind_Ok in E as (c & S & E). injection E as <-. cbn [r_speaker r_content].
      split; [auto with clean|]. unfold sessionInitialized in S.
      apply bind_Ok in S as (sid & Si & S). apply bind_Ok in S as (s1 & S1 & S).
      apply bind_Ok in S as (mdl & Mi & S). apply bind_Ok in S as (s2 & S2 & S).
      injection S as <-.
      pose proof (clean_toStr sid s1 (cleanValue_prop msg "session_id" sid C Si) S1).
      pose proof (clean_toStr mdl s2 (cleanValue_prop msg "model" mdl C Mi) S2).
      cleanliness.
    - injection E as <-. split; auto with clean. }
  destruct (isString ty (lit "assistant")).
  { apply bind_Ok in E as (items & I & E). apply bind_Ok in E as (pushed & M & E).
    apply bind_Ok in E as (c & J & E). injection E as <-. cbn [r_speaker r_content].
    split; [auto with clean|]. eapply clean_joinParts; [| |exact J]; [auto with clean|].
    rewrite <- (map_id pushed).
    eapply (cleanValue_pushed extractAssistantItem (fun ps => ps)); [| |exact M].
    - intros i ps Ci Ei. exact (cleanValue_extractAssistantItem i ps Ci Ei).
    - now apply cleanValue_contentItems with (msg := msg). }
  destruct (isString ty (lit "user")).
  { apply bind_Ok in E as (items & I & E). apply bind_Ok in E as (turns & M & E).
    apply bind_Ok in E as (c & J & E). injection E as <-. cbn [r_speaker r_content].
    split; [auto with clean|]. eapply clean_joinParts; [| |exact J]; [auto with clean|].
    eapply (cleanValue_pushed extractUserItem snd); [| |exact M].
    - intros i [b ps] Ci Ei. exact (cleanValue_extractUserItem i b ps Ci Ei).
    - now apply cleanValue_contentItems with (msg := msg). }
  apply bind_Ok in E as (sp & S & E). injection E as <-. cbn [r_speaker r_content].
  split; [|auto with clean].
  destruct ty as [[| | | t | |]|]; try discriminate. injection S as <-.
  apply clean_toUpperCase, clean_closed.
  exact (cleanValue_prop msg "type" _ C T _ eq_refl).
Qed.

Lemma clean_speakerHeading (speaker : jsstring) :
  clean speaker -> clean (speakerHeading speaker).
Proof.
  intros H. unfold speakerHeading.
  repeat match goal with |- context [if ?b then _ else _] => destruct b end;
    auto 10 with clean.
Qed.

Lemma clean_annotationStyle (speaker : jsstring) (hasError : bool) :
  clean (annotationStyle speaker hasError).
Proof.
  unfold annotationStyle.
  repeat match goal with |- context [if ?b then _ else _] => destruct b end;
    auto with clean.
Qed.

(** X18.  The colour codes of the console never reach an annotation.  If
    the line holds no escape character and no string of the decoded
    message holds one (a line can carry one only as the escape
    [\u001b] of a JSON string), then neither the command nor the
    body that the handler passes to the external command holds one: the
    annotation renderer adds none, and the pretty-printer escapes the
    control characters. *)
Theorem annotation_holds_no_colour_code (a : arrival) (n : Z) :
  clean (text a) ->
  (forall msg, JSON_parse (trim (text a)) = Ok msg -> cleanValue msg = true) ->
  forall command input,
    In (ExecSync command input) (fst (onLine a n)) ->
    clean command /\ clean input.
Proof.
  intros T D command input I. unfold onLine in I.
  destruct (parseLine (text a) (elapsed a) n) as [[entry|] n'] eqn:P; [|contradiction].
  cbn [fst] in I. apply in_app_or in I as [I|I].
  { exfalso. pose proof (printSingleEntry_logs entry) as L.
    rewrite forallb_forall in L. now specialize (L _ I). }
  assert (Ts : clean (timestamp entry)).
  { destruct (eqb (trim (text a)) []) eqn:B.
    - apply eqb_eq in B. rewrite (parseLine_blank _ _ _ B) in P. discriminate.
    - apply eqb_neq in B. destruct (parseLine_entry (text a) (elapsed a) n B)
        as (entry' & P' & _ & _ & Te). rewrite P in P'. injection P' as <- _.
      rewrite Te. apply clean_formatRelativeTime. }
  pose proof (clean_trim _ T) as Tt.
  unfold createBuildkiteAnnotation in I.
  destruct (buildAnnotation _ _ _) as [ann|] eqn:A; [|contradiction].
  assert (I' : ExecSync (annotateCommand ann) (markdownContent ann)
               = ExecSync command input).
  { destruct I as [I|I]; [exact I|]. destruct (execError a); [|contradiction].
    destruct I as [I|[]]. discriminate. }
  injection I' as <- <-.
  unfold buildAnnotation in A. destruct (eqb (trim (text a)) []); [discriminate|].
  destruct (annotationEntry (trim (text a))) as [r|] eqn:R; [|discriminate].
  injection A as <-.
  assert (Cr : clean (r_speaker r) /\ clean (r_content r)).
  { unfold annotationEntry in R.
    destruct (startsWith _ _); [|injection R as <-; split; auto with clean].
    destruct (JSON_parse (trim (text a))) as [msg|e] eqn:J; cbn [bind] in R;
      [|injection R as <-; split; auto with clean].
    destruct (extractCleanJSONContentWithErrorCheck msg) as [r'|e] eqn:X;
      [|injection R as <-; split; auto with clean].
    destruct (eqb _ _); [discriminate|]. injection R as ->.
    now apply (clean_extract msg r (D msg eq_refl)). }
  destruct Cr as [Cs Cc].
  assert (Cp : clean (prettyOrRaw (trim (text a)))).
  { unfold prettyOrRaw. destruct (startsWith _ _); [|exact Tt].
    destruct (JSON_parse _); auto with clean. }
  pose proof (clean_speakerHeading _ Cs) as Ch.
  pose proof (clean_annotationStyle (r_speaker r) (r_hasError r)) as Cy.
  unfold annotateCommand. cbn [style context markdownContent].
  split; cleanliness.
Qed.

Lemma annotation_holds_no_colour_code_witness :
  let a := {| text := qlit "{'type':'assistant','message':{'content':[{'type':'tool_use','name':'Bash','input':{'command':'ls'}}]}}";
              elapsed := 0; execError := None |} in
  exists command input,
    In (ExecSync command input) (fst (onLine a 0))
    /\ clean command /\ clean input.
Proof.
  intros a.
  assert (E : exists command input, In (ExecSync command input) (fst (onLine a 0))).
  { vm_compute. eexists _, _. repeat (try (left; reflexivity); right). }
  destruct E as (command & input & I). exists command, input. split; [exact I|].
  apply (annotation_holds_no_colour_code a 0); [| |exact I].
  - apply clean_closed. reflexivity.
  - intros msg. vm_compute. intros [= <-]. reflexivity.
Defined.

(** ** The console lines of an entry *)

Lemma printSingleEntry_lines (entry : ChatEntry) :
  content entry <> [] ->
  printSingleEntry entry
  = match split 10%N (content entry) with
    | [] => []
    | first :: others =>
        Log (padEnd 45 32%N (consolePrefix entry) ++ lit " "
               ++ snd (colours (speaker entry)) ++ first ++ ColorReset)
          :: map (fun l => Log (snd (colours (speaker entry)) ++ l ++ ColorReset)) others
    end ++ (if isJSON entry then [Log []] else []).
Proof.
  intros H. apply eqb_neq in H. unfold printSingleEntry, consolePrefix, colours.
  rewrite H.
  destruct (eqb (speaker entry) ASSISTANT); [reflexivity|].
  destruct (eqb (speaker entry) USER); [reflexivity|].
  destruct (eqb (speaker entry) SYSTEM); reflexivity.
Qed.

(** X19.  An entry with a body is printed whole: one console line per
    line of the body, each between the colour of the body and the reset,
    the first one behind the prefix, and one empty line after a JSON
    entry; the lines printed, joined by line feeds, are the body. *)
Theorem console_shows_the_whole_content (entry : ChatEntry) :
  content entry <> [] ->
  exists first others,
    join nl (first :: others) = content entry
    /\ Forall (fun l => ~ In 10%N l) (first :: others)
    /\ printSingleEntry entry
       = Log (padEnd 45 32%N (consolePrefix entry) ++ lit " "
                ++ snd (colours (speaker entry)) ++ first ++ ColorReset)
           :: map (fun l => Log (snd (colours (speaker entry)) ++ l ++ ColorReset)) others
           ++ (if isJSON entry then [Log []] else []).
Proof.
  intros H. rewrite (printSingleEntry_lines entry H).
  pose proof (join_split 10%N (content entry)) as J.
  pose proof (split_no_sep 10%N (content entry)) as F.
  pose proof (split_not_nil 10%N (content entry)) as N.
  destruct (split 10%N (content entry)) as [|first others]; [contradiction|].
  exists first, others. split; [exact J|]. split; [exact F|]. reflexivity.
Qed.

Lemma console_shows_the_whole_content_witness :
  let entry := {| lineNumber := 7; speaker := USER;
                  content := lit "one" ++ nl ++ lit "two";
                  timestamp := lit "00:03"; isJSON := true; rawLine := [] |} in
  exists first others,
    join nl (first :: others) = content entry
    /\ Forall (fun l => ~ In 10%N l) (first :: others)
    /\ printSingleEntry entry
       = Log (padEnd 45 32%N (consolePrefix entry) ++ lit " "
                ++ snd (colours (speaker entry)) ++ first ++ ColorReset)
           :: map (fun l => Log (snd (colours (speaker entry)) ++ l ++ ColorReset)) others
           ++ (if isJSON entry then [Log []] else []).
Proof.
  intros entry. apply (console_shows_the_whole_content entry). discriminate.
Defined.

Lemma padStart_length (n : nat) (c : codeunit) (s : jsstring) :
  (n <= length (padStart n c s))%nat.
Proof. unfold padStart. rewrite length_app, repeat_length. lia. Qed.

Lemma formatRelativeTime_length (elapsedMs : Z) :
  (5 <= length (formatRelativeTime elapsedMs))%nat.
Proof.
  unfold formatRelativeTime. cbv zeta.
  destruct (0 <? _)%Z; rewrite !length_app;
    repeat match goal with
           | |- context [length (padStart 2 48%N ?s)] =>
               let H := fresh in
               pose proof (padStart_length 2 48%N s) as H;
               generalize dependent (length (padStart 2 48%N s)); intros
           end;
    change (length (lit ":")) with 1%nat; lia.
Qed.

(** X20.  For the speakers [ASSISTANT], [USER] and [SYSTEM] the prefix is
    never padded: with its escape sequences it is at least 45 code units
    long (the ordinal has at least three digits, the time stamp at least
    five code units), so [padEnd(45)] returns it as it is and the first
    console line of the entry is the prefix, one space and the coloured
    first line of the body. *)
Theorem known_speakers_are_never_padded (entry : ChatEntry) (elapsedMs : Z) :
  timestamp entry = formatRelativeTime elapsedMs ->
  speaker entry = ASSISTANT \/ speaker entry = USER \/ speaker entry = SYSTEM ->
  content entry <> [] ->
  (45 <= length (consolePrefix entry))%nat
  /\ padEnd 45 32%N (consolePrefix entry) = consolePrefix entry
  /\ exists first rest,
       printSingleEntry entry
       = Log (consolePrefix entry ++ lit " " ++ snd (colours (speaker entry))
                ++ first ++ ColorReset) :: rest.
Proof.
  intros T S C.
  assert (L : (45 <= length (consolePrefix entry))%nat).
  { unfold consolePrefix. rewrite T, !length_app.
    pose proof (padStart_length 3 48%N (decZ (lineNumber entry))) as P.
    pose proof (formatRelativeTime_length elapsedMs) as F.
    change (length ColorGray) with 5%nat. change (length ColorDim) with 4%nat.
    change (length ColorReset) with 4%nat. change (length (lit "[")) with 1%nat.
    change (length (lit "] ")) with 2%nat. change (length (lit "]")) with 1%nat.
    change (length (lit " ")) with 1%nat. change (length (lit ":")) with 1%nat.
    destruct S as [-> | [-> | ->]];
      match goal with
      | |- context [length (fst (colours ?s))] =>
          change (length (fst (colours s))) with 9%nat
      end;
      [change (length ASSISTANT) with 9%nat | change (length USER) with 4%nat
       | change (length SYSTEM) with 6%nat]; lia. }
  assert (E : padEnd 45 32%N (consolePrefix entry) = consolePrefix entry).
  { unfold padEnd.
    replace (45 - length (consolePrefix entry))%nat with 0%nat by lia.
    apply app_nil_r. }
  split; [exact L|]. split; [exact E|].
  rewrite (printSingleEntry_lines entry C), E.
  pose proof (split_not_nil 10%N (content entry)) as N.
  destruct (split 10%N (content entry)) as [|first others]; [contradiction|].
  eexists _, _. reflexivity.
Qed.

Lemma known_speakers_are_never_padded_witness :
  let entry := {| lineNumber := 1; speaker := USER; content := lit "hi";
                  timestamp := lit "00:00"; isJSON := false; rawLine := lit "hi" |} in
  (45 <= length (consolePrefix entry))%nat
  /\ padEnd 45 32%N (consolePrefix entry) = consolePrefix entry
  /\ exists first rest,
       printSingleEntry entry
       = Log (consolePrefix entry ++ lit " " ++ snd (colours (speaker entry))
                ++ first ++ ColorReset) :: rest.
Proof.
  intros entry. apply (known_speakers_are_never_padded entry 0); [reflexivity| |discriminate].
  right; left; reflexivity.
Defined.

(** ** The contexts of a run *)

Lemma annotationStyle_styles (speaker : jsstring) (hasError : bool) :
  In (annotationStyle speaker hasError) styles.
Proof.
  unfold annotationStyle, styles.
  destruct (eqb speaker ASSISTANT); [simpl; auto|].
  destruct (eqb speaker USER); [destruct hasError; simpl; auto|].
  destruct (eqb speaker SYSTEM); simpl; auto.
Qed.

Lemma createBuildkiteAnnotation_execs (raw : jsstring) (k : Z) (ts : jsstring)
  (err : option jsstring) :
  filter isExec (createBuildkiteAnnotation raw k ts err) = []
  \/ exists e, filter isExec (createBuildkiteAnnotation raw k ts err) = [e]
               /\ annotatedAs e k.
Proof.
  unfold createBuildkiteAnnotation.
  destruct (buildAnnotation raw k ts) as [a|] eqn:B; [|now left]. right.
  exists (ExecSync (annotateCommand a) (markdownContent a)).
  split; [now destruct err|].
  unfold buildAnnotation in B. destruct (eqb (trim raw) []); [discriminate|].
  destruct (annotationEntry (trim raw)) as [r|]; [|discriminate]. injection B as <-.
  exists (annotationStyle (r_speaker r) (r_hasError r)). eexists.
  split; [apply annotationStyle_styles | reflexivity].
Qed.

Lemma onLine_execs (a : arrival) (n : Z) :
  filter isExec (fst (onLine a n)) = []
  \/ exists e, filter isExec (fst (onLine a n)) = [e]
               /\ annotatedAs e (n + 1) /\ snd (onLine a n) = (n + 1)%Z.
Proof.
  destruct (isBlank a) eqn:E.
  - left. now rewrite onLine_blank.
  - apply eqb_neq in E. unfold onLine.
    destruct (parseLine_entry (text a) (elapsed a) n E) as (entry & -> & L & _).
    cbn [fst snd]. rewrite filter_app, L.
    rewrite (filter_none isLog isExec) by (try apply printSingleEntry_logs; now intros []).
    cbn [app].
    destruct (createBuildkiteAnnotation_execs (text a) (n + 1) (timestamp entry) (execError a))
      as [->|(e & -> & A)]; [now left|]. right. eauto.
Qed.

Lemma onLines_execs (input : list arrival) :
  forall n, exists ks,
    Forall2 annotatedAs (filter isExec (fst (onLines input n))) ks
    /\ StronglySorted Z.lt ks
    /\ Forall (fun k => (n < k <= snd (onLines input n))%Z) ks.
Proof.
  induction input as [|a rest IH]; intros n.
  - exists []. cbn. repeat constructor.
  - pose proof (onLine_execs a n) as X. pose proof (onLine_counter a n) as C.
    pose proof (onLines_counter rest (snd (onLine a n))) as R.
    cbn [onLines]. destruct (onLine a n) as [e1 n1]. cbn [fst snd] in *.
    destruct (IH n1) as (ks & F & S & B).
    destruct (onLines rest n1) as [e2 n2]. cbn [fst snd] in *.
    rewrite filter_app.
    assert (M : (n <= n1)%Z) by (destruct (isBlank a); lia).
    destruct X as [->|(e & -> & A & ->)].
    + exists ks. split; [exact F|]. split; [exact S|].
      eapply Forall_impl; [|exact B]. cbv beta. lia.
    + exists ((n + 1)%Z :: ks). split; [now constructor|]. split.
      * constructor; [exact S|]. eapply Forall_impl; [|exact B]. cbv beta. lia.
      * constructor; [lia|]. eapply Forall_impl; [|exact B]. cbv beta. lia.
Qed.

Lemma decN_inj (m n : N) : decN m = decN n -> m = n.
Proof.
  intros H. unfold decN in H.
  apply (f_equal (fun s => digitsValue 0 (map (fun c => (c - 48)%N) s))) in H.
  change (digitsValue 0 (uintDigits (N.to_uint m))
          = digitsValue 0 (uintDigits (N.to_uint n))) in H.
  now rewrite !digitsValue_of_uint, !DecimalN.Unsigned.of_to in H.
Qed.

Lemma contextOf_inj (j k : Z) :
  (0 <= j)%Z -> (0 <= k)%Z -> contextOf j = contextOf k -> j = k.
Proof.
  intros Hj Hk H. unfold contextOf in H. apply app_inv_head in H.
  destruct j as [|p|p], k as [|q|q]; try lia; cbn [decZ] in H;
    apply decN_inj in H; cbn in H; congruence.
Qed.

Lemma contexts_NoDup (ks : list Z) :
  StronglySorted Z.lt ks -> Forall (fun k => (0 <= k)%Z) ks ->
  NoDup (map contextOf ks).
Proof.
  induction 1 as [|k ks S IH L]; intros P; cbn [map]; constructor.
  - apply Forall_cons_iff in P as [Pk P]. intros I.
    apply in_map_iff in I as (j & E & I).
    rewrite Forall_forall in L, P. specialize (L j I). specialize (P j I).
    apply contextOf_inj in E; lia.
  - apply IH. now apply Forall_cons_iff in P.
Qed.

(** X21.  In a run that starts with the counter at 0, the external command
    is called with one of the four styles and with the contexts
    [chat-message-k] for strictly increasing ordinals [k], all between 1
    and the number of non-blank lines: no two annotations of a run share a
    context. *)
Theorem annotation_contexts_are_distinct (input : list arrival) :
  exists ks,
    Forall2 annotatedAs (filter isExec (fst (onLines input 0))) ks
    /\ StronglySorted Z.lt ks
    /\ Forall (fun k => (1 <= k <= Z.of_nat (length (filter nonBlank input)))%Z) ks
    /\ NoDup (map contextOf ks).
Proof.
  destruct (onLines_execs input 0) as (ks & F & S & B).
  rewrite onLines_counter in B.
  exists ks. split; [exact F|]. split; [exact S|]. split.
  - eapply Forall_impl; [|exact B]. cbv beta. lia.
  - apply contexts_NoDup; [exact S|]. eapply Forall_impl; [|exact B]. cbv beta. lia.
Qed.

(** ** The command line *)

Lemma parseArgs_ind_by_length (P : list jsstring -> Prop) :
  (forall args, (forall shorter, (length shorter < length args)%nat -> P shorter) -> P args) ->
  forall args, P args.
Proof.
  intros H args. remember (length args) as n eqn:E. revert args E.
  induction n as [n IH] using lt_wf_ind. intros args ->.
  apply H. intros shorter L. now apply (IH (length shorter)).
Qed.

(** What the argument loop returns: a rejection is one line of error, the
    usage and the exit; an output file is the argument after a [-o]; a
    source taken from the arguments is one of them. *)
Lemma parseArgs_cases (args : list jsstring) :
  forall outputFile inputSource,
    match parseArgs args outputFile inputSource with
    | inl effects => exists msg, effects = Log msg :: printUsage ++ [Exit 1]
    | inr (out, src) =>
        (out = outputFile
         \/ exists before after, args = before ++ lit "-o" :: out :: after)
        /\ (src = inputSource \/ In src args)
    end.
Proof.
  induction args as [args IH] using parseArgs_ind_by_length.
  intros o i. destruct args as [|arg rest]; [cbn; auto|].
  cbn [parseArgs]. destruct (eqb arg (lit "-o")) eqn:E1.
  { apply eqb_eq in E1. subst arg. destruct rest as [|filename rest']; [eauto|].
    specialize (IH rest' ltac:(simpl; lia) filename i).
    destruct (parseArgs rest' filename i) as [effects|[out src]]; [exact IH|].
    destruct IH as [[->|(b & a & ->)] S].
    - split; [right; now exists [], rest'|]. destruct S; [now left|right; simpl; auto].
    - split; [right; now exists (lit "-o" :: filename :: b), a|].
      destruct S; [now left|right; simpl; auto]. }
  destruct (eqb arg (lit "-")) eqn:E2.
  { apply eqb_eq in E2. subst arg.
    specialize (IH rest ltac:(simpl; lia) o (lit "-")).
    destruct (parseArgs rest o (lit "-")) as [effects|[out src]]; [exact IH|].
    destruct IH as [[->|(b & a & ->)] S].
    - split; [now left|]. destruct S as [->|S]; right; simpl; auto.
    - split; [right; now exists (lit "-" :: b), a|].
      destruct S as [->|S]; right; simpl; auto. }
  destruct (eqb i []) eqn:E3; [|eauto].
  specialize (IH rest ltac:(simpl; lia) o arg).
  destruct (parseArgs rest o arg) as [effects|[out src]]; [exact IH|].
  destruct IH as [[->|(b & a & ->)] S].
  - split; [now left|]. destruct S as [->|S]; right; simpl; auto.
  - split; [right; now exists (arg :: b), a|].
    destruct S as [->|S]; right; simpl; auto.
Qed.

Lemma main_cases (args : list jsstring) :
  (exists logs, forallb isLog logs = true
                /\ (forall input e w, main args input e w = logs ++ [Exit 1]))
  \/ (exists out,
        parseArgs args [] [] = inr (out, lit "-") /\ out <> []
        /\ forall input e w,
             main args input e w
             = transcriptHeader
                 ++ fst (parseAndStreamOutputWithFile input e out w 0)
                 ++ afterStream (snd (parseAndStreamOutputWithFile input e out w 0)))
  \/ (forall input e w,
        main args input e w
        = transcriptHeader ++ fst (parseAndStreamOutput input e 0)
            ++ afterStream (snd (parseAndStreamOutput input e 0))).
Proof.
  unfold main. destruct args as [|arg rest].
  { left. exists printUsage. split; reflexivity. }
  pose proof (parseArgs_cases (arg :: rest) [] []) as C.
  destruct (parseArgs (arg :: rest) [] []) as [effects|[out src]].
  { left. destruct C as [msg ->]. exists (Log msg :: printUsage). split; reflexivity. }
  destruct (eqb src []) eqn:S.
  { left. exists printUsage. split; reflexivity. }
  destruct (eqb out []) eqn:O; cbn [negb andb].
  { right; right. intros input e w. now destruct (parseAndStreamOutput input e 0). }
  destruct (eqb src (lit "-")) eqn:D; cbn [negb].
  - right; left. apply eqb_eq in D. subst src. apply eqb_neq in O.
    exists out. split; [reflexivity|]. split; [exact O|]. intros input e w.
    now destruct (parseAndStreamOutputWithFile input e out w 0).
  - left.
    exists [Log (lit "Error: -o option can only be used when streaming from stdin")].
    split; reflexivity.
Qed.

(** X22.  A command line is judged before anything is read.  Either it is
    rejected: whatever the stream holds, the process logs the same lines
    and exits with status 1, nothing else.  Or it is accepted: the header
    of the transcript is printed first, whatever the stream holds. *)
Theorem command_line_is_judged_before_the_stream (args : list jsstring) :
  (exists logs,
     forallb isLog logs = true
     /\ forall input e writeError, main args input e writeError = logs ++ [Exit 1])
  \/ (forall input e writeError,
        exists effects, main args input e writeError = transcriptHeader ++ effects).
Proof.
  destruct (main_cases args) as [L|[(out & _ & _ & R)|R]]; [now left|right..];
    intros input e w; rewrite R; eauto.
Qed.

Lemma In_filter_nil {A} (f : A -> bool) (x : A) (l : list A) :
  filter f l = [] -> f x = true -> ~ In x l.
Proof.
  intros E F I. assert (H : In x (filter f l)) by (apply filter_In; auto).
  now rewrite E in H.
Qed.

(** X23.  The process writes a file only where it was asked to: if a file
    is written, then its name is not empty and is the argument that
    follows a [-o], a dash is among the arguments, the stream was closed
    (it did not fail), and the data are the raw lines joined by line
    feeds, with one more line feed. *)
Theorem file_is_written_only_on_request
  (args : list jsstring) (input : list arrival) (e : ending)
  (writeError : option jsstring) (path data : jsstring) :
  In (WriteFileSync path data) (main args input e writeError) ->
  path <> [] /\ In (lit "-") args
  /\ (exists before after, args = before ++ lit "-o" :: path :: after)
  /\ e = Close
  /\ data = join nl (map text input) ++ nl.
Proof.
  intros H.
  destruct (main_cases args) as [(logs & G & L)|[(out & P & O & M)|M]].
  - exfalso. rewrite L in H. apply in_app_or in H as [H|[H|[]]]; [|discriminate].
    rewrite forallb_forall in G. now specialize (G _ H).
  - rewrite M in H. unfold parseAndStreamOutputWithFile in H.
    pose proof (parseArgs_cases args [] []) as C. rewrite P in C.
    destruct C as [[->|B] [S|S]]; try contradiction; try discriminate.
    assert (W : forall x, In x (fst (onLines input 0)) -> isWrite x = false).
    { intros x I. destruct (isWrite x) eqn:Wx; [|reflexivity]. exfalso.
      exact (In_filter_nil isWrite x _ (onLines_no_write input 0) Wx I). }
    apply in_app_or in H as [[H|[H|[]]]|H]; try discriminate.
    destruct e as [|err]; cbn [fst snd] in H.
    + apply in_app_or in H as [H|H].
      * apply in_app_or in H as [H|[H|[]]]; [now apply W in H|].
        injection H as <- <-. auto.
      * destruct writeError; simpl in H; intuition discriminate.
    + apply in_app_or in H as [H|H]; [now apply W in H|].
      simpl in H; intuition discriminate.
  - exfalso. rewrite M in H. unfold parseAndStreamOutput in H. cbn [fst snd] in H.
    apply in_app_or in H as [[H|[H|[]]]|H]; try discriminate.
    apply in_app_or in H as [H|H].
    + exact (In_filter_nil isWrite (WriteFileSync path data) _
               (onLines_no_write input 0) eq_refl H).
    + destruct e; simpl in H; intuition discriminate.
Qed.

Lemma file_is_written_only_on_request_witness :
  lit "log.jsonl" <> [] /\ In (lit "-") [lit "-o"; lit "log.jsonl"; lit "-"]
  /\ (exists before after,
        [lit "-o"; lit "log.jsonl"; lit "-"] = before ++ lit "-o" :: lit "log.jsonl" :: after)
  /\ Close = Close
  /\ lit "hello" ++ nl
     = join nl (map text [{| text := lit "hello"; elapsed := 0; execError := None |}]) ++ nl.
Proof.
  apply (file_is_written_only_on_request [lit "-o"; lit "log.jsonl"; lit "-"]
           [{| text := lit "hello"; elapsed := 0; execError := None |}] Close None).
  vm_compute. repeat (try (left; reflexivity); right).
Defined.

(** ** A dash after the other arguments *)

Lemma parseArgs_trailing_dash (args : list jsstring) :
  forall outputFile inputSource out src,
    parseArgs args outputFile inputSource = inr (out, src) ->
    parseArgs (args ++ [lit "-"]) outputFile inputSource = inr (out, lit "-").
Proof.
  induction args as [args IH] using parseArgs_ind_by_length.
  intros o i out src. destruct args as [|arg rest].
  - intros [= <- <-]. reflexivity.
  - cbn [parseArgs app]. destruct (eqb arg (lit "-o")).
    + destruct rest as [|filename rest']; [discriminate|]. cbn [app].
      apply IH. simpl. lia.
    + destruct (eqb arg (lit "-")); [apply IH; simpl; lia|].
      destruct (eqb i []); [apply IH; simpl; lia|discriminate].
Qed.

(** X24.  A dash after a command line the argument loop accepts makes the
    standard input the source, whatever source was named before, with no
    error: the process then runs as for [-] alone, or as for [- -o out]
    when an output file was named. *)
Theorem trailing_dash_overrides_the_source
  (args : list jsstring) (out src : jsstring)
  (input : list arrival) (e : ending) (writeError : option jsstring) :
  parseArgs args [] [] = inr (out, src) ->
  parseArgs (args ++ [lit "-"]) [] [] = inr (out, lit "-")
  /\ main (args ++ [lit "-"]) input e writeError
     = main (if eqb out [] then [lit "-"] else [lit "-"; lit "-o"; out])
         input e writeError.
Proof.
  intros P. pose proof (parseArgs_trailing_dash args [] [] out src P) as Q.
  split; [exact Q|]. unfold main. rewrite Q.
  destruct (args ++ [lit "-"]) as [|a l] eqn:A; [now destruct args|].
  change (eqb (lit "-") []) with false.
  change (eqb (lit "-") (lit "-")) with true. cbv iota. cbn [negb andb].
  rewrite andb_false_r.
  destruct (eqb out []) eqn:O.
  - reflexivity.
  - change (parseArgs [lit "-"; lit "-o"; out] [] []) with (@inr (list effect) _ (out, lit "-")).
    cbv iota beta.
    change (eqb (lit "-") []) with false.
    change (eqb (lit "-") (lit "-")) with true. cbv iota. cbn [negb andb].
    rewrite andb_false_r, O. reflexivity.
Qed.

Lemma trailing_dash_overrides_the_source_witness :
  parseArgs ([lit "in.jsonl"] ++ [lit "-"]) [] [] = inr ([], lit "-")
  /\ main ([lit "in.jsonl"] ++ [lit "-"]) [] Close None
     = main (if eqb [] [] then [lit "-"] else [lit "-"; lit "-o"; []]) [] Close None.
Proof.
  apply (trailing_dash_overrides_the_source [lit "in.jsonl"] [] (lit "in.jsonl")).
  reflexivity.
Defined.

(** ** The saved file read back *)

Lemma join_snoc_empty (sep : jsstring) (ls : list jsstring) :
  ls <> [] -> join sep (ls ++ [[]]) = join sep ls ++ sep.
Proof.
  induction ls as [|l ls IH]; [easy|]. intros _.
  destruct ls as [|l' ls].
  - simpl. now rewrite app_nil_r.
  - change (join sep ((l :: l' :: ls) ++ [[]]))
      with (l ++ sep ++ join sep ((l' :: ls) ++ [[]])).
    rewrite IH by discriminate.
    change (join sep (l :: l' :: ls)) with (l ++ sep ++ join sep (l' :: ls)).
    now rewrite <- !app_assoc.
Qed.

(** X25.  The saved file gives the lines back: for a stream that is not
    empty and whose lines hold no line feed, splitting the data at line
    feeds gives the lines received and one empty piece at the end.  The
    empty stream and the stream of one empty line are written as the same
    file, a single line feed. *)
Theorem saved_file_reads_back
  (input : list arrival) (outputFilename : jsstring) (writeError : option jsstring)
  (n : Z) :
  exists data,
    fst (parseAndStreamOutputWithFile input Close outputFilename writeError n)
    = fst (onLines input n) ++ [WriteFileSync outputFilename data]
    /\ (input <> [] -> Forall (fun a => ~ In 10%N (text a)) input ->
        split 10%N data = map text input ++ [[]])
    /\ (input = [] \/ map text input = [[]] -> data = nl).
Proof.
  exists (join nl (map text input) ++ nl). split; [reflexivity|]. split.
  - intros NE F.
    assert (NE' : map text input <> []) by (now destruct input).
    rewrite <- join_snoc_empty by assumption.
    apply (split_join 10%N).
    + now destruct (map text input).
    + apply Forall_app. split; [|repeat constructor; easy].
      apply Forall_map. exact F.
  - intros [-> | ->]; reflexivity.
Qed.

(** ** A time stamp read back *)

Lemma stampValue_twoDigits (n : Z) :
  (0 <= n < 100)%Z -> stampValue (twoDigits n) = Z.to_N n.
Proof.
  intros H. unfold stampValue, twoDigits, keyDigits. cbn [map digitsValue].
  zify. Z.to_euclidean_division_equations. lia.
Qed.

Lemma digitsValue_zeros (k : nat) (ds : list N) :
  digitsValue 0 (repeat 0%N k ++ ds) = digitsValue 0 ds.
Proof. induction k; simpl; auto. Qed.

Lemma stampValue_padStart (k : nat) (h : Z) :
  (0 <= h)%Z -> stampValue (padStart k 48%N (decZ h)) = Z.to_N h.
Proof.
  intros H. unfold stampValue, padStart, keyDigits.
  rewrite map_app, map_repeat. change (48 - 48)%N with 0%N.
  rewrite digitsValue_zeros.
  replace (decZ h) with (decN (Z.to_N h)) by (now destruct h).
  unfold decN. change (map _ (uintChars ?u)) with (uintDigits u).
  now rewrite digitsValue_of_uint, DecimalN.Unsigned.of_to.
Qed.

Lemma app_inj_suffix {A} (a c b d : list A) :
  length b = length d -> a ++ b = c ++ d -> a = c /\ b = d.
Proof.
  intros L. revert c. induction a as [|x a IH]; intros [|y c] E; simpl in E.
  - auto.
  - exfalso. apply (f_equal (@length _)) in E. simpl in E. rewrite length_app in E. lia.
  - exfalso. apply (f_equal (@length _)) in E. simpl in E. rewrite length_app in E. lia.
  - injection E as -> E. destruct (IH c E) as [-> ->]. auto.
Qed.

(** The stamp of a non-negative elapsed time, by its hours, minutes and
    seconds. *)
Lemma formatRelativeTime_parts (elapsedMs : Z) :
  (0 <= elapsedMs)%Z ->
  let ts := (elapsedMs / 1000)%Z in
  formatRelativeTime elapsedMs
  = (if (0 <? ts / 3600)%Z then padStart 2 48%N (decZ (ts / 3600)) ++ lit ":" else [])
      ++ (twoDigits (ts mod 3600 / 60) ++ lit ":" ++ twoDigits (ts mod 60)).
Proof.
  intros H ts.
  assert (Hts : (0 <= ts)%Z) by (apply Z.div_pos; lia).
  unfold formatRelativeTime. fold ts. rewrite !Z.rem_mod_nonneg by lia.
  rewrite (padStart_below_100 (ts mod 3600 / 60)), (padStart_below_100 (ts mod 60))
    by (Z.to_euclidean_division_equations; lia).
  destruct (0 <? ts / 3600)%Z; [|reflexivity]. now rewrite <- !app_assoc.
Qed.

(** X26.  For non-negative elapsed times, two time stamps are equal
    exactly when the elapsed times have the same whole seconds: the stamp
    can be read back. *)
Theorem time_stamp_determines_the_second (elapsed1 elapsed2 : Z) :
  (0 <= elapsed1)%Z -> (0 <= elapsed2)%Z ->
  (formatRelativeTime elapsed1 = formatRelativeTime elapsed2
   <-> (elapsed1 / 1000 = elapsed2 / 1000)%Z).
Proof.
  intros H1 H2. split.
  2:{ intros E. unfold formatRelativeTime. now rewrite E. }
  rewrite !formatRelativeTime_parts by assumption. cbv zeta.
  set (t1 := (elapsed1 / 1000)%Z). set (t2 := (elapsed2 / 1000)%Z).
  assert (T1 : (0 <= t1)%Z) by (apply Z.div_pos; lia).
  assert (T2 : (0 <= t2)%Z) by (apply Z.div_pos; lia).
  intros E. apply app_inj_suffix in E as [P E]; [|reflexivity].
  apply (app_inj_suffix (twoDigits _) (twoDigits _)) in E as [M S]; [|reflexivity].
  apply app_inv_head in S.
  apply (f_equal stampValue) in M, S.
  rewrite !stampValue_twoDigits in M, S by (Z.to_euclidean_division_equations; lia).
  assert (Hh : (t1 / 3600 = t2 / 3600)%Z).
  { destruct (Z.ltb_spec 0 (t1 / 3600)) as [A|A], (Z.ltb_spec 0 (t2 / 3600)) as [B|B].
    - apply app_inv_tail in P. apply (f_equal stampValue) in P.
      rewrite !stampValue_padStart in P by lia. lia.
    - exfalso. destruct (padStart 2 48%N (decZ (t1 / 3600))); discriminate.
    - exfalso. destruct (padStart 2 48%N (decZ (t2 / 3600))); discriminate.
    - Z.to_euclidean_division_equations; lia. }
  Z.to_euclidean_division_equations; lia.
Qed.

Lemma time_stamp_determines_the_second_witness :
  formatRelativeTime 61000 = formatRelativeTime 61999
  <-> (61000 / 1000 = 61999 / 1000)%Z.
Proof.
  apply (time_stamp_determines_the_second 61000 61999); lia.
Defined.
